(* ===== verification/_CoqProject ===== *)
-Q . S2P
Prelude.v
Mem.v
RdmaTransport.v
RdmaRamdisk.v
MockRdma.v
TargetSession.v
Backend.v
Bytes.v
SockIO.v
CtrlProto.v
NbdServer.v
UrmaMgr.v
UrmaQueue.v
UrmaInit.v
UrmaSys.v
CtrlServer.v
CtrlLoop.v
CtrlClient.v
Eid.v
NbdArgs.v
Numbers.v
Ledger.v
UrmaProvider.v
UrmaReal.v
Daemon.v
RamdiskCtl.v
KernelBlk.v
RdmaBlk.v
UrmaIo.v
UrmaIoSys.v
UrmaBlk.v
KernelRq.v
Sysfs.v
BusinessClient.v
