(* ===== verification/Prelude.v ===== *)
(** * ddr-direct-storage: a verification development

    ** The program

    The repository moves data between memory-backed disks and a remote device's
    memory without a copy through the host.  It has three independent parts.

    - The prototype of an NVMe-oF target ([src/], [include/]): a ramdisk that is
      allocated and registered as one memory region ([rdma_ramdisk.c]), a table
      of transport operations ([rdma_transport.h]) with an in-memory
      implementation ([mock_rdma.c]), and a session that turns host reads and
      writes into transfers to and from device C ([target_session.c]).
    - The NBD daemon ([userspace-nbd/]): a byte-addressed backend
      ([ramdisk_backend.c]) served to the kernel over the NBD protocol
      ([nbd_ramdisk.c]); a second path on which a manager ([ramdisk_urma.c])
      copies between the backend and the memory of connected peers through a
      bounded queue and a worker thread; a control server on a local socket
      ([ramdisk_ctrl_server.c]) and the client library that talks to it
      ([ramdisk_ctrl_client.c]), used by a command-line client ([ramdiskctl.c])
      and by an example of a business process
      ([examples/business_client_example.c]).
    - Two Linux block drivers: [kernel/rdma_blkdev.c] and
      [kernel-urma/urma_blkdev.c], the latter with a queue of direct I/O
      requests for an NVMe target.

    ** How the code is modelled

    Integers are [Z], wrapped where the C type can wrap ([u32], [u64], [s32]);
    the data model is little-endian LP64.  C memory is a heap of byte blocks
    ([Mem]); the monad [mem] gives [None] for undefined behaviour (an access
    outside a live block, a double free, a division by zero), so a theorem that
    an operation returns [Some] is a memory-safety theorem.  Return codes are
    the C codes, negative errno values on failure.  What the code does not
    contain is an argument: the result of an allocator, of a system call, of a
    kernel service, the schedule of short transfers and signals on a socket,
    and the contents of uninitialised memory.  Loops that are not structural
    take fuel, and the theorems say how much is enough.  Threads are transition
    systems whose steps are the critical sections of the code and the accesses
    between them.

    ** The files

    - [Prelude]: integers, errno values, buffers, tactics, hint databases.
    - [Mem]: byte memory, pointers, the memory monad, the C library routines.
    - [RdmaTransport]: the structs and the operations table of
      rdma_transport.h; the class [TransportLaws] states what a transport
      promises to its clients.
    - [RdmaRamdisk]: rdma_ramdisk.c over any table of operations: creation,
      destruction, range check, LBA mapping, fill and verify.
    - [MockRdma]: mock_rdma.c, all five operations; the instance of
      [TransportLaws].
    - [TargetSession]: target_session.c; the byte-level specification of a
      submission and its refinement; the round trip over any lawful transport.
    - [Backend]: ramdisk_backend.c with its lock, refined to an array of bytes.
    - [Bytes], [SockIO]: integers as bytes; [read_full] and [write_full] over
      arbitrary schedules.
    - [NbdServer]: nbd_protocol.h and the request loop of nbd_ramdisk.c,
      refined to a reference server; [NbdArgs]: its command line; [Daemon]: its
      [main], the set-up of the NBD device and the clean-up, composed of the
      backend, the manager, the control server and the request loop.
    - [CtrlProto], [CtrlServer], [CtrlLoop], [CtrlClient]: ramdisk_ctrl.h, the
      server with start and stop, the accept loop of its thread, and the client
      library; a call through the socket is proved to be the call of the
      manager's operation.
    - [RamdiskCtl]: ramdiskctl.c, the parser of vendor structs, and the client
      library against any server; [BusinessClient]: the example client, its
      endpoint and its session.
    - [Eid]: the two parsers of endpoint identifiers and the printer;
      [Numbers]: [strtoull] with a prefix, printed numbers and reading them back.
    - [UrmaMgr]: the definitions of ramdisk_urma.c as built without the vendor
      library (or run with the mock provider); [UrmaQueue]: its invariant, the
      ring queue, each operation on every branch; [UrmaInit]: what
      initialisation establishes; [UrmaSys]: the interleavings of callers and
      worker.
    - [Ledger]: acquired objects; [UrmaProvider]: the functions of ramdisk_urma.c
      that are built with HAVE_URMA, with the vendor library as the record
      [urma_lib] of its answers; [UrmaReal]: the manager's operations in that build.
    - [KernelBlk]: requests of the block layer, the ledger of kernel resources
      and the class [BlkLaws] of a driver that serves requests from a region;
      [RdmaBlk] and [UrmaBlk]: the two drivers, their resources, load and
      unload; [UrmaIo] and [UrmaIoSys]: the direct-I/O queue and its
      interleavings; [KernelRq]: the request path of both drivers; [Sysfs]: the
      attributes and the geometry both drivers report.

    ** What the theorems show

    - Refinement: a session's submissions ([submit_io_refines_spec]), the
      backend ([backend_refines_bytes]), the NBD server ([serve_nbd_refines])
      and a control call ([ctrl_rpc_transparent]) behave like short
      specifications on arrays of bytes and on the manager's operations, on
      success and on every error branch.
    - Exactness of machine arithmetic: each range check equals its reference
      over unbounded integers ([checked_io_range_exact], [validate_xfer_exact],
      [urma_map_io_exact], [parse_size_exact]).
    - Round trips: write then read through a session, through the kernel
      drivers with 512-byte blocks, printing and parsing of identifiers and
      numbers, the six commands of the command-line client ([ctl_roundtrip]) and
      the attributes of the URMA device ([urma_sysfs_readback]).  The parsers of
      identifiers are compared with a reference that has its own table of digits
      ([eid_parsers_exact]).
    - Types and invariants: accepted command lines give options in range
      ([parse_args_typed]); initialisation establishes the manager's invariant
      ([mgr_init_establishes]), which every operation keeps.
    - Safety against any peer: for arbitrary bytes, partial transfers and socket
      errors the NBD loop ([serve_nbd_safe]), the control server's thread
      ([ctrl_server_main_safe]) and the client library ([client_transact_safe])
      end without undefined behaviour.  Two conditions are part of the
      statements: the NBD stream holds no WRITE whose buffer is refused, and the
      worker of the manager writes its log message before the caller it answers
      returns; without them the code has undefined behaviour
      ([nbd_write_nomem_overflow], [log_race_undefined]).
    - Concurrency: under a stated discipline the queue of the manager and the
      direct-I/O queue keep their counters, serve first come first served,
      complete each request exactly once and lose none.
    - Resources: creation and destruction, start and stop, load and unload give
      back what they took, whatever step fails; so do the real provider over its
      whole life ([real_life_balanced]), the daemon as a whole
      ([daemon_restores]) and the example client ([business_client_balanced]).
      What the code leaks is named exactly in these statements: an endpoint list
      without an entry ([start_left], [biz_left]), the descriptor of a control
      socket with a long path ([daemon_left]), a DMA mapping at address 0
      ([rdma_load_unload]).
    - Composition: a transfer through client library, socket, server and manager
      ([client_transfer_end_to_end]); a request through the worker to the vendor
      library ([real_worker_exact]); both act on the start of the peer's segment,
      because the worker overwrites the remote address that was checked; the
      requests of the example client ([business_client_script]).
    - Where the code departs from its intent the theorem states what it does:
      the races of the manager's worker ([disable_race_undefined],
      [log_race_undefined], [wait_error_undefined]), truncated payloads that
      are carried out ([nbd_write_eof_stale], [ctrl_payload_eof_uses_junk]),
      the overflow after a failed realloc ([nbd_write_nomem_overflow]), socket
      paths of 108 bytes and more ([ctrl_server_long_path]), the failed thread
      start ([ctrl_server_thread_failure]), logical blocks above 512 bytes
      ([kernel_large_block_lost]), the request that is ended twice
      ([kernel_queue_rq_rejects]), leaked device references
      ([rdma_netdev_leaks]), unchecked lengths ([parse_peer_connect_bounds]),
      attributes of the RDMA device that dereference [NULL] ([rdma_sysfs_oops])
      and the geometry of a quarter of the disk ([getgeo_quarter]).

    ** Bounds and fuel

    [read_full] and [write_full] recurse on the schedule and the bytes left, so
    no bound is needed.  [serve_nbd] and [serve_client] are given more fuel than
    bytes in the input: every iteration consumes at least one byte or ends.  The
    worker drains one request per unit of fuel when the manager is destroyed.
    The work item of the direct-I/O queue takes seven steps per pending request
    and at most three more ([work_fuel]).  Queue depths of the direct-I/O queue
    are below 2^31, where the signed counters of the source do not wrap; the
    manager's depth is bounded by RAMDISK_URMA_MAX_QUEUE_DEPTH by the code.  Polling
    for a completion makes the number of rounds the code allows.  The accept loop
    recurses on the list of accepted connections.

    ** What is not modelled

    Logging and other printed output, and the test programs.  The vendor's
    library and the kernel's services are parameters.  The ring of the manager is
    a list in its record, present or absent, and not a block of the heap, so its
    release is seen as the field's being reset.  Locking an initialised default
    mutex does not fail.  The control structs travel as they lie in memory:
    [CtrlProto] says which bytes those are, on the stated data model.  The daemon's signal
    handler is the stop flag, an arbitrary function of the iteration; its thread
    in NBD_DO_IT runs inside the kernel and is a thread that ends when the socket
    is cleared.  In [Daemon] the control thread's operations on the manager are
    placed where the thread starts, and their interleaving with transfers is the
    subject of [UrmaSys].  The order in which the kernel runs a work item and the
    submitters is arbitrary in [UrmaIoSys]; memory ordering below the level of
    the code's locks and atomic operations is sequentially consistent. *)

From Stdlib Require Export ZArith Lia ZifyBool.
From stdpp Require Export base numbers list option gmap strings.

#[global] Open Scope Z_scope.
#[global] Close Scope string_scope.
#[global] Open Scope list_scope.

(** ** Machine integers

    A [w]-bit unsigned integer is a [Z]; every operation of the source that can
    leave the range is wrapped explicitly with the functions below. *)

Definition wrap (w v : Z) : Z := v mod 2 ^ w.

Definition u8 (v : Z) : Z := wrap 8 v.

Definition u16 (v : Z) : Z := wrap 16 v.

Definition u32 (v : Z) : Z := wrap 32 v.

Definition u64 (v : Z) : Z := wrap 64 v.

Definition s32 (v : Z) : Z :=
  let r := wrap 32 v in if r <? 2 ^ 31 then r else r - 2 ^ 32.

Definition UINT32_MAX : Z := 2 ^ 32 - 1.

Definition UINT64_MAX : Z := 2 ^ 64 - 1.

(** The development fixes the LP64 data model: [size_t] has 64 bits. *)
Definition SIZE_MAX : Z := UINT64_MAX.

Definition is_u64_b (v : Z) : bool := (0 <=? v) && (v <? 2 ^ 64).

Definition is_u8 (v : Z) : Prop := 0 <= v < 2 ^ 8.

Definition is_u16 (v : Z) : Prop := 0 <= v < 2 ^ 16.

Definition is_u32 (v : Z) : Prop := 0 <= v < 2 ^ 32.

Definition is_u64 (v : Z) : Prop := 0 <= v < 2 ^ 64.

(** ** Linux errno values used by the sources *)

Definition ENOENT : Z := 2.
Definition EINTR : Z := 4.
Definition EIO : Z := 5.
Definition ENOMEM : Z := 12.
Definition EBUSY : Z := 16.
Definition EEXIST : Z := 17.
Definition ENODEV : Z := 19.
Definition EINVAL : Z := 22.
Definition ENOSPC : Z := 28.
Definition EPIPE : Z := 32.
Definition ERANGE : Z := 34.
Definition ENAMETOOLONG : Z := 36.
Definition ENOSYS : Z := 38.
Definition EPROTO : Z := 71.
Definition EOVERFLOW : Z := 75.
Definition EOPNOTSUPP : Z := 95.
Definition ESHUTDOWN : Z := 108.
Definition ETIMEDOUT : Z := 110.

(** ** Results of fallible operations: the value, or the C return code *)

Inductive res (A : Type) : Type :=
| Ok (a : A)
| Err (rc : Z).
Arguments Ok {A} a.
Arguments Err {A} rc.

#[export] Instance res_eq_dec `{EqDecision A} : EqDecision (res A).
Proof. solve_decision. Defined.

(** ** Byte buffers *)

Section Buffers.
Context {A : Type}.
Implicit Types (l d : list A) (off len : Z).

(** [slice off len l]: the [len] elements from offset [off]. *)
Definition slice off len l : list A :=
  take (Z.to_nat len) (drop (Z.to_nat off) l).

(** [splice off d l]: [l] with [d] written at offset [off]. *)
Definition splice off d l : list A :=
  take (Z.to_nat off) l ++ d ++ drop (Z.to_nat off + length d) l.

Definition zlength l : Z := Z.of_nat (length l).

Lemma zlength_nonneg l : 0 <= zlength l.
Proof. unfold zlength; lia. Qed.

Lemma zlength_app l d : zlength (l ++ d) = zlength l + zlength d.
Proof. unfold zlength; rewrite length_app; lia. Qed.

Lemma zlength_replicate n (x : A) : 0 <= n -> zlength (replicate (Z.to_nat n) x) = n.
Proof. unfold zlength; rewrite length_replicate; lia. Qed.

Lemma length_slice off len l :
  0 <= off -> 0 <= len -> off + len <= zlength l ->
  length (slice off len l) = Z.to_nat len.
Proof. unfold slice, zlength; intros; rewrite length_take, length_drop; lia. Qed.

Lemma zlength_slice off len l :
  0 <= off -> 0 <= len -> off + len <= zlength l ->
  zlength (slice off len l) = len.
Proof. intros; unfold zlength at 1; rewrite length_slice; lia. Qed.

Lemma length_splice off d l :
  0 <= off -> off + zlength d <= zlength l ->
  length (splice off d l) = length l.
Proof.
  unfold splice, zlength; intros.
  rewrite !length_app, length_take, length_drop; lia.
Qed.

Lemma zlength_splice off d l :
  0 <= off -> off + zlength d <= zlength l ->
  zlength (splice off d l) = zlength l.
Proof. intros; unfold zlength; rewrite length_splice; auto. Qed.

Lemma lookup_slice off len l (i : nat) :
  (i < Z.to_nat len)%nat -> slice off len l !! i = l !! (Z.to_nat off + i)%nat.
Proof. intros; unfold slice; rewrite lookup_take_lt, lookup_drop; auto. Qed.

Lemma lookup_splice_in off d l (i : nat) :
  0 <= off -> off + zlength d <= zlength l ->
  (Z.to_nat off <= i < Z.to_nat off + length d)%nat ->
  splice off d l !! i = d !! (i - Z.to_nat off)%nat.
Proof.
  unfold splice, zlength; intros.
  rewrite lookup_app_r by (rewrite length_take; lia).
  rewrite length_take, lookup_app_l by lia. f_equal; lia.
Qed.

Lemma lookup_splice_out off d l (i : nat) :
  0 <= off -> off + zlength d <= zlength l ->
  ((i < Z.to_nat off) \/ (Z.to_nat off + length d <= i))%nat ->
  splice off d l !! i = l !! i.
Proof.
  unfold splice, zlength; intros ? ? [|].
  - rewrite lookup_app_l, lookup_take_lt by (rewrite ?length_take; lia); auto.
  - rewrite lookup_app_r by (rewrite length_take; lia).
    rewrite length_take, lookup_app_r by lia.
    rewrite lookup_drop. f_equal; lia.
Qed.

(** Reading back what was just written. *)
Lemma slice_splice_same off d l :
  0 <= off -> off + zlength d <= zlength l ->
  slice off (zlength d) (splice off d l) = d.
Proof.
  unfold slice, splice, zlength; intros.
  rewrite drop_app_length' by (rewrite length_take; lia).
  rewrite take_app_length'; auto; lia.
Qed.

Lemma slice_splice_eq off len d l :
  zlength d = len -> 0 <= off -> off + len <= zlength l ->
  slice off len (splice off d l) = d.
Proof. intros <- ? ?; apply slice_splice_same; auto. Qed.

(** A write leaves every range it does not touch unchanged. *)
Lemma slice_splice_disjoint off1 len off2 d l :
  0 <= off1 -> 0 <= len -> 0 <= off2 -> off2 + zlength d <= zlength l ->
  off1 + len <= off2 \/ off2 + zlength d <= off1 ->
  slice off1 len (splice off2 d l) = slice off1 len l.
Proof.
  intros ? ? ? ? Hd. apply list_eq; intros i.
  destruct (decide (i < Z.to_nat len)%nat) as [Hi|Hi].
  - rewrite !lookup_slice by auto. apply lookup_splice_out; auto.
    unfold zlength in *; lia.
  - unfold slice; rewrite !lookup_take_ge by lia; auto.
Qed.

(** Writing back what is already there changes nothing. *)
Lemma splice_slice_same off len l :
  0 <= off -> 0 <= len -> off + len <= zlength l ->
  splice off (slice off len l) l = l.
Proof.
  intros ? ? Hb. unfold splice.
  rewrite (length_slice off len l) by auto. unfold slice.
  rewrite <- drop_drop, take_drop, take_drop. auto.
Qed.

Lemma slice_all l : slice 0 (zlength l) l = l.
Proof. unfold slice, zlength; cbn; rewrite Nat2Z.id, drop_0, take_ge; auto. Qed.

Lemma slice_nil off l : slice off 0 l = [].
Proof. unfold slice; change (Z.to_nat 0) with 0%nat; apply take_0. Qed.

Lemma splice_nil off l : splice off [] l = l.
Proof. unfold splice; cbn; rewrite Nat.add_0_r; apply take_drop. Qed.

(** Adjacent ranges: a range read in two pieces. *)
Lemma slice_app off len1 len2 l :
  0 <= off -> 0 <= len1 -> 0 <= len2 ->
  slice off (len1 + len2) l = slice off len1 l ++ slice (off + len1) len2 l.
Proof.
  intros. unfold slice.
  replace (Z.to_nat (len1 + len2)) with (Z.to_nat len1 + Z.to_nat len2)%nat by lia.
  replace (Z.to_nat (off + len1)) with (Z.to_nat off + Z.to_nat len1)%nat by lia.
  rewrite <- take_take_drop, drop_drop. auto.
Qed.

(** Adjacent writes: one write of a concatenation is two writes. *)
Lemma splice_app off d1 d2 l :
  0 <= off -> off + zlength d1 + zlength d2 <= zlength l ->
  splice off (d1 ++ d2) l = splice (off + zlength d1) d2 (splice off d1 l).
Proof.
  intros Ho Hb. pose proof (zlength_nonneg d1). pose proof (zlength_nonneg d2).
  assert (Hl : length (splice off d1 l) = length l) by (apply length_splice; lia).
  apply list_eq; intros i. unfold zlength in *.
  destruct (decide (Z.to_nat off <= i < Z.to_nat off + length d1)%nat).
  { rewrite lookup_splice_in by (unfold zlength; rewrite ?length_app; lia).
    rewrite lookup_app_l by lia.
    rewrite lookup_splice_out by (unfold zlength; lia).
    rewrite lookup_splice_in by (unfold zlength; lia). auto. }
  destruct (decide (Z.to_nat off + length d1 <= i < Z.to_nat off + length d1 + length d2)%nat).
  { rewrite lookup_splice_in by (unfold zlength; rewrite ?length_app; lia).
    rewrite lookup_app_r by lia.
    rewrite lookup_splice_in by (unfold zlength; lia). f_equal; lia. }
  rewrite lookup_splice_out by (unfold zlength; rewrite ?length_app; lia).
  rewrite lookup_splice_out by (unfold zlength; lia).
  rewrite lookup_splice_out by (unfold zlength; lia). auto.
Qed.

(** A range within a range. *)
Lemma slice_slice off1 len1 off2 len2 l :
  0 <= off1 -> 0 <= off2 -> 0 <= len2 -> off2 + len2 <= len1 ->
  slice off2 len2 (slice off1 len1 l) = slice (off1 + off2) len2 l.
Proof.
  intros. apply list_eq; intros i.
  destruct (decide (i < Z.to_nat len2)%nat).
  - rewrite !lookup_slice by lia. f_equal; lia.
  - unfold slice; rewrite !(lookup_take_ge _ (Z.to_nat len2)) by lia; auto.
Qed.

(** A write inside a range, seen through that range. *)
Lemma slice_splice_inner off1 len off2 d l :
  0 <= off1 -> 0 <= off2 -> off2 + zlength d <= len -> off1 + len <= zlength l ->
  slice off1 len (splice (off1 + off2) d l) = splice off2 d (slice off1 len l).
Proof.
  intros Ho1 Ho2 Hd Hl. pose proof (zlength_nonneg d).
  assert (Hs : zlength (slice off1 len l) = len) by (apply zlength_slice; lia).
  apply list_eq; intros i. unfold zlength in *.
  destruct (decide (i < Z.to_nat len)%nat) as [Hi|Hi].
  - rewrite lookup_slice by auto.
    destruct (decide (Z.to_nat off2 <= i < Z.to_nat off2 + length d)%nat).
    + rewrite !lookup_splice_in by (unfold zlength; lia). f_equal; lia.
    + rewrite !lookup_splice_out by (unfold zlength; lia).
      rewrite lookup_slice by auto. auto.
  - rewrite !lookup_ge_None_2; auto; rewrite ?length_splice by (unfold zlength; lia); try lia.
    unfold slice. rewrite length_take. lia.
Qed.

End Buffers.

Lemma Forall_splice {A} (P : A -> Prop) off d l :
  Forall P d -> Forall P l -> Forall P (splice off d l).
Proof. intros; unfold splice; auto using Forall_app_2, Forall_take, Forall_drop. Qed.

Lemma Forall_slice {A} (P : A -> Prop) off len l :
  Forall P l -> Forall P (slice off len l).
Proof. intros; unfold slice; auto using Forall_take, Forall_drop. Qed.

(** ** Automation *)

Create HintDb ddr.
Create Rewrite HintDb buf.
#[export] Hint Resolve zlength_nonneg Forall_splice Forall_slice : ddr.
#[export] Hint Rewrite @length_app @length_take @length_drop @length_replicate
  @zlength_app @slice_nil @splice_nil : buf.

(** Unfold the machine-integer bounds and call [lia]. *)
Ltac int_lia :=
  unfold is_u8, is_u16, is_u32, is_u64, SIZE_MAX, UINT32_MAX, UINT64_MAX in *; lia.

(** Case analysis on the guard of the next [if] of the goal. *)
Ltac case_if :=
  match goal with
  | |- context [if ?b then _ else _] =>
      lazymatch type of b with bool => destruct b eqn:? end
  end.

Ltac case_if_in H :=
  match type of H with
  | context [if ?b then _ else _] =>
      lazymatch type of b with bool => destruct b eqn:? end
  end.

Lemma wrap_small w v : 0 <= v < 2 ^ w -> wrap w v = v.
Proof. intros; unfold wrap; rewrite Z.mod_small; auto. Qed.

Lemma wrap_bound w v : 0 <= w -> 0 <= wrap w v < 2 ^ w.
Proof. intros; unfold wrap; apply Z.mod_pos_bound; lia. Qed.

Lemma u64_small v : is_u64 v -> u64 v = v.
Proof. apply wrap_small. Qed.

Lemma u32_small v : is_u32 v -> u32 v = v.
Proof. apply wrap_small. Qed.

Lemma u32_u64 v : is_u32 v -> is_u64 v.
Proof. unfold is_u32, is_u64. lia. Qed.

Lemma u64_bound v : is_u64 (u64 v).
Proof. apply wrap_bound; lia. Qed.

Lemma u32_bound v : is_u32 (u32 v).
Proof. apply wrap_bound; lia. Qed.

#[export] Hint Resolve u64_bound u32_bound : ddr.
