(* ===== verification/Mem.v ===== *)
(** * Byte memory of the C programs

    Heap blocks, pointers and the library routines the sources call on them
    ([memcpy], [memset], [free], the allocators).  An access outside a live
    block is undefined behaviour; the memory monad [mem] reports it as [None],
    so a theorem that an operation returns [Some _] is a memory-safety
    theorem. *)

From S2P Require Import Prelude.

(** A pointer is [NULL] or an offset into a block. *)
Inductive ptr : Type :=
| Null
| Ptr (blk : Z) (off : Z).

#[export] Instance ptr_eq_dec : EqDecision ptr.
Proof. solve_decision. Defined.

Definition is_null (p : ptr) : bool :=
  match p with Null => true | Ptr _ _ => false end.

(** Pointer arithmetic on [char *]. *)
Definition padd (p : ptr) (n : Z) : ptr :=
  match p with Null => Null | Ptr b o => Ptr b (o + n) end.

(** Live blocks; [h_next] is above every identifier handed out, so a freed
    block is never given out again and a dangling pointer stays invalid. *)
Record heap : Type := mkHeap {
  h_next : Z;
  h_blocks : gmap Z (list Z)
}.

(** Identifiers are below [h_next] and every cell holds a byte. *)
Definition heap_wf (h : heap) : Prop :=
  forall b bs, h_blocks h !! b = Some bs -> b < h_next h /\ Forall is_u8 bs.

Definition heap_empty : heap := {| h_next := 1; h_blocks := ∅ |}.

(** ** Accesses *)

Definition in_block (bs : list Z) (off len : Z) : bool :=
  (0 <=? off) && (0 <=? len) && (off + len <=? zlength bs).

(** The heap with the contents of block [b] replaced. *)
Definition hset (b : Z) (bs : list Z) (h : heap) : heap :=
  {| h_next := h_next h; h_blocks := <[b := bs]> (h_blocks h) |}.

Definition hdel (b : Z) (h : heap) : heap :=
  {| h_next := h_next h; h_blocks := delete b (h_blocks h) |}.

Definition load (p : ptr) (len : Z) (h : heap) : option (list Z) :=
  match p with
  | Null => None
  | Ptr b o =>
      bs ← h_blocks h !! b;
      if in_block bs o len then Some (slice o len bs) else None
  end.

Definition store (p : ptr) (d : list Z) (h : heap) : option heap :=
  match p with
  | Null => None
  | Ptr b o =>
      bs ← h_blocks h !! b;
      if in_block bs o (zlength d)
      then Some (hset b (splice o d bs) h)
      else None
  end.

Definition halloc (d : list Z) (h : heap) : ptr * heap :=
  (Ptr (h_next h) 0,
   {| h_next := h_next h + 1; h_blocks := <[h_next h := d]> (h_blocks h) |}).

(** ** The memory monad *)

Definition mem (A : Type) : Type := heap -> option (A * heap).

#[export] Instance mem_ret : MRet mem := fun A a h => Some (a, h).

#[export] Instance mem_bind : MBind mem := fun A B f m h =>
  match m h with
  | Some (a, h') => f a h'
  | None => None
  end.

(** Undefined behaviour. *)
Definition ub {A} : mem A := fun _ => None.

Definition lift {A} (o : option A) : mem A := fun h =>
  match o with Some a => Some (a, h) | None => None end.

(** ** The C library routines *)

Definition memcpy (dst src : ptr) (len : Z) : mem unit := fun h =>
  match load src len h with
  | Some d => match store dst d h with Some h' => Some (tt, h') | None => None end
  | None => None
  end.

Definition memset (dst : ptr) (v len : Z) : mem unit := fun h =>
  if len <? 0 then None else
  match store dst (replicate (Z.to_nat len) (u8 v)) h with
  | Some h' => Some (tt, h')
  | None => None
  end.

Definition load_bytes (p : ptr) (len : Z) : mem (list Z) := fun h =>
  match load p len h with Some d => Some (d, h) | None => None end.

Definition store_bytes (p : ptr) (d : list Z) : mem unit := fun h =>
  match store p d h with Some h' => Some (tt, h') | None => None end.

(** Allocation of [len] bytes, each holding the indeterminate value [junk]. *)
Definition malloc (junk len : Z) : mem ptr := fun h =>
  Some (halloc (replicate (Z.to_nat len) junk) h).

(** [calloc]: zero-filled, or [NULL] when [ok] is false. *)
Definition calloc (ok : bool) (len : Z) : mem ptr := fun h =>
  if ok then Some (halloc (replicate (Z.to_nat len) 0) h) else Some (Null, h).

(** [free]: nothing for [NULL]; otherwise the start of a live block. *)
Definition free (p : ptr) : mem unit := fun h =>
  match p with
  | Null => Some (tt, h)
  | Ptr b o =>
      match h_blocks h !! b with
      | Some _ =>
          if o =? 0
          then Some (tt, hdel b h)
          else None
      | None => None
      end
  end.

(** Unsigned division: division by zero is undefined. *)
Definition udiv (a b : Z) : mem Z := if b =? 0 then ub else mret (a / b).

Definition umod (a b : Z) : mem Z := if b =? 0 then ub else mret (a mod b).

(** ** Lemmas *)

Lemma in_block_true bs o len :
  0 <= o -> 0 <= len -> o + len <= zlength bs -> in_block bs o len = true.
Proof. unfold in_block; lia. Qed.

Lemma load_ok h b bs o len :
  h_blocks h !! b = Some bs -> 0 <= o -> 0 <= len -> o + len <= zlength bs ->
  load (Ptr b o) len h = Some (slice o len bs).
Proof. intros Hb ???; cbn; rewrite Hb; cbn; rewrite in_block_true; auto. Qed.

Lemma store_ok h b bs o d :
  h_blocks h !! b = Some bs -> 0 <= o -> o + zlength d <= zlength bs ->
  store (Ptr b o) d h = Some (hset b (splice o d bs) h).
Proof.
  intros Hb ??; cbn; rewrite Hb; cbn; rewrite in_block_true; auto with ddr.
Qed.

Lemma memcpy_ok h b bs o b' bs' o' len :
  h_blocks h !! b' = Some bs' -> 0 <= o' -> 0 <= len -> o' + len <= zlength bs' ->
  h_blocks h !! b = Some bs -> 0 <= o -> o + len <= zlength bs ->
  memcpy (Ptr b o) (Ptr b' o') len h
  = Some (tt, hset b (splice o (slice o' len bs') bs) h).
Proof.
  intros. unfold memcpy. erewrite load_ok by eauto.
  erewrite store_ok; eauto. rewrite zlength_slice; auto.
Qed.

Lemma memset_ok h b bs o v len :
  h_blocks h !! b = Some bs -> 0 <= o -> 0 <= len -> o + len <= zlength bs ->
  memset (Ptr b o) v len h
  = Some (tt, hset b (splice o (replicate (Z.to_nat len) (u8 v)) bs) h).
Proof.
  intros. unfold memset. destruct (Z.ltb_spec len 0); [lia|].
  erewrite store_ok; eauto. rewrite zlength_replicate; auto.
Qed.

Lemma load_bytes_ok h b bs o len :
  h_blocks h !! b = Some bs -> 0 <= o -> 0 <= len -> o + len <= zlength bs ->
  load_bytes (Ptr b o) len h = Some (slice o len bs, h).
Proof. intros; unfold load_bytes; erewrite load_ok; eauto. Qed.

Lemma store_bytes_ok h b bs o d :
  h_blocks h !! b = Some bs -> 0 <= o -> o + zlength d <= zlength bs ->
  store_bytes (Ptr b o) d h = Some (tt, hset b (splice o d bs) h).
Proof. intros; unfold store_bytes; erewrite store_ok; eauto. Qed.

Lemma free_ok h b bs :
  h_blocks h !! b = Some bs -> free (Ptr b 0) h = Some (tt, hdel b h).
Proof. intros Hb; cbn; rewrite Hb; auto. Qed.

(** Writing a whole block with a constant. *)
Lemma splice_whole (d l : list Z) : length d = length l -> splice 0 d l = d.
Proof.
  intros E. unfold splice. change (Z.to_nat 0) with 0%nat.
  rewrite take_0, Nat.add_0_l, E, drop_all, app_nil_r. auto.
Qed.

Lemma hset_lookup h b bs : h_blocks (hset b bs h) !! b = Some bs.
Proof. cbn; apply lookup_insert_eq. Qed.

Lemma hset_lookup_ne h b b' bs :
  b <> b' -> h_blocks (hset b bs h) !! b' = h_blocks h !! b'.
Proof. cbn; apply lookup_insert_ne. Qed.

Lemma hset_hset h b bs bs' : hset b bs (hset b bs' h) = hset b bs h.
Proof. unfold hset; cbn. rewrite insert_insert_eq; auto. Qed.

Lemma hset_id h b bs : h_blocks h !! b = Some bs -> hset b bs h = h.
Proof. intros; unfold hset; rewrite insert_id by auto; destruct h; auto. Qed.

Lemma heap_wf_fresh h : heap_wf h -> h_blocks h !! h_next h = None.
Proof.
  intros Hw. destruct (h_blocks h !! h_next h) eqn:E; auto.
  apply Hw in E as [? _]; lia.
Qed.

Lemma heap_wf_hset h b bs bs' :
  heap_wf h -> h_blocks h !! b = Some bs -> Forall is_u8 bs' -> heap_wf (hset b bs' h).
Proof.
  intros Hw Hb Ht b' x. cbn. rewrite lookup_insert. case_decide; [|apply Hw].
  intros [= <-]. subst. apply Hw in Hb as [? _]. auto.
Qed.

Lemma heap_wf_hdel h b : heap_wf h -> heap_wf (hdel b h).
Proof. intros Hw b' x. cbn. rewrite lookup_delete_Some. intros [_ ?]; auto. Qed.

Lemma heap_wf_halloc h d p h' :
  heap_wf h -> Forall is_u8 d -> halloc d h = (p, h') -> heap_wf h'.
Proof.
  unfold halloc; intros Hw Hd [= <- <-] b x. cbn. rewrite lookup_insert.
  case_decide; [intros [= <-]; split; auto; lia|].
  intros Hx; apply Hw in Hx as [? ?]; split; auto; lia.
Qed.

Lemma heap_empty_wf : heap_wf heap_empty.
Proof. intros b bs; cbn. rewrite lookup_empty. discriminate. Qed.

Lemma heap_wf_bytes h b bs : heap_wf h -> h_blocks h !! b = Some bs -> Forall is_u8 bs.
Proof. intros Hw Hb; apply Hw in Hb; tauto. Qed.

Lemma u8_is_u8 v : is_u8 (u8 v).
Proof. apply wrap_bound; lia. Qed.

Lemma Forall_u8_replicate n v : is_u8 v -> Forall is_u8 (replicate n v).
Proof. apply Forall_replicate. Qed.

#[export] Hint Resolve heap_wf_hset heap_wf_hdel heap_wf_bytes heap_empty_wf
  u8_is_u8 Forall_u8_replicate : ddr.
#[export] Hint Rewrite hset_lookup hset_hset : buf.

(** ** Automation for monadic code

    [mstep] exposes the next effect of a monadic program applied to a heap. *)

Lemma mem_bind_eq {A B} (m : mem A) (f : A -> mem B) (h : heap) :
  (m ≫= f) h = match m h with Some (a, h') => f a h' | None => None end.
Proof. reflexivity. Qed.

Lemma mem_ret_eq {A} (a : A) (h : heap) : (mret a : mem A) h = Some (a, h).
Proof. reflexivity. Qed.

Lemma mem_lift_eq {A} (a : A) (h : heap) : lift (Some a) h = Some (a, h).
Proof. reflexivity. Qed.

Ltac mstep :=
  repeat (progress (rewrite ?mem_bind_eq, ?mem_ret_eq, ?mem_lift_eq; cbn beta iota)).

(** ** Reallocation *)

(** [realloc]: the old contents are kept, the new bytes are indeterminate. *)
Definition realloc (junk : Z) (p : ptr) (len : Z) : mem ptr := fun h =>
  match p with
  | Null => Some (halloc (replicate (Z.to_nat len) junk) h)
  | Ptr b o =>
      match h_blocks h !! b with
      | Some old =>
          if o =? 0
          then Some (halloc (take (Z.to_nat len) old
                             ++ replicate (Z.to_nat len - length old) junk) (hdel b h))
          else None
      | None => None
      end
  end.

(** Every live identifier is below the next one. *)
Definition heap_fresh (h : heap) : Prop :=
  forall b bs, h_blocks h !! b = Some bs -> b < h_next h.

Lemma heap_wf_heap_fresh h : heap_wf h -> heap_fresh h.
Proof. intros Hw b bs Hb; apply Hw in Hb; tauto. Qed.

Lemma heap_fresh_hset h b bs bs' :
  heap_fresh h -> h_blocks h !! b = Some bs -> heap_fresh (hset b bs' h).
Proof.
  intros Hw Hb b' x. cbn. rewrite lookup_insert. case_decide; [|apply Hw].
  intros _. subst. eauto.
Qed.

Lemma heap_fresh_hdel h b : heap_fresh h -> heap_fresh (hdel b h).
Proof. intros Hw b' x. cbn. rewrite lookup_delete_Some. intros [_ ?]; eauto. Qed.

Lemma heap_fresh_halloc h d : heap_fresh h -> heap_fresh (snd (halloc d h)).
Proof.
  intros Hw b x. cbn. rewrite lookup_insert. case_decide; [intros; lia|].
  intros Hx; apply Hw in Hx; lia.
Qed.

#[export] Hint Resolve heap_fresh_hset heap_fresh_hdel heap_fresh_halloc : ddr.
