(* ===== verification/RdmaTransport.v ===== *)
(** * The RDMA transport interface (include/rdma_transport.h)

    The structs of the header, the table of function pointers
    [rdma_transport_ops] and, as a class, what a transport promises to its
    clients.  [T] is the state behind the opaque [void *ctx]; a pointer
    argument that an implementation compares with [NULL] is an [option]. *)

From S2P Require Import Prelude.
From S2P Require Import Mem.

(** enum rdma_transfer_direction; an argument of that type is any C int. *)
Definition RDMA_TRANSFER_WRITE_TO_REMOTE : Z := 1.

Definition RDMA_TRANSFER_READ_FROM_REMOTE : Z := 2.

Record rdma_registered_mr : Type := mk_mr {
  mr_addr : ptr;
  mr_length : Z;
  mr_iova : Z;
  mr_lkey : Z
}.

Definition mr_zero : rdma_registered_mr :=
  {| mr_addr := Null; mr_length := 0; mr_iova := 0; mr_lkey := 0 |}.

Record rdma_remote_region : Type := mk_remote {
  rr_addr : Z;
  rr_rkey : Z;
  rr_length : Z
}.

Record rdma_local_sge : Type := mk_sge {
  sge_addr : Z;
  sge_lkey : Z;
  sge_length : Z
}.

(** The table of function pointers, each of which may be [NULL]. *)
Record rdma_transport_ops (T : Type) : Type := mk_ops {
  op_connect : option (T -> option string -> mem (Z * T));
  op_disconnect : option (T -> mem T);
  op_register_mr : option (T -> ptr -> Z -> option rdma_registered_mr ->
                           mem (Z * option rdma_registered_mr * T));
  op_deregister_mr : option (T -> option rdma_registered_mr ->
                             mem (option rdma_registered_mr * T));
  op_submit : option (T -> Z -> option rdma_local_sge -> option rdma_remote_region ->
                      mem (Z * T))
}.
Arguments op_connect {T} _.
Arguments op_disconnect {T} _.
Arguments op_register_mr {T} _.
Arguments op_deregister_mr {T} _.
Arguments op_submit {T} _.
Arguments mk_ops {T} _ _ _ _ _.

(** ** What a transport promises

    A transport has a connection flag, at most one registered region and a
    remote memory (the memory of device C).  [tr_sep t b]: block [b] of the
    local heap does not hold the remote memory. *)

Class TransportView (T : Type) := {
  tr_valid : T -> Prop;
  tr_connected : T -> bool;
  tr_registered : T -> option rdma_registered_mr;
  tr_remote : T -> heap -> option (list Z);
  tr_sep : T -> Z -> Prop
}.

(** [sge] names the bytes [off, off + len) of the registered region [mr]. *)
Definition sge_in (mr : rdma_registered_mr) (sge : rdma_local_sge) (off len : Z) : Prop :=
  sge_lkey sge = mr_lkey mr /\ sge_addr sge = mr_iova mr + off /\
  sge_length sge = len /\ 0 <= off /\ 0 <= len /\ off + len <= mr_length mr.

(** [region] names the bytes [off, off + len) of a remote memory [rm]. *)
Definition region_in (rm : list Z) (region : rdma_remote_region) (off len : Z) : Prop :=
  rr_addr region = off /\ rr_length region = len /\
  0 <= off /\ 0 <= len /\ off + len <= zlength rm.

(** [mr] is backed by the live block [b], whose bytes are [bs]. *)
Definition mr_backed (mr : rdma_registered_mr) (b : Z) (bs : list Z) (h : heap) : Prop :=
  mr_addr mr = Ptr b 0 /\ h_blocks h !! b = Some bs /\
  mr_length mr = zlength bs /\ is_u64 (zlength bs) /\
  0 <= mr_iova mr /\ mr_iova mr + zlength bs <= 2 ^ 64.

Section Laws.
Context {T : Type} `{TransportView T}.

(** The parts of the transport state other than the connection and the
    counters are the same. *)
Definition tr_keeps (t t' : T) : Prop :=
  tr_valid t' /\ tr_registered t' = tr_registered t /\
  (forall h, tr_remote t' h = tr_remote t h) /\ (forall b, tr_sep t b -> tr_sep t' b).

(** The registered region, the connection and the remote memory of a transport
    that is ready for a transfer. *)
Definition tr_ready (t : T) (h : heap) (mr : rdma_registered_mr) (b : Z) (bs rm : list Z)
    : Prop :=
  tr_valid t /\ tr_connected t = true /\ tr_registered t = Some mr /\
  mr_backed mr b bs h /\ tr_remote t h = Some rm /\ tr_sep t b.

Class TransportLaws (ops : rdma_transport_ops T) := {
  law_connect : T -> option string -> mem (Z * T);
  law_disconnect : T -> mem T;
  law_register : T -> ptr -> Z -> option rdma_registered_mr ->
                 mem (Z * option rdma_registered_mr * T);
  law_deregister : T -> option rdma_registered_mr -> mem (option rdma_registered_mr * T);
  law_submit : T -> Z -> option rdma_local_sge -> option rdma_remote_region -> mem (Z * T);
  law_ops : ops = mk_ops (Some law_connect) (Some law_disconnect) (Some law_register)
                         (Some law_deregister) (Some law_submit);
  law_connect_ok : forall t e h, tr_valid t ->
    exists rc t', law_connect t (Some e) h = Some (rc, t', h) /\
      (rc = 0 -> tr_connected t' = true) /\ (rc <> 0 -> t' = t) /\ tr_keeps t t';
  law_disconnect_ok : forall t h, tr_valid t ->
    exists t', law_disconnect t h = Some (t', h) /\
      tr_connected t' = false /\ tr_keeps t t';
  (** Registration of a non-empty buffer describes exactly that buffer, its
      I/O addresses do not wrap, and no byte of memory changes. *)
  law_register_ok : forall t p len out h,
    tr_valid t -> is_null p = false -> 0 < len -> len <= 2 ^ 63 ->
    exists mr t', law_register t p len (Some out) h = Some (0, Some mr, t', h) /\
      mr_addr mr = p /\ mr_length mr = len /\ 0 <= mr_iova mr /\
      mr_iova mr + len <= 2 ^ 64 /\ tr_valid t' /\ tr_registered t' = Some mr /\
      tr_connected t' = tr_connected t /\ (forall h, tr_remote t' h = tr_remote t h) /\
      (forall b, tr_sep t b -> tr_sep t' b);
  law_deregister_ok : forall t mr h, tr_valid t ->
    exists mr' t', law_deregister t (Some mr) h = Some (mr', t', h) /\
      tr_valid t' /\ tr_registered t' = None;
  (** A transfer on a connection that is down is refused and changes nothing. *)
  law_submit_down : forall t dir sge rr h, tr_valid t -> tr_connected t = false ->
    exists rc, law_submit t dir (Some sge) (Some rr) h = Some (rc, t, h) /\ rc <> 0;
  (** WRITE_TO_REMOTE copies local to remote and leaves local memory alone. *)
  law_submit_write : forall t h mr b bs rm sge rr off roff len,
    tr_ready t h mr b bs rm -> sge_in mr sge off len -> region_in rm rr roff len ->
    exists t' h', law_submit t RDMA_TRANSFER_WRITE_TO_REMOTE (Some sge) (Some rr) h
                  = Some (0, t', h') /\
      tr_ready t' h' mr b bs (splice roff (slice off len bs) rm);
  (** READ_FROM_REMOTE copies remote to local and leaves remote memory alone. *)
  law_submit_read : forall t h mr b bs rm sge rr off roff len,
    tr_ready t h mr b bs rm -> sge_in mr sge off len -> region_in rm rr roff len ->
    exists t' h', law_submit t RDMA_TRANSFER_READ_FROM_REMOTE (Some sge) (Some rr) h
                  = Some (0, t', h') /\
      tr_ready t' h' mr b (splice off (slice roff len rm) bs) rm
}.

Section Projections.
Context (ops : rdma_transport_ops T) {L : TransportLaws ops}.

Lemma law_op_connect : op_connect ops = Some law_connect.
Proof. exact (f_equal op_connect law_ops). Qed.

Lemma law_op_disconnect : op_disconnect ops = Some law_disconnect.
Proof. exact (f_equal op_disconnect law_ops). Qed.

Lemma law_op_register : op_register_mr ops = Some law_register.
Proof. exact (f_equal op_register_mr law_ops). Qed.

Lemma law_op_deregister : op_deregister_mr ops = Some law_deregister.
Proof. exact (f_equal op_deregister_mr law_ops). Qed.

Lemma law_op_submit : op_submit ops = Some law_submit.
Proof. exact (f_equal op_submit law_ops). Qed.

End Projections.

End Laws.
