(* ===== verification/RdmaRamdisk.v ===== *)
(** * The RDMA-registered ramdisk (src/rdma_ramdisk.c)

    One memory block registered as one region; every I/O is mapped by
    [lba * logical_block_size].  The struct is a record, its [base] a pointer
    into the byte memory; the block the struct itself occupies is [rd_self], so
    that its release is accounted for; the struct behind [transport_ctx] is the
    state [T] threaded through the calls. *)

From S2P Require Import Prelude.
From S2P Require Import Mem.
From S2P Require Import RdmaTransport.

Record rdma_ramdisk_config : Type := mk_cfg {
  cfg_size_bytes : Z;
  cfg_logical_block_size : Z
}.

Record rdma_ramdisk_mapping : Type := mk_mapping {
  map_byte_offset : Z;
  map_length : Z;
  map_host_addr : ptr;
  map_sge : rdma_local_sge
}.

Record rdma_ramdisk (T : Type) : Type := mk_disk {
  rd_self : ptr;
  rd_size_bytes : Z;
  rd_logical_block_size : Z;
  rd_base : ptr;
  rd_ops : rdma_transport_ops T;
  rd_mr : rdma_registered_mr
}.
Arguments mk_disk {T} _ _ _ _ _ _.
Arguments rd_self {T} _.
Arguments rd_size_bytes {T} _.
Arguments rd_logical_block_size {T} _.
Arguments rd_base {T} _.
Arguments rd_ops {T} _.
Arguments rd_mr {T} _.

(** What the C library answers to the allocation calls of one operation. *)
Record alloc_env : Type := mk_env {
  env_calloc_ok : bool;
  env_memalign_rc : Z;
  env_junk : Z
}.

(** sizeof(struct rdma_ramdisk). *)
Definition RDMA_RAMDISK_SIZEOF : Z := 80.

Section Ramdisk.
Context {T : Type}.
Implicit Types (disk : option (rdma_ramdisk T)) (t : T).

Definition checked_io_range disk (lba block_count : Z) : mem (res (Z * Z)) :=
  match disk with
  | None => mret (Err (- EINVAL))
  | Some d =>
      if block_count =? 0 then mret (Err (- EINVAL)) else
      q ← udiv UINT64_MAX (rd_logical_block_size d);
      if lba >? q then mret (Err (- EOVERFLOW)) else
      let offset := u64 (lba * rd_logical_block_size d) in
      q' ← udiv UINT64_MAX (rd_logical_block_size d);
      if block_count >? q' then mret (Err (- EOVERFLOW)) else
      let bytes := u64 (block_count * rd_logical_block_size d) in
      if (offset >? rd_size_bytes d) || (bytes >? u64 (rd_size_bytes d - offset))
      then mret (Err (- ERANGE)) else
      if bytes >? SIZE_MAX then mret (Err (- EOVERFLOW)) else
      mret (Ok (offset, bytes))
  end.

Definition rdma_ramdisk_create (env : alloc_env) (cfg : option rdma_ramdisk_config)
    (ops : option (rdma_transport_ops T)) t : mem (res (rdma_ramdisk T) * T) :=
  match cfg, ops with
  | Some c, Some o =>
      match op_register_mr o, op_deregister_mr o, op_submit o with
      | Some register_mr, Some _, Some _ =>
          if (cfg_size_bytes c =? 0) || (cfg_logical_block_size c =? 0)
             || negb (cfg_size_bytes c mod cfg_logical_block_size c =? 0)
             || (cfg_size_bytes c >? SIZE_MAX)
          then mret (Err EINVAL, t) else
          disk ← calloc (env_calloc_ok env) RDMA_RAMDISK_SIZEOF;
          if is_null disk then mret (Err ENOMEM, t) else
          if negb (env_memalign_rc env =? 0)
          then _ ← free disk; mret (Err (env_memalign_rc env), t) else
          base ← malloc (env_junk env) (cfg_size_bytes c);
          _ ← memset base 0 (cfg_size_bytes c);
          '(rc, mr, t') ← register_mr t base (cfg_size_bytes c) (Some mr_zero);
          if negb (rc =? 0)
          then _ ← free base; _ ← free disk; mret (Err (- rc), t')
          else match mr with
               | Some m => mret (Ok (mk_disk disk (cfg_size_bytes c)
                                      (cfg_logical_block_size c) base o m), t')
               | None => ub
               end
      | _, _, _ => mret (Err EINVAL, t)
      end
  | _, _ => mret (Err EINVAL, t)
  end.

Definition rdma_ramdisk_destroy disk t : mem T :=
  match disk with
  | None => mret t
  | Some d =>
      match op_deregister_mr (rd_ops d) with
      | None => ub
      | Some deregister_mr =>
          '(_, t') ← deregister_mr t (Some (rd_mr d));
          _ ← free (rd_base d);
          _ ← free (rd_self d);
          mret t'
      end
  end.

(** [out_ok]: the caller's [out] pointer is not [NULL]. *)
Definition rdma_ramdisk_map_lba disk (lba block_count : Z) (out_ok : bool)
    : mem (res rdma_ramdisk_mapping) :=
  if negb out_ok then mret (Err (- EINVAL)) else
  r ← checked_io_range disk lba block_count;
  match r, disk with
  | Err rc, _ => mret (Err rc)
  | Ok _, None => ub
  | Ok (byte_offset, len), Some d =>
      mret (Ok {| map_byte_offset := byte_offset;
                  map_length := len;
                  map_host_addr := padd (rd_base d) byte_offset;
                  map_sge := {| sge_addr := u64 (mr_iova (rd_mr d) + byte_offset);
                                sge_lkey := mr_lkey (rd_mr d);
                                sge_length := len |} |})
  end.

Definition rdma_ramdisk_fill disk (lba block_count value : Z) : mem Z :=
  r ← rdma_ramdisk_map_lba disk lba block_count true;
  match r with
  | Err rc => mret rc
  | Ok m => _ ← memset (map_host_addr m) value (map_length m); mret 0
  end.

(** The comparison loop: [n] bytes left, [p] the address of the next one. *)
Fixpoint verify_loop (n : nat) (p : ptr) (value : Z) : mem Z :=
  match n with
  | O => mret 0
  | S n' =>
      bs ← load_bytes p 1;
      match bs with
      | [b] => if negb (b =? value) then mret (- EIO) else verify_loop n' (padd p 1) value
      | _ => ub
      end
  end.

Definition rdma_ramdisk_verify disk (lba block_count value : Z) : mem Z :=
  r ← rdma_ramdisk_map_lba disk lba block_count true;
  match r with
  | Err rc => mret rc
  | Ok m => verify_loop (Z.to_nat (map_length m)) (map_host_addr m) value
  end.

Definition rdma_ramdisk_size disk : Z :=
  match disk with Some d => rd_size_bytes d | None => 0 end.

Definition rdma_ramdisk_block_size disk : Z :=
  match disk with Some d => rd_logical_block_size d | None => 0 end.

Definition rdma_ramdisk_mr disk : option rdma_registered_mr :=
  match disk with Some d => Some (rd_mr d) | None => None end.

(** ** The representation invariant

    The disk owns block [b], whose [size_bytes] bytes [bs] are its contents;
    the size is a positive multiple of the block size; the registered region
    is exactly the block and its I/O addresses do not wrap. *)
Record disk_wf (d : rdma_ramdisk T) (b : Z) (bs : list Z) (h : heap) : Prop := {
  wf_base : rd_base d = Ptr b 0;
  wf_block : h_blocks h !! b = Some bs;
  wf_size : zlength bs = rd_size_bytes d;
  wf_size_pos : 0 < rd_size_bytes d;
  wf_size_u64 : is_u64 (rd_size_bytes d);
  wf_lbs_pos : 0 < rd_logical_block_size d;
  wf_lbs_u32 : is_u32 (rd_logical_block_size d);
  wf_align : rd_size_bytes d mod rd_logical_block_size d = 0;
  wf_mr_addr : mr_addr (rd_mr d) = rd_base d;
  wf_mr_len : mr_length (rd_mr d) = rd_size_bytes d;
  wf_iova : 0 <= mr_iova (rd_mr d);
  wf_iova_end : mr_iova (rd_mr d) + rd_size_bytes d <= 2 ^ 64
}.

(** Reference definition of the range check, over unbounded integers. *)
Definition io_range_spec (d : rdma_ramdisk T) (lba block_count : Z) : res (Z * Z) :=
  let lbs := rd_logical_block_size d in
  if block_count =? 0 then Err (- EINVAL)
  else if lba * lbs >? UINT64_MAX then Err (- EOVERFLOW)
  else if (lba + block_count) * lbs <=? rd_size_bytes d
       then Ok (lba * lbs, block_count * lbs)
       else Err (- ERANGE).

End Ramdisk.

(** ** Lemmas *)

Section RamdiskFacts.
Context {T : Type}.
Implicit Types (d : rdma_ramdisk T).

Lemma mul_over_iff a b : 0 < b -> (a >? UINT64_MAX / b) = (a * b >? UINT64_MAX).
Proof.
  intros Hb. pose proof (Z.div_mod UINT64_MAX b ltac:(lia)) as E.
  pose proof (Z.mod_pos_bound UINT64_MAX b Hb) as M.
  set (q := UINT64_MAX / b) in *. set (r := UINT64_MAX mod b) in *.
  apply Bool.eq_iff_eq_true. rewrite !Z.gtb_lt. nia.
Qed.

(** A 32-bit block count times a 32-bit block size never overflows 64 bits. *)
Lemma mul32_no_overflow a b : is_u32 a -> is_u32 b -> a * b < 2 ^ 64.
Proof. unfold is_u32; intros; nia. Qed.

Lemma checked_io_range_eq d b bs h lba bc :
  disk_wf d b bs h -> is_u64 lba -> is_u32 bc ->
  checked_io_range (Some d) lba bc h = Some (io_range_spec d lba bc, h).
Proof.
  intros W Hlba Hbc. unfold checked_io_range, io_range_spec.
  pose proof (wf_lbs_pos _ _ _ _ W). pose proof (wf_lbs_u32 _ _ _ _ W).
  pose proof (wf_size_u64 _ _ _ _ W).
  pose proof (mul32_no_overflow _ _ Hbc (wf_lbs_u32 _ _ _ _ W)) as Hmul.
  destruct (Z.eqb_spec bc 0); [reflexivity|].
  unfold udiv. destruct (Z.eqb_spec (rd_logical_block_size d) 0); [lia|].
  mstep. rewrite mul_over_iff by auto.
  destruct (lba * rd_logical_block_size d >? UINT64_MAX) eqn:Hov; [reflexivity|].
  mstep. rewrite mul_over_iff by auto.
  destruct (bc * rd_logical_block_size d >? UINT64_MAX) eqn:Hov2; [int_lia|].
  assert (0 <= lba * rd_logical_block_size d) by (unfold is_u64 in *; nia).
  assert (0 <= bc * rd_logical_block_size d) by (unfold is_u32 in *; nia).
  rewrite !(u64_small (_ * _)) by int_lia.
  destruct (lba * rd_logical_block_size d >? rd_size_bytes d) eqn:Hr; cbn [orb].
  { destruct (_ <=? _) eqn:Hs; [exfalso; rewrite Z.mul_add_distr_r in Hs; lia|]. reflexivity. }
  rewrite (u64_small (_ - _)) by int_lia. rewrite Z.mul_add_distr_r.
  destruct (bc * rd_logical_block_size d >? rd_size_bytes d - _) eqn:Hs;
    destruct (_ <=? _) eqn:Hs'; try lia; [reflexivity|].
  destruct (_ >? SIZE_MAX) eqn:Hz; [int_lia|]. reflexivity.
Qed.

(** The mapping an accepted I/O gets. *)
Definition mapping_of d (lba bc : Z) : rdma_ramdisk_mapping :=
  let lbs := rd_logical_block_size d in
  {| map_byte_offset := lba * lbs; map_length := bc * lbs;
     map_host_addr := padd (rd_base d) (lba * lbs);
     map_sge := {| sge_addr := mr_iova (rd_mr d) + lba * lbs;
                   sge_lkey := mr_lkey (rd_mr d); sge_length := bc * lbs |} |}.

Definition io_fits d (lba bc : Z) : Prop :=
  0 < bc /\ (lba + bc) * rd_logical_block_size d <= rd_size_bytes d.

Lemma io_fits_bounds d b bs h lba bc :
  disk_wf d b bs h -> is_u64 lba -> io_fits d lba bc ->
  0 <= lba * rd_logical_block_size d /\ 0 < bc * rd_logical_block_size d /\
  lba * rd_logical_block_size d + bc * rd_logical_block_size d <= zlength bs.
Proof.
  intros W Hl [Hb Hf]. rewrite (wf_size _ _ _ _ W).
  pose proof (wf_lbs_pos _ _ _ _ W). unfold is_u64 in *. nia.
Qed.

Lemma map_lba_fits d b bs h lba bc :
  disk_wf d b bs h -> is_u64 lba -> is_u32 bc -> io_fits d lba bc ->
  rdma_ramdisk_map_lba (Some d) lba bc true h = Some (Ok (mapping_of d lba bc), h).
Proof.
  intros W Hl Hc F. pose proof (io_fits_bounds _ _ _ _ _ _ W Hl F) as (B1 & B2 & B3).
  unfold rdma_ramdisk_map_lba. cbn [negb]. mstep.
  erewrite checked_io_range_eq by eauto. unfold io_range_spec.
  pose proof (wf_size_u64 _ _ _ _ W). pose proof (wf_size _ _ _ _ W).
  pose proof (wf_iova _ _ _ _ W). pose proof (wf_iova_end _ _ _ _ W).
  destruct F as [F1 F2].
  destruct (Z.eqb_spec bc 0); [lia|].
  destruct (lba * _ >? UINT64_MAX) eqn:?; [int_lia|].
  destruct ((lba + bc) * _ <=? _) eqn:?; [|lia].
  unfold mapping_of. rewrite u64_small by int_lia. reflexivity.
Qed.

(** An I/O that does not fit is refused with one of three codes. *)
Lemma map_lba_refuses d b bs h lba bc :
  disk_wf d b bs h -> is_u64 lba -> is_u32 bc -> ~ io_fits d lba bc ->
  exists rc, rdma_ramdisk_map_lba (Some d) lba bc true h = Some (Err rc, h) /\
    (rc = - EINVAL /\ bc = 0 \/
     rc = - EOVERFLOW /\ UINT64_MAX < lba * rd_logical_block_size d \/
     rc = - ERANGE).
Proof.
  intros W Hl Hc F. unfold rdma_ramdisk_map_lba. cbn [negb]. mstep.
  erewrite checked_io_range_eq by eauto. unfold io_range_spec, io_fits in *.
  destruct (Z.eqb_spec bc 0); [eexists; split; [reflexivity|]; auto|].
  destruct (lba * _ >? UINT64_MAX) eqn:?; [eexists; split; [reflexivity|]; right; left; lia|].
  destruct ((lba + bc) * _ <=? _) eqn:E; [exfalso; apply F; unfold is_u32 in *; lia|].
  eexists; split; [reflexivity|]; auto.
Qed.

Lemma verify_loop_eq n b bs o v h :
  h_blocks h !! b = Some bs -> 0 <= o -> o + Z.of_nat n <= zlength bs ->
  verify_loop n (Ptr b o) v h
  = Some (if decide (slice o (Z.of_nat n) bs = replicate n v) then 0 else - EIO, h).
Proof.
  revert o. induction n as [|n IH]; intros o Hb Ho Hn.
  { cbn [verify_loop]. rewrite slice_nil. rewrite decide_True; auto. }
  cbn [verify_loop]. mstep. erewrite load_bytes_ok by (eauto; lia).
  assert (Hlen : length (slice o 1 bs) = 1%nat) by (rewrite length_slice; auto; lia).
  replace (Z.of_nat (S n)) with (1 + Z.of_nat n) by lia.
  rewrite slice_app by lia.
  destruct (slice o 1 bs) as [|x [|]] eqn:E; try discriminate.
  cbn [app replicate]. destruct (Z.eqb_spec x v) as [->|Hne]; cbn [negb].
  - cbn [padd]. rewrite IH by (auto; lia).
    destruct (decide (slice (o + 1) (Z.of_nat n) bs = replicate n v)) as [Heq|Hneq].
    + rewrite decide_True; auto. congruence.
    + rewrite decide_False; auto. congruence.
  - rewrite decide_False by congruence. reflexivity.
Qed.

Lemma disk_wf_hset d b bs bs' h :
  disk_wf d b bs h -> zlength bs' = zlength bs -> disk_wf d b bs' (hset b bs' h).
Proof.
  intros [] Hl. split; auto; [apply hset_lookup|congruence].
Qed.

Lemma fill_eq d b bs h lba bc v :
  disk_wf d b bs h -> is_u64 lba -> is_u32 bc -> io_fits d lba bc ->
  rdma_ramdisk_fill (Some d) lba bc v h
  = Some (0, hset b (splice (lba * rd_logical_block_size d)
        (replicate (Z.to_nat (bc * rd_logical_block_size d)) (u8 v)) bs) h).
Proof.
  intros W Hl Hc F. pose proof (io_fits_bounds _ _ _ _ _ _ W Hl F) as (B1 & B2 & B3).
  unfold rdma_ramdisk_fill. mstep. erewrite map_lba_fits by eauto.
  cbn [mapping_of map_host_addr map_length]. mstep.
  rewrite (wf_base _ _ _ _ W). cbn [padd]. rewrite Z.add_0_l.
  erewrite memset_ok by (eauto using wf_block; lia). reflexivity.
Qed.

Lemma verify_eq d b bs h lba bc v :
  disk_wf d b bs h -> is_u64 lba -> is_u32 bc -> io_fits d lba bc ->
  rdma_ramdisk_verify (Some d) lba bc v h
  = Some (if decide (slice (lba * rd_logical_block_size d) (bc * rd_logical_block_size d) bs
             = replicate (Z.to_nat (bc * rd_logical_block_size d)) v) then 0 else - EIO, h).
Proof.
  intros W Hl Hc F. pose proof (io_fits_bounds _ _ _ _ _ _ W Hl F) as (B1 & B2 & B3).
  unfold rdma_ramdisk_verify. mstep. erewrite map_lba_fits by eauto.
  cbn [mapping_of map_host_addr map_length].
  rewrite (wf_base _ _ _ _ W). cbn [padd]. rewrite Z.add_0_l.
  erewrite verify_loop_eq by (eauto using wf_block; lia).
  rewrite Z2Nat.id by lia. reflexivity.
Qed.

End RamdiskFacts.

(** ** Creation and destruction over a lawful transport *)

Section Lifecycle.
Context {T : Type} `{TransportView T} (ops : rdma_transport_ops T) {L : TransportLaws ops}.
Implicit Types (t : T) (h : heap).

Definition cfg_ok (c : rdma_ramdisk_config) : Prop :=
  0 < cfg_size_bytes c /\ cfg_size_bytes c <= 2 ^ 63 /\
  0 < cfg_logical_block_size c /\ is_u32 (cfg_logical_block_size c) /\
  cfg_size_bytes c mod cfg_logical_block_size c = 0.

Definition env_ok (e : alloc_env) : Prop :=
  env_calloc_ok e = true /\ env_memalign_rc e = 0 /\ is_u8 (env_junk e).

(** The heap after the block of a new disk was allocated and zeroed. *)
Definition heap_zeroed (size : Z) (h : heap) : heap :=
  {| h_next := h_next h + 1;
     h_blocks := <[h_next h := replicate (Z.to_nat size) 0]> (h_blocks h) |}.

Lemma malloc_memset_zero e size h :
  0 <= size ->
  (base ← malloc (env_junk e) size; _ ← memset base 0 size; mret base) h
  = Some (Ptr (h_next h) 0, heap_zeroed size h).
Proof.
  intros Hs. mstep. unfold malloc, halloc. mstep.
  erewrite memset_ok; [|cbn; apply lookup_insert_eq|lia|lia|rewrite zlength_replicate; lia].
  mstep. unfold hset, heap_zeroed; cbn [h_next h_blocks].
  rewrite insert_insert_eq, splice_whole by (rewrite !length_replicate; auto).
  reflexivity.
Qed.

(** The heap with the struct's block. *)
Definition heap_struct (h : heap) : heap :=
  snd (halloc (replicate (Z.to_nat RDMA_RAMDISK_SIZEOF) 0) h).

Lemma create_unfold e c t h :
  cfg_ok c -> env_ok e ->
  rdma_ramdisk_create e (Some c) (Some ops) t h =
  ('(rc, mr, t') ← law_register t (Ptr (h_next h + 1) 0) (cfg_size_bytes c) (Some mr_zero);
   if negb (rc =? 0)
   then _ ← free (Ptr (h_next h + 1) 0); _ ← free (Ptr (h_next h) 0); mret (Err (- rc), t')
   else match mr with
        | Some m => mret (Ok (mk_disk (Ptr (h_next h) 0) (cfg_size_bytes c)
                               (cfg_logical_block_size c) (Ptr (h_next h + 1) 0) ops m), t')
        | None => ub
        end) (heap_zeroed (cfg_size_bytes c) (heap_struct h)).
Proof.
  intros (Hs & Hm & Hl & Hu & Ha) (Ec & Er & _).
  unfold rdma_ramdisk_create. rewrite (law_op_register ops), (law_op_deregister ops), (law_op_submit ops).
  destruct (_ || _) eqn:Hg; [rewrite Ha in Hg; int_lia|].
  rewrite Ec, Er. mstep. unfold calloc at 1. unfold halloc. cbn [is_null negb Z.eqb].
  fold (halloc (replicate (Z.to_nat RDMA_RAMDISK_SIZEOF) 0) h).
  change (mkHeap (h_next h + 1) _) with (heap_struct h).
  pose proof (malloc_memset_zero e (cfg_size_bytes c) (heap_struct h) ltac:(lia)) as Hz.
  unfold mem_bind, mbind in *. cbn [malloc] in *. unfold malloc, halloc in *.
  destruct (memset _ _ _ _) as [[u h1]|]; [|discriminate].
  injection Hz as <-. reflexivity.
Qed.

(** A successful creation: a zeroed disk that satisfies its invariant,
    registered with the transport; nothing else in memory changes. *)
Lemma create_ok e c t h :
  cfg_ok c -> env_ok e -> tr_valid t ->
  exists d t', rdma_ramdisk_create e (Some c) (Some ops) t h
               = Some (Ok d, t', heap_zeroed (cfg_size_bytes c) (heap_struct h)) /\
    disk_wf d (h_next h + 1) (replicate (Z.to_nat (cfg_size_bytes c)) 0)
            (heap_zeroed (cfg_size_bytes c) (heap_struct h)) /\
    rd_self d = Ptr (h_next h) 0 /\ rd_size_bytes d = cfg_size_bytes c /\
    rd_logical_block_size d = cfg_logical_block_size c /\ rd_ops d = ops /\
    tr_valid t' /\ tr_registered t' = Some (rd_mr d) /\
    tr_connected t' = tr_connected t /\
    (forall h', tr_remote t' h' = tr_remote t h') /\ (forall b, tr_sep t b -> tr_sep t' b).
Proof.
  intros Hc He Ht. rewrite create_unfold by auto.
  destruct Hc as (Hs & Hm & Hl & Hu & Ha). mstep.
  destruct (law_register_ok t (Ptr (h_next h + 1) 0) (cfg_size_bytes c) mr_zero
              (heap_zeroed (cfg_size_bytes c) (heap_struct h))) as (mr & t' & -> & Hr); auto.
  destruct Hr as (R1 & R2 & R3 & R4 & R5 & R6 & R7 & R8 & R9).
  cbn [negb Z.eqb]. eexists _, t'. split; [reflexivity|].
  cbn [rd_self rd_size_bytes rd_logical_block_size rd_ops rd_mr]. split; [|auto 10].
  split; cbn [rd_base rd_size_bytes rd_logical_block_size rd_mr]; auto; try (int_lia).
  - apply lookup_insert_eq.
  - apply zlength_replicate; lia.
Qed.

(** Destruction frees the region and the struct. *)
Lemma create_destroy e c t h :
  heap_wf h -> cfg_ok c -> env_ok e -> tr_valid t ->
  exists d t' h1 t'' h2,
    rdma_ramdisk_create e (Some c) (Some ops) t h = Some (Ok d, t', h1) /\
    tr_registered t' = Some (rd_mr d) /\
    disk_wf d (h_next h + 1) (replicate (Z.to_nat (cfg_size_bytes c)) 0) h1 /\
    rdma_ramdisk_destroy (Some d) t' h1 = Some (t'', h2) /\
    h_blocks h2 = h_blocks h /\ tr_registered t'' = None.
Proof.
  intros Hw Hc He Ht.
  destruct (create_ok e c t h) as (d & t' & E & W & Hself & _ & _ & Ho & Hv & Hreg & _); auto.
  set (h1 := heap_zeroed (cfg_size_bytes c) (heap_struct h)) in *.
  destruct (law_deregister_ok t' (rd_mr d) h1) as (mr' & t'' & Ed & Hv' & Hr); auto.
  pose proof (heap_wf_fresh h Hw) as Hn.
  assert (Hn1 : h_blocks h !! (h_next h + 1) = None).
  { destruct (h_blocks h !! (h_next h + 1)) eqn:Eb; auto. apply Hw in Eb as [? _]; lia. }
  exists d, t', h1, t'', (hdel (h_next h) (hdel (h_next h + 1) h1)).
  split; [exact E|]. split; [exact Hreg|]. split; [exact W|]. split; [|split; auto].
  - unfold rdma_ramdisk_destroy. rewrite Ho, (law_op_deregister ops). mstep.
    rewrite Ed. mstep. rewrite (wf_base _ _ _ _ W), Hself.
    erewrite free_ok by (eapply wf_block; eauto). mstep.
    erewrite free_ok; [reflexivity|]. cbn. rewrite lookup_delete_ne, lookup_insert_ne by lia.
    apply lookup_insert_eq.
  - cbn. rewrite delete_insert_id.
    + apply delete_insert_id, Hn.
    + rewrite lookup_insert_ne by lia. exact Hn1.
Qed.

(** What creation answers: 0 or the errno it sets. *)
Definition create_code (e : alloc_env) (c : rdma_ramdisk_config) : Z :=
  if (cfg_size_bytes c =? 0) || (cfg_logical_block_size c =? 0)
     || negb (cfg_size_bytes c mod cfg_logical_block_size c =? 0) then EINVAL
  else if env_calloc_ok e then env_memalign_rc e else ENOMEM.

(** A refused creation leaves nothing behind. *)
Lemma create_refused e c t h :
  heap_wf h -> is_u64 (cfg_size_bytes c) -> create_code e c <> 0 ->
  exists h', rdma_ramdisk_create e (Some c) (Some ops) t h = Some (Err (create_code e c), t, h') /\
    h_blocks h' = h_blocks h.
Proof.
  intros Hw Hs. unfold create_code, rdma_ramdisk_create.
  rewrite (law_op_register ops), (law_op_deregister ops), (law_op_submit ops).
  destruct (cfg_size_bytes c >? SIZE_MAX) eqn:Hx; [int_lia|]. rewrite orb_false_r.
  destruct (_ || _); [intros _; eauto|]. mstep. unfold calloc.
  destruct (env_calloc_ok e); cbn [is_null]; [|intros _; eauto]. intros Hrc.
  apply Z.eqb_neq in Hrc. unfold halloc. cbn [is_null]. rewrite Hrc. cbn [negb]. mstep.
  erewrite free_ok by apply lookup_insert_eq. mstep. eexists. split; [reflexivity|].
  cbn. apply delete_insert_id, heap_wf_fresh, Hw.
Qed.

Lemma create_code_ok e c :
  create_code e c = 0 -> is_u64 (cfg_size_bytes c) -> cfg_size_bytes c <= 2 ^ 63 ->
  is_u32 (cfg_logical_block_size c) -> is_u8 (env_junk e) -> cfg_ok c /\ env_ok e.
Proof.
  unfold create_code, cfg_ok, env_ok, is_u64, is_u32. intros Hc Hs Hm Hl Hj.
  destruct (Z.eqb_spec (cfg_size_bytes c) 0); [discriminate|].
  destruct (Z.eqb_spec (cfg_logical_block_size c) 0); [discriminate|].
  destruct (Z.eqb_spec (cfg_size_bytes c mod cfg_logical_block_size c) 0); [|discriminate].
  cbn [orb negb] in Hc. destruct (env_calloc_ok e); [|discriminate]. split_and!; auto; lia.
Qed.

End Lifecycle.

(** ** Properties *)

Section Claims.
Context {T : Type}.
Implicit Types (d : rdma_ramdisk T).

(** C3.  The overflow-checked 64-bit range check of the ramdisk computes, for
    every 64-bit LBA and 32-bit block count, exactly what the check over
    unbounded integers computes: an I/O is accepted if and only if
    [(lba + block_count) * block_size] does not exceed the disk, with the true
    byte offset and length, and each refusal has its own code.  No intermediate
    product, difference or sum wraps, and no division is by zero. *)
Theorem checked_io_range_exact d b bs h lba bc :
  disk_wf d b bs h -> is_u64 lba -> is_u32 bc ->
  checked_io_range (Some d) lba bc h = Some (io_range_spec d lba bc, h).
Proof. apply checked_io_range_eq. Qed.

(** Filling a range and verifying it: the fill succeeds, the same range
    then verifies with the same byte, every range of blocks that does not
    overlap it verifies exactly as before, and the disk invariant is kept. *)
Theorem fill_then_verify d b bs h lba bc v :
  disk_wf d b bs h -> is_u64 lba -> is_u32 bc -> io_fits d lba bc -> is_u8 v ->
  exists bs' h', rdma_ramdisk_fill (Some d) lba bc v h = Some (0, h') /\
    disk_wf d b bs' h' /\
    rdma_ramdisk_verify (Some d) lba bc v h' = Some (0, h') /\
    (forall lba' bc' v' rc, is_u64 lba' -> is_u32 bc' -> io_fits d lba' bc' ->
       lba' + bc' <= lba \/ lba + bc <= lba' ->
       rdma_ramdisk_verify (Some d) lba' bc' v' h = Some (rc, h) ->
       rdma_ramdisk_verify (Some d) lba' bc' v' h' = Some (rc, h')).
Proof.
  intros W Hl Hc F Hv.
  pose proof (io_fits_bounds _ _ _ _ _ _ W Hl F) as (B1 & B2 & B3).
  set (d0 := replicate (Z.to_nat (bc * rd_logical_block_size d)) (u8 v)).
  assert (Hd0 : zlength d0 = bc * rd_logical_block_size d)
    by (apply zlength_replicate; lia).
  eexists _, _. split; [apply (fill_eq _ _ _ _ _ _ _ W); auto|]. fold d0.
  set (bs' := splice _ d0 bs).
  assert (W' : disk_wf d b bs' (hset b bs' h))
    by (apply (disk_wf_hset _ _ _ _ _ W), zlength_splice; lia).
  split; [exact W'|]. split.
  - rewrite (verify_eq _ _ _ _ _ _ _ W') by auto. rewrite decide_True; auto.
    rewrite <- Hd0. unfold bs'. rewrite slice_splice_same by lia. unfold d0.
    replace (u8 v) with v by (symmetry; apply wrap_small, Hv).
    rewrite zlength_replicate by lia. reflexivity.
  - intros lba' bc' v' rc Hl' Hc' F' Hdis.
    pose proof (io_fits_bounds _ _ _ _ _ _ W Hl' F') as (B1' & B2' & B3').
    pose proof (wf_lbs_pos _ _ _ _ W).
    rewrite (verify_eq _ _ _ _ _ _ _ W), (verify_eq _ _ _ _ _ _ _ W') by auto.
    unfold bs'. rewrite slice_splice_disjoint; [congruence|lia..|].
    rewrite Hd0, <- !Z.mul_add_distr_r.
    destruct Hdis; [left|right]; apply Z.mul_le_mono_nonneg_r; lia.
Qed.

End Claims.
