(* ===== verification/MockRdma.v ===== *)
(** * The in-memory RDMA transport (src/mock_rdma.c)

    The context struct, the five operations of its function table, and the
    proof that the table satisfies the transport interface.  The opaque
    [void *] argument is an [option]: [None] is [NULL]. *)

From S2P Require Import Prelude.
From S2P Require Import Mem.
From S2P Require Import RdmaTransport.

Definition MOCK_IOVA_BASE : Z := 0x100000000.

Definition MOCK_LKEY : Z := 0x51A70001.

Record mock_rdma_context : Type := mk_ctx {
  mc_remote_memory : ptr;
  mc_remote_length : Z;
  mc_connected : Z;
  mc_connect_count : Z;
  mc_submit_count : Z;
  mc_last_direction : Z;
  mc_registered_addr : ptr;
  mc_registered_length : Z;
  mc_registered_iova : Z;
  mc_registered_lkey : Z
}.

Definition set_connection (c : mock_rdma_context) (conn count : Z) : mock_rdma_context :=
  {| mc_remote_memory := mc_remote_memory c; mc_remote_length := mc_remote_length c;
     mc_connected := conn; mc_connect_count := count;
     mc_submit_count := mc_submit_count c; mc_last_direction := mc_last_direction c;
     mc_registered_addr := mc_registered_addr c;
     mc_registered_length := mc_registered_length c;
     mc_registered_iova := mc_registered_iova c;
     mc_registered_lkey := mc_registered_lkey c |}.

Definition set_registered (c : mock_rdma_context) (p : ptr) (len iova lkey : Z)
    : mock_rdma_context :=
  {| mc_remote_memory := mc_remote_memory c; mc_remote_length := mc_remote_length c;
     mc_connected := mc_connected c; mc_connect_count := mc_connect_count c;
     mc_submit_count := mc_submit_count c; mc_last_direction := mc_last_direction c;
     mc_registered_addr := p; mc_registered_length := len;
     mc_registered_iova := iova; mc_registered_lkey := lkey |}.

Definition count_submit (c : mock_rdma_context) (dir : Z) : mock_rdma_context :=
  {| mc_remote_memory := mc_remote_memory c; mc_remote_length := mc_remote_length c;
     mc_connected := mc_connected c; mc_connect_count := mc_connect_count c;
     mc_submit_count := u32 (mc_submit_count c + 1); mc_last_direction := dir;
     mc_registered_addr := mc_registered_addr c;
     mc_registered_length := mc_registered_length c;
     mc_registered_iova := mc_registered_iova c;
     mc_registered_lkey := mc_registered_lkey c |}.

Definition mock_connect (ctx : option mock_rdma_context) (endpoint : option string)
    : mem (Z * option mock_rdma_context) :=
  match ctx, endpoint with
  | Some c, Some e =>
      if String.eqb e EmptyString then mret (- EINVAL, Some c) else
      mret (0, Some (set_connection c 1 (u32 (mc_connect_count c + 1))))
  | _, _ => mret (- EINVAL, ctx)
  end.

Definition mock_disconnect (ctx : option mock_rdma_context) : mem (option mock_rdma_context) :=
  match ctx with
  | Some c => mret (Some (set_connection c 0 (mc_connect_count c)))
  | None => mret None
  end.

Definition mock_register_mr (ctx : option mock_rdma_context) (addr : ptr) (length : Z)
    (out : option rdma_registered_mr)
    : mem (Z * option rdma_registered_mr * option mock_rdma_context) :=
  match ctx, out with
  | Some c, Some _ =>
      if is_null addr || (length =? 0) then mret (- EINVAL, out, ctx) else
      let c' := set_registered c addr length MOCK_IOVA_BASE MOCK_LKEY in
      mret (0, Some {| mr_addr := addr; mr_length := length;
                       mr_iova := mc_registered_iova c';
                       mr_lkey := mc_registered_lkey c' |}, Some c')
  | _, _ => mret (- EINVAL, out, ctx)
  end.

Definition mock_deregister_mr (ctx : option mock_rdma_context)
    (mr : option rdma_registered_mr)
    : mem (option rdma_registered_mr * option mock_rdma_context) :=
  match ctx, mr with
  | Some c, Some _ => mret (Some mr_zero, Some (set_registered c Null 0 0 0))
  | _, _ => mret (mr, ctx)
  end.

Definition local_sge_to_ptr (c : mock_rdma_context) (local : rdma_local_sge) : res ptr :=
  if negb (sge_lkey local =? mc_registered_lkey c)
     || (sge_addr local <? mc_registered_iova c)
  then Err (- EINVAL) else
  let offset := u64 (sge_addr local - mc_registered_iova c) in
  if (offset >? mc_registered_length c)
     || (sge_length local >? u64 (mc_registered_length c - offset))
  then Err (- ERANGE) else
  Ok (padd (mc_registered_addr c) offset).

Definition remote_region_to_ptr (c : mock_rdma_context) (remote : rdma_remote_region)
    : res ptr :=
  if (rr_addr remote >? mc_remote_length c)
     || (rr_length remote >? u64 (mc_remote_length c - rr_addr remote))
  then Err (- ERANGE) else
  Ok (padd (mc_remote_memory c) (rr_addr remote)).

Definition mock_submit (ctx : option mock_rdma_context) (direction : Z)
    (local : option rdma_local_sge) (remote : option rdma_remote_region)
    : mem (Z * option mock_rdma_context) :=
  match ctx, local, remote with
  | Some c, Some l, Some r =>
      if (mc_connected c =? 0) || negb (sge_length l =? rr_length r)
      then mret (- EINVAL, ctx) else
      match local_sge_to_ptr c l with
      | Err rc => mret (rc, ctx)
      | Ok local_ptr =>
          match remote_region_to_ptr c r with
          | Err rc => mret (rc, ctx)
          | Ok remote_ptr =>
              if direction =? RDMA_TRANSFER_WRITE_TO_REMOTE then
                _ ← memcpy remote_ptr local_ptr (sge_length l);
                mret (0, Some (count_submit c direction))
              else if direction =? RDMA_TRANSFER_READ_FROM_REMOTE then
                _ ← memcpy local_ptr remote_ptr (sge_length l);
                mret (0, Some (count_submit c direction))
              else mret (- EINVAL, ctx)
          end
      end
  | _, _, _ => mret (- EINVAL, ctx)
  end.

Definition mock_rdma_context_init (ctx : option mock_rdma_context) (remote_memory : ptr)
    (remote_length : Z) : option mock_rdma_context :=
  match ctx with
  | None => None
  | Some _ =>
      Some {| mc_remote_memory := remote_memory; mc_remote_length := remote_length;
              mc_connected := 0; mc_connect_count := 0; mc_submit_count := 0;
              mc_last_direction := 0; mc_registered_addr := Null;
              mc_registered_length := 0; mc_registered_iova := 0;
              mc_registered_lkey := 0 |}
  end.

Definition mock_rdma_ops : rdma_transport_ops (option mock_rdma_context) :=
  {| op_connect := Some mock_connect;
     op_disconnect := Some mock_disconnect;
     op_register_mr := Some mock_register_mr;
     op_deregister_mr := Some mock_deregister_mr;
     op_submit := Some mock_submit |}.

(** ** The mock implements the transport interface *)

(** The mock transfers only within the first [remote_length] bytes at
    [remote_memory]; the interface calls that range the remote memory. *)
#[export] Instance mock_view : TransportView (option mock_rdma_context) := {
  tr_valid := fun t => is_Some t;
  tr_connected := fun t =>
    match t with Some c => negb (mc_connected c =? 0) | None => false end;
  tr_registered := fun t =>
    match t with
    | Some c => match mc_registered_addr c with
                | Null => None
                | p => Some {| mr_addr := p; mr_length := mc_registered_length c;
                               mr_iova := mc_registered_iova c;
                               mr_lkey := mc_registered_lkey c |}
                end
    | None => None
    end;
  tr_remote := fun t h =>
    match t with
    | Some c => if is_u64_b (mc_remote_length c)
                then load (mc_remote_memory c) (mc_remote_length c) h else None
    | None => None
    end;
  tr_sep := fun t b =>
    match t with
    | Some c => match mc_remote_memory c with Ptr b' _ => b <> b' | Null => True end
    | None => True
    end
}.

Section MockLaws.
Implicit Types (c : mock_rdma_context) (h : heap).

(** A registered view comes from the context's fields. *)
Lemma mock_registered_inv c mr :
  tr_registered (Some c) = Some mr ->
  mc_registered_addr c = mr_addr mr /\ mc_registered_length c = mr_length mr /\
  mc_registered_iova c = mr_iova mr /\ mc_registered_lkey c = mr_lkey mr.
Proof. cbn. destruct (mc_registered_addr c); [discriminate|]. intros [= <-]; auto. Qed.

(** The remote view comes from a live block. *)
Lemma mock_remote_inv c h rm :
  tr_remote (Some c) h = Some rm ->
  exists rb ro rbs, mc_remote_memory c = Ptr rb ro /\ h_blocks h !! rb = Some rbs /\
    rm = slice ro (mc_remote_length c) rbs /\ 0 <= ro /\
    0 <= mc_remote_length c < 2 ^ 64 /\ ro + mc_remote_length c <= zlength rbs /\
    zlength rm = mc_remote_length c.
Proof.
  cbn. destruct (is_u64_b _) eqn:Hu; [|discriminate].
  destruct (mc_remote_memory c) as [|rb ro]; [discriminate|]. cbn.
  destruct (h_blocks h !! rb) as [rbs|] eqn:Hb; [|discriminate]. cbn.
  destruct (in_block _ _ _) eqn:Hi; [|discriminate]. intros [= <-].
  unfold is_u64_b, in_block in *.
  exists rb, ro, rbs. repeat split; auto; try lia. apply zlength_slice; lia.
Qed.

Lemma local_sge_to_ptr_in c mr b bs h sge off len :
  tr_registered (Some c) = Some mr -> mr_backed mr b bs h -> sge_in mr sge off len ->
  local_sge_to_ptr c sge = Ok (Ptr b off).
Proof.
  intros Hr (Ha & Hb & Hl & Hu & Hi & Hw) (Hk & Had & Hs & Ho & Hn & He).
  apply mock_registered_inv in Hr as (Ra & Rl & Ri & Rk).
  unfold local_sge_to_ptr. rewrite Rk, Ri, Rl, Hk, Had, Hs, Ra, Ha, Z.eqb_refl.
  cbn [negb orb]. destruct (_ <? _) eqn:?; [lia|].
  rewrite (u64_small (_ + _ - _)) by int_lia.
  replace (mr_iova mr + off - mr_iova mr) with off by lia.
  rewrite u64_small by int_lia. destruct (_ || _) eqn:?; [lia|]. reflexivity.
Qed.

Lemma remote_region_to_ptr_in c rm rr roff len :
  0 <= mc_remote_length c < 2 ^ 64 -> zlength rm = mc_remote_length c ->
  region_in rm rr roff len ->
  remote_region_to_ptr c rr = Ok (padd (mc_remote_memory c) roff).
Proof.
  intros Hb Hz (Ha & Hl & Ho & Hn & He). unfold remote_region_to_ptr.
  rewrite Ha, Hl, u64_small by int_lia. destruct (_ || _) eqn:?; [lia|]. reflexivity.
Qed.

Lemma mock_submit_prologue c h mr b bs rm sge rr off roff len dir :
  tr_ready (Some c) h mr b bs rm -> sge_in mr sge off len -> region_in rm rr roff len ->
  mock_submit (Some c) dir (Some sge) (Some rr) h =
  (if dir =? RDMA_TRANSFER_WRITE_TO_REMOTE then
     (_ ← memcpy (padd (mc_remote_memory c) roff) (Ptr b off) len;
      mret (0, Some (count_submit c dir))) h
   else if dir =? RDMA_TRANSFER_READ_FROM_REMOTE then
     (_ ← memcpy (Ptr b off) (padd (mc_remote_memory c) roff) len;
      mret (0, Some (count_submit c dir))) h
   else Some (- EINVAL, Some c, h)).
Proof.
  intros (_ & Hc & Hr & Hb & Hm & _) Hs Hg. cbn in Hc.
  apply mock_remote_inv in Hm as (rb & ro & rbs & _ & _ & _ & _ & Hlen & _ & Hz).
  unfold mock_submit.
  erewrite local_sge_to_ptr_in, remote_region_to_ptr_in by eauto.
  destruct Hs as (_ & _ & -> & _). destruct Hg as (_ & -> & _).
  rewrite Z.eqb_refl. destruct (mc_connected c =? 0); [discriminate|]. cbn [orb negb].
  destruct (dir =? RDMA_TRANSFER_WRITE_TO_REMOTE); [reflexivity|].
  destruct (dir =? RDMA_TRANSFER_READ_FROM_REMOTE); reflexivity.
Qed.

Lemma count_submit_ready c dir h mr b bs rm :
  tr_ready (Some c) h mr b bs rm -> tr_ready (Some (count_submit c dir)) h mr b bs rm.
Proof.
  intros (? & ? & ? & ? & ? & ?).
  refine (conj _ (conj _ (conj _ (conj _ (conj _ _))))); [by eexists|auto..].
Qed.

Lemma mock_submit_write_ok c h mr b bs rm sge rr off roff len :
  tr_ready (Some c) h mr b bs rm -> sge_in mr sge off len -> region_in rm rr roff len ->
  exists t' h', mock_submit (Some c) RDMA_TRANSFER_WRITE_TO_REMOTE (Some sge) (Some rr) h
                = Some (0, t', h') /\
    tr_ready t' h' mr b bs (splice roff (slice off len bs) rm).
Proof.
  intros Hready Hs Hg. erewrite mock_submit_prologue by eauto.
  pose proof Hready as (_ & Hc & Hr & (Ha & Hb & Hl & Hu & Hi & Hw) & Hm & Hsep).
  destruct Hs as (_ & _ & _ & Ho & Hn & He). destruct Hg as (_ & _ & Hro & _ & Hre).
  apply mock_remote_inv in Hm as (rb & ro & rbs & Hrm & Hrb & Hrv & Hr0 & Hlen & Hre' & Hz).
  cbn in Hsep. rewrite Hrm in Hsep |- *. cbn [padd Z.eqb]. mstep.
  change (RDMA_TRANSFER_WRITE_TO_REMOTE =? RDMA_TRANSFER_WRITE_TO_REMOTE) with true.
  erewrite memcpy_ok by (eauto; lia). eexists _, _. split; [reflexivity|].
  apply count_submit_ready.
  assert (zlength (slice off len bs) = len) by (apply zlength_slice; lia).
  refine (conj _ (conj Hc (conj Hr (conj _ (conj _ _))))); [by eexists| | |].
  { unfold mr_backed. rewrite hset_lookup_ne by auto. auto 10. }
  2: { cbn. rewrite Hrm. auto. }
  cbn. rewrite Hrm. unfold is_u64_b. destruct (_ && _) eqn:?; [|lia].
  erewrite load_ok; [|apply hset_lookup|lia|lia|rewrite zlength_splice; lia].
  rewrite Hrv, <- slice_splice_inner by lia. reflexivity.
Qed.

Lemma mock_submit_read_ok c h mr b bs rm sge rr off roff len :
  tr_ready (Some c) h mr b bs rm -> sge_in mr sge off len -> region_in rm rr roff len ->
  exists t' h', mock_submit (Some c) RDMA_TRANSFER_READ_FROM_REMOTE (Some sge) (Some rr) h
                = Some (0, t', h') /\
    tr_ready t' h' mr b (splice off (slice roff len rm) bs) rm.
Proof.
  intros Hready Hs Hg. erewrite mock_submit_prologue by eauto.
  pose proof Hready as (_ & Hc & Hr & (Ha & Hb & Hl & Hu & Hi & Hw) & Hm & Hsep).
  destruct Hs as (_ & _ & _ & Ho & Hn & He). destruct Hg as (_ & _ & Hro & _ & Hre).
  pose proof Hm as Hm0.
  apply mock_remote_inv in Hm as (rb & ro & rbs & Hrm & Hrb & Hrv & Hr0 & Hlen & Hre' & Hz).
  cbn in Hsep. rewrite Hrm in Hsep |- *. cbn [padd].
  change (RDMA_TRANSFER_READ_FROM_REMOTE =? RDMA_TRANSFER_WRITE_TO_REMOTE) with false.
  change (RDMA_TRANSFER_READ_FROM_REMOTE =? RDMA_TRANSFER_READ_FROM_REMOTE) with true.
  mstep. erewrite memcpy_ok by (eauto; lia). eexists _, _. split; [reflexivity|].
  apply count_submit_ready.
  assert (Hin : slice (ro + roff) len rbs = slice roff len rm).
  { rewrite Hrv. rewrite slice_slice by lia. reflexivity. }
  rewrite Hin.
  assert (zlength (slice roff len rm) = len) by (apply zlength_slice; lia).
  assert (zlength (splice off (slice roff len rm) bs) = zlength bs)
    by (apply zlength_splice; lia).
  refine (conj _ (conj Hc (conj Hr (conj _ (conj _ _))))); [by eexists| | |].
  { unfold mr_backed. rewrite hset_lookup, H0. auto 10. }
  2: { cbn. rewrite Hrm. auto. }
  rewrite <- Hm0. cbn. rewrite Hrm. cbn. rewrite lookup_insert_ne by auto. reflexivity.
Qed.

End MockLaws.

#[local] Ltac mock_split := unfold tr_keeps; split_and!; eauto; try (by eexists).

#[export] Program Instance mock_laws : TransportLaws mock_rdma_ops := {
  law_connect := mock_connect;
  law_disconnect := mock_disconnect;
  law_register := mock_register_mr;
  law_deregister := mock_deregister_mr;
  law_submit := mock_submit
}.
Next Obligation. reflexivity. Qed.
Next Obligation.
  intros t e h [c ->]. cbn. destruct (String.eqb e EmptyString).
  - exists (- EINVAL), (Some c). mock_split. intros E; unfold EINVAL in E; lia.
  - eexists 0, _. mock_split. intros E; lia.
Qed.
Next Obligation.
  intros t h [c ->]. eexists. mock_split.
Qed.
Next Obligation.
  intros t p len out h [c ->] Hp Hl Hm. cbn. destruct p as [|b o]; [discriminate|].
  cbn [is_null orb]. destruct (Z.eqb_spec len 0); [lia|].
  eexists _, _. cbn; mock_split; unfold MOCK_IOVA_BASE; cbn; lia.
Qed.
Next Obligation.
  intros t mr h [c ->]. eexists _, _. mock_split.
Qed.
Next Obligation.
  intros t dir sge rr h [c ->] Hc. cbn in *. destruct (mc_connected c =? 0); [|discriminate].
  exists (- EINVAL). split; auto; lia.
Qed.
Next Obligation. intros [c|] **; [eapply mock_submit_write_ok; eauto|].
  destruct H as ([? ?] & _); discriminate. Qed.
Next Obligation. intros [c|] **; [eapply mock_submit_read_ok; eauto|].
  destruct H as ([? ?] & _); discriminate. Qed.
