(* ===== verification/TargetSession.v ===== *)
(** * The target session (src/target_session.c)

    Connection state and the bridge from host-facing I/O directions to
    target-facing RDMA directions.  The struct's pointers are [option]s; the
    state behind [transport_ctx] is threaded as [T]. *)

From S2P Require Import Prelude.
From S2P Require Import Mem.
From S2P Require Import RdmaTransport.
From S2P Require Import RdmaRamdisk.
From S2P Require Import MockRdma.

(** enum target_io_direction; a request carries any C int. *)
Definition TARGET_IO_READ : Z := 1.

Definition TARGET_IO_WRITE : Z := 2.

Record target_io_request : Type := mk_req {
  rq_direction : Z;
  rq_lba : Z;
  rq_block_count : Z;
  rq_remote_addr : Z;
  rq_rkey : Z;
  rq_remote_length : Z
}.

Record target_session (T : Type) : Type := mk_session {
  ts_disk : option (rdma_ramdisk T);
  ts_ops : option (rdma_transport_ops T);
  ts_connected : Z
}.
Arguments mk_session {T} _ _ _.
Arguments ts_disk {T} _.
Arguments ts_ops {T} _.
Arguments ts_connected {T} _.

Section Session.
Context {T : Type}.
Implicit Types (session : option (target_session T)) (t : T).

Definition target_session_init session (disk : option (rdma_ramdisk T))
    (ops : option (rdma_transport_ops T)) : option (target_session T) :=
  match session with
  | None => None
  | Some _ => Some {| ts_disk := disk; ts_ops := ops; ts_connected := 0 |}
  end.

(** [info]: [None] for a [NULL] info, [Some None] for a [NULL] endpoint. *)
Definition target_session_connect session (info : option (option string)) t
    : mem (Z * option (target_session T) * T) :=
  match session, info with
  | Some s, Some (Some endpoint) =>
      match ts_ops s with
      | Some ops =>
          match op_connect ops with
          | Some connect =>
              '(rc, t') ← connect t (Some endpoint);
              mret (rc, Some (if rc =? 0
                              then {| ts_disk := ts_disk s; ts_ops := ts_ops s;
                                      ts_connected := 1 |}
                              else s), t')
          | None => mret (- EINVAL, session, t)
          end
      | None => mret (- EINVAL, session, t)
      end
  | _, _ => mret (- EINVAL, session, t)
  end.

Definition target_session_disconnect session t : mem (option (target_session T) * T) :=
  match session with
  | None => mret (None, t)
  | Some s =>
      if ts_connected s =? 0 then mret (session, t) else
      t' ← (match ts_ops s with
            | Some ops => match op_disconnect ops with
                          | Some disconnect => disconnect t
                          | None => mret t
                          end
            | None => mret t
            end);
      mret (Some {| ts_disk := ts_disk s; ts_ops := ts_ops s; ts_connected := 0 |}, t')
  end.

Definition target_session_submit_io session (req : option target_io_request) t
    : mem (Z * T) :=
  match session, req with
  | Some s, Some r =>
      if ts_connected s =? 0 then mret (- EINVAL, t) else
      match ts_disk s, ts_ops s with
      | Some disk, Some ops =>
          m ← rdma_ramdisk_map_lba (Some disk) (rq_lba r) (rq_block_count r) true;
          match m with
          | Err rc => mret (rc, t)
          | Ok mapping =>
              if rq_remote_length r <? map_length mapping then mret (- ERANGE, t) else
              let remote := {| rr_addr := rq_remote_addr r; rr_rkey := rq_rkey r;
                               rr_length := map_length mapping |} in
              let submit dir :=
                match op_submit ops with
                | Some f => f t dir (Some (map_sge mapping)) (Some remote)
                | None => ub
                end in
              if rq_direction r =? TARGET_IO_READ
              then submit RDMA_TRANSFER_WRITE_TO_REMOTE
              else if rq_direction r =? TARGET_IO_WRITE
              then submit RDMA_TRANSFER_READ_FROM_REMOTE
              else mret (- EINVAL, t)
          end
      | _, _ => mret (- EINVAL, t)
      end
  | _, _ => mret (- EINVAL, t)
  end.

(** ** Abstract specification

    What a session promises, on the bytes of the disk and of device C. *)

Definition req_len (lbs : Z) (r : target_io_request) : Z := rq_block_count r * lbs.

Definition submit_spec (lbs : Z) (connected : bool) (r : target_io_request)
    (disk remote : list Z) : Z * list Z * list Z :=
  let off := rq_lba r * lbs in
  let len := req_len lbs r in
  if negb connected then (- EINVAL, disk, remote)
  else if rq_block_count r =? 0 then (- EINVAL, disk, remote)
  else if off >? UINT64_MAX then (- EOVERFLOW, disk, remote)
  else if off + len >? zlength disk then (- ERANGE, disk, remote)
  else if rq_remote_length r <? len then (- ERANGE, disk, remote)
  else if negb ((rq_direction r =? TARGET_IO_READ) || (rq_direction r =? TARGET_IO_WRITE))
  then (- EINVAL, disk, remote)
  else if rq_remote_addr r + len >? zlength remote then (- ERANGE, disk, remote)
  else if rq_direction r =? TARGET_IO_READ
  then (0, disk, splice (rq_remote_addr r) (slice off len disk) remote)
  else (0, splice off (slice (rq_remote_addr r) len remote) disk, remote).

Definition req_typed (r : target_io_request) : Prop :=
  is_u64 (rq_lba r) /\ is_u32 (rq_block_count r) /\ is_u64 (rq_remote_addr r) /\
  is_u32 (rq_rkey r) /\ is_u64 (rq_remote_length r).

End Session.

(** ** Lemmas *)

Section SessionFacts.
Context {T : Type} `{TransportView T} (ops : rdma_transport_ops T) {L : TransportLaws ops}.
Implicit Types (t : T) (d : rdma_ramdisk T) (r : target_io_request).

(** A connected session over disk [d]: block [b] holds the disk bytes, [rm]
    are the bytes of device C. *)
Definition session_ready (s : target_session T) t (h : heap) d (b : Z) (bs rm : list Z)
    : Prop :=
  ts_disk s = Some d /\ ts_ops s = Some ops /\ ts_connected s <> 0 /\
  disk_wf d b bs h /\ tr_ready t h (rd_mr d) b bs rm.

Lemma ready_disk_wf d b bs bs' h h' t rm :
  disk_wf d b bs h -> zlength bs' = zlength bs ->
  tr_ready t h' (rd_mr d) b bs' rm -> disk_wf d b bs' h'.
Proof.
  intros [] Hl (_ & _ & _ & (? & ? & ? & ?) & _). split; auto. congruence.
Qed.

(** The scatter-gather entry of a mapped request names its bytes. *)
Lemma mapping_sge_in d b bs h lba bc :
  disk_wf d b bs h -> is_u64 lba -> io_fits d lba bc ->
  sge_in (rd_mr d) (map_sge (mapping_of d lba bc))
         (lba * rd_logical_block_size d) (bc * rd_logical_block_size d).
Proof.
  intros W Hl F. pose proof (io_fits_bounds _ _ _ _ _ _ W Hl F).
  pose proof (wf_mr_len _ _ _ _ W). pose proof (wf_size _ _ _ _ W).
  unfold sge_in, mapping_of; cbn. repeat split; lia.
Qed.

(** A request that passes every check before the transport is called reaches
    the transport with the mapped range. *)
Lemma submit_io_reaches s t h d b bs rm r :
  session_ready s t h d b bs rm -> req_typed r ->
  io_fits d (rq_lba r) (rq_block_count r) ->
  req_len (rd_logical_block_size d) r <= rq_remote_length r ->
  target_session_submit_io (Some s) (Some r) t h =
  let sge := map_sge (mapping_of d (rq_lba r) (rq_block_count r)) in
  let remote := {| rr_addr := rq_remote_addr r; rr_rkey := rq_rkey r;
                   rr_length := req_len (rd_logical_block_size d) r |} in
  (if rq_direction r =? TARGET_IO_READ
   then law_submit t RDMA_TRANSFER_WRITE_TO_REMOTE (Some sge) (Some remote)
   else if rq_direction r =? TARGET_IO_WRITE
   then law_submit t RDMA_TRANSFER_READ_FROM_REMOTE (Some sge) (Some remote)
   else mret (- EINVAL, t)) h.
Proof.
  intros (Hd & Ho & Hc & W & _) (Tl & Tb & _) F Hlen.
  unfold target_session_submit_io. rewrite Hd, Ho.
  destruct (Z.eqb_spec (ts_connected s) 0); [contradiction|]. mstep.
  erewrite map_lba_fits by eauto. cbn [map_length mapping_of].
  destruct (_ <? _) eqn:?; [unfold req_len in *; lia|].
  rewrite (law_op_submit ops). reflexivity.
Qed.

Definition region_fits r (lbs : Z) (rm : list Z) : Prop :=
  0 <= rq_remote_addr r /\ rq_remote_addr r + req_len lbs r <= zlength rm.

Lemma submit_io_transfer s t h d b bs rm r :
  session_ready s t h d b bs rm -> req_typed r ->
  io_fits d (rq_lba r) (rq_block_count r) ->
  req_len (rd_logical_block_size d) r <= rq_remote_length r ->
  region_fits r (rd_logical_block_size d) rm ->
  rq_direction r = TARGET_IO_READ \/ rq_direction r = TARGET_IO_WRITE ->
  let off := rq_lba r * rd_logical_block_size d in
  let len := req_len (rd_logical_block_size d) r in
  let bs' := if rq_direction r =? TARGET_IO_READ then bs
             else splice off (slice (rq_remote_addr r) len rm) bs in
  let rm' := if rq_direction r =? TARGET_IO_READ
             then splice (rq_remote_addr r) (slice off len bs) rm else rm in
  exists t' h', target_session_submit_io (Some s) (Some r) t h = Some (0, t', h') /\
    session_ready s t' h' d b bs' rm'.
Proof.
  intros Hs Hr F Hlen [Hf1 Hf2] Hdir. cbn zeta.
  rewrite submit_io_reaches with (d := d) (b := b) (bs := bs) (rm := rm) by auto.
  pose proof Hs as (Hd & Ho & Hc & W & Hready). destruct Hr as (Tl & Tb & _).
  pose proof (mapping_sge_in _ _ _ _ _ _ W Tl F) as Hsge.
  pose proof (io_fits_bounds _ _ _ _ _ _ W Tl F) as (B1 & B2 & B3).
  set (rr := {| rr_addr := _ |}).
  assert (Hreg : region_in rm rr (rq_remote_addr r) (req_len (rd_logical_block_size d) r))
    by (unfold region_in, req_len in *; cbn; repeat split; lia).
  cbn zeta. destruct Hdir as [E|E]; rewrite E, ?Z.eqb_refl;
    change (TARGET_IO_WRITE =? TARGET_IO_READ) with false; cbv iota.
  - destruct (law_submit_write _ _ _ _ _ _ _ _ _ _ _ Hready Hsge Hreg) as (t' & h' & -> & R).
    exists t', h'. split; [reflexivity|].
    refine (conj Hd (conj Ho (conj Hc (conj _ R)))). eapply ready_disk_wf; eauto.
  - destruct (law_submit_read _ _ _ _ _ _ _ _ _ _ _ Hready Hsge Hreg) as (t' & h' & -> & R).
    exists t', h'. split; [reflexivity|].
    assert (zlength (slice (rq_remote_addr r) (req_len (rd_logical_block_size d) r) rm)
            = req_len (rd_logical_block_size d) r)
      by (apply zlength_slice; unfold req_len in *; lia).
    refine (conj Hd (conj Ho (conj Hc (conj _ R)))).
    eapply ready_disk_wf; [exact W| |exact R].
    apply zlength_splice; unfold req_len in *; lia.
Qed.

End SessionFacts.

(** ** The session over the in-memory transport *)

Section MockSession.
Implicit Types (c : mock_rdma_context) (r : target_io_request).

Lemma submit_io_disconnected s c d r h :
  ts_disk s = Some d -> ts_ops s = Some mock_rdma_ops -> ts_connected s = 0 ->
  target_session_submit_io (Some s) (Some r) (Some c) h = Some (- EINVAL, Some c, h).
Proof. intros _ _ Hc. unfold target_session_submit_io. rewrite Hc. reflexivity. Qed.

(** A remote range outside device C's memory is refused without effect. *)
Lemma mock_submit_remote_range c h mr b bs rm sge rr off len dir :
  tr_ready (Some c) h mr b bs rm -> sge_in mr sge off len -> rr_length rr = len ->
  is_u64 (rr_addr rr) -> zlength rm < rr_addr rr + len ->
  mock_submit (Some c) dir (Some sge) (Some rr) h = Some (- ERANGE, Some c, h).
Proof.
  intros (_ & Hc & Hr & Hb & Hm & _) Hs Hl Ha Hout. cbn in Hc.
  apply mock_remote_inv in Hm as (rb & ro & rbs & _ & _ & _ & _ & Hlen & _ & Hz).
  unfold mock_submit. erewrite local_sge_to_ptr_in by eauto.
  destruct Hs as (_ & _ & -> & _). rewrite Hl, Z.eqb_refl.
  destruct (mc_connected c =? 0); [discriminate|]. cbn [orb negb].
  unfold remote_region_to_ptr. rewrite Hl.
  destruct (rr_addr rr >? mc_remote_length c) eqn:E1; [reflexivity|].
  rewrite u64_small by int_lia. cbn [orb].
  destruct (len >? _) eqn:E2; [reflexivity|lia].
Qed.

Lemma submit_io_early s c h d b bs rm r :
  session_ready mock_rdma_ops s (Some c) h d b bs rm -> req_typed r ->
  ~ (io_fits d (rq_lba r) (rq_block_count r) /\
     req_len (rd_logical_block_size d) r <= rq_remote_length r) ->
  target_session_submit_io (Some s) (Some r) (Some c) h
  = Some (fst (fst (submit_spec (rd_logical_block_size d) true r bs rm)), Some c, h) /\
  snd (fst (submit_spec (rd_logical_block_size d) true r bs rm)) = bs /\
  snd (submit_spec (rd_logical_block_size d) true r bs rm) = rm.
Proof.
  intros (Hd & Ho & Hc & W & _) (Tl & Tb & _) F.
  unfold target_session_submit_io. rewrite Hd, Ho.
  destruct (Z.eqb_spec (ts_connected s) 0); [contradiction|]. mstep.
  unfold rdma_ramdisk_map_lba. cbn [negb]. mstep.
  erewrite checked_io_range_eq by eauto. unfold io_range_spec, submit_spec, io_fits in *.
  rewrite (wf_size _ _ _ _ W), Z.mul_add_distr_r in *. cbn [negb].
  unfold req_len in *.
  destruct (Z.eqb_spec (rq_block_count r) 0); [auto|].
  destruct (rq_lba r * _ >? UINT64_MAX); [auto|].
  destruct (_ + _ <=? _) eqn:E1; destruct (_ + _ >? _) eqn:E2; try lia; [|auto].
  mstep. cbn [map_length].
  destruct (_ <? _) eqn:E3; [auto|]. exfalso. apply F. int_lia.
Qed.

Lemma submit_io_refines s c h d b bs rm r :
  session_ready mock_rdma_ops s (Some c) h d b bs rm -> req_typed r ->
  exists rc bs' rm' t' h',
    submit_spec (rd_logical_block_size d) true r bs rm = (rc, bs', rm') /\
    target_session_submit_io (Some s) (Some r) (Some c) h = Some (rc, t', h') /\
    session_ready mock_rdma_ops s t' h' d b bs' rm'.
Proof.
  intros Hs Hr.
  destruct (decide (0 < rq_block_count r /\ rq_lba r * rd_logical_block_size d +
     req_len (rd_logical_block_size d) r <= zlength bs /\
    req_len (rd_logical_block_size d) r <= rq_remote_length r)) as [(F1 & F2 & F3)|F].
  2: { destruct (submit_io_early s c h d b bs rm r Hs Hr) as (E1 & E2 & E3).
       - intros [[G1 G2] G3]. apply F. destruct Hs as (_ & _ & _ & W & _).
         rewrite (wf_size _ _ _ _ W). unfold req_len in *. lia.
       - destruct (submit_spec _ _ _ _ _) as [[rc bs'] rm'].
         cbn in E1, E2, E3. subst. exists rc, bs, rm, (Some c), h. auto. }
  pose proof Hs as (Hd & Ho & Hc & W & Hready).
  assert (F : io_fits d (rq_lba r) (rq_block_count r)).
  { split; auto. rewrite <- (wf_size _ _ _ _ W). unfold req_len in F2. lia. }
  pose proof Hr as (Tl & Tb & Ta & _).
  pose proof (io_fits_bounds _ _ _ _ _ _ W Tl F) as (B1 & B2 & B3).
  pose proof (wf_size_u64 _ _ _ _ W). pose proof (wf_size _ _ _ _ W).
  unfold submit_spec. cbn [negb].
  destruct (Z.eqb_spec (rq_block_count r) 0); [lia|].
  destruct (_ >? UINT64_MAX) eqn:?; [int_lia|].
  destruct (_ + _ >? zlength bs) eqn:?; [lia|]. destruct (_ <? _) eqn:?; [lia|].
  destruct (decide (rq_direction r = TARGET_IO_READ \/ rq_direction r = TARGET_IO_WRITE))
    as [Hdir|Hdir].
  2: { rewrite (submit_io_reaches mock_rdma_ops) with (d := d) (b := b) (bs := bs) (rm := rm) by auto.
       destruct (Z.eqb_spec (rq_direction r) TARGET_IO_READ); [tauto|].
       destruct (Z.eqb_spec (rq_direction r) TARGET_IO_WRITE); [tauto|].
       eexists _, _, _, _, _. split; [reflexivity|]. split; [reflexivity|auto]. }
  replace (negb _) with false
    by (destruct Hdir as [-> | ->]; reflexivity).
  destruct (_ + _ >? zlength rm) eqn:Hrm.
  2: { destruct (submit_io_transfer mock_rdma_ops s (Some c) h d b bs rm r)
         as (t' & h' & E & R); auto; [unfold region_fits; int_lia|].
       destruct (rq_direction r =? TARGET_IO_READ); eexists _, _, _, t', h';
         (split; [reflexivity|]); auto. }
  exists (- ERANGE), bs, rm, (Some c), h. split; [reflexivity|]. split; [|auto].
  rewrite (submit_io_reaches mock_rdma_ops) with (d := d) (b := b) (bs := bs) (rm := rm) by auto.
  cbn zeta. assert (forall dir, mock_submit (Some c) dir
    (Some (map_sge (mapping_of d (rq_lba r) (rq_block_count r))))
    (Some {| rr_addr := rq_remote_addr r; rr_rkey := rq_rkey r;
             rr_length := req_len (rd_logical_block_size d) r |}) h
    = Some (- ERANGE, Some c, h)) as Hout.
  { intros dir. eapply mock_submit_remote_range;
      [exact Hready|eapply mapping_sge_in; eauto|reflexivity|exact Ta|].
    cbn [rr_addr]. unfold req_len in Hrm; lia. }
  destruct Hdir as [-> | ->]; apply Hout.
Qed.

End MockSession.

(** ** A concrete world

    A 32-byte disk of 8-byte blocks in block 2, 16 bytes of device C in
    block 1, registered and connected. *)

Definition ex_remote : list Z := [10;11;12;13;14;15;16;17;20;21;22;23;24;25;26;27].

Definition ex_heap : heap :=
  {| h_next := 3;
     h_blocks := <[2 := replicate 32 0]> (<[1 := ex_remote]> ∅) |}.

Definition ex_ctx : mock_rdma_context :=
  {| mc_remote_memory := Ptr 1 0; mc_remote_length := 16; mc_connected := 1;
     mc_connect_count := 1; mc_submit_count := 0; mc_last_direction := 0;
     mc_registered_addr := Ptr 2 0; mc_registered_length := 32;
     mc_registered_iova := MOCK_IOVA_BASE; mc_registered_lkey := MOCK_LKEY |}.

Definition ex_disk : rdma_ramdisk (option mock_rdma_context) :=
  mk_disk (Ptr 3 0) 32 8 (Ptr 2 0) mock_rdma_ops
    {| mr_addr := Ptr 2 0; mr_length := 32; mr_iova := MOCK_IOVA_BASE;
       mr_lkey := MOCK_LKEY |}.

Definition ex_session : target_session (option mock_rdma_context) :=
  mk_session (Some ex_disk) (Some mock_rdma_ops) 1.

Lemma ex_disk_wf : disk_wf ex_disk 2 (replicate 32 0) ex_heap.
Proof. split; try reflexivity; vm_compute; intuition congruence. Defined.

Lemma ex_ready :
  session_ready mock_rdma_ops ex_session (Some ex_ctx) ex_heap ex_disk 2
    (replicate 32 0) ex_remote.
Proof.
  refine (conj eq_refl (conj eq_refl (conj _ (conj ex_disk_wf _)))); [cbn; lia|].
  refine (conj _ (conj eq_refl (conj eq_refl (conj _ (conj eq_refl _))))).
  - by eexists.
  - unfold mr_backed. split_and!; try reflexivity; vm_compute; intuition congruence.
  - cbn. lia.
Defined.

(** ** Properties *)

(** C1.  Over the in-memory transport, submitting any well-typed request on a
    connected session behaves exactly as the byte-level specification: the same
    return code on every branch (zero blocks, LBA overflow, out of the disk,
    remote buffer too small, unknown direction, outside device C's memory), a
    host READ copies disk bytes to device C, a host WRITE copies device C's
    bytes to the disk, a refused request changes nothing, and the session stays
    ready.  In particular no submission touches memory out of bounds. *)
Theorem submit_io_refines_spec s c h d b bs rm r :
  session_ready mock_rdma_ops s (Some c) h d b bs rm -> req_typed r ->
  exists rc bs' rm' t' h',
    submit_spec (rd_logical_block_size d) true r bs rm = (rc, bs', rm') /\
    target_session_submit_io (Some s) (Some r) (Some c) h = Some (rc, t', h') /\
    session_ready mock_rdma_ops s t' h' d b bs' rm'.
Proof. apply submit_io_refines. Qed.

Lemma submit_io_refines_spec_witness :
  exists rc bs' rm' t' h',
    submit_spec 8 true (mk_req TARGET_IO_WRITE 1 1 8 7 8) (replicate 32 0) ex_remote
    = (rc, bs', rm') /\
    target_session_submit_io (Some ex_session)
      (Some (mk_req TARGET_IO_WRITE 1 1 8 7 8)) (Some ex_ctx) ex_heap = Some (rc, t', h') /\
    session_ready mock_rdma_ops ex_session t' h' ex_disk 2 bs' rm'.
Proof.
  apply (submit_io_refines_spec ex_session ex_ctx ex_heap ex_disk 2 (replicate 32 0)
           ex_remote (mk_req TARGET_IO_WRITE 1 1 8 7 8) ex_ready).
  unfold req_typed; cbn; int_lia.
Defined.

(** C2.  End to end over any transport that keeps the interface's promises:
    a host WRITE of blocks from one range of device C followed by a host READ
    of the same blocks into another range reproduces the bytes exactly, and
    both requests succeed. *)
Theorem write_read_roundtrip {T} `{TransportView T} (ops : rdma_transport_ops T)
    `{!TransportLaws ops} s t h d b bs rm w r :
  session_ready ops s t h d b bs rm ->
  req_typed w -> req_typed r ->
  rq_direction w = TARGET_IO_WRITE -> rq_direction r = TARGET_IO_READ ->
  rq_lba r = rq_lba w -> rq_block_count r = rq_block_count w ->
  io_fits d (rq_lba w) (rq_block_count w) ->
  req_len (rd_logical_block_size d) w <= rq_remote_length w ->
  req_len (rd_logical_block_size d) r <= rq_remote_length r ->
  region_fits w (rd_logical_block_size d) rm ->
  region_fits r (rd_logical_block_size d) rm ->
  exists t1 h1 t2 h2 bs' rm',
    target_session_submit_io (Some s) (Some w) t h = Some (0, t1, h1) /\
    target_session_submit_io (Some s) (Some r) t1 h1 = Some (0, t2, h2) /\
    session_ready ops s t2 h2 d b bs' rm' /\
    let len := req_len (rd_logical_block_size d) w in
    slice (rq_remote_addr r) len rm' = slice (rq_remote_addr w) len rm.
Proof.
  intros Hs Tw Tr Dw Dr El Ec F Lw Lr [Gw1 Gw2] [Gr1 Gr2].
  assert (Elen : req_len (rd_logical_block_size d) r = req_len (rd_logical_block_size d) w)
    by (unfold req_len; congruence).
  destruct (submit_io_transfer ops s t h d b bs rm w) as (t1 & h1 & E1 & R1); auto;
    [split; auto|]. rewrite Dw in R1.
  change (TARGET_IO_WRITE =? TARGET_IO_READ) with false in R1. cbv iota in R1.
  destruct (submit_io_transfer ops s t1 h1 d b _ rm r R1) as (t2 & h2 & E2 & R2);
    rewrite ?El, ?Ec; auto; [split; auto|]. rewrite Dr, Z.eqb_refl in R2. cbv iota in R2.
  pose proof Hs as (_ & _ & _ & W & _). destruct Tw as (Tl & _).
  pose proof (io_fits_bounds _ _ _ _ _ _ W Tl F) as (B1 & B2 & B3).
  eexists t1, h1, t2, h2, _, _. split; [exact E1|]. split; [exact E2|]. split; [exact R2|].
  cbn zeta. rewrite El, Elen.
  assert (Hz : zlength (slice (rq_remote_addr w) (req_len (rd_logical_block_size d) w) rm)
          = req_len (rd_logical_block_size d) w) by (apply zlength_slice; unfold req_len in *; lia).
  rewrite (slice_splice_eq (rq_lba w * _)) by (auto; unfold req_len in *; lia).
  apply slice_splice_eq; auto; lia.
Qed.

Lemma write_read_roundtrip_witness :
  exists t1 h1 t2 h2 bs' rm',
    target_session_submit_io (Some ex_session)
      (Some (mk_req TARGET_IO_WRITE 2 1 8 7 8)) (Some ex_ctx) ex_heap = Some (0, t1, h1) /\
    target_session_submit_io (Some ex_session)
      (Some (mk_req TARGET_IO_READ 2 1 0 7 8)) t1 h1 = Some (0, t2, h2) /\
    session_ready mock_rdma_ops ex_session t2 h2 ex_disk 2 bs' rm' /\
    slice 0 8 rm' = slice 8 8 ex_remote.
Proof.
  apply (write_read_roundtrip mock_rdma_ops ex_session (Some ex_ctx) ex_heap ex_disk 2
           (replicate 32 0) ex_remote (mk_req TARGET_IO_WRITE 2 1 8 7 8)
           (mk_req TARGET_IO_READ 2 1 0 7 8) ex_ready);
    first [reflexivity | vm_compute; intuition congruence].
Defined.

Lemma checked_io_range_exact_witness :
  checked_io_range (Some ex_disk) 3 1 ex_heap = Some (Ok (24, 8), ex_heap) /\
  checked_io_range (Some ex_disk) (2 ^ 62) 1 ex_heap = Some (Err (- EOVERFLOW), ex_heap).
Proof.
  split.
  - rewrite (checked_io_range_exact ex_disk 2 (replicate 32 0) ex_heap 3 1 ex_disk_wf);
      [reflexivity|int_lia|int_lia].
  - rewrite (checked_io_range_exact ex_disk 2 (replicate 32 0) ex_heap (2 ^ 62) 1 ex_disk_wf);
      [reflexivity|int_lia|int_lia].
Defined.

Lemma fill_then_verify_witness :
  exists bs' h', rdma_ramdisk_fill (Some ex_disk) 1 2 9 ex_heap = Some (0, h') /\
    disk_wf ex_disk 2 bs' h' /\
    rdma_ramdisk_verify (Some ex_disk) 1 2 9 h' = Some (0, h').
Proof.
  destruct (fill_then_verify ex_disk 2 (replicate 32 0) ex_heap 1 2 9 ex_disk_wf)
    as (bs' & h' & E1 & E2 & E3 & _); [int_lia|int_lia| |int_lia|].
  - unfold io_fits; cbn; lia.
  - exists bs', h'; auto.
Defined.

(** C4.  Creation and destruction of a disk balance on every branch, over any
    transport that keeps the interface's promises.  Creation answers the
    reference code for every size (up to 2^63, the largest object) and block
    size and every failure of the two allocations.  When it is refused, every
    allocated block has been given back.  When it succeeds the disk is zeroed,
    well formed and registered, and destroying it frees both the region and the
    struct: the live blocks are exactly those from before, and the transport has
    no registered region left. *)
Theorem create_destroy_no_leak {T} `{TransportView T} (ops : rdma_transport_ops T)
    `{!TransportLaws ops} e c t h :
  heap_wf h -> is_u64 (cfg_size_bytes c) -> cfg_size_bytes c <= 2 ^ 63 ->
  is_u32 (cfg_logical_block_size c) -> is_u8 (env_junk e) -> tr_valid t ->
  if create_code e c =? 0 then
    exists d t' h1 t'' h2,
      rdma_ramdisk_create e (Some c) (Some ops) t h = Some (Ok d, t', h1) /\
      tr_registered t' = Some (rd_mr d) /\
      disk_wf d (h_next h + 1) (replicate (Z.to_nat (cfg_size_bytes c)) 0) h1 /\
      rdma_ramdisk_destroy (Some d) t' h1 = Some (t'', h2) /\
      h_blocks h2 = h_blocks h /\ tr_registered t'' = None
  else
    exists h', rdma_ramdisk_create e (Some c) (Some ops) t h
               = Some (Err (create_code e c), t, h') /\
      h_blocks h' = h_blocks h.
Proof.
  intros Hw Hs Hm Hl Hj Ht. destruct (Z.eqb_spec (create_code e c) 0) as [E|E].
  - destruct (create_code_ok e c E Hs Hm Hl Hj) as [Hc He]. apply create_destroy; auto.
  - apply create_refused; auto.
Qed.

Lemma create_destroy_no_leak_witness :
  (exists d t' h1 t'' h2,
    rdma_ramdisk_create (mk_env true 0 204) (Some (mk_cfg 64 16)) (Some mock_rdma_ops)
      (Some ex_ctx) heap_empty = Some (Ok d, t', h1) /\
    rdma_ramdisk_destroy (Some d) t' h1 = Some (t'', h2) /\
    h_blocks h2 = h_blocks heap_empty) /\
  (exists h', rdma_ramdisk_create (mk_env true 12 204) (Some (mk_cfg 64 16)) (Some mock_rdma_ops)
      (Some ex_ctx) heap_empty = Some (Err 12, Some ex_ctx, h') /\ h_blocks h' = ∅).
Proof.
  assert (Ht : tr_valid (Some ex_ctx)) by (by eexists). split.
  - destruct (create_destroy_no_leak mock_rdma_ops (mk_env true 0 204) (mk_cfg 64 16) (Some ex_ctx)
      heap_empty heap_empty_wf ltac:(cbn; int_lia) ltac:(cbn; lia) ltac:(cbn; int_lia)
      ltac:(cbn; int_lia) Ht) as (d & t' & h1 & t'' & h2 & E1 & _ & _ & E2 & E3 & _).
    exists d, t', h1, t'', h2. split; [exact E1|]. split; [exact E2|exact E3].
  - exact (create_destroy_no_leak mock_rdma_ops (mk_env true 12 204) (mk_cfg 64 16) (Some ex_ctx)
      heap_empty heap_empty_wf ltac:(cbn; int_lia) ltac:(cbn; lia) ltac:(cbn; int_lia)
      ltac:(cbn; int_lia) Ht).
Defined.

(** After the session is disconnected every submission is refused with
    -EINVAL and changes neither the transport nor a byte of memory, whatever
    the request; connecting again with a non-empty endpoint succeeds. *)
Theorem disconnect_blocks_io s c h req endpoint :
  ts_ops s = Some mock_rdma_ops -> ts_connected s <> 0 -> endpoint <> EmptyString ->
  exists s' t', target_session_disconnect (Some s) (Some c) h = Some (Some s', t', h) /\
    target_session_submit_io (Some s') req t' h = Some (- EINVAL, t', h) /\
    exists s'' t'', target_session_connect (Some s') (Some (Some endpoint)) t' h
                    = Some (0, Some s'', t'', h) /\
      ts_connected s'' = 1 /\ ts_disk s'' = ts_disk s /\ tr_connected t'' = true.
Proof.
  intros Ho Hc He. unfold target_session_disconnect.
  destruct (Z.eqb_spec (ts_connected s) 0); [contradiction|]. rewrite Ho.
  eexists _, _. split; [reflexivity|]. split.
  - destruct req; reflexivity.
  - unfold target_session_connect. cbn. mstep.
    destruct (String.eqb_spec endpoint EmptyString); [contradiction|].
    cbn. eexists _, _. split; [reflexivity|]. auto.
Qed.

Lemma disconnect_blocks_io_witness :
  exists s' t', target_session_disconnect (Some ex_session) (Some ex_ctx) ex_heap
                = Some (Some s', t', ex_heap) /\
    target_session_submit_io (Some s') (Some (mk_req 1 0 1 0 0 8)) t' ex_heap
    = Some (- EINVAL, t', ex_heap).
Proof.
  destruct (disconnect_blocks_io ex_session ex_ctx ex_heap
              (Some (mk_req 1 0 1 0 0 8)) "device-c"%string)
    as (s' & t' & E1 & E2 & _); [reflexivity|cbn; lia|discriminate|].
  exists s', t'; auto.
Defined.
