(* ===== verification/Backend.v ===== *)
(** * The ramdisk memory backend (userspace-nbd/src/ramdisk_backend.c)

    The struct with its mutex, creation, destruction, range validation and the
    three data operations.  [bk_lock] is [true] while the mutex is held;
    locking a held mutex blocks, so it has no sequential result ([ub]). *)

From S2P Require Import Prelude.
From S2P Require Import Mem.

Definition RAMDISK_MAX_BLOCK_SIZE : Z := 1024 * 1024.

Record ramdisk_backend : Type := mk_backend {
  bk_base : ptr;
  bk_size : Z;
  bk_block_size : Z;
  bk_lock : bool;
  bk_initialized : bool
}.

(** The struct after [memset(backend, 0, sizeof *backend)]. *)
Definition backend_zero : ramdisk_backend := mk_backend Null 0 0 false false.

Definition set_lock (bk : ramdisk_backend) (l : bool) : ramdisk_backend :=
  mk_backend (bk_base bk) (bk_size bk) (bk_block_size bk) l (bk_initialized bk).

(** What the C library answers during one creation. *)
Record create_env : Type := mk_create_env {
  ce_mutex_rc : Z;
  ce_memalign_ok : bool;
  ce_junk : Z
}.

Definition is_power_of_two (value : Z) : bool :=
  negb (value =? 0) && (Z.land value (u32 (value - 1)) =? 0).

Definition validate_block_size (block_size : Z) : Z :=
  if negb (is_power_of_two block_size) then - EINVAL
  else if (block_size <? 512) || (block_size >? RAMDISK_MAX_BLOCK_SIZE) then - EINVAL
  else 0.

Definition ramdisk_backend_create (env : create_env) (backend : option ramdisk_backend)
    (size block_size : Z) : mem (Z * option ramdisk_backend) :=
  match backend with
  | None => mret (- EINVAL, None)
  | Some _ =>
      if (size =? 0) || (size >? SIZE_MAX) then mret (- EINVAL, Some backend_zero) else
      let rc := validate_block_size block_size in
      if negb (rc =? 0) then mret (rc, Some backend_zero) else
      if negb (ce_mutex_rc env =? 0)
      then mret (- ce_mutex_rc env, Some backend_zero) else
      if negb (ce_memalign_ok env) then mret (- ENOMEM, Some backend_zero) else
      base ← malloc (ce_junk env) size;
      _ ← memset base 0 size;
      mret (0, Some (mk_backend base size block_size false true))
  end.

Definition ramdisk_backend_destroy (backend : option ramdisk_backend)
    : mem (option ramdisk_backend) :=
  match backend with
  | None => mret None
  | Some bk =>
      if negb (bk_initialized bk) then mret backend else
      _ ← free (bk_base bk);
      mret (Some (mk_backend Null 0 0 (bk_lock bk) false))
  end.

Definition ramdisk_backend_validate_range (backend : option ramdisk_backend)
    (offset len : Z) : Z :=
  match backend with
  | None => - EINVAL
  | Some bk =>
      if negb (bk_initialized bk) || is_null (bk_base bk) then - EINVAL
      else if offset >? bk_size bk then - ERANGE
      else if len >? u64 (bk_size bk - offset) then - ERANGE
      else 0
  end.

(** [pthread_mutex_lock] on an initialised mutex with default attributes has no
    error to return, so its [-rc] branch is not taken. *)
Definition ramdisk_backend_lock (backend : option ramdisk_backend)
    : mem (Z * option ramdisk_backend) :=
  match backend with
  | None => mret (- EINVAL, None)
  | Some bk =>
      if negb (bk_initialized bk) then mret (- EINVAL, backend) else
      if bk_lock bk then ub else mret (0, Some (set_lock bk true))
  end.

Definition ramdisk_backend_unlock (backend : option ramdisk_backend)
    : mem (option ramdisk_backend) :=
  match backend with
  | None => mret None
  | Some bk =>
      if bk_initialized bk then mret (Some (set_lock bk false)) else mret backend
  end.

Definition ramdisk_backend_base (backend : option ramdisk_backend) : ptr :=
  match backend with
  | None => Null
  | Some bk => if bk_initialized bk then bk_base bk else Null
  end.

Definition ramdisk_backend_size (backend : option ramdisk_backend) : Z :=
  match backend with
  | None => 0
  | Some bk => if bk_initialized bk then bk_size bk else 0
  end.

Definition ramdisk_backend_block_size (backend : option ramdisk_backend) : Z :=
  match backend with
  | None => 0
  | Some bk => if bk_initialized bk then bk_block_size bk else 0
  end.

(** [backend->base + offset], once the range was validated. *)
Definition backend_at (backend : option ramdisk_backend) (offset : Z) : mem ptr :=
  match backend with
  | None => ub
  | Some bk => mret (padd (bk_base bk) offset)
  end.

Definition ramdisk_backend_read (backend : option ramdisk_backend) (offset : Z)
    (buf : ptr) (len : Z) : mem (Z * option ramdisk_backend) :=
  if is_null buf then mret (- EINVAL, backend) else
  let rc := ramdisk_backend_validate_range backend offset len in
  if negb (rc =? 0) then mret (rc, backend) else
  '(rc, backend) ← ramdisk_backend_lock backend;
  if negb (rc =? 0) then mret (rc, backend) else
  src ← backend_at backend offset;
  _ ← memcpy buf src len;
  backend ← ramdisk_backend_unlock backend;
  mret (0, backend).

Definition ramdisk_backend_write (backend : option ramdisk_backend) (offset : Z)
    (buf : ptr) (len : Z) : mem (Z * option ramdisk_backend) :=
  if is_null buf then mret (- EINVAL, backend) else
  let rc := ramdisk_backend_validate_range backend offset len in
  if negb (rc =? 0) then mret (rc, backend) else
  '(rc, backend) ← ramdisk_backend_lock backend;
  if negb (rc =? 0) then mret (rc, backend) else
  dst ← backend_at backend offset;
  _ ← memcpy dst buf len;
  backend ← ramdisk_backend_unlock backend;
  mret (0, backend).

Definition ramdisk_backend_zero (backend : option ramdisk_backend) (offset len : Z)
    : mem (Z * option ramdisk_backend) :=
  let rc := ramdisk_backend_validate_range backend offset len in
  if negb (rc =? 0) then mret (rc, backend) else
  '(rc, backend) ← ramdisk_backend_lock backend;
  if negb (rc =? 0) then mret (rc, backend) else
  dst ← backend_at backend offset;
  _ ← memset dst 0 len;
  backend ← ramdisk_backend_unlock backend;
  mret (0, backend).

(** ** Representation invariant

    An initialised backend whose mutex is free owns block [b] with bytes [bs]. *)
Record backend_wf (bk : ramdisk_backend) (b : Z) (bs : list Z) (h : heap) : Prop := {
  bw_init : bk_initialized bk = true;
  bw_base : bk_base bk = Ptr b 0;
  bw_block : h_blocks h !! b = Some bs;
  bw_size : zlength bs = bk_size bk;
  bw_size_u64 : is_u64 (bk_size bk);
  bw_size_pos : 0 < bk_size bk;
  bw_bs : validate_block_size (bk_block_size bk) = 0;
  bw_lock : bk_lock bk = false
}.

(** Reference range check over unbounded integers. *)
Definition range_spec (size offset len : Z) : Z :=
  if offset + len <=? size then 0 else - ERANGE.

(** ** Lemmas *)

Lemma is_power_of_two_spec v :
  is_u32 v -> is_power_of_two v = true <-> exists k, 0 <= k /\ v = 2 ^ k.
Proof.
  intros Hv. unfold is_power_of_two. split.
  - intros H. apply andb_true_iff in H as [Hn Hl].
    assert (Hpos : 0 < v) by int_lia.
    rewrite u32_small in Hl by int_lia. apply Z.eqb_eq in Hl.
    exists (Z.log2 v). pose proof (Z.log2_spec v Hpos) as [L1 L2].
    pose proof (Z.log2_nonneg v). split; auto.
    destruct (Z.eq_dec v (2 ^ Z.log2 v)) as [E|E]; auto. exfalso.
    assert (Hb : Z.testbit (Z.land v (v - 1)) (Z.log2 v) = true).
    { rewrite Z.land_spec, Z.bit_log2 by auto. cbn.
      rewrite <- (Z.log2_unique (v - 1) (Z.log2 v)) at 1 by lia. apply Z.bit_log2; lia. }
    rewrite Hl, Z.bits_0 in Hb. discriminate.
  - intros (k & Hk & ->). assert (0 < 2 ^ k) by lia.
    rewrite u32_small by int_lia. replace (2 ^ k - 1) with (Z.ones k) by
      (rewrite Z.ones_equiv; lia).
    rewrite Z.land_ones, Z.mod_same by lia.
    destruct (Z.eqb_spec (2 ^ k) 0); [lia|]. reflexivity.
Qed.

Lemma validate_range_eq bk b bs h offset len :
  backend_wf bk b bs h -> is_u64 offset -> is_u64 len ->
  ramdisk_backend_validate_range (Some bk) offset len = range_spec (bk_size bk) offset len.
Proof.
  intros W Ho Hl. unfold ramdisk_backend_validate_range, range_spec.
  rewrite (bw_init _ _ _ _ W), (bw_base _ _ _ _ W). cbn [negb is_null orb].
  pose proof (bw_size_u64 _ _ _ _ W).
  destruct (offset >? bk_size bk) eqn:E; [destruct (_ <=? _) eqn:?; [int_lia|auto]|].
  rewrite u64_small by int_lia.
  destruct (len >? _) eqn:E2; destruct (_ <=? _) eqn:?; auto; lia.
Qed.

Lemma backend_wf_hset bk b bs bs' h :
  backend_wf bk b bs h -> zlength bs' = zlength bs -> backend_wf bk b bs' (hset b bs' h).
Proof. intros [] Hl; split; auto; [apply hset_lookup|congruence]. Qed.

Lemma backend_wf_frame bk b bs h b' bs' :
  backend_wf bk b bs h -> b' <> b -> backend_wf bk b bs (hset b' bs' h).
Proof. intros [] Hl; split; auto. rewrite hset_lookup_ne; auto. Qed.

Lemma set_lock_id bk : bk_lock bk = false -> set_lock (set_lock bk true) false = bk.
Proof. intros E; destruct bk; cbn in *; subst; auto. Qed.

Section DataOps.
Context (bk : ramdisk_backend) (b : Z) (bs : list Z) (h : heap).
Context (W : backend_wf bk b bs h).

(** The common prologue: after validation the lock is taken. *)
Lemma lock_ok : ramdisk_backend_lock (Some bk) h = Some (0, Some (set_lock bk true), h).
Proof.
  unfold ramdisk_backend_lock. rewrite (bw_init _ _ _ _ W), (bw_lock _ _ _ _ W). reflexivity.
Qed.

Lemma unlock_ok h' :
  ramdisk_backend_unlock (Some (set_lock bk true)) h' = Some (Some bk, h').
Proof.
  unfold ramdisk_backend_unlock.
  change (bk_initialized (set_lock bk true)) with (bk_initialized bk).
  rewrite (bw_init _ _ _ _ W), set_lock_id by apply (bw_lock _ _ _ _ W). reflexivity.
Qed.

(** Pass the range check and take the lock. *)
#[local] Ltac enter_locked :=
  rewrite (validate_range_eq _ _ _ _ _ _ W) by int_lia;
  unfold range_spec; destruct (_ <=? _) eqn:?; [|lia]; cbn [negb Z.eqb];
  mstep; rewrite lock_ok; cbn [negb Z.eqb]; unfold backend_at; mstep;
  cbn [set_lock bk_base]; rewrite (bw_base _ _ _ _ W); cbn [padd]; rewrite Z.add_0_l;
  pose proof (bw_size _ _ _ _ W).

(** Fail the range check. *)
#[local] Ltac fail_range :=
  rewrite (validate_range_eq _ _ _ _ _ _ W) by int_lia;
  unfold range_spec; destruct (_ <=? _) eqn:?; [lia|]; reflexivity.

Lemma read_ok rb ro rbs offset len :
  is_u64 offset -> is_u32 len -> offset + len <= bk_size bk ->
  h_blocks h !! rb = Some rbs -> 0 <= ro -> ro + len <= zlength rbs ->
  ramdisk_backend_read (Some bk) offset (Ptr rb ro) len h
  = Some (0, Some bk, hset rb (splice ro (slice offset len bs) rbs) h).
Proof.
  intros Ho Hl Hr Hb H0 Hlen. unfold ramdisk_backend_read. cbn [is_null].
  enter_locked.
  erewrite memcpy_ok by (eauto using bw_block; int_lia). mstep.
  rewrite unlock_ok. reflexivity.
Qed.

Lemma write_ok sb so sbs offset len :
  is_u64 offset -> is_u32 len -> offset + len <= bk_size bk ->
  h_blocks h !! sb = Some sbs -> 0 <= so -> so + len <= zlength sbs ->
  ramdisk_backend_write (Some bk) offset (Ptr sb so) len h
  = Some (0, Some bk, hset b (splice offset (slice so len sbs) bs) h).
Proof.
  intros Ho Hl Hr Hb H0 Hlen. unfold ramdisk_backend_write. cbn [is_null].
  enter_locked.
  erewrite memcpy_ok by (eauto using bw_block; int_lia). mstep.
  rewrite unlock_ok. reflexivity.
Qed.

Lemma zero_ok offset len :
  is_u64 offset -> is_u32 len -> offset + len <= bk_size bk ->
  ramdisk_backend_zero (Some bk) offset len h
  = Some (0, Some bk, hset b (splice offset (replicate (Z.to_nat len) 0) bs) h).
Proof.
  intros Ho Hl Hr. unfold ramdisk_backend_zero.
  enter_locked.
  erewrite memset_ok by (eauto using bw_block; int_lia). mstep.
  rewrite unlock_ok. reflexivity.
Qed.

(** Out of range: refused before the lock is taken, no effect. *)
Lemma read_range p offset len :
  is_u64 offset -> is_u32 len -> bk_size bk < offset + len -> is_null p = false ->
  ramdisk_backend_read (Some bk) offset p len h = Some (- ERANGE, Some bk, h).
Proof.
  intros Ho Hl Hr Hp. unfold ramdisk_backend_read. rewrite Hp.
  fail_range.
Qed.

Lemma write_range p offset len :
  is_u64 offset -> is_u32 len -> bk_size bk < offset + len -> is_null p = false ->
  ramdisk_backend_write (Some bk) offset p len h = Some (- ERANGE, Some bk, h).
Proof.
  intros Ho Hl Hr Hp. unfold ramdisk_backend_write. rewrite Hp.
  fail_range.
Qed.

Lemma zero_range offset len :
  is_u64 offset -> is_u32 len -> bk_size bk < offset + len ->
  ramdisk_backend_zero (Some bk) offset len h = Some (- ERANGE, Some bk, h).
Proof.
  intros Ho Hl Hr. unfold ramdisk_backend_zero.
  fail_range.
Qed.

End DataOps.

(** ** Abstract specification: an array of bytes

    A client of the backend issues a sequence of operations through one
    transfer buffer of its own. *)

Inductive bk_op : Type :=
| BRead (offset len : Z)
| BWrite (offset : Z) (data : list Z)
| BZero (offset len : Z).

(** One client operation on the implementation: fill the buffer before a
    write, fetch it after a successful read. *)
Definition bk_run (buf : ptr) (op : bk_op) (bk : option ramdisk_backend)
    : mem (Z * list Z * option ramdisk_backend) :=
  match op with
  | BRead off len =>
      '(rc, bk) ← ramdisk_backend_read bk off buf len;
      if rc =? 0 then (out ← load_bytes buf len; mret (rc, out, bk)) else mret (rc, [], bk)
  | BWrite off data =>
      _ ← store_bytes buf data;
      '(rc, bk) ← ramdisk_backend_write bk off buf (zlength data);
      mret (rc, [], bk)
  | BZero off len =>
      '(rc, bk) ← ramdisk_backend_zero bk off len;
      mret (rc, [], bk)
  end.

Fixpoint bk_run_all (buf : ptr) (ops : list bk_op) (bk : option ramdisk_backend)
    : mem (list (Z * list Z) * option ramdisk_backend) :=
  match ops with
  | [] => mret ([], bk)
  | op :: ops' =>
      '(rc, out, bk) ← bk_run buf op bk;
      '(rest, bk) ← bk_run_all buf ops' bk;
      mret ((rc, out) :: rest, bk)
  end.

(** The same operation on an array of bytes. *)
Definition bk_spec (op : bk_op) (bs : list Z) : Z * list Z * list Z :=
  match op with
  | BRead off len =>
      if off + len <=? zlength bs then (0, slice off len bs, bs) else (- ERANGE, [], bs)
  | BWrite off data =>
      if off + zlength data <=? zlength bs then (0, [], splice off data bs)
      else (- ERANGE, [], bs)
  | BZero off len =>
      if off + len <=? zlength bs
      then (0, [], splice off (replicate (Z.to_nat len) 0) bs) else (- ERANGE, [], bs)
  end.

Fixpoint bk_spec_all (ops : list bk_op) (bs : list Z) : list (Z * list Z) * list Z :=
  match ops with
  | [] => ([], bs)
  | op :: ops' =>
      let '(rc, out, bs') := bk_spec op bs in
      let '(rest, bs'') := bk_spec_all ops' bs' in ((rc, out) :: rest, bs'')
  end.

(** Arguments in range of their C types, data within the client's buffer. *)
Definition op_typed (cap : Z) (op : bk_op) : Prop :=
  match op with
  | BRead off len => is_u64 off /\ is_u32 len /\ len <= cap
  | BWrite off data => is_u64 off /\ is_u32 (zlength data) /\ zlength data <= cap
  | BZero off len => is_u64 off /\ is_u32 len
  end.

(** The client's buffer: block [rb], [cap] bytes, not the backend's block. *)
Definition client_buf (b rb cap : Z) (h : heap) : Prop :=
  rb <> b /\ exists rbs, h_blocks h !! rb = Some rbs /\ zlength rbs = cap.

Lemma client_buf_hset b rb cap h bs' :
  client_buf b rb cap h -> client_buf b rb cap (hset b bs' h).
Proof.
  intros (Hne & rbs & Hb & Hl). split; auto. exists rbs.
  rewrite hset_lookup_ne; auto.
Qed.

Lemma bk_run_refines bk b bs h rb cap op :
  backend_wf bk b bs h -> client_buf b rb cap h -> op_typed cap op ->
  let '(rc, out, bs') := bk_spec op bs in
  exists h', bk_run (Ptr rb 0) op (Some bk) h = Some (rc, out, Some bk, h') /\
    backend_wf bk b bs' h' /\ client_buf b rb cap h'.
Proof.
  intros W Hc Ht. pose proof Hc as (Hne & rbs & Hb & Hcap).
  pose proof (bw_size _ _ _ _ W) as Hsz.
  destruct op as [off len|off data|off len]; cbn [bk_spec bk_run op_typed] in *.
  - destruct Ht as (To & Tl & Hl). destruct (_ <=? _) eqn:E.
    + eexists. mstep. erewrite read_ok by (eauto; int_lia).
      assert (zlength (slice off len bs) = len) by (apply zlength_slice; int_lia).
      cbn [Z.eqb]. mstep.
      erewrite load_bytes_ok; [|apply hset_lookup|lia|int_lia|rewrite zlength_splice; lia].
      split; [mstep; rewrite slice_splice_eq by lia; reflexivity|].
      split; [apply backend_wf_frame; auto|]. split; auto.
      eexists. split; [apply hset_lookup|]. rewrite zlength_splice; lia.
    + exists h. mstep. erewrite read_range by (eauto; lia). auto.
  - destruct Ht as (To & Tl & Hl). mstep. erewrite store_bytes_ok by (eauto; lia). mstep.
    set (h1 := hset rb _ h).
    assert (W1 : backend_wf bk b bs h1) by (apply backend_wf_frame; auto).
    assert (Hc1 : client_buf b rb cap h1).
    { split; auto. eexists. split; [apply hset_lookup|]. rewrite zlength_splice; lia. }
    destruct (_ <=? _) eqn:E.
    + eexists. erewrite write_ok; [|exact W1|auto|auto|lia|apply hset_lookup|lia|
        rewrite zlength_splice; lia].
      rewrite slice_splice_same by lia. split; [reflexivity|].
      split; [apply (backend_wf_hset _ _ _ _ _ W1), zlength_splice; int_lia|].
      apply client_buf_hset; auto.
    + exists h1. erewrite write_range; [|exact W1|auto|auto|lia|auto]. auto.
  - destruct Ht as (To & Tl). destruct (_ <=? _) eqn:E.
    + eexists. mstep. erewrite zero_ok by (eauto; lia). split; [reflexivity|].
      split; [|apply client_buf_hset; auto].
      apply (backend_wf_hset _ _ _ _ _ W), zlength_splice;
        rewrite ?zlength_replicate; int_lia.
    + exists h. mstep. erewrite zero_range by (eauto; lia). auto.
Qed.

Lemma bk_run_all_refines ops : forall bk b bs h rb cap,
  backend_wf bk b bs h -> client_buf b rb cap h -> Forall (op_typed cap) ops ->
  let '(outs, bs') := bk_spec_all ops bs in
  exists h', bk_run_all (Ptr rb 0) ops (Some bk) h = Some (outs, Some bk, h') /\
    backend_wf bk b bs' h'.
Proof.
  induction ops as [|op ops IH]; intros bk b bs h rb cap W Hc Ht.
  { exists h. auto. }
  apply Forall_cons in Ht as [Ht1 Ht2]. cbn [bk_spec_all bk_run_all].
  pose proof (bk_run_refines _ _ _ _ _ _ _ W Hc Ht1) as H1.
  destruct (bk_spec op bs) as [[rc out] bs1]. destruct H1 as (h1 & E1 & W1 & Hc1).
  pose proof (IH _ _ _ _ _ _ W1 Hc1 Ht2) as H2.
  destruct (bk_spec_all ops bs1) as [rest bs2]. destruct H2 as (h2 & E2 & W2).
  exists h2. mstep. rewrite E1. mstep. rewrite E2. auto.
Qed.

(** Creation makes a well-formed disk in a block of its own, or fails and
    leaves memory alone. *)
Lemma backend_created junk size bs mutex_rc bk0 h :
  is_u64 size -> 0 <> size -> validate_block_size bs = 0 -> mutex_rc = 0 ->
  exists bk h', ramdisk_backend_create (mk_create_env mutex_rc true junk) (Some bk0) size bs h
    = Some (0, Some bk, h') /\
    backend_wf bk (h_next h) (replicate (Z.to_nat size) 0) h' /\
    bk_size bk = size /\ bk_block_size bk = bs /\ h_next h' = h_next h + 1 /\
    forall x, x <> h_next h -> h_blocks h' !! x = h_blocks h !! x.
Proof.
  intros Hs Hn Hv ->. unfold ramdisk_backend_create. cbn [ce_mutex_rc ce_memalign_ok ce_junk].
  destruct ((size =? 0) || _) eqn:E; [int_lia|].
  rewrite Hv. cbn [negb Z.eqb]. mstep. unfold malloc, halloc. mstep.
  erewrite memset_ok; [|cbn; apply lookup_insert_eq|lia|int_lia|
    rewrite zlength_replicate; int_lia].
  mstep. eexists _, _. split; [reflexivity|].
  rewrite splice_whole by (rewrite !length_replicate; auto).
  split_and!; auto.
  - split; cbn [bk_initialized bk_base bk_size bk_block_size bk_lock];
      auto; [apply hset_lookup|apply zlength_replicate; int_lia|int_lia].
  - intros x Hx. cbn. rewrite !lookup_insert_ne by auto. reflexivity.
Qed.

Lemma backend_create_cases env size bs bk0 h :
  is_u64 size -> 0 <= ce_mutex_rc env ->
  (exists rc, rc < 0 /\ ramdisk_backend_create env (Some bk0) size bs h
     = Some (rc, Some backend_zero, h)) \/
  (exists bk h', ramdisk_backend_create env (Some bk0) size bs h = Some (0, Some bk, h') /\
     backend_wf bk (h_next h) (replicate (Z.to_nat size) 0) h' /\
     bk_size bk = size /\ bk_block_size bk = bs /\ h_next h' = h_next h + 1 /\
     forall x, x <> h_next h -> h_blocks h' !! x = h_blocks h !! x).
Proof.
  intros Hs Hm. destruct env as [mrc mok junk].
  destruct (Z.eqb_spec size 0) as [->|Hn]; [left; exists (- EINVAL); split; [unfold EINVAL; lia|auto]|].
  destruct (Z.eqb_spec (validate_block_size bs) 0) as [Ev|Ev].
  - destruct (Z.eqb_spec mrc 0) as [->|Em]; [destruct mok|].
    + right. apply backend_created; auto.
    + left. exists (- ENOMEM). split; [unfold ENOMEM; lia|].
      unfold ramdisk_backend_create. destruct ((size =? 0) || _) eqn:E; [int_lia|].
      rewrite Ev. reflexivity.
    + left. exists (- mrc). cbn in Hm. split; [lia|].
      unfold ramdisk_backend_create. destruct ((size =? 0) || _) eqn:E; [int_lia|].
      rewrite Ev. cbn. destruct (Z.eqb_spec mrc 0); [lia|]. reflexivity.
  - left. exists (validate_block_size bs).
    split; [revert Ev; unfold validate_block_size, EINVAL; repeat case_if; lia|].
    unfold ramdisk_backend_create. destruct ((size =? 0) || _) eqn:E; [int_lia|].
    destruct (Z.eqb_spec (validate_block_size bs) 0); [lia|]. reflexivity.
Qed.

Lemma backend_destroyed bk b bs h :
  backend_wf bk b bs h ->
  ramdisk_backend_destroy (Some bk) h
  = Some (Some (mk_backend Null 0 0 (bk_lock bk) false), hdel b h).
Proof.
  intros W. unfold ramdisk_backend_destroy. rewrite (bw_init _ _ _ _ W). cbn [negb]. mstep.
  rewrite (bw_base _ _ _ _ W). erewrite free_ok by (eapply bw_block; eauto). reflexivity.
Qed.

(** ** Properties *)

(** The range check of the backend is exact: for every 64-bit offset and
    length it accepts precisely the ranges with [offset + len <= size] as
    unbounded integers; the subtraction never wraps. *)
Theorem validate_range_exact bk b bs h offset len :
  backend_wf bk b bs h -> is_u64 offset -> is_u64 len ->
  ramdisk_backend_validate_range (Some bk) offset len
  = if offset + len <=? bk_size bk then 0 else - ERANGE.
Proof. apply validate_range_eq. Qed.

(** C22.  Any sequence of reads, writes and zeroings issued by a client through
    its own buffer returns the same codes and the same data as on a plain array
    of bytes, without undefined behaviour and without blocking: every operation
    releases the mutex it took, on success and on refusal. *)
Theorem backend_refines_bytes ops bk b bs h rb cap :
  backend_wf bk b bs h -> client_buf b rb cap h -> Forall (op_typed cap) ops ->
  let '(outs, bs') := bk_spec_all ops bs in
  exists h', bk_run_all (Ptr rb 0) ops (Some bk) h = Some (outs, Some bk, h') /\
    backend_wf bk b bs' h'.
Proof. apply bk_run_all_refines. Qed.

(** When the allocator and the mutex are available, creation succeeds if
    and only if the size is not zero and the block size is a power of two
    between 512 and 1 MiB; then the backend satisfies its invariant and holds
    zeroes.  Otherwise the result is -EINVAL and memory is untouched. *)
Theorem backend_create_accepts bk0 size bs junk h :
  is_u64 size -> is_u32 bs ->
  let env := mk_create_env 0 true junk in
  (size <> 0 /\ (exists k, 9 <= k <= 20 /\ bs = 2 ^ k) ->
   exists bk h', ramdisk_backend_create env (Some bk0) size bs h = Some (0, Some bk, h') /\
     backend_wf bk (h_next h) (replicate (Z.to_nat size) 0) h' /\
     bk_size bk = size /\ bk_block_size bk = bs) /\
  (~ (size <> 0 /\ exists k, 9 <= k <= 20 /\ bs = 2 ^ k) ->
   ramdisk_backend_create env (Some bk0) size bs h = Some (- EINVAL, Some backend_zero, h)).
Proof.
  intros Hs Hb. cbn zeta. pose proof (is_power_of_two_spec bs Hb) as Hp.
  assert (Hv : validate_block_size bs = 0 <-> exists k, 9 <= k <= 20 /\ bs = 2 ^ k).
  { unfold validate_block_size, RAMDISK_MAX_BLOCK_SIZE.
    destruct (is_power_of_two bs); cbn [negb].
    - destruct (proj1 Hp eq_refl) as (k & Hk & Hk2).
      destruct (_ || _) eqn:E.
      + split; [unfold EINVAL; lia|]. intros (k' & Hk' & E').
        assert (2 ^ 9 <= 2 ^ k' <= 2 ^ 20) by (split; apply Z.pow_le_mono_r; lia). lia.
      + split; auto. intros _. exists k. split; auto.
        split; apply (Z.pow_le_mono_r_iff 2); lia.
    - split; [unfold EINVAL; lia|]. intros (k & Hk & E).
      discriminate (proj2 Hp (ex_intro _ k (conj (ltac:(lia) : 0 <= k) E))). }
  split.
  - intros (Hn & Hk). destruct (backend_created junk size bs 0 bk0 h)
      as (bk & h' & E & W & H1 & H2 & _); auto; [apply Hv, Hk|]. exists bk, h'. auto.
  - intros Hn. unfold ramdisk_backend_create. cbn [ce_mutex_rc ce_memalign_ok ce_junk].
    destruct ((size =? 0) || _) eqn:E; [reflexivity|].
    destruct (Z.eqb_spec (validate_block_size bs) 0) as [E0|E0]; cbn [negb].
    + exfalso. apply Hn. split; [lia|]. apply Hv; auto.
    + unfold validate_block_size in *. destruct (negb _); [reflexivity|].
      destruct (_ || _); [reflexivity|lia].
Qed.

(** Destruction frees the backend's memory and leaves a struct on which
    every operation fails with -EINVAL without touching memory; a second
    destruction does nothing (no double free). *)
Theorem backend_destroy_final bk b bs h offset len p :
  backend_wf bk b bs h -> is_null p = false ->
  exists bk', ramdisk_backend_destroy (Some bk) h = Some (Some bk', hdel b h) /\
    ramdisk_backend_read (Some bk') offset p len (hdel b h)
    = Some (- EINVAL, Some bk', hdel b h) /\
    ramdisk_backend_write (Some bk') offset p len (hdel b h)
    = Some (- EINVAL, Some bk', hdel b h) /\
    ramdisk_backend_zero (Some bk') offset len (hdel b h)
    = Some (- EINVAL, Some bk', hdel b h) /\
    ramdisk_backend_destroy (Some bk') (hdel b h) = Some (Some bk', hdel b h).
Proof.
  intros W Hp. eexists. split; [apply (backend_destroyed _ _ _ _ W)|].
  unfold ramdisk_backend_read, ramdisk_backend_write. rewrite Hp. auto.
Qed.

(** A concrete backend: 1024 bytes in block 1, and a client buffer in block 2. *)
Definition ex_backend : ramdisk_backend := mk_backend (Ptr 1 0) 1024 512 false true.

Definition ex_bk_heap : heap :=
  {| h_next := 3;
     h_blocks := <[1 := replicate 1024 0]> (<[2 := replicate 16 7]> ∅) |}.

Lemma ex_backend_wf : backend_wf ex_backend 1 (replicate 1024 0) ex_bk_heap.
Proof. split; try reflexivity; vm_compute; intuition congruence. Defined.

Lemma validate_range_exact_witness :
  ramdisk_backend_validate_range (Some ex_backend) 1000 24 = 0 /\
  ramdisk_backend_validate_range (Some ex_backend) UINT64_MAX 1 = - ERANGE.
Proof.
  split.
  - rewrite (validate_range_exact ex_backend 1 (replicate 1024 0) ex_bk_heap 1000 24
               ex_backend_wf); [reflexivity|int_lia|int_lia].
  - rewrite (validate_range_exact ex_backend 1 (replicate 1024 0) ex_bk_heap UINT64_MAX 1
               ex_backend_wf); [reflexivity|int_lia|int_lia].
Defined.

Lemma backend_refines_bytes_witness :
  exists h', bk_run_all (Ptr 2 0)
    [BWrite 100 [1; 2; 3]; BRead 101 2; BZero 0 1; BRead 1020 8] (Some ex_backend) ex_bk_heap
  = Some ([(0, []); (0, [2; 3]); (0, []); (- ERANGE, [])], Some ex_backend, h').
Proof.
  pose proof (backend_refines_bytes
    [BWrite 100 [1; 2; 3]; BRead 101 2; BZero 0 1; BRead 1020 8]
    ex_backend 1 (replicate 1024 0) ex_bk_heap 2 16 ex_backend_wf) as H.
  destruct H as (h' & E & _).
  - split; [lia|]. exists (replicate 16 7). split; reflexivity.
  - repeat constructor; vm_compute; intuition congruence.
  - exists h'. exact E.
Defined.

Lemma backend_create_accepts_witness :
  exists bk h', ramdisk_backend_create (mk_create_env 0 true 170) (Some backend_zero)
                  1536 512 heap_empty = Some (0, Some bk, h') /\
    backend_wf bk 1 (replicate (Z.to_nat 1536) 0) h'.
Proof.
  destruct (backend_create_accepts backend_zero 1536 512 170 heap_empty) as [H _];
    [int_lia|int_lia|].
  destruct H as (bk & h' & E & W & _); [split; [lia|exists 9; lia]|].
  exists bk, h'. auto.
Defined.

Lemma backend_destroy_final_witness :
  exists bk', ramdisk_backend_destroy (Some ex_backend) ex_bk_heap
              = Some (Some bk', hdel 1 ex_bk_heap) /\
    ramdisk_backend_destroy (Some bk') (hdel 1 ex_bk_heap)
    = Some (Some bk', hdel 1 ex_bk_heap).
Proof.
  destruct (backend_destroy_final ex_backend 1 (replicate 1024 0) ex_bk_heap 0 8 (Ptr 2 0)
              ex_backend_wf) as (bk' & E & _ & _ & _ & E2); [reflexivity|].
  exists bk'. auto.
Defined.
