(* ===== verification/Bytes.v ===== *)
(** * Integers as bytes

    Little-endian layout of struct fields in memory (the host of the sources is
    little-endian), big-endian values on the NBD wire, and the conversions of
    [<arpa/inet.h>] that the sources call. *)

From S2P Require Import Prelude.

Fixpoint le_val (bs : list Z) : Z :=
  match bs with
  | [] => 0
  | b :: t => b + 256 * le_val t
  end.

Fixpoint le_bytes (n : nat) (v : Z) : list Z :=
  match n with
  | O => []
  | S n' => (v mod 256) :: le_bytes n' (v / 256)
  end.

Definition be_val (bs : list Z) : Z := le_val (rev bs).

Definition be_bytes (n : nat) (v : Z) : list Z := rev (le_bytes n v).

(** [ntohl] and [htonl] on a little-endian host reverse the four bytes. *)
Definition ntohl (v : Z) : Z := be_val (le_bytes 4 v).

Definition htonl (v : Z) : Z := be_val (le_bytes 4 v).

(** ** Lemmas *)

Lemma length_le_bytes n v : length (le_bytes n v) = n.
Proof. revert v; induction n; intros; cbn; auto. Qed.

Lemma length_be_bytes n v : length (be_bytes n v) = n.
Proof. unfold be_bytes; rewrite length_rev; apply length_le_bytes. Qed.

Lemma le_bytes_u8 n v : Forall is_u8 (le_bytes n v).
Proof.
  revert v; induction n; intros; cbn [le_bytes]; constructor; auto.
  unfold is_u8; pose proof (Z.mod_pos_bound v 256); lia.
Qed.

Lemma be_bytes_u8 n v : Forall is_u8 (be_bytes n v).
Proof. unfold be_bytes. apply Forall_rev, le_bytes_u8. Qed.

Lemma pow256_succ n : 256 ^ Z.of_nat (S n) = 256 * 256 ^ Z.of_nat n.
Proof. rewrite Nat2Z.inj_succ, Z.pow_succ_r by lia. auto. Qed.

Lemma le_val_bytes n v : le_val (le_bytes n v) = v mod 256 ^ Z.of_nat n.
Proof.
  revert v; induction n as [|n IH]; intros; [cbn; rewrite Z.mod_1_r; auto|].
  cbn [le_val le_bytes]. rewrite IH, pow256_succ.
  rewrite Z.rem_mul_r by lia. auto.
Qed.

Lemma le_val_bytes_small n v : 0 <= v < 256 ^ Z.of_nat n -> le_val (le_bytes n v) = v.
Proof. intros; rewrite le_val_bytes, Z.mod_small; auto. Qed.

Lemma le_val_bound bs : Forall is_u8 bs -> 0 <= le_val bs < 256 ^ Z.of_nat (length bs).
Proof.
  induction 1 as [|b bs Hb _ IH]; [cbn; lia|].
  cbn [le_val length]. rewrite pow256_succ. unfold is_u8 in Hb. lia.
Qed.

Lemma le_bytes_val bs : Forall is_u8 bs -> le_bytes (length bs) (le_val bs) = bs.
Proof.
  induction 1 as [|b bs Hb _ IH]; [auto|]. cbn [le_val length le_bytes].
  unfold is_u8 in Hb.
  rewrite (Z.mul_comm 256), Z.mod_add, Z.mod_small, Z.div_add, Z.div_small by lia.
  rewrite Z.add_0_l, IH. auto.
Qed.

Lemma le_val_app a b : le_val (a ++ b) = le_val a + 256 ^ Z.of_nat (length a) * le_val b.
Proof.
  induction a as [|x a IH]; [cbn; lia|]. cbn [app le_val length].
  rewrite IH, pow256_succ. lia.
Qed.

Lemma be_val_app a b : be_val (a ++ b) = be_val b + 256 ^ Z.of_nat (length b) * be_val a.
Proof. unfold be_val. rewrite rev_app_distr, le_val_app, length_rev. auto. Qed.

Lemma be_val_bound bs : Forall is_u8 bs -> 0 <= be_val bs < 256 ^ Z.of_nat (length bs).
Proof.
  intros H. unfold be_val. rewrite <- (length_rev bs). apply le_val_bound, Forall_rev; auto.
Qed.

Lemma be_val_bytes n v : 0 <= v < 256 ^ Z.of_nat n -> be_val (be_bytes n v) = v.
Proof. intros. unfold be_val, be_bytes. rewrite rev_involutive. apply le_val_bytes_small; auto. Qed.

(** Reading four wire bytes as a native integer and applying [ntohl] gives
    their big-endian value. *)
Lemma ntohl_wire bs : Forall is_u8 bs -> length bs = 4%nat -> ntohl (le_val bs) = be_val bs.
Proof. intros Hb Hl. unfold ntohl. rewrite <- Hl, le_bytes_val; auto. Qed.

(** Storing [htonl v] natively puts the big-endian bytes of [v] on the wire. *)
Lemma htonl_wire v : is_u32 v -> le_bytes 4 (htonl v) = be_bytes 4 v.
Proof.
  intros Hv. unfold htonl, be_val. fold (be_bytes 4 v).
  rewrite <- (length_be_bytes 4 v) at 1. apply le_bytes_val, be_bytes_u8.
Qed.

Lemma ntohl_bound v : is_u32 (ntohl v).
Proof.
  unfold ntohl, is_u32. pose proof (be_val_bound (le_bytes 4 v) (le_bytes_u8 4 v)) as H.
  rewrite length_le_bytes in H. change (256 ^ Z.of_nat 4) with (2 ^ 32) in H. auto.
Qed.

#[export] Hint Resolve le_bytes_u8 be_bytes_u8 ntohl_bound : ddr.
#[export] Hint Rewrite length_le_bytes length_be_bytes : buf.
