(* ===== verification/SockIO.v ===== *)
(** * Full reads and writes over a stream socket

    [read_full] and [write_full] of nbd_ramdisk.c, ramdisk_ctrl_server.c and
    ramdisk_ctrl_client.c.  A socket is the bytes the peer has sent, the bytes
    written to it, and a schedule of what the kernel answers to the next calls:
    a short transfer, an interruption by a signal, or an error.  After the
    schedule every call transfers as much as it can.  A call never reports a
    transfer of zero bytes except at the end of the peer's data. *)

From S2P Require Import Prelude.
From S2P Require Import Mem.

Inductive io_event : Type :=
| Chunk (k : Z)
| Intr
| Fail (e : Z).

Record sock : Type := mk_sock {
  sk_in : list Z;
  sk_rd : list io_event;
  sk_out : list Z;
  sk_wr : list io_event
}.

(** What a single call returns: data, or an errno. *)
Inductive io_ret : Type :=
| IoData (d : list Z)
| IoErr (e : Z).

(** read(2) of at most [n] bytes, [n > 0]. *)
Definition sys_read (n : Z) (s : sock) : io_ret * sock :=
  let data k := take (Z.to_nat k) (sk_in s) in
  let rest k := drop (Z.to_nat k) (sk_in s) in
  match sk_rd s with
  | [] => (IoData (data n), mk_sock (rest n) [] (sk_out s) (sk_wr s))
  | Chunk k :: sch =>
      let m := Z.min n (Z.max 1 k) in
      (IoData (data m), mk_sock (rest m) sch (sk_out s) (sk_wr s))
  | Intr :: sch => (IoErr EINTR, mk_sock (sk_in s) sch (sk_out s) (sk_wr s))
  | Fail e :: sch => (IoErr e, mk_sock (sk_in s) sch (sk_out s) (sk_wr s))
  end.

(** write(2) of [d], which is not empty: the number of bytes taken. *)
Definition sys_write (d : list Z) (s : sock) : (Z + Z) * sock :=
  let put k := sk_out s ++ take (Z.to_nat k) d in
  match sk_wr s with
  | [] => (inl (zlength d), mk_sock (sk_in s) (sk_rd s) (put (zlength d)) [])
  | Chunk k :: sch =>
      let m := Z.min (zlength d) (Z.max 1 k) in
      (inl m, mk_sock (sk_in s) (sk_rd s) (put m) sch)
  | Intr :: sch => (inr EINTR, mk_sock (sk_in s) (sk_rd s) (sk_out s) sch)
  | Fail e :: sch => (inr e, mk_sock (sk_in s) (sk_rd s) (sk_out s) sch)
  end.

(** The read loop: [got] has been received, [n] bytes are missing.  The result
    is the return value, the bytes placed in the buffer and the socket;
    [eof0] is what an end of data before the first byte returns. *)
Fixpoint read_loop (fuel : nat) (eof0 : Z) (n : Z) (got : list Z) (s : sock)
    : option (Z * list Z * sock) :=
  if n <=? 0 then Some (zlength got, got, s) else
  match fuel with
  | O => None
  | S fuel' =>
      match sys_read n s with
      | (IoData [], s') => Some (if zlength got =? 0 then eof0 else - EPIPE, got, s')
      | (IoData d, s') => read_loop fuel' eof0 (n - zlength d) (got ++ d) s'
      | (IoErr e, s') =>
          if e =? EINTR then read_loop fuel' eof0 n got s' else Some (- e, got, s')
      end
  end.

Definition read_fuel (len : Z) (s : sock) : nat := (length (sk_rd s) + Z.to_nat len + 1)%nat.

(** nbd_ramdisk.c and ramdisk_ctrl_server.c: end of data at once returns 0. *)
Definition read_full (len : Z) (s : sock) : option (Z * list Z * sock) :=
  read_loop (read_fuel len s) 0 len [] s.

(** ramdisk_ctrl_client.c: end of data is always -EPIPE. *)
Definition client_read_full (len : Z) (s : sock) : option (Z * list Z * sock) :=
  read_loop (read_fuel len s) (- EPIPE) len [] s.

Fixpoint write_loop (fuel : nat) (done : Z) (d : list Z) (s : sock) : option (Z * sock) :=
  match d with
  | [] => Some (done, s)
  | _ =>
      match fuel with
      | O => None
      | S fuel' =>
          match sys_write d s with
          | (inl n, s') => write_loop fuel' (done + n) (drop (Z.to_nat n) d) s'
          | (inr e, s') =>
              if e =? EINTR then write_loop fuel' done d s' else Some (- e, s')
          end
      end
  end.

Definition write_full (d : list Z) (s : sock) : option (Z * sock) :=
  write_loop (length (sk_wr s) + length d + 1) 0 d s.

(** A schedule without errors (short transfers and signals only). *)
Definition no_fail (sch : list io_event) : Prop :=
  Forall (fun e => match e with Fail _ => False | _ => True end) sch.

Definition sock_quiet (s : sock) : Prop := no_fail (sk_rd s) /\ no_fail (sk_wr s).

(** ** Lemmas *)

Definition read_cost (n : Z) (s : sock) : nat := (length (sk_rd s) + Z.to_nat n)%nat.

(** With enough fuel the read loop always returns: it never gets stuck. *)
Lemma read_loop_total fuel : forall eof0 n got s,
  (read_cost n s < fuel)%nat -> exists r, read_loop fuel eof0 n got s = Some r.
Proof.
  induction fuel as [|fuel IH]; intros eof0 n got s Hf; [lia|].
  cbn [read_loop]. destruct (Z.leb_spec n 0); [eauto|].
  unfold read_cost in *.
  unfold sys_read. destruct (sk_rd s) as [|[k| |e] sch] eqn:Es; cbn [length] in Hf.
  - destruct (take _ _) as [|x d] eqn:Et; [eauto|]. apply IH.
    unfold zlength; cbn; lia.
  - destruct (take _ _) as [|x d] eqn:Et; [eauto|]. apply IH. unfold zlength; cbn; lia.
  - rewrite Z.eqb_refl. apply IH; cbn; lia.
  - destruct (_ =? _); [apply IH; cbn; lia|eauto].
Qed.

(** Without errors the loop delivers the peer's bytes whatever the schedule. *)
Lemma read_loop_data fuel : forall eof0 n got s,
  (read_cost n s < fuel)%nat -> no_fail (sk_rd s) -> 0 <= n -> n <= zlength (sk_in s) ->
  exists sch, read_loop fuel eof0 n got s
    = Some (zlength got + n, got ++ take (Z.to_nat n) (sk_in s),
            mk_sock (drop (Z.to_nat n) (sk_in s)) sch (sk_out s) (sk_wr s)) /\ no_fail sch.
Proof.
  induction fuel as [|fuel IH]; intros eof0 n got s Hf Hnf Hn Hlen; [lia|].
  cbn [read_loop]. destruct (Z.leb_spec n 0) as [H0|H0].
  { assert (n = 0) as -> by lia. exists (sk_rd s). rewrite Z.add_0_r. cbn.
    rewrite drop_0, app_nil_r. destruct s; auto. }
  unfold read_cost, zlength in *.
  assert (Hstep : forall m sch, 0 < m <= n -> no_fail sch ->
    (length sch + Z.to_nat (n - m) < fuel)%nat ->
    exists sch', (match take (Z.to_nat m) (sk_in s) with
       | [] => Some (if Z.of_nat (length got) =? 0 then eof0 else - EPIPE, got,
                     mk_sock (drop (Z.to_nat m) (sk_in s)) sch (sk_out s) (sk_wr s))
       | _ :: _ => read_loop fuel eof0 (n - Z.of_nat (length (take (Z.to_nat m) (sk_in s))))
                     (got ++ take (Z.to_nat m) (sk_in s))
                     (mk_sock (drop (Z.to_nat m) (sk_in s)) sch (sk_out s) (sk_wr s))
       end) = Some (Z.of_nat (length got) + n, got ++ take (Z.to_nat n) (sk_in s),
            mk_sock (drop (Z.to_nat n) (sk_in s)) sch' (sk_out s) (sk_wr s)) /\ no_fail sch').
  { intros m sch Hm Hs Hfuel.
    assert (El : length (take (Z.to_nat m) (sk_in s)) = Z.to_nat m) by (rewrite length_take; lia).
    destruct (take (Z.to_nat m) (sk_in s)) as [|x t] eqn:Et; [cbn in El; lia|].
    rewrite <- Et, El in *.
    destruct (IH eof0 (n - Z.of_nat (Z.to_nat m)) (got ++ take (Z.to_nat m) (sk_in s))
      (mk_sock (drop (Z.to_nat m) (sk_in s)) sch (sk_out s) (sk_wr s))) as (sch' & E & Hs');
      cbn [sk_in sk_rd]; auto; try (rewrite ?length_drop; lia).
    exists sch'. split; auto. rewrite E. cbn [sk_in sk_out sk_wr].
    rewrite length_app, El, <- app_assoc, drop_drop, take_take_drop.
    replace (Z.to_nat m + Z.to_nat (n - Z.of_nat (Z.to_nat m)))%nat with (Z.to_nat n) by lia.
    replace (Z.of_nat (length got + Z.to_nat m) + (n - Z.of_nat (Z.to_nat m)))
      with (Z.of_nat (length got) + n) by lia.
    reflexivity. }
  unfold sys_read. destruct (sk_rd s) as [|[k| |e] sch] eqn:Es; cbn [length] in Hf.
  - apply Hstep; [lia|constructor|cbn; lia].
  - apply Forall_cons in Hnf as [_ Hnf]. apply Hstep; auto; lia.
  - apply Forall_cons in Hnf as [_ Hnf]. rewrite Z.eqb_refl.
    apply (IH eof0 n got (mk_sock (sk_in s) sch (sk_out s) (sk_wr s))); auto; cbn; lia.
  - apply Forall_cons in Hnf as [[] _].
Qed.

Lemma read_full_data len s :
  no_fail (sk_rd s) -> 0 <= len -> len <= zlength (sk_in s) ->
  exists sch, read_full len s
    = Some (len, take (Z.to_nat len) (sk_in s),
            mk_sock (drop (Z.to_nat len) (sk_in s)) sch (sk_out s) (sk_wr s)) /\ no_fail sch.
Proof.
  intros. unfold read_full. apply read_loop_data with (got := []); auto.
  unfold read_fuel, read_cost; lia.
Qed.

Lemma client_read_full_data len s :
  no_fail (sk_rd s) -> 0 <= len -> len <= zlength (sk_in s) ->
  exists sch, client_read_full len s
    = Some (len, take (Z.to_nat len) (sk_in s),
            mk_sock (drop (Z.to_nat len) (sk_in s)) sch (sk_out s) (sk_wr s)) /\ no_fail sch.
Proof.
  intros. unfold client_read_full. apply read_loop_data with (got := []); auto.
  unfold read_fuel, read_cost; lia.
Qed.

(** End of the peer's data at a message boundary. *)
Lemma read_full_eof len s :
  no_fail (sk_rd s) -> 0 < len -> sk_in s = [] ->
  exists sch, read_full len s = Some (0, [], mk_sock [] sch (sk_out s) (sk_wr s)) /\ no_fail sch.
Proof.
  intros Hnf Hl Hin. unfold read_full, read_fuel.
  assert (H : forall sch fuel, no_fail sch -> (length sch < fuel)%nat ->
    exists sch', read_loop fuel 0 len [] (mk_sock [] sch (sk_out s) (sk_wr s))
      = Some (0, [], mk_sock [] sch' (sk_out s) (sk_wr s)) /\ no_fail sch').
  { induction sch as [|e sch IH]; intros [|fuel] Hs Hf; cbn [length] in Hf; try lia;
      cbn [read_loop]; (destruct (Z.leb_spec len 0); [lia|]).
    - unfold sys_read; cbn. rewrite take_nil, drop_nil. eauto.
    - apply Forall_cons in Hs as [He Hs]. destruct e; [| |contradiction]; unfold sys_read; cbn.
      + rewrite take_nil, drop_nil. eauto.
      + apply IH; auto; lia. }
  destruct s as [i r o w]; cbn in *; subst. apply H; auto. lia.
Qed.

Definition write_cost (d : list Z) (s : sock) : nat := (length (sk_wr s) + length d)%nat.

Lemma write_loop_data fuel : forall done d s,
  (write_cost d s < fuel)%nat -> no_fail (sk_wr s) ->
  exists sch, write_loop fuel done d s
    = Some (done + zlength d, mk_sock (sk_in s) (sk_rd s) (sk_out s ++ d) sch) /\ no_fail sch.
Proof.
  induction fuel as [|fuel IH]; intros done d s Hf Hnf; [lia|].
  cbn [write_loop]. destruct d as [|x d'].
  { exists (sk_wr s). rewrite app_nil_r. destruct s; cbn. rewrite Z.add_0_r. auto. }
  set (d := x :: d') in *. unfold write_cost in *.
  assert (Hstep : forall m sch, 0 < m <= zlength d -> no_fail sch ->
    (length sch + length d < fuel + Z.to_nat m)%nat ->
    exists sch', write_loop fuel (done + m) (drop (Z.to_nat m) d)
        (mk_sock (sk_in s) (sk_rd s) (sk_out s ++ take (Z.to_nat m) d) sch)
      = Some (done + zlength d, mk_sock (sk_in s) (sk_rd s) (sk_out s ++ d) sch') /\ no_fail sch').
  { intros m sch Hm Hs Hfu. unfold zlength in *.
    destruct (IH (done + m) (drop (Z.to_nat m) d)
      (mk_sock (sk_in s) (sk_rd s) (sk_out s ++ take (Z.to_nat m) d) sch)) as (sch' & E & Hs');
      cbn [sk_wr]; auto; [rewrite length_drop; lia|].
    exists sch'. split; auto. rewrite E. cbn [sk_in sk_rd sk_out].
    rewrite <- app_assoc, take_drop. unfold zlength. rewrite length_drop.
    replace (done + m + Z.of_nat (length d - Z.to_nat m)) with (done + Z.of_nat (length d))
      by lia. reflexivity. }
  assert (0 < zlength d) by (unfold d, zlength; cbn [length]; lia).
  unfold sys_write. destruct (sk_wr s) as [|[k| |e] sch] eqn:Es; cbn [length] in Hf.
  - apply Hstep; [lia|constructor|]. unfold zlength in *; cbn [length] in *; lia.
  - apply Forall_cons in Hnf as [_ Hnf]. apply Hstep; auto; lia.
  - apply Forall_cons in Hnf as [_ Hnf]. rewrite Z.eqb_refl.
    apply (IH done d (mk_sock (sk_in s) (sk_rd s) (sk_out s) sch)); auto; cbn [sk_wr]; lia.
  - apply Forall_cons in Hnf as [[] _].
Qed.

Lemma write_full_data d s :
  no_fail (sk_wr s) ->
  exists sch, write_full d s
    = Some (zlength d, mk_sock (sk_in s) (sk_rd s) (sk_out s ++ d) sch) /\ no_fail sch.
Proof.
  intros. unfold write_full.
  apply (write_loop_data (length (sk_wr s) + length d + 1) 0 d s); auto.
  unfold write_cost; lia.
Qed.

(** ** Schedules with errors *)

(** An error that the kernel reports is a positive errno. *)
Definition sched_ok (sch : list io_event) : Prop :=
  Forall (fun e => match e with Fail e => 0 < e | _ => True end) sch.

Definition sock_ok (s : sock) : Prop := sched_ok (sk_rd s) /\ sched_ok (sk_wr s).

Lemma no_fail_sched_ok sch : no_fail sch -> sched_ok sch.
Proof. intros H. eapply Forall_impl; [exact H|]. intros []; tauto. Qed.

Lemma sock_quiet_ok s : sock_quiet s -> sock_ok s.
Proof. intros [? ?]; split; apply no_fail_sched_ok; auto. Qed.

(** Whatever the schedule, the loop returns, the bytes it delivers are the
    bytes it consumes, never more than asked for, and a positive result means
    that all of them arrived. *)
Lemma read_loop_any fuel : forall eof0 n got s,
  (read_cost n s < fuel)%nat -> sched_ok (sk_rd s) -> 0 <= n -> eof0 <= 0 ->
  exists r t s', read_loop fuel eof0 n got s = Some (r, got ++ t, s') /\
    sk_in s = t ++ sk_in s' /\ zlength t <= n /\ sk_out s' = sk_out s /\
    sk_wr s' = sk_wr s /\ sched_ok (sk_rd s') /\
    (r <= 0 \/ zlength t = n /\ r = zlength got + n).
Proof.
  induction fuel as [|fuel IH]; intros eof0 n got s Hf Hok Hn He; [lia|].
  cbn [read_loop]. destruct (Z.leb_spec n 0) as [H0|H0].
  { assert (n = 0) as -> by lia. exists (zlength got), [], s. rewrite app_nil_r.
    unfold zlength; cbn. split_and!; auto; try lia. }
  unfold read_cost in *.
  assert (Hstep : forall m sch, 0 < m <= n -> sched_ok sch ->
    (length sch + Z.to_nat n < S fuel)%nat ->
    exists r t s', (match take (Z.to_nat m) (sk_in s) with
       | [] => Some (if zlength got =? 0 then eof0 else - EPIPE, got,
                     mk_sock (drop (Z.to_nat m) (sk_in s)) sch (sk_out s) (sk_wr s))
       | _ :: _ => read_loop fuel eof0 (n - zlength (take (Z.to_nat m) (sk_in s)))
                     (got ++ take (Z.to_nat m) (sk_in s))
                     (mk_sock (drop (Z.to_nat m) (sk_in s)) sch (sk_out s) (sk_wr s))
       end) = Some (r, got ++ t, s') /\
    sk_in s = t ++ sk_in s' /\ zlength t <= n /\ sk_out s' = sk_out s /\
    sk_wr s' = sk_wr s /\ sched_ok (sk_rd s') /\
    (r <= 0 \/ zlength t = n /\ r = zlength got + n)).
  { intros m sch Hm Hs Hfu. pose proof (take_drop (Z.to_nat m) (sk_in s)) as Etd.
    pose proof (length_take (sk_in s) (Z.to_nat m)) as Elt.
    destruct (take (Z.to_nat m) (sk_in s)) as [|x d] eqn:Et.
    - eexists _, [], _. rewrite app_nil_r. split; [reflexivity|]. cbn in *.
      unfold zlength at 1; cbn. split_and!; auto; try lia.
      left. case_if; unfold EPIPE; lia.
    - set (dd := x :: d) in *. unfold zlength in *. cbn [length] in *.
      assert (0 < length dd)%nat by (unfold dd; cbn; lia).
      destruct (IH eof0 (n - Z.of_nat (length dd)) (got ++ dd)
        (mk_sock (drop (Z.to_nat m) (sk_in s)) sch (sk_out s) (sk_wr s)))
        as (r & t & s' & -> & E1 & E2 & E3 & E4 & E5 & E6); cbn [sk_rd]; auto; try lia.
      exists r, (dd ++ t), s'. rewrite <- app_assoc. cbn [sk_in sk_out sk_wr] in *.
      rewrite length_app. split_and!; auto; try lia.
      + rewrite <- Etd, E1, app_assoc. auto.
      + destruct E6 as [?|[? ->]]; [auto|right]. rewrite length_app. lia. }
  unfold sys_read. destruct (sk_rd s) as [|[k| |e] sch] eqn:Es; cbn [length] in Hf.
  - apply Hstep; [lia|constructor|cbn; lia].
  - apply Forall_cons in Hok as [_ Hok]. apply Hstep; auto; lia.
  - apply Forall_cons in Hok as [_ Hok]. rewrite Z.eqb_refl.
    apply (IH eof0 n got (mk_sock (sk_in s) sch (sk_out s) (sk_wr s))); auto; cbn; lia.
  - apply Forall_cons in Hok as [He' Hok]. destruct (e =? EINTR).
    + apply (IH eof0 n got (mk_sock (sk_in s) sch (sk_out s) (sk_wr s))); auto; cbn; lia.
    + eexists _, [], _. rewrite app_nil_r. split; [reflexivity|]. cbn.
      unfold zlength; cbn. split_and!; auto; lia.
Qed.

Lemma read_full_any len s :
  sched_ok (sk_rd s) -> 0 <= len ->
  exists r t s', read_full len s = Some (r, t, s') /\
    sk_in s = t ++ sk_in s' /\ zlength t <= len /\ sk_out s' = sk_out s /\
    sk_wr s' = sk_wr s /\ sched_ok (sk_rd s') /\ (r <= 0 \/ zlength t = len /\ r = len).
Proof.
  intros. apply (read_loop_any _ 0 len []); auto; [|lia].
  unfold read_fuel, read_cost; lia.
Qed.

(** Whatever the schedule, the write loop returns and has put a prefix of its
    data on the stream, all of it when it reports success. *)
Lemma write_loop_any fuel : forall done d s,
  (write_cost d s < fuel)%nat -> sched_ok (sk_wr s) ->
  exists r t s', write_loop fuel done d s = Some (r, s') /\
    sk_out s' = sk_out s ++ t /\ t `prefix_of` d /\ sk_in s' = sk_in s /\
    sk_rd s' = sk_rd s /\ sched_ok (sk_wr s') /\
    (r < 0 \/ t = d /\ r = done + zlength d).
Proof.
  induction fuel as [|fuel IH]; intros done d s Hf Hok; [lia|].
  cbn [write_loop]. destruct d as [|x d'].
  { exists done, [], s. rewrite app_nil_r. unfold zlength; cbn.
    split_and!; auto; right; split; auto; lia. }
  set (d := x :: d') in *. unfold write_cost in *.
  assert (Hz : 0 < zlength d) by (unfold d, zlength; cbn [length]; lia).
  assert (Hstep : forall m sch, 0 < m <= zlength d -> sched_ok sch ->
    (length sch + length d < fuel + Z.to_nat m)%nat ->
    exists r t s', write_loop fuel (done + m) (drop (Z.to_nat m) d)
        (mk_sock (sk_in s) (sk_rd s) (sk_out s ++ take (Z.to_nat m) d) sch) = Some (r, s') /\
    sk_out s' = sk_out s ++ t /\ t `prefix_of` d /\ sk_in s' = sk_in s /\
    sk_rd s' = sk_rd s /\ sched_ok (sk_wr s') /\ (r < 0 \/ t = d /\ r = done + zlength d)).
  { intros m sch Hm Hs Hfu. unfold zlength in *.
    destruct (IH (done + m) (drop (Z.to_nat m) d)
      (mk_sock (sk_in s) (sk_rd s) (sk_out s ++ take (Z.to_nat m) d) sch))
      as (r & t & s' & -> & E1 & E2 & E3 & E4 & E5 & E6);
      cbn [sk_wr]; auto; [rewrite length_drop; lia|].
    exists r, (take (Z.to_nat m) d ++ t), s'. cbn [sk_out sk_in sk_rd] in *.
    split_and!; auto.
    - rewrite E1, app_assoc. auto.
    - rewrite <- (take_drop (Z.to_nat m) d) at 2. apply prefix_app; auto.
    - destruct E6 as [?|[-> ->]]; [auto|right]. rewrite take_drop, length_drop. split; auto; lia. }
  unfold sys_write. destruct (sk_wr s) as [|[k| |e] sch] eqn:Es; cbn [length] in Hf.
  - apply Hstep; [lia|constructor|]. unfold zlength in *; cbn [length] in *; lia.
  - apply Forall_cons in Hok as [_ Hok]. apply Hstep; auto; lia.
  - apply Forall_cons in Hok as [_ Hok]. rewrite Z.eqb_refl.
    apply (IH done d (mk_sock (sk_in s) (sk_rd s) (sk_out s) sch)); auto; cbn [sk_wr]; lia.
  - apply Forall_cons in Hok as [He Hok]. destruct (e =? EINTR).
    + apply (IH done d (mk_sock (sk_in s) (sk_rd s) (sk_out s) sch)); auto; cbn [sk_wr]; lia.
    + eexists _, [], _. rewrite app_nil_r. split; [reflexivity|].
      split_and!; auto using prefix_nil. left; lia.
Qed.

Lemma write_full_any d s :
  sched_ok (sk_wr s) ->
  exists r t s', write_full d s = Some (r, s') /\
    sk_out s' = sk_out s ++ t /\ t `prefix_of` d /\ sk_in s' = sk_in s /\
    sk_rd s' = sk_rd s /\ sched_ok (sk_wr s') /\ (r < 0 \/ t = d /\ r = zlength d).
Proof.
  intros. unfold write_full.
  apply (write_loop_any (length (sk_wr s) + length d + 1) 0 d s); auto.
  unfold write_cost; lia.
Qed.

(** Without errors but with too little data the loop takes what there is. *)
Lemma read_loop_short fuel : forall eof0 n got s,
  (read_cost n s < fuel)%nat -> no_fail (sk_rd s) -> zlength (sk_in s) < n ->
  exists sch, read_loop fuel eof0 n got s
    = Some (if zlength (got ++ sk_in s) =? 0 then eof0 else - EPIPE, got ++ sk_in s,
            mk_sock [] sch (sk_out s) (sk_wr s)) /\ no_fail sch.
Proof.
  induction fuel as [|fuel IH]; intros eof0 n got s Hf Hnf Hlen; [lia|].
  cbn [read_loop]. unfold read_cost, zlength in *. destruct (Z.leb_spec n 0); [lia|].
  assert (Hstep : forall m sch, 0 < m <= n -> no_fail sch ->
    (length sch + Z.to_nat n < S fuel)%nat ->
    exists sch', (match take (Z.to_nat m) (sk_in s) with
       | [] => Some (if Z.of_nat (length got) =? 0 then eof0 else - EPIPE, got,
                     mk_sock (drop (Z.to_nat m) (sk_in s)) sch (sk_out s) (sk_wr s))
       | _ :: _ => read_loop fuel eof0 (n - Z.of_nat (length (take (Z.to_nat m) (sk_in s))))
                     (got ++ take (Z.to_nat m) (sk_in s))
                     (mk_sock (drop (Z.to_nat m) (sk_in s)) sch (sk_out s) (sk_wr s))
       end) = Some (if Z.of_nat (length (got ++ sk_in s)) =? 0 then eof0 else - EPIPE,
                    got ++ sk_in s, mk_sock [] sch' (sk_out s) (sk_wr s)) /\ no_fail sch').
  { intros m sch Hm Hs Hfu. pose proof (take_drop (Z.to_nat m) (sk_in s)) as Etd.
    destruct (take (Z.to_nat m) (sk_in s)) as [|x d] eqn:Et.
    - assert (sk_in s = []) as E0.
      { destruct (sk_in s); auto. replace (Z.to_nat m) with (S (Z.to_nat m - 1)) in Et by lia.
        discriminate. }
      rewrite E0, app_nil_r, drop_nil. eauto.
    - set (dd := x :: d) in *. assert (0 < length dd)%nat by (unfold dd; cbn; lia).
      assert (Ed : length (sk_in s)
                   = (length dd + length (drop (Z.to_nat m) (sk_in s)))%nat)
        by (rewrite <- Etd at 1; apply length_app).
      destruct (IH eof0 (n - Z.of_nat (length dd)) (got ++ dd)
        (mk_sock (drop (Z.to_nat m) (sk_in s)) sch (sk_out s) (sk_wr s))) as (sch' & E & Hs');
        cbn [sk_in sk_rd]; auto; try lia.
      exists sch'. split; auto. rewrite E. cbn [sk_in sk_out sk_wr].
      rewrite <- app_assoc, Etd. auto. }
  unfold sys_read. destruct (sk_rd s) as [|[k| |e] sch] eqn:Es; cbn [length] in Hf.
  - apply Hstep; [lia|constructor|cbn; lia].
  - apply Forall_cons in Hnf as [_ Hnf]. apply Hstep; auto; lia.
  - apply Forall_cons in Hnf as [_ Hnf]. rewrite Z.eqb_refl.
    apply (IH eof0 n got (mk_sock (sk_in s) sch (sk_out s) (sk_wr s))); auto; cbn; lia.
  - apply Forall_cons in Hnf as [[] _].
Qed.

(** C29: the result of a full read depends only on the peer's bytes, not on how
    the kernel cuts them up or interrupts the calls.  The loop terminates; it
    returns [len] with the next [len] bytes when they are there; at the end of
    the data it returns -EPIPE after a partial message, and before the first
    byte 0 (daemon) or -EPIPE (client library).  No call fails with an error other
    than an interruption. *)
Theorem read_full_spec len s :
  no_fail (sk_rd s) -> 0 <= len ->
  let avail := zlength (sk_in s) in
  exists s1 s2,
    read_full len s
    = Some (if len <=? avail then len else if avail =? 0 then 0 else - EPIPE,
            take (Z.to_nat len) (sk_in s), s1) /\
    client_read_full len s
    = Some (if len <=? avail then len else - EPIPE, take (Z.to_nat len) (sk_in s), s2) /\
    sk_in s1 = drop (Z.to_nat len) (sk_in s) /\ sk_in s2 = drop (Z.to_nat len) (sk_in s) /\
    sk_out s1 = sk_out s /\ sk_out s2 = sk_out s.
Proof.
  intros Hnf Hl avail. unfold avail. destruct (Z.leb_spec len (zlength (sk_in s))).
  - destruct (read_full_data len s) as (a & -> & _); auto.
    destruct (client_read_full_data len s) as (b & -> & _); auto.
    eexists _, _. do 2 (split; [reflexivity|]). auto.
  - assert (Et : take (Z.to_nat len) (sk_in s) = sk_in s)
      by (apply take_ge; unfold zlength in *; lia).
    assert (Ed : drop (Z.to_nat len) (sk_in s) = [])
      by (apply drop_ge; unfold zlength in *; lia).
    unfold read_full, client_read_full.
    destruct (read_loop_short (read_fuel len s) 0 len [] s) as (a & -> & _);
      [unfold read_fuel, read_cost; lia|auto|auto|].
    destruct (read_loop_short (read_fuel len s) (- EPIPE) len [] s) as (b & -> & _);
      [unfold read_fuel, read_cost; lia|auto|auto|].
    rewrite Et, Ed. eexists _, _. split; [reflexivity|].
    split; [cbn [app]; case_if; reflexivity|auto].
Qed.

Lemma read_full_spec_witness :
  let s := mk_sock [1; 2; 3; 4; 5] [Chunk 1; Intr; Chunk 2] [] [] in
  exists s1, read_full 4 s = Some (4, [1; 2; 3; 4], s1) /\ sk_in s1 = [5].
Proof.
  intros s. destruct (read_full_spec 4 s) as (s1 & s2 & E & _ & Hi & _);
    [repeat constructor|lia|]. exists s1. split; [exact E|exact Hi].
Defined.

(** a full write terminates under any schedule of short writes, signals
    and errors.  What reaches the stream is always a prefix of the data, and
    the whole of it whenever the call does not report an error. *)
Theorem write_full_prefix d s :
  sched_ok (sk_wr s) ->
  exists r t s', write_full d s = Some (r, s') /\ sk_out s' = sk_out s ++ t /\
    t `prefix_of` d /\ (r < 0 \/ t = d /\ r = zlength d) /\
    (no_fail (sk_wr s) -> t = d /\ r = zlength d).
Proof.
  intros Hok. destruct (write_full_any d s Hok) as (r & t & s' & E & Ho & Hp & _ & _ & _ & Hr).
  exists r, t, s'. split_and!; auto. intros Hnf.
  destruct (write_full_data d s Hnf) as (sch & E' & _). rewrite E' in E.
  injection E as <- <-. destruct Hr as [Hr|?]; [unfold zlength in Hr; lia|auto].
Qed.

Lemma write_full_prefix_witness :
  let s := mk_sock [] [] [9] [Chunk 2; Intr; Fail EIO] in
  exists r t s', write_full [1; 2; 3] s = Some (r, s') /\ sk_out s' = [9] ++ t /\
    t `prefix_of` [1; 2; 3].
Proof.
  intros s. destruct (write_full_prefix [1; 2; 3] s) as (r & t & s' & E & Ho & Hp & _);
    [repeat constructor; lia|]. exists r, t, s'. auto.
Defined.
