(* ===== verification/CtrlProto.v ===== *)
(** * The control protocol (userspace-nbd/include/ramdisk_ctrl.h)

    The structs of the control socket and their bytes in memory: fields in
    declaration order at their natural alignment, which leaves no padding in
    any of them, integers little-endian.  The sources send the structs as they
    lie in memory. *)

From S2P Require Import Prelude.
From S2P Require Import Mem.
From S2P Require Import Bytes.

Definition RAMDISK_CTRL_MAGIC : Z := 0x52444354.

Definition RAMDISK_CTRL_VERSION : Z := 1.

Definition RAMDISK_CTRL_MAX_PAYLOAD : Z := 4096.

Definition RAMDISK_CTRL_QUERY_STATUS : Z := 1.

Definition RAMDISK_CTRL_URMA_ENABLE : Z := 2.

Definition RAMDISK_CTRL_URMA_DISABLE : Z := 3.

Definition RAMDISK_CTRL_PEER_CONNECT : Z := 4.

Definition RAMDISK_CTRL_PEER_DISCONNECT : Z := 5.

Definition RAMDISK_CTRL_URMA_TRANSFER : Z := 6.

Definition RAMDISK_TO_HBM : Z := 1.

Definition HBM_TO_RAMDISK : Z := 2.

(** ** Generic integer fields *)

Fixpoint fields_to_bytes (fs : list (nat * Z)) : list Z :=
  match fs with
  | [] => []
  | (w, v) :: fs' => le_bytes w v ++ fields_to_bytes fs'
  end.

Fixpoint fields_of_bytes (ws : list nat) (bs : list Z) : list Z :=
  match ws with
  | [] => []
  | w :: ws' => le_val (take w bs) :: fields_of_bytes ws' (drop w bs)
  end.

Definition field_ok (f : nat * Z) : Prop := 0 <= snd f < 256 ^ Z.of_nat (fst f).

Definition widths (fs : list (nat * Z)) : nat := sum_list (map fst fs).

Lemma length_fields fs : length (fields_to_bytes fs) = widths fs.
Proof.
  unfold widths. induction fs as [|[w v] fs IH]; [auto|].
  cbn. rewrite length_app, length_le_bytes, IH. auto.
Qed.

Lemma fields_u8 fs : Forall is_u8 (fields_to_bytes fs).
Proof.
  induction fs as [|[w v] fs IH]; [constructor|]. cbn. apply Forall_app. auto with ddr.
Qed.

Lemma fields_roundtrip fs rest :
  Forall field_ok fs ->
  fields_of_bytes (map fst fs) (fields_to_bytes fs ++ rest) = map snd fs.
Proof.
  induction 1 as [|[w v] fs Hf _ IH]; [auto|]. cbn. rewrite <- app_assoc.
  rewrite take_app_length', drop_app_length' by (rewrite length_le_bytes; reflexivity).
  rewrite IH, le_val_bytes_small; auto.
Qed.

Lemma fields_roundtrip' fs : Forall field_ok fs ->
  fields_of_bytes (map fst fs) (fields_to_bytes fs) = map snd fs.
Proof. intros H. rewrite <- (fields_roundtrip fs []) by auto. rewrite app_nil_r. auto. Qed.

(** ** struct ramdisk_ctrl_hdr *)

Record ramdisk_ctrl_hdr : Type := mk_hdr {
  ch_magic : Z;
  ch_version : Z;
  ch_opcode : Z;
  ch_payload_len : Z;
  ch_flags : Z;
  ch_request_id : Z
}.

Definition hdr_size : Z := 24.

Definition hdr_fields (h : ramdisk_ctrl_hdr) : list (nat * Z) :=
  [(4%nat, ch_magic h); (2%nat, ch_version h); (2%nat, ch_opcode h);
   (4%nat, ch_payload_len h); (4%nat, ch_flags h); (8%nat, ch_request_id h)].

Definition hdr_to_bytes (h : ramdisk_ctrl_hdr) : list Z := fields_to_bytes (hdr_fields h).

Definition hdr_of_bytes (bs : list Z) : ramdisk_ctrl_hdr :=
  match fields_of_bytes [4; 2; 2; 4; 4; 8]%nat bs with
  | [m; v; o; p; f; r] => mk_hdr m v o p f r
  | _ => mk_hdr 0 0 0 0 0 0
  end.

Definition hdr_typed (h : ramdisk_ctrl_hdr) : Prop :=
  is_u32 (ch_magic h) /\ is_u16 (ch_version h) /\ is_u16 (ch_opcode h) /\
  is_u32 (ch_payload_len h) /\ is_u32 (ch_flags h) /\ is_u64 (ch_request_id h).

(** ** struct ramdisk_ctrl_resp *)

Record ramdisk_ctrl_resp : Type := mk_resp {
  cr_hdr : ramdisk_ctrl_hdr;
  cr_status : Z;
  cr_payload_len : Z
}.

Definition resp_size : Z := 32.

Definition resp_to_bytes (r : ramdisk_ctrl_resp) : list Z :=
  hdr_to_bytes (cr_hdr r) ++ fields_to_bytes [(4%nat, u32 (cr_status r)); (4%nat, cr_payload_len r)].

Definition resp_of_bytes (bs : list Z) : ramdisk_ctrl_resp :=
  match fields_of_bytes [4; 4]%nat (drop 24 bs) with
  | [s; p] => mk_resp (hdr_of_bytes bs) (s32 s) p
  | _ => mk_resp (hdr_of_bytes bs) 0 0
  end.

(** ** struct ramdisk_ctrl_status *)

Record ramdisk_ctrl_status : Type := mk_status {
  cs_size : Z;
  cs_block_size : Z;
  cs_urma_enabled : Z;
  cs_peer_count : Z;
  cs_queue_depth : Z;
  cs_inflight : Z;
  cs_pending : Z;
  cs_completed : Z;
  cs_failed : Z
}.

Definition status_size : Z := 48.

Definition status_zero : ramdisk_ctrl_status := mk_status 0 0 0 0 0 0 0 0 0.

Definition status_fields (s : ramdisk_ctrl_status) : list (nat * Z) :=
  [(8%nat, cs_size s); (4%nat, cs_block_size s); (4%nat, cs_urma_enabled s);
   (4%nat, cs_peer_count s); (4%nat, cs_queue_depth s); (4%nat, cs_inflight s);
   (4%nat, cs_pending s); (8%nat, cs_completed s); (8%nat, cs_failed s)].

Definition status_to_bytes (s : ramdisk_ctrl_status) : list Z :=
  fields_to_bytes (status_fields s).

Definition status_of_bytes (bs : list Z) : ramdisk_ctrl_status :=
  match fields_of_bytes [8; 4; 4; 4; 4; 4; 4; 8; 8]%nat bs with
  | [a; b; c; d; e; f; g; h; i] => mk_status a b c d e f g h i
  | _ => status_zero
  end.

Definition status_typed (s : ramdisk_ctrl_status) : Prop :=
  is_u64 (cs_size s) /\ is_u32 (cs_block_size s) /\ is_u32 (cs_urma_enabled s) /\
  is_u32 (cs_peer_count s) /\ is_u32 (cs_queue_depth s) /\ is_u32 (cs_inflight s) /\
  is_u32 (cs_pending s) /\ is_u64 (cs_completed s) /\ is_u64 (cs_failed s).

(** ** struct ramdisk_ctrl_peer_connect_info *)

Record ramdisk_ctrl_peer_connect_info : Type := mk_peer_info {
  ci_peer_id : Z;
  ci_eid : list Z;
  ci_uasid : Z;
  ci_reserved0 : Z;
  ci_seg_va : Z;
  ci_seg_len : Z;
  ci_seg_token_id : Z;
  ci_jetty_id : Z
}.

Definition peer_info_size : Z := 56.

Definition peer_info_to_bytes (i : ramdisk_ctrl_peer_connect_info) : list Z :=
  fields_to_bytes [(8%nat, ci_peer_id i)] ++ ci_eid i ++
  fields_to_bytes [(4%nat, ci_uasid i); (4%nat, ci_reserved0 i); (8%nat, ci_seg_va i);
                   (8%nat, ci_seg_len i); (4%nat, ci_seg_token_id i); (4%nat, ci_jetty_id i)].

Definition peer_info_of_bytes (bs : list Z) : ramdisk_ctrl_peer_connect_info :=
  let id := le_val (take 8 bs) in
  let eid := take 16 (drop 8 bs) in
  match fields_of_bytes [4; 4; 8; 8; 4; 4]%nat (drop 24 bs) with
  | [u; r; va; len; tok; jet] => mk_peer_info id eid u r va len tok jet
  | _ => mk_peer_info id eid 0 0 0 0 0 0
  end.

Definition peer_info_typed (i : ramdisk_ctrl_peer_connect_info) : Prop :=
  is_u64 (ci_peer_id i) /\ length (ci_eid i) = 16%nat /\ Forall is_u8 (ci_eid i) /\
  is_u32 (ci_uasid i) /\ is_u32 (ci_reserved0 i) /\ is_u64 (ci_seg_va i) /\
  is_u64 (ci_seg_len i) /\ is_u32 (ci_seg_token_id i) /\ is_u32 (ci_jetty_id i).

(** ** struct ramdisk_ctrl_peer_disconnect *)

Record ramdisk_ctrl_peer_disconnect : Type := mk_disconnect { cd_peer_id : Z }.

Definition disconnect_size : Z := 8.

Definition disconnect_to_bytes (d : ramdisk_ctrl_peer_disconnect) : list Z :=
  fields_to_bytes [(8%nat, cd_peer_id d)].

Definition disconnect_of_bytes (bs : list Z) : ramdisk_ctrl_peer_disconnect :=
  mk_disconnect (le_val (take 8 bs)).

(** ** struct ramdisk_ctrl_urma_transfer *)

Record ramdisk_ctrl_urma_transfer : Type := mk_transfer {
  ct_peer_id : Z;
  ct_request_id : Z;
  ct_local_offset : Z;
  ct_remote_hbm_addr : Z;
  ct_length : Z;
  ct_direction : Z
}.

Definition transfer_size : Z := 40.

Definition transfer_fields (t : ramdisk_ctrl_urma_transfer) : list (nat * Z) :=
  [(8%nat, ct_peer_id t); (8%nat, ct_request_id t); (8%nat, ct_local_offset t);
   (8%nat, ct_remote_hbm_addr t); (4%nat, ct_length t); (4%nat, ct_direction t)].

Definition transfer_to_bytes (t : ramdisk_ctrl_urma_transfer) : list Z :=
  fields_to_bytes (transfer_fields t).

Definition transfer_of_bytes (bs : list Z) : ramdisk_ctrl_urma_transfer :=
  match fields_of_bytes [8; 8; 8; 8; 4; 4]%nat bs with
  | [a; b; c; d; e; f] => mk_transfer a b c d e f
  | _ => mk_transfer 0 0 0 0 0 0
  end.

Definition transfer_typed (t : ramdisk_ctrl_urma_transfer) : Prop :=
  is_u64 (ct_peer_id t) /\ is_u64 (ct_request_id t) /\ is_u64 (ct_local_offset t) /\
  is_u64 (ct_remote_hbm_addr t) /\ is_u32 (ct_length t) /\ is_u32 (ct_direction t).

(** ** Lemmas: sizes and round trips *)

Ltac fields_ok := repeat constructor; unfold field_ok; cbn [fst snd];
  repeat match goal with H : _ /\ _ |- _ => destruct H end;
  unfold is_u16, is_u32, is_u64 in *; cbn; lia.

Lemma hdr_roundtrip h rest :
  hdr_typed h -> hdr_of_bytes (hdr_to_bytes h ++ rest) = h.
Proof.
  intros T. unfold hdr_of_bytes, hdr_to_bytes.
  change [4; 2; 2; 4; 4; 8]%nat with (map fst (hdr_fields h)).
  rewrite fields_roundtrip by (unfold hdr_typed in T; fields_ok). destruct h; reflexivity.
Qed.

Lemma length_hdr h : length (hdr_to_bytes h) = 24%nat.
Proof. unfold hdr_to_bytes. rewrite length_fields. reflexivity. Qed.

Lemma s32_u32 v : - 2 ^ 31 <= v < 2 ^ 31 -> s32 (u32 v) = v.
Proof.
  intros Hv. unfold s32, u32, wrap. rewrite Z.mod_mod by lia.
  destruct (Z.ltb_spec (v mod 2 ^ 32) (2 ^ 31)) as [H|H].
  - destruct (Z.lt_ge_cases v 0); [|apply Z.mod_small; lia].
    rewrite <- (Z.mod_add v 1) in H by lia. rewrite Z.mod_small in H; lia.
  - destruct (Z.lt_ge_cases v 0); [|rewrite Z.mod_small in H; lia].
    rewrite <- (Z.mod_add v 1), Z.mod_small by lia. lia.
Qed.

Lemma length_resp r : length (resp_to_bytes r) = 32%nat.
Proof. unfold resp_to_bytes. rewrite length_app, length_hdr, length_fields. reflexivity. Qed.

Lemma resp_roundtrip r rest :
  hdr_typed (cr_hdr r) -> - 2 ^ 31 <= cr_status r < 2 ^ 31 -> is_u32 (cr_payload_len r) ->
  resp_of_bytes (resp_to_bytes r ++ rest) = r.
Proof.
  intros Th Hs Hp. unfold resp_of_bytes, resp_to_bytes. rewrite <- !app_assoc.
  rewrite drop_app_length' by (rewrite length_hdr; reflexivity). rewrite hdr_roundtrip by auto.
  change [4; 4]%nat with
    (map fst [(4%nat, u32 (cr_status r)); (4%nat, cr_payload_len r)]).
  rewrite fields_roundtrip.
  - cbn. rewrite s32_u32 by auto. destruct r; reflexivity.
  - pose proof (wrap_bound 32 (cr_status r)) as Hw. unfold u32. fields_ok.
Qed.

Lemma length_status s : length (status_to_bytes s) = 48%nat.
Proof. unfold status_to_bytes. rewrite length_fields. reflexivity. Qed.

Lemma status_roundtrip s : status_typed s -> status_of_bytes (status_to_bytes s) = s.
Proof.
  intros T. unfold status_of_bytes, status_to_bytes.
  change [8; 4; 4; 4; 4; 4; 4; 8; 8]%nat with (map fst (status_fields s)).
  rewrite fields_roundtrip' by (unfold status_typed in T; fields_ok). destruct s; reflexivity.
Qed.

Lemma length_peer_info i : length (ci_eid i) = 16%nat -> length (peer_info_to_bytes i) = 56%nat.
Proof. intros H. unfold peer_info_to_bytes. rewrite !length_app, !length_fields, H. reflexivity. Qed.

Lemma peer_info_roundtrip i rest :
  peer_info_typed i -> peer_info_of_bytes (peer_info_to_bytes i ++ rest) = i.
Proof.
  intros (T1 & L & E & T2 & T3 & T4 & T5 & T6 & T7).
  unfold peer_info_of_bytes, peer_info_to_bytes. rewrite <- !app_assoc.
  set (fs := [(4%nat, ci_uasid i); (4%nat, ci_reserved0 i); (8%nat, ci_seg_va i);
              (8%nat, ci_seg_len i); (4%nat, ci_seg_token_id i); (4%nat, ci_jetty_id i)]).
  replace (fields_to_bytes [(8%nat, ci_peer_id i)]) with (le_bytes 8 (ci_peer_id i))
    by (cbn [fields_to_bytes]; rewrite app_nil_r; auto).
  change 24%nat with (8 + 16)%nat. rewrite <- drop_drop.
  rewrite take_app_length' by (rewrite length_le_bytes; reflexivity).
  rewrite (drop_app_length' (le_bytes 8 _)) by (rewrite length_le_bytes; reflexivity).
  rewrite take_app_length', drop_app_length' by auto.
  rewrite le_val_bytes_small by exact T1.
  change [4; 4; 8; 8; 4; 4]%nat with (map fst fs). rewrite fields_roundtrip.
  - destruct i; reflexivity.
  - unfold fs. fields_ok.
Qed.

Lemma length_disconnect d : length (disconnect_to_bytes d) = 8%nat.
Proof. reflexivity. Qed.

Lemma disconnect_roundtrip d rest :
  is_u64 (cd_peer_id d) -> disconnect_of_bytes (disconnect_to_bytes d ++ rest) = d.
Proof.
  intros T. unfold disconnect_of_bytes, disconnect_to_bytes. cbn [fields_to_bytes].
  rewrite app_nil_r, take_app_length' by (rewrite length_le_bytes; lia).
  rewrite le_val_bytes_small by exact T. destruct d; reflexivity.
Qed.

Lemma length_transfer t : length (transfer_to_bytes t) = 40%nat.
Proof. unfold transfer_to_bytes. rewrite length_fields. reflexivity. Qed.

Lemma transfer_roundtrip t rest :
  transfer_typed t -> transfer_of_bytes (transfer_to_bytes t ++ rest) = t.
Proof.
  intros T. unfold transfer_of_bytes, transfer_to_bytes.
  change [8; 8; 8; 8; 4; 4]%nat with (map fst (transfer_fields t)).
  rewrite fields_roundtrip by (unfold transfer_typed in T; fields_ok). destruct t; reflexivity.
Qed.
