(* ===== verification/NbdServer.v ===== *)
(** * The NBD server loop (userspace-nbd/src/nbd_ramdisk.c, nbd_protocol.h)

    Wire structs, byte-order helpers, replies and the request loop
    [serve_nbd].  The transfer buffer [buf] is a heap block that grows with
    [realloc]; the socket is the stream of [SockIO].  The value of [g_stop]
    that iteration [i] reads is [stop i]. *)

From S2P Require Import Prelude.
From S2P Require Import Mem.
From S2P Require Import Bytes.
From S2P Require Import SockIO.
From S2P Require Import Backend.

Definition RAMDISK_NBD_REQUEST_MAGIC : Z := 0x25609513.

Definition RAMDISK_NBD_REPLY_MAGIC : Z := 0x67446698.

Definition RAMDISK_NBD_CMD_READ : Z := 0.

Definition RAMDISK_NBD_CMD_WRITE : Z := 1.

Definition RAMDISK_NBD_CMD_DISC : Z := 2.

Definition RAMDISK_NBD_CMD_FLUSH : Z := 3.

Definition RAMDISK_NBD_CMD_TRIM : Z := 4.

(** The packed request struct as it lies in memory: native integers. *)
Record ramdisk_nbd_request : Type := mk_nbd_request {
  nr_magic : Z;
  nr_type : Z;
  nr_handle : list Z;
  nr_from : Z;
  nr_len : Z
}.

Definition request_size : Z := 28.

Definition request_of_bytes (bs : list Z) : ramdisk_nbd_request :=
  {| nr_magic := le_val (slice 0 4 bs);
     nr_type := le_val (slice 4 4 bs);
     nr_handle := slice 8 8 bs;
     nr_from := le_val (slice 16 8 bs);
     nr_len := le_val (slice 24 4 bs) |}.

Record ramdisk_nbd_reply : Type := mk_nbd_reply {
  np_magic : Z;
  np_error : Z;
  np_handle : list Z
}.

Definition reply_to_bytes (r : ramdisk_nbd_reply) : list Z :=
  le_bytes 4 (np_magic r) ++ le_bytes 4 (np_error r) ++ np_handle r.

Definition ntohll_u64 (value : Z) : Z :=
  let high := ntohl (u32 (Z.shiftr value 32)) in
  let low := ntohl (u32 (Z.land value 0xffffffff)) in
  Z.lor (u64 (Z.shiftl low 32)) high.

Definition htonll_u64 (value : Z) : Z :=
  let high := htonl (u32 (Z.shiftr value 32)) in
  let low := htonl (u32 (Z.land value 0xffffffff)) in
  Z.lor (u64 (Z.shiftl low 32)) high.

Definition nbd_error_from_rc (rc : Z) : Z :=
  if rc =? 0 then 0 else
  let rc := if rc <? 0 then - rc else rc in
  htonl (u32 rc).

Definition send_reply (req : ramdisk_nbd_request) (rc : Z) (s : sock) : option (Z * sock) :=
  write_full (reply_to_bytes {| np_magic := htonl RAMDISK_NBD_REPLY_MAGIC;
                                np_error := nbd_error_from_rc rc;
                                np_handle := nr_handle req |}) s.

(** The part of [struct daemon_ctx] the loop uses, and its locals. *)
Record nbd_state : Type := mk_nbd_state {
  ns_backend : ramdisk_backend;
  ns_sock : sock;
  ns_buf : ptr;
  ns_cap : Z
}.

Record nbd_env : Type := mk_nbd_env {
  ne_realloc_ok : Z -> bool;
  ne_junk : Z
}.

Inductive loop_ret : Type :=
| Continue (st : nbd_state)
| Break (st : nbd_state).

Definition get_backend (o : option ramdisk_backend) : mem ramdisk_backend := lift o.

(** Place received bytes at [p]; nothing is written when nothing arrived. *)
Definition receive_into (p : ptr) (d : list Z) : mem unit :=
  match d with [] => mret tt | _ => store_bytes p d end.

(** The switch on the command type; [rc] is the outcome of growing [buf]. *)
Definition nbd_dispatch (bk : ramdisk_backend) (s : sock) (buf : ptr) (cap : Z)
    (req : ramdisk_nbd_request) (type from len rc : Z) : mem loop_ret :=
  if type =? RAMDISK_NBD_CMD_READ then
    '(rc, obk) ← (if rc =? 0 then ramdisk_backend_read (Some bk) from buf len
                  else mret (rc, Some bk));
    bk ← get_backend obk;
    '(w, s) ← lift (send_reply req rc s);
    if w <? 0 then mret (Break (mk_nbd_state bk s buf cap)) else
    if rc =? 0 then
      data ← load_bytes buf len;
      '(w, s) ← lift (write_full data s);
      mret ((if w <? 0 then Break else Continue) (mk_nbd_state bk s buf cap))
    else mret (Continue (mk_nbd_state bk s buf cap))
  else if type =? RAMDISK_NBD_CMD_WRITE then
    '(n, data, s) ← lift (read_full len s);
    _ ← receive_into buf data;
    if n <? 0 then mret (Break (mk_nbd_state bk s buf cap)) else
    '(rc, obk) ← (if rc =? 0 then ramdisk_backend_write (Some bk) from buf len
                  else mret (rc, Some bk));
    bk ← get_backend obk;
    '(w, s) ← lift (send_reply req rc s);
    mret ((if w <? 0 then Break else Continue) (mk_nbd_state bk s buf cap))
  else if type =? RAMDISK_NBD_CMD_FLUSH then
    '(w, s) ← lift (send_reply req 0 s);
    mret ((if w <? 0 then Break else Continue) (mk_nbd_state bk s buf cap))
  else if type =? RAMDISK_NBD_CMD_TRIM then
    '(rc, obk) ← ramdisk_backend_zero (Some bk) from len;
    bk ← get_backend obk;
    '(w, s) ← lift (send_reply req rc s);
    mret ((if w <? 0 then Break else Continue) (mk_nbd_state bk s buf cap))
  else if type =? RAMDISK_NBD_CMD_DISC then
    '(_, s) ← lift (send_reply req 0 s);
    mret (Break (mk_nbd_state bk s buf cap))
  else
    (* the test for a WRITE type in this branch of the source is never true *)
    '(w, s) ← lift (send_reply req (- EIO) s);
    mret ((if w <? 0 then Break else Continue) (mk_nbd_state bk s buf cap)).

(** One iteration of the loop, after the test of [g_stop]. *)
Definition nbd_step (env : nbd_env) (st : nbd_state) : mem loop_ret :=
  let bk := ns_backend st in
  '(n, hdr, s) ← lift (read_full request_size (ns_sock st));
  if n =? 0 then mret (Break (mk_nbd_state bk s (ns_buf st) (ns_cap st))) else
  if n <? 0 then mret (Break (mk_nbd_state bk s (ns_buf st) (ns_cap st))) else
  let req := request_of_bytes hdr in
  let magic := ntohl (nr_magic req) in
  let type := ntohl (nr_type req) in
  let from := ntohll_u64 (nr_from req) in
  let len := ntohl (nr_len req) in
  if negb (magic =? RAMDISK_NBD_REQUEST_MAGIC)
  then mret (Break (mk_nbd_state bk s (ns_buf st) (ns_cap st))) else
  '(rc, buf, cap) ←
    (if len >? ns_cap st then
       if ne_realloc_ok env len
       then (new_buf ← realloc (ne_junk env) (ns_buf st) len; mret (0, new_buf, len))
       else mret (- ENOMEM, ns_buf st, ns_cap st)
     else mret (0, ns_buf st, ns_cap st));
  nbd_dispatch bk s buf cap req type from len rc.

(** The loop; [None] when [fuel] iterations were not enough. *)
Fixpoint serve_loop (fuel : nat) (env : nbd_env) (stop : nat -> bool) (i : nat)
    (st : nbd_state) : mem (option nbd_state) :=
  if stop i then mret (Some st) else
  match fuel with
  | O => mret None
  | S fuel' =>
      r ← nbd_step env st;
      match r with
      | Break st' => mret (Some st')
      | Continue st' => serve_loop fuel' env stop (S i) st'
      end
  end.

Definition serve_nbd (fuel : nat) (env : nbd_env) (stop : nat -> bool)
    (bk : ramdisk_backend) (s : sock) : mem (option (ramdisk_backend * sock)) :=
  r ← serve_loop fuel env stop 0 (mk_nbd_state bk s Null 0);
  match r with
  | None => mret None
  | Some st => _ ← free (ns_buf st); mret (Some (ns_backend st, ns_sock st))
  end.

(** ** Reference NBD server on an array of bytes *)

Record nbd_cmd : Type := mk_cmd {
  nc_type : Z;
  nc_handle : list Z;
  nc_from : Z;
  nc_len : Z;
  nc_payload : list Z
}.

(** A command on the wire: big-endian fields, then the data of a write. *)
Definition wire_header (c : nbd_cmd) : list Z :=
  be_bytes 4 RAMDISK_NBD_REQUEST_MAGIC ++ be_bytes 4 (nc_type c) ++ nc_handle c
  ++ be_bytes 8 (nc_from c) ++ be_bytes 4 (nc_len c).

Definition wire_cmd (c : nbd_cmd) : list Z :=
  wire_header c ++ (if nc_type c =? RAMDISK_NBD_CMD_WRITE then nc_payload c else []).

Definition wire_reply (c : nbd_cmd) (err : Z) : list Z :=
  be_bytes 4 RAMDISK_NBD_REPLY_MAGIC ++ be_bytes 4 err ++ nc_handle c.

(** One command: the bytes sent back, the new disk bytes and buffer capacity.
    [ok n] says whether a buffer of [n] bytes can be had; without one a READ is
    refused and the commands that need no buffer are not affected.  A command of
    length zero before any buffer was allocated has no buffer. *)
Definition nbd_spec (ok : Z -> bool) (c : nbd_cmd) (bs : list Z) (cap : Z) : list Z * list Z * Z :=
  let starved := (nc_len c >? cap) && negb (ok (nc_len c)) in
  let cap' := if starved then cap else Z.max cap (nc_len c) in
  let fits := nc_from c + nc_len c <=? zlength bs in
  if nc_type c =? RAMDISK_NBD_CMD_READ then
    if starved then (wire_reply c ENOMEM, bs, cap')
    else if cap' =? 0 then (wire_reply c EINVAL, bs, cap')
    else if fits then (wire_reply c 0 ++ slice (nc_from c) (nc_len c) bs, bs, cap')
    else (wire_reply c ERANGE, bs, cap')
  else if nc_type c =? RAMDISK_NBD_CMD_WRITE then
    if cap' =? 0 then (wire_reply c EINVAL, bs, cap')
    else if fits then (wire_reply c 0, splice (nc_from c) (nc_payload c) bs, cap')
    else (wire_reply c ERANGE, bs, cap')
  else if nc_type c =? RAMDISK_NBD_CMD_FLUSH then (wire_reply c 0, bs, cap')
  else if nc_type c =? RAMDISK_NBD_CMD_TRIM then
    if fits then (wire_reply c 0,
                  splice (nc_from c) (replicate (Z.to_nat (nc_len c)) 0) bs, cap')
    else (wire_reply c ERANGE, bs, cap')
  else if nc_type c =? RAMDISK_NBD_CMD_DISC then (wire_reply c 0, bs, cap')
  else (wire_reply c EIO, bs, cap').

(** A whole session: it ends when a stop is seen before a command, after a
    disconnect command or at end of data. *)
Fixpoint nbd_spec_all (ok : Z -> bool) (stop : nat -> bool) (i : nat) (cs : list nbd_cmd)
    (bs : list Z) (cap : Z) : list Z * list Z :=
  if stop i then ([], bs) else
  match cs with
  | [] => ([], bs)
  | c :: cs' =>
      let '(out, bs', cap') := nbd_spec ok c bs cap in
      if nc_type c =? RAMDISK_NBD_CMD_DISC then (out, bs')
      else let '(outs, bs'') := nbd_spec_all ok stop (S i) cs' bs' cap' in (out ++ outs, bs'')
  end.

Definition cmd_typed (c : nbd_cmd) : Prop :=
  is_u32 (nc_type c) /\ length (nc_handle c) = 8%nat /\ Forall is_u8 (nc_handle c) /\
  is_u64 (nc_from c) /\ is_u32 (nc_len c) /\ zlength (nc_payload c) = nc_len c.

(** A buffer can be had for the data of a WRITE. *)
Definition write_fits (ok : Z -> bool) (c : nbd_cmd) : Prop :=
  nc_type c = RAMDISK_NBD_CMD_WRITE -> ok (nc_len c) = true.

(** ** Lemmas: byte order *)

Lemma list4_inv (l : list Z) : length l = 4%nat -> exists a b c d, l = [a; b; c; d].
Proof. destruct l as [|a [|b [|c [|d [|]]]]]; try discriminate; eauto. Qed.

Lemma list8_inv (l : list Z) :
  length l = 8%nat -> exists l1 l2, l = l1 ++ l2 /\ length l1 = 4%nat /\ length l2 = 4%nat.
Proof.
  intros H. exists (take 4 l), (drop 4 l).
  rewrite take_drop, length_take, length_drop, H. auto.
Qed.

Lemma lor_shift x y : 0 <= x < 2 ^ 32 -> 0 <= y < 2 ^ 32 ->
  Z.lor (u64 (Z.shiftl x 32)) y = 2 ^ 32 * x + y.
Proof.
  intros Hx Hy. rewrite Z.shiftl_mul_pow2 by lia.
  rewrite u64_small by int_lia.
  assert (Hl : Z.land (x * 2 ^ 32) y = 0).
  { replace y with (Z.land (Z.ones 32) y).
    - rewrite Z.land_assoc, Z.land_ones, Z.mod_mul by lia. apply Z.land_0_l.
    - rewrite Z.land_comm, Z.land_ones by lia. apply Z.mod_small; lia. }
  pose proof (Z.add_lor_land (x * 2 ^ 32) y). lia.
Qed.

Lemma ntohll_wire bs :
  Forall is_u8 bs -> length bs = 8%nat -> ntohll_u64 (le_val bs) = be_val bs.
Proof.
  intros Hb Hl. destruct (list8_inv bs Hl) as (a & c & -> & Ha & Hc).
  apply Forall_app in Hb as [Hba Hbc].
  pose proof (le_val_bound a Hba) as Ba. pose proof (le_val_bound c Hbc) as Bc.
  pose proof (be_val_bound a Hba) as Ea. pose proof (be_val_bound c Hbc) as Ec.
  rewrite Ha in *. rewrite Hc in *. change (256 ^ Z.of_nat 4) with (2 ^ 32) in *.
  unfold ntohll_u64. rewrite le_val_app, Ha. change (256 ^ Z.of_nat 4) with (2 ^ 32).
  rewrite Z.shiftr_div_pow2 by lia.
  change 0xffffffff with (Z.ones 32). rewrite Z.land_ones by lia.
  rewrite (Z.mul_comm (2 ^ 32)), Z.div_add, Z.div_small, Z.mod_add, Z.mod_small by lia.
  rewrite Z.add_0_l, !u32_small by int_lia.
  rewrite !ntohl_wire by auto. rewrite lor_shift by auto.
  rewrite be_val_app, Hc. change (256 ^ Z.of_nat 4) with (2 ^ 32). lia.
Qed.

(** ** Lemmas: headers and replies *)

Lemma length_wire_header c : length (nc_handle c) = 8%nat -> length (wire_header c) = 28%nat.
Proof.
  intros H. unfold wire_header. rewrite !length_app, !length_be_bytes, H. reflexivity.
Qed.

Lemma slice_at off len (l pre mid post : list Z) :
  l = pre ++ mid ++ post -> zlength pre = off -> zlength mid = len -> slice off len l = mid.
Proof.
  unfold zlength, slice. intros -> H1 H2.
  rewrite drop_app_length' by lia. rewrite take_app_length' by lia. auto.
Qed.

Lemma decode_header c :
  cmd_typed c ->
  let req := request_of_bytes (wire_header c) in
  ntohl (nr_magic req) = RAMDISK_NBD_REQUEST_MAGIC /\ ntohl (nr_type req) = nc_type c /\
  nr_handle req = nc_handle c /\ ntohll_u64 (nr_from req) = nc_from c /\
  ntohl (nr_len req) = nc_len c.
Proof.
  intros (Tt & Th & Tb & Tf & Tl & _). cbn zeta.
  unfold request_of_bytes, wire_header. cbn [nr_magic nr_type nr_handle nr_from nr_len].
  set (m := be_bytes 4 RAMDISK_NBD_REQUEST_MAGIC). set (t := be_bytes 4 (nc_type c)).
  set (f := be_bytes 8 (nc_from c)). set (l := be_bytes 4 (nc_len c)).
  assert (Lm : length m = 4%nat) by apply length_be_bytes.
  assert (Lt : length t = 4%nat) by apply length_be_bytes.
  assert (Lf : length f = 8%nat) by apply length_be_bytes.
  assert (Ll : length l = 4%nat) by apply length_be_bytes.
  set (w := m ++ t ++ nc_handle c ++ f ++ l).
  assert (E0 : slice 0 4 w = m) by
    (apply (slice_at _ _ _ [] m (t ++ nc_handle c ++ f ++ l)); unfold zlength; auto; lia).
  assert (E1 : slice 4 4 w = t) by
    (apply (slice_at _ _ _ m t (nc_handle c ++ f ++ l)); unfold zlength; auto; lia).
  assert (E2 : slice 8 8 w = nc_handle c) by
    (apply (slice_at _ _ _ (m ++ t) (nc_handle c) (f ++ l)); unfold zlength;
     rewrite <- ?app_assoc, ?length_app; auto; lia).
  assert (E3 : slice 16 8 w = f) by
    (apply (slice_at _ _ _ (m ++ t ++ nc_handle c) f l); unfold zlength;
     rewrite <- ?app_assoc, ?length_app; auto; lia).
  assert (E4 : slice 24 4 w = l) by
    (apply (slice_at _ _ _ (m ++ t ++ nc_handle c ++ f) l []); unfold zlength;
     rewrite ?app_nil_r, <- ?app_assoc, ?length_app; auto; lia).
  rewrite E0, E1, E2, E3, E4.
  split_and!; [reflexivity| |reflexivity| |].
  - rewrite ntohl_wire by (auto; apply be_bytes_u8). apply be_val_bytes. exact Tt.
  - rewrite ntohll_wire by (auto; apply be_bytes_u8). apply be_val_bytes. exact Tf.
  - rewrite ntohl_wire by (auto; apply be_bytes_u8). apply be_val_bytes. exact Tl.
Qed.

Lemma send_reply_ok c req rc err s :
  nr_handle req = nc_handle c -> length (nc_handle c) = 8%nat ->
  is_u32 err -> rc = - err -> no_fail (sk_wr s) ->
  exists sch, send_reply req rc s
    = Some (16, mk_sock (sk_in s) (sk_rd s) (sk_out s ++ wire_reply c err) sch) /\ no_fail sch.
Proof.
  intros Hh Hl He -> Hs. unfold send_reply, reply_to_bytes. cbn [np_magic np_error np_handle].
  assert (E : le_bytes 4 (nbd_error_from_rc (- err)) = be_bytes 4 err).
  { unfold nbd_error_from_rc. destruct (Z.eqb_spec (- err) 0).
    - replace err with 0 by lia. reflexivity.
    - destruct (Z.ltb_spec (- err) 0); [|int_lia].
      rewrite Z.opp_involutive, u32_small by auto. apply htonl_wire; auto. }
  rewrite htonl_wire, E, Hh by (vm_compute; intuition congruence).
  fold (wire_reply c err).
  destruct (write_full_data (wire_reply c err) s Hs) as (sch & -> & Hq).
  exists sch. split; auto. repeat f_equal.
  unfold wire_reply, zlength. rewrite !length_app, !length_be_bytes, Hl. reflexivity.
Qed.

(** ** Lemmas: the transfer buffer *)

(** The buffer is absent with capacity zero, or a block of its own. *)
Definition buf_ok (fr : gmap Z (list Z)) (b : Z) (buf : ptr) (cap : Z) (h : heap) : Prop :=
  (buf = Null /\ cap = 0) \/
  (exists rb rbs, buf = Ptr rb 0 /\ (rb <> b /\ fr !! rb = None) /\
     h_blocks h !! rb = Some rbs /\ zlength rbs = cap /\ 0 < cap).

(** Outside the disk and the buffer the heap is the one of the call, [fr]. *)
Definition frame_ok (fr : gmap Z (list Z)) (b : Z) (buf : ptr) (h : heap) : Prop :=
  (forall x, x <> b -> buf <> Ptr x 0 -> h_blocks h !! x = fr !! x) /\
  (forall x v, fr !! x = Some v -> x < h_next h).

Record nbd_inv (fr : gmap Z (list Z)) (bk : ramdisk_backend) (buf : ptr) (cap b : Z)
    (bs : list Z) (h : heap) : Prop := {
  ni_backend : backend_wf bk b bs h;
  ni_fresh : heap_fresh h;
  ni_buf : buf_ok fr b buf cap h;
  ni_frame : frame_ok fr b buf h
}.

(** Writing to the disk block. *)
Lemma nbd_inv_disk fr bk buf cap b bs bs' h :
  nbd_inv fr bk buf cap b bs h -> zlength bs' = zlength bs ->
  nbd_inv fr bk buf cap b bs' (hset b bs' h).
Proof.
  intros [W F B [R1 R2]] Hz. split.
  - apply (backend_wf_hset _ _ _ _ _ W); auto.
  - eapply heap_fresh_hset; eauto using bw_block.
  - destruct B as [?|(rb & rbs & ? & [? ?] & ? & ? & ?)]; [left; auto|right].
    exists rb, rbs. rewrite hset_lookup_ne by auto. auto.
  - split; [|exact R2]. intros x Hx Hb. rewrite hset_lookup_ne by auto. auto.
Qed.

(** Writing to the buffer. *)
Lemma nbd_inv_buf fr bk cap b bs h rb rbs rbs' :
  nbd_inv fr bk (Ptr rb 0) cap b bs h -> rb <> b -> h_blocks h !! rb = Some rbs ->
  zlength rbs' = zlength rbs ->
  nbd_inv fr bk (Ptr rb 0) cap b bs (hset rb rbs' h).
Proof.
  intros [W F B [R1 R2]] Hne Hrb Hz. split.
  - apply backend_wf_frame; auto.
  - eapply heap_fresh_hset; eauto.
  - destruct B as [[? ?]|(rb0 & rbs0 & [= <-] & [? ?] & ? & ? & ?)]; [discriminate|right].
    exists rb, rbs'. split; [reflexivity|]. split; [auto|]. split; [apply hset_lookup|].
    simplify_eq. split; auto; congruence.
  - split; [|exact R2]. intros x Hx Hb. rewrite hset_lookup_ne by congruence. auto.
Qed.

Lemma backend_wf_other bk b bs h h' :
  backend_wf bk b bs h -> h_blocks h' !! b = h_blocks h !! b -> backend_wf bk b bs h'.
Proof. intros [] E; split; auto. congruence. Qed.

Lemma grow_ok fr junk bk buf cap b bs h len :
  nbd_inv fr bk buf cap b bs h -> is_u32 len -> len > cap ->
  exists new_buf h', realloc junk buf len h = Some (new_buf, h') /\
    nbd_inv fr bk new_buf len b bs h'.
Proof.
  intros [W F B [R1 R2]] Hl Hc. pose proof (bw_block _ _ _ _ W) as Hb.
  pose proof (F _ _ Hb) as Hlt.
  assert (Hfr : fr !! h_next h = None).
  { destruct (fr !! h_next h) eqn:E; auto. apply R2 in E; lia. }
  assert (K : forall h1 d, h_next h1 = h_next h -> heap_fresh h1 ->
    h_blocks h1 !! b = Some bs -> zlength d = len -> 0 < len ->
    (forall x, x <> b -> h_blocks h1 !! x = fr !! x) ->
    nbd_inv fr bk (Ptr (h_next h1) 0) len b bs (snd (halloc d h1))).
  { intros h1 d Hn F1 Hb1 Hd Hp Hx. split.
    - apply (backend_wf_other _ _ _ _ _ W). cbn. rewrite lookup_insert_ne by lia. congruence.
    - apply heap_fresh_halloc; auto.
    - right. exists (h_next h1), d. cbn. rewrite lookup_insert_eq, Hn. repeat split; auto; lia.
    - split.
      + intros x Hxb Hxp. cbn. rewrite lookup_insert_ne by congruence. auto.
      + intros x v Hv. apply R2 in Hv. cbn. lia. }
  unfold realloc. destruct B as [[-> ->]|(rb & rbs & -> & [Hne Hnf] & Hrb & Hz & Hp)].
  - eexists _, _. split; [reflexivity|].
    apply K; auto; try lia; apply zlength_replicate; lia.
  - rewrite Hrb. cbn [Z.eqb]. eexists _, _. split; [reflexivity|].
    apply K; auto with ddr; try lia.
    + cbn. rewrite lookup_delete_ne; auto.
    + unfold zlength in *. rewrite length_app, length_take, length_replicate. lia.
    + intros x Hx. cbn. rewrite lookup_delete. case_decide; [congruence|].
      apply R1; congruence.
Qed.

(** Whether the buffer cannot be grown to [len]. *)
Definition starved (env : nbd_env) (len cap : Z) : bool :=
  (len >? cap) && negb (ne_realloc_ok env len).

Lemma prepare_buf fr env bk buf cap b bs h len :
  nbd_inv fr bk buf cap b bs h -> is_u32 len -> 0 <= cap ->
  let cap' := if starved env len cap then cap else Z.max cap len in
  exists new_buf h',
    (if len >? cap then
       if ne_realloc_ok env len
       then (new_buf ← realloc (ne_junk env) buf len; mret (0, new_buf, len))
       else mret (- ENOMEM, buf, cap)
     else (mret (0, buf, cap) : mem (Z * ptr * Z))) h
    = Some (if starved env len cap then - ENOMEM else 0, new_buf, cap', h') /\
    nbd_inv fr bk new_buf cap' b bs h' /\ 0 <= cap' /\
    (starved env len cap = false -> len <= cap').
Proof.
  intros I Hl Hc cap'. subst cap'. unfold starved. destruct (len >? cap) eqn:E; cbn [andb].
  - destruct (ne_realloc_ok env len); cbn [negb];
      [|exists buf, h; split_and!; auto; discriminate].
    destruct (grow_ok fr (ne_junk env) _ _ _ _ _ _ len I Hl) as (nb & h' & Eq & I'); [lia|].
    exists nb, h'. mstep. rewrite Eq. rewrite Z.max_r by lia. split_and!; auto; int_lia.
  - exists buf, h. rewrite Z.max_l by lia. split_and!; auto; lia.
Qed.

(** ** Lemmas: one command *)

Lemma lift_some {A} (o : option A) a h : o = Some a -> lift o h = Some (a, h).
Proof. intros ->; reflexivity. Qed.

(** What one dispatched command must achieve. *)
Definition step_ok (fr : gmap Z (list Z)) (bk : ramdisk_backend) (s : sock) (b : Z) (r : mem loop_ret) (h : heap)
    (stop : bool) (rest out bs' : list Z) (cap' : Z) : Prop :=
  exists s' buf' h', r h = Some ((if stop then Break else Continue)
                                  (mk_nbd_state bk s' buf' cap'), h') /\
    nbd_inv fr bk buf' cap' b bs' h' /\ sock_quiet s' /\
    sk_in s' = rest /\ sk_out s' = sk_out s ++ out.

Section Dispatch.
Context (fr : gmap Z (list Z)) (bk : ramdisk_backend) (s : sock) (buf : ptr) (cap b : Z) (bs : list Z) (h : heap).
Context (I : nbd_inv fr bk buf cap b bs h) (Q : sock_quiet s).
Context (c : nbd_cmd) (req : ramdisk_nbd_request).
Context (Hh : nr_handle req = nc_handle c) (Tc : cmd_typed c) (Hcap : nc_len c <= cap).

#[local] Ltac reply err :=
  let sch := fresh "sch" in let Es := fresh "Es" in let Qs := fresh "Qs" in
  destruct Tc as (?Tt & ?Th & ?Tb & ?Tf & ?Tl & ?Tp);
  match goal with
  | |- context [send_reply req ?rc ?s0] =>
      destruct (send_reply_ok c req rc err s0 Hh Th) as (sch & Es & Qs);
      [unfold is_u32, EINVAL, ERANGE, EIO, ENOMEM; lia|reflexivity|apply Q|];
      rewrite Es; mstep; cbn [Z.ltb Z.compare]
  end.

Lemma dispatch_simple type err stop rest rc :
  type = nc_type c ->
  (type = RAMDISK_NBD_CMD_FLUSH /\ err = 0 /\ stop = false \/
   type = RAMDISK_NBD_CMD_DISC /\ err = 0 /\ stop = true \/
   (type <> RAMDISK_NBD_CMD_READ /\ type <> RAMDISK_NBD_CMD_WRITE /\
    type <> RAMDISK_NBD_CMD_FLUSH /\ type <> RAMDISK_NBD_CMD_TRIM /\
    type <> RAMDISK_NBD_CMD_DISC) /\ err = EIO /\ stop = false) ->
  sk_in s = rest ->
  step_ok fr bk s b (nbd_dispatch bk s buf cap req type (nc_from c) (nc_len c) rc) h
    stop rest (wire_reply c err) bs cap.
Proof.
  intros Ht Hcase Hin. unfold step_ok, nbd_dispatch.
  destruct Hcase as [(-> & -> & ->)|[(-> & -> & ->)|((? & ? & ? & ? & ?) & -> & ->)]].
  - mstep. reply 0. exists (mk_sock (sk_in s) (sk_rd s) (sk_out s ++ wire_reply c 0) sch), buf, h.
    split; [reflexivity|]. repeat split; auto; apply I || apply Q.
  - mstep. reply 0. exists (mk_sock (sk_in s) (sk_rd s) (sk_out s ++ wire_reply c 0) sch), buf, h.
    split; [reflexivity|]. repeat split; auto; apply I || apply Q.
  - do 5 match goal with H : type <> _ |- _ => apply Z.eqb_neq in H; rewrite H; clear H end.
    mstep. reply EIO.
    exists (mk_sock (sk_in s) (sk_rd s) (sk_out s ++ wire_reply c EIO) sch), buf, h.
    split; [reflexivity|]. repeat split; auto; apply I || apply Q.
Qed.

Lemma dispatch_trim rest rc :
  sk_in s = rest ->
  let fits := nc_from c + nc_len c <=? zlength bs in
  step_ok fr bk s b (nbd_dispatch bk s buf cap req RAMDISK_NBD_CMD_TRIM (nc_from c) (nc_len c) rc)
    h false rest (wire_reply c (if fits then 0 else ERANGE))
    (if fits then splice (nc_from c) (replicate (Z.to_nat (nc_len c)) 0) bs else bs) cap.
Proof.
  intros Hin fits. unfold step_ok, nbd_dispatch. pose proof I as [W F B R].
  pose proof (bw_size _ _ _ _ W) as Hsz. pose proof Tc as (_ & _ & _ & Tf' & Tl' & _).
  cbn [Z.eqb RAMDISK_NBD_CMD_TRIM RAMDISK_NBD_CMD_READ RAMDISK_NBD_CMD_WRITE
       RAMDISK_NBD_CMD_FLUSH Pos.eqb]. mstep.
  destruct fits eqn:E; unfold fits in E.
  - rewrite (zero_ok _ _ _ _ W) by (auto; lia). unfold get_backend. mstep. reply 0.
    eexists (mk_sock (sk_in s) (sk_rd s) _ sch), buf, _. split; [reflexivity|].
    split; [|repeat split; auto; apply Q].
    assert (Hz : zlength (replicate (Z.to_nat (nc_len c)) 0) = nc_len c)
      by (apply zlength_replicate; int_lia).
    apply (nbd_inv_disk _ _ _ _ _ _ _ _ I), zlength_splice; rewrite ?Hz; int_lia.
  - rewrite (zero_range _ _ _ _ W) by (auto; lia). unfold get_backend. mstep. reply ERANGE.
    eexists (mk_sock (sk_in s) (sk_rd s) _ sch), buf, _. split; [reflexivity|].
    repeat split; auto; apply I || apply Q.
Qed.

(** A READ without a buffer. *)
Lemma dispatch_read_nomem rest :
  sk_in s = rest ->
  step_ok fr bk s b (nbd_dispatch bk s buf cap req RAMDISK_NBD_CMD_READ (nc_from c) (nc_len c)
    (- ENOMEM)) h false rest (wire_reply c ENOMEM) bs cap.
Proof.
  intros Hin. unfold step_ok, nbd_dispatch. cbn [Z.eqb RAMDISK_NBD_CMD_READ].
  change (- ENOMEM =? 0) with false. cbv iota. mstep. unfold get_backend. mstep. reply ENOMEM.
  eexists (mk_sock (sk_in s) (sk_rd s) _ sch), buf, _. split; [reflexivity|].
  repeat split; auto; apply I || apply Q.
Qed.

Lemma dispatch_read rest :
  sk_in s = rest ->
  let fits := nc_from c + nc_len c <=? zlength bs in
  step_ok fr bk s b (nbd_dispatch bk s buf cap req RAMDISK_NBD_CMD_READ (nc_from c) (nc_len c) 0)
    h false rest
    (if cap =? 0 then wire_reply c EINVAL
     else if fits then wire_reply c 0 ++ slice (nc_from c) (nc_len c) bs
     else wire_reply c ERANGE) bs cap.
Proof.
  intros Hin fits. unfold step_ok, nbd_dispatch. pose proof I as [W F B R].
  pose proof (bw_size _ _ _ _ W) as Hsz. pose proof Tc as (_ & _ & _ & Tf' & Tl' & _).
  cbn [Z.eqb RAMDISK_NBD_CMD_READ]. mstep.
  destruct B as [[-> ->]|(rb & rbs & -> & [Hne Hnf] & Hrb & Hz & Hp)].
  { cbn [Z.eqb]. unfold ramdisk_backend_read. cbn [is_null]. unfold get_backend. mstep.
    reply EINVAL. change (- EINVAL =? 0) with false. cbv iota.
    eexists (mk_sock (sk_in s) (sk_rd s) _ sch), Null, _. split; [reflexivity|].
    repeat split; auto; apply I || apply Q. }
  destruct (Z.eqb_spec cap 0); [lia|]. destruct fits eqn:E; unfold fits in E.
  - rewrite (read_ok _ _ _ _ W rb 0 rbs) by (auto; lia). unfold get_backend. mstep.
    reply 0. cbn [Z.eqb]. mstep.
    assert (Hsl : zlength (slice (nc_from c) (nc_len c) bs) = nc_len c)
      by (apply zlength_slice; int_lia).
    set (h' := hset rb _ h).
    assert (Hl : load_bytes (Ptr rb 0) (nc_len c) h'
                 = Some (slice (nc_from c) (nc_len c) bs, h')).
    { erewrite load_bytes_ok; [|apply hset_lookup|lia|int_lia|rewrite zlength_splice; lia].
      rewrite slice_splice_eq by lia. reflexivity. }
    rewrite Hl. mstep.
    destruct (write_full_data (slice (nc_from c) (nc_len c) bs)
      (mk_sock (sk_in s) (sk_rd s) (sk_out s ++ wire_reply c 0) sch)) as (sch2 & Ew & Qw); auto.
    rewrite Ew. mstep. destruct (_ <? 0) eqn:Hw; [unfold zlength in Hw; lia|].
    eexists (mk_sock (sk_in s) (sk_rd s) _ sch2), (Ptr rb 0), h'. split; [reflexivity|].
    split; [|repeat split; auto; [apply Q|cbn; rewrite <- app_assoc; auto]].
    eapply nbd_inv_buf; eauto. rewrite zlength_splice; lia.
  - rewrite (read_range _ _ _ _ W (Ptr rb 0)) by (auto; lia). unfold get_backend. mstep.
    reply ERANGE. change (- ERANGE =? 0) with false. cbv iota.
    eexists (mk_sock (sk_in s) (sk_rd s) _ sch), (Ptr rb 0), _. split; [reflexivity|].
    repeat split; auto; apply I || apply Q.
Qed.

End Dispatch.

(** Receiving the data of a write into the buffer. *)
Lemma receive_ok fr bk buf cap b bs h d :
  nbd_inv fr bk buf cap b bs h -> zlength d <= cap ->
  exists h', receive_into buf d h = Some (tt, h') /\ nbd_inv fr bk buf cap b bs h' /\
    (cap <> 0 -> exists rb rbs, buf = Ptr rb 0 /\ h_blocks h' !! rb = Some rbs /\
       zlength rbs = cap /\ slice 0 (zlength d) rbs = d).
Proof.
  intros I Hd. pose proof I as [W F B R]. destruct d as [|x d'] eqn:Ed.
  { exists h. split; [reflexivity|]. split; auto. intros Hc.
    destruct B as [[_ ?]|(rb & rbs & -> & [Hne Hnf] & Hrb & Hz & Hp)]; [lia|].
    exists rb, rbs. repeat split; auto. }
  rewrite <- Ed in *. assert (0 < zlength d) by (rewrite Ed; unfold zlength; cbn; lia).
  destruct B as [[_ ?]|(rb & rbs & -> & [Hne Hnf] & Hrb & Hz & Hp)]; [lia|].
  assert (El : zlength (splice 0 d rbs) = cap) by (rewrite zlength_splice; lia).
  exists (hset rb (splice 0 d rbs) h). split.
  { unfold receive_into. rewrite Ed. rewrite <- Ed. apply store_bytes_ok; auto; lia. }
  split.
  - eapply nbd_inv_buf; eauto. congruence.
  - intros _. eexists rb, _. split; [reflexivity|]. split; [apply hset_lookup|].
    split; auto. apply slice_splice_same; lia.
Qed.

Lemma dispatch_write fr bk s buf cap b bs h c req rest :
  nbd_inv fr bk buf cap b bs h -> sock_quiet s ->
  nr_handle req = nc_handle c -> cmd_typed c -> nc_len c <= cap ->
  sk_in s = nc_payload c ++ rest ->
  let fits := nc_from c + nc_len c <=? zlength bs in
  step_ok fr bk s b (nbd_dispatch bk s buf cap req RAMDISK_NBD_CMD_WRITE (nc_from c) (nc_len c) 0)
    h false rest
    (wire_reply c (if cap =? 0 then EINVAL else if fits then 0 else ERANGE))
    (if cap =? 0 then bs else if fits then splice (nc_from c) (nc_payload c) bs else bs) cap.
Proof.
  intros I Q Hh Tc Hcap Hin fits. unfold step_ok, nbd_dispatch.
  pose proof Tc as (_ & Th & _ & Tf & Tl & Tp).
  change (RAMDISK_NBD_CMD_WRITE =? RAMDISK_NBD_CMD_READ) with false.
  change (RAMDISK_NBD_CMD_WRITE =? RAMDISK_NBD_CMD_WRITE) with true. cbv iota. mstep.
  assert (Hp : Z.to_nat (nc_len c) = length (nc_payload c)) by (unfold zlength in Tp; lia).
  destruct (read_full_data (nc_len c) s) as (sch & Er & Qr);
    [apply Q|int_lia|rewrite Hin; unfold zlength in *; rewrite length_app; lia|].
  rewrite Er. rewrite Hin, Hp, take_app_length, drop_app_length. mstep.
  destruct (receive_ok _ _ _ _ _ _ _ (nc_payload c) I) as (h1 & E1 & I1 & Hb1); [lia|].
  rewrite E1. mstep. destruct (nc_len c <? 0) eqn:?; [int_lia|]. cbn [Z.eqb]. mstep.
  pose proof I1 as [W1 F1 B1 R1]. pose proof (bw_size _ _ _ _ W1) as Hsz.
  set (s1 := mk_sock rest sch (sk_out s) (sk_wr s)).
  assert (Hreply : forall err bs' h', is_u32 err -> nbd_inv fr bk buf cap b bs' h' ->
    exists s' buf' h'',
      (bk0 ← get_backend (Some bk);
       '(w, s0) ← lift (send_reply req (- err) s1);
       mret ((if w <? 0 then Break else Continue) (mk_nbd_state bk0 s0 buf cap))) h'
      = Some (Continue (mk_nbd_state bk s' buf' cap), h'') /\
      nbd_inv fr bk buf' cap b bs' h'' /\ sock_quiet s' /\ sk_in s' = rest /\
      sk_out s' = sk_out s ++ wire_reply c err).
  { intros err bs' h' He I'.
    destruct (send_reply_ok c req (- err) err s1 Hh Th He eq_refl) as (sch2 & Es & Qs);
      [apply Q|].
    unfold get_backend. mstep. rewrite Es. mstep. cbn [Z.ltb Z.compare].
    eexists (mk_sock rest sch _ sch2), buf, h'. split; [reflexivity|].
    repeat split; auto; apply I'. }
  destruct (Z.eqb_spec cap 0) as [Ec|Ec].
  { destruct B1 as [[-> _]|(rb & rbs & -> & _ & _ & _ & ?)]; [|lia].
    unfold ramdisk_backend_write. cbn [is_null]. mstep. fold s1.
    apply Hreply; auto. unfold is_u32, EINVAL; lia. }
  destruct (Hb1 Ec) as (rb & rbs & -> & Hrb & Hz & Hsl).
  destruct fits eqn:E; unfold fits in E.
  - rewrite (write_ok _ _ _ _ W1 rb 0 rbs) by (auto; lia). rewrite <- Tp, Hsl.
    fold s1. apply (Hreply 0); [unfold is_u32; lia|].
    assert (zlength (splice (nc_from c) (nc_payload c) bs) = zlength bs)
      by (apply zlength_splice; int_lia).
    eapply nbd_inv_disk; eauto.
  - rewrite (write_range _ _ _ _ W1 (Ptr rb 0)) by (auto; lia).
    fold s1. apply Hreply; auto. unfold is_u32, ERANGE; lia.
Qed.

(** One iteration of the loop on a complete command does what the reference
    server does. *)
Lemma nbd_step_refines fr env st b bs h c rest :
  nbd_inv fr (ns_backend st) (ns_buf st) (ns_cap st) b bs h -> 0 <= ns_cap st ->
  sock_quiet (ns_sock st) -> cmd_typed c -> write_fits (ne_realloc_ok env) c ->
  sk_in (ns_sock st) = wire_cmd c ++ rest ->
  let '(out, bs', cap') := nbd_spec (ne_realloc_ok env) c bs (ns_cap st) in
  step_ok fr (ns_backend st) (ns_sock st) b (nbd_step env st) h
    (nc_type c =? RAMDISK_NBD_CMD_DISC) rest out bs' cap'.
Proof.
  intros I Hcap Q Tc He Hin. pose proof Tc as (Tt & Th & _ & Tf & Tl & Tp).
  destruct (nbd_spec _ c bs (ns_cap st)) as [[out bs'] cap'] eqn:Espec.
  unfold step_ok, nbd_step.
  pose proof (length_wire_header c Th) as Lw.
  destruct (read_full_data request_size (ns_sock st)) as (sch & Er & Qr);
    [apply Q|unfold request_size; lia
    |rewrite Hin; unfold request_size, wire_cmd, zlength; rewrite !length_app, Lw; lia|].
  set (pay := if nc_type c =? RAMDISK_NBD_CMD_WRITE then nc_payload c else []).
  assert (Ein : sk_in (ns_sock st) = wire_header c ++ pay ++ rest)
    by (rewrite Hin; unfold wire_cmd; rewrite <- app_assoc; auto).
  rewrite Er, Ein. change (Z.to_nat request_size) with 28%nat.
  rewrite take_app_length', drop_app_length' by auto. mstep.
  change (request_size =? 0) with false. change (request_size <? 0) with false. cbv iota.
  destruct (decode_header c Tc) as (D1 & D2 & D3 & D4 & D5). cbn zeta in *.
  rewrite D1, D2, D4, D5, Z.eqb_refl. cbn [negb]. mstep.
  destruct (prepare_buf fr env _ _ _ _ _ _ (nc_len c) I Tl Hcap) as (nb & h1 & Eb & I1 & _ & Hc').
  rewrite Eb. mstep.
  set (s1 := mk_sock (pay ++ rest) sch (sk_out (ns_sock st)) (sk_wr (ns_sock st))).
  assert (Q1 : sock_quiet s1) by (split; [exact Qr|apply Q]).
  assert (Hnw : nc_type c <> RAMDISK_NBD_CMD_WRITE -> sk_in s1 = rest)
    by (intros Hn; unfold s1, pay; apply Z.eqb_neq in Hn; rewrite Hn; reflexivity).
  assert (Hwr : nc_type c = RAMDISK_NBD_CMD_WRITE -> sk_in s1 = nc_payload c ++ rest)
    by (intros Hn; unfold s1, pay; rewrite Hn; reflexivity).
  change (sk_out (ns_sock st)) with (sk_out s1).
  unfold nbd_spec in Espec. cbn zeta in Espec. clearbody s1.
  fold (starved env (nc_len c) (ns_cap st)) in Espec.
  set (cap1 := if starved env (nc_len c) (ns_cap st) then ns_cap st else _) in *.
  assert (forall type, nc_type c = type ->
    step_ok fr (ns_backend st) s1 b (nbd_dispatch (ns_backend st) s1 nb cap1
      (request_of_bytes (wire_header c)) type (nc_from c) (nc_len c)
      (if starved env (nc_len c) (ns_cap st) then - ENOMEM else 0)) h1
      (type =? RAMDISK_NBD_CMD_DISC) rest out bs' cap')
    as Hok; [|exact (Hok _ eq_refl)].
  intros type Ety. unfold write_fits in He. rewrite Ety in *. clear Er D2 Eb Ein. clearbody cap1.
  destruct (Z.eqb_spec type RAMDISK_NBD_CMD_READ) as [->|N1].
  { destruct (starved env (nc_len c) (ns_cap st)).
    { injection Espec as <- <- <-.
      apply (dispatch_read_nomem _ _ s1 _ _ _ _ _ I1 Q1 c _ D3 Tc), Hnw. discriminate. }
    pose proof (dispatch_read _ _ s1 _ _ _ _ _ I1 Q1 c _ D3 Tc (Hc' eq_refl) rest
      (Hnw ltac:(discriminate))) as H.
    cbn zeta in H. destruct (_ =? 0) in H, Espec; [|destruct (_ <=? _) in H, Espec];
      injection Espec as <- <- <-; exact H. }
  destruct (Z.eqb_spec type RAMDISK_NBD_CMD_WRITE) as [->|N2].
  { assert (Es : starved env (nc_len c) (ns_cap st) = false)
      by (unfold starved; rewrite (He eq_refl); apply andb_false_r).
    rewrite Es in *.
    pose proof (dispatch_write _ _ s1 _ _ _ _ _ c _ rest I1 Q1 D3 Tc (Hc' eq_refl) (Hwr eq_refl)) as H.
    cbn zeta in H. destruct (_ =? 0) in H, Espec; [|destruct (_ <=? _) in H, Espec];
      injection Espec as <- <- <-; exact H. }
  destruct (Z.eqb_spec type RAMDISK_NBD_CMD_FLUSH) as [->|N3].
  { injection Espec as <- <- <-.
    apply (dispatch_simple _ _ s1 _ _ _ _ _ I1 Q1 c _ D3 Tc); auto. }
  destruct (Z.eqb_spec type RAMDISK_NBD_CMD_TRIM) as [->|N4].
  { pose proof (dispatch_trim _ _ s1 _ _ _ _ _ I1 Q1 c _ D3 Tc rest
      (if starved env (nc_len c) (ns_cap st) then - ENOMEM else 0) (Hnw ltac:(discriminate))) as H.
    cbn zeta in H. destruct (_ <=? _) in H, Espec; injection Espec as <- <- <-; exact H. }
  destruct (Z.eqb_spec type RAMDISK_NBD_CMD_DISC) as [->|N5];
    injection Espec as <- <- <-;
    apply (dispatch_simple _ _ s1 _ _ _ _ _ I1 Q1 c _ D3 Tc); auto 10.
Qed.

(** At the end of the peer's data the loop stops without a reply. *)
Lemma nbd_step_eof env st h :
  sock_quiet (ns_sock st) -> sk_in (ns_sock st) = [] ->
  exists s', nbd_step env st h
    = Some (Break (mk_nbd_state (ns_backend st) s' (ns_buf st) (ns_cap st)), h) /\
    sk_out s' = sk_out (ns_sock st).
Proof.
  intros Q Hin. unfold nbd_step.
  destruct (read_full_eof request_size (ns_sock st)) as (sch & E & _); auto;
    [apply Q|unfold request_size; lia|].
  rewrite E. mstep. eexists. split; [reflexivity|reflexivity].
Qed.

Lemma nbd_spec_cap ok c bs cap out bs' cap' :
  0 <= cap -> nbd_spec ok c bs cap = (out, bs', cap') -> 0 <= cap'.
Proof.
  unfold nbd_spec. cbn zeta. intros Hc E.
  repeat match type of E with context [if ?b then _ else _] => destruct b end;
    injection E as _ _ <-; lia.
Qed.

(** The loop over a whole session. *)
Lemma serve_loop_refines fr env stop cs : forall fuel i st b bs h,
  nbd_inv fr (ns_backend st) (ns_buf st) (ns_cap st) b bs h -> 0 <= ns_cap st ->
  sock_quiet (ns_sock st) -> Forall cmd_typed cs -> Forall (write_fits (ne_realloc_ok env)) cs ->
  sk_in (ns_sock st) = concat (map wire_cmd cs) -> (length cs < fuel)%nat ->
  let spec := nbd_spec_all (ne_realloc_ok env) stop i cs bs (ns_cap st) in
  exists s' buf' cap' h',
    serve_loop fuel env stop i st h
    = Some (Some (mk_nbd_state (ns_backend st) s' buf' cap'), h') /\
    nbd_inv fr (ns_backend st) buf' cap' b (snd spec) h' /\
    sk_out s' = sk_out (ns_sock st) ++ fst spec.
Proof.
  induction cs as [|c cs IH]; intros [|fuel] i st b bs h I Hc Q T He Hin Hf;
    cbn [length] in Hf; try lia; cbn [serve_loop nbd_spec_all]; cbv zeta;
    (destruct (stop i); [eexists (ns_sock st), (ns_buf st), (ns_cap st), h;
       cbn [fst snd]; rewrite app_nil_r; destruct st; auto|]); mstep.
  - destruct (nbd_step_eof env st h Q Hin) as (s' & -> & Ho). mstep.
    eexists _, _, _, _. split; [reflexivity|]. cbn. rewrite app_nil_r. auto.
  - apply Forall_cons in T as [Tc Tcs]. apply Forall_cons in He as [Hec He]. cbn in Hin.
    pose proof (nbd_step_refines fr env st b bs h c _ I Hc Q Tc Hec Hin) as H.
    destruct (nbd_spec _ c bs (ns_cap st)) as [[out bs'] cap'] eqn:Es.
    destruct H as (s1 & buf1 & h1 & -> & I1 & Q1 & Hin1 & Ho1). mstep.
    destruct (nc_type c =? RAMDISK_NBD_CMD_DISC).
    + eexists _, _, _, _. split; [reflexivity|]. auto.
    + apply nbd_spec_cap in Es; auto.
      destruct (IH fuel (S i) (mk_nbd_state (ns_backend st) s1 buf1 cap') b bs' h1)
        as (s2 & buf2 & cap2 & h2 & E2 & I2 & Ho2); auto; [lia|].
      rewrite E2. cbn [ns_backend ns_sock ns_cap] in *.
      destruct (nbd_spec_all _ stop (S i) cs bs' cap') as [outs bs''].
      eexists _, _, _, _. split; [reflexivity|]. split; auto.
      cbn [fst] in *. rewrite Ho2, Ho1, app_assoc. auto.
Qed.

Lemma nbd_inv_start bk b bs h :
  backend_wf bk b bs h -> heap_fresh h -> nbd_inv (h_blocks h) bk Null 0 b bs h.
Proof. intros W F. split; auto; [left; auto|]. split; auto. Qed.

(** Freeing the buffer at the end gives back everything but the disk. *)
Lemma nbd_inv_free fr bk buf cap b bs h :
  nbd_inv fr bk buf cap b bs h ->
  exists h', free buf h = Some (tt, h') /\ backend_wf bk b bs h' /\
    forall x, x <> b -> h_blocks h' !! x = fr !! x.
Proof.
  intros [W F B [R1 R2]]. destruct B as [[-> _]|(rb & rbs & -> & [Hne Hnf] & Hrb & _)].
  - exists h. split; [reflexivity|]. split; auto.
  - exists (hdel rb h). erewrite free_ok by eauto. split; [reflexivity|]. split.
    + apply (backend_wf_other _ _ _ _ _ W). cbn. apply lookup_delete_ne; auto.
    + intros x Hx. cbn. rewrite lookup_delete. case_decide; [congruence|].
      apply R1; congruence.
Qed.


(** ** Any input, any schedule *)

Definition loop_state (r : loop_ret) : nbd_state :=
  match r with Continue st | Break st => st end.

(** A WRITE header lies in the input whose length [realloc] refuses. *)
Definition starved_write (env : nbd_env) (input : list Z) : Prop :=
  exists pre hdr rest, input = pre ++ hdr ++ rest /\ zlength hdr = request_size /\
    let req := request_of_bytes hdr in
    ntohl (nr_magic req) = RAMDISK_NBD_REQUEST_MAGIC /\
    ntohl (nr_type req) = RAMDISK_NBD_CMD_WRITE /\
    ne_realloc_ok env (ntohl (nr_len req)) = false.

Lemma starved_later env l l' : l' `suffix_of` l -> starved_write env l' -> starved_write env l.
Proof.
  intros [k ->] (pre & hdr & rest & -> & H). exists (k ++ pre), hdr, rest.
  rewrite <- app_assoc. auto.
Qed.

Lemma suffix_self (l : list Z) : l `suffix_of` l.
Proof. reflexivity. Qed.

#[local] Hint Resolve suffix_self : core.

(** What an iteration keeps, whatever the peer sends: the disk has its size,
    the buffer its invariant, and no input is invented. *)
Definition safe_ret (fr : gmap Z (list Z)) (bk : ramdisk_backend) (b : Z) (bs : list Z)
    (s : sock) (r : mem loop_ret) (h : heap) : Prop :=
  exists lr h' bs', r h = Some (lr, h') /\ let st := loop_state lr in
    nbd_inv fr bk (ns_buf st) (ns_cap st) b bs' h' /\ zlength bs' = zlength bs /\
    ns_backend st = bk /\ 0 <= ns_cap st /\ sock_ok (ns_sock st) /\
    sk_in (ns_sock st) `suffix_of` sk_in s.

Lemma send_reply_any req rc s :
  sock_ok s ->
  exists w s', send_reply req rc s = Some (w, s') /\ sock_ok s' /\ sk_in s' = sk_in s.
Proof.
  intros [Hr Hw]. unfold send_reply.
  destruct (write_full_any (reply_to_bytes {| np_magic := htonl RAMDISK_NBD_REPLY_MAGIC;
    np_error := nbd_error_from_rc rc; np_handle := nr_handle req |}) s Hw)
    as (r & t & s' & E & _ & _ & Hi & Hrd & Hok & _).
  exists r, s'. split; [exact E|]. split; [split; [congruence|auto]|auto].
Qed.

Section AnyDispatch.
Context (fr : gmap Z (list Z)) (bk : ramdisk_backend) (s : sock) (buf : ptr) (cap b : Z)
  (bs : list Z) (h : heap).
Context (I : nbd_inv fr bk buf cap b bs h) (Hs : sock_ok s) (Hc : 0 <= cap).
Context (req : ramdisk_nbd_request) (from len : Z).
Context (Tf : is_u64 from) (Tl : is_u32 len) (Hlen : len <= cap).

(** The end of a branch: the reply, then continue or stop. *)
Lemma reply_safe rc s1 bs' h1 (k : sock -> loop_ret) :
  nbd_inv fr bk buf cap b bs' h1 -> zlength bs' = zlength bs -> sock_ok s1 ->
  sk_in s1 `suffix_of` sk_in s ->
  (forall x, loop_state (k x) = mk_nbd_state bk x buf cap) ->
  safe_ret fr bk b bs s
    ('(w, s2) ← lift (send_reply req rc s1);
     mret ((if w <? 0 then Break else Continue) (mk_nbd_state bk s2 buf cap))) h1 /\
  safe_ret fr bk b bs s ('(_, s2) ← lift (send_reply req rc s1); mret (k s2)) h1.
Proof.
  intros I1 Hz Hs1 Hin Hk. destruct (send_reply_any req rc s1 Hs1) as (w & s2 & E & Hs2 & Hi2).
  unfold safe_ret. rewrite E. mstep. split.
  - eexists _, h1, bs'. split; [reflexivity|]. destruct (w <? 0); cbn; rewrite Hi2; auto 10.
  - eexists _, h1, bs'. split; [reflexivity|]. cbn zeta. rewrite Hk. cbn. rewrite Hi2. auto 10.
Qed.

Lemma read_any :
  exists rc h1, ramdisk_backend_read (Some bk) from buf len h = Some (rc, Some bk, h1) /\
    nbd_inv fr bk buf cap b bs h1 /\ (rc = 0 -> exists d, load_bytes buf len h1 = Some (d, h1)).
Proof.
  pose proof I as [W F B R]. pose proof (bw_size _ _ _ _ W) as Hsz.
  destruct B as [[-> ->]|(rb & rbs & -> & [Hne Hnf] & Hrb & Hz & Hp)].
  { exists (- EINVAL), h. split; [reflexivity|]. split; auto. discriminate. }
  destruct (Z.leb_spec (from + len) (bk_size bk)).
  - rewrite (read_ok _ _ _ _ W rb 0 rbs) by (auto; lia).
    assert (zlength (slice from len bs) = len) by (apply zlength_slice; int_lia).
    eexists _, _. split; [reflexivity|]. split.
    + eapply nbd_inv_buf; eauto. rewrite zlength_splice; lia.
    + intros _. eexists. eapply load_bytes_ok; [apply hset_lookup|lia|int_lia|].
      rewrite zlength_splice; lia.
  - rewrite (read_range _ _ _ _ W) by (auto; lia).
    eexists _, _. split; [reflexivity|]. split; auto. discriminate.
Qed.

Lemma zero_any :
  exists rc h1 bs', ramdisk_backend_zero (Some bk) from len h = Some (rc, Some bk, h1) /\
    nbd_inv fr bk buf cap b bs' h1 /\ zlength bs' = zlength bs.
Proof.
  pose proof I as [W F B R]. pose proof (bw_size _ _ _ _ W) as Hsz.
  destruct (Z.leb_spec (from + len) (bk_size bk)).
  - rewrite (zero_ok _ _ _ _ W) by (auto; lia).
    eexists _, _, (splice from (replicate (Z.to_nat len) 0) bs). split; [reflexivity|].
    assert (zlength (replicate (Z.to_nat len) 0) = len) by (apply zlength_replicate; int_lia).
    assert (zlength (splice from (replicate (Z.to_nat len) 0) bs) = zlength bs)
      by (apply zlength_splice; int_lia).
    split; auto. apply nbd_inv_disk with bs; auto.
  - rewrite (zero_range _ _ _ _ W) by (auto; lia). eauto 10.
Qed.

End AnyDispatch.

Lemma write_any fr bk buf cap b bs h from len :
  nbd_inv fr bk buf cap b bs h -> is_u64 from -> is_u32 len -> len <= cap ->
  exists rc h1 bs', ramdisk_backend_write (Some bk) from buf len h = Some (rc, Some bk, h1) /\
    nbd_inv fr bk buf cap b bs' h1 /\ zlength bs' = zlength bs.
Proof.
  intros I Tf Tl Hlen. pose proof I as [W F B R]. pose proof (bw_size _ _ _ _ W) as Hsz.
  destruct B as [[-> ->]|(rb & rbs & -> & [Hne Hnf] & Hrb & Hz & Hp)].
  { exists (- EINVAL), h, bs. split; [reflexivity|]. auto. }
  destruct (Z.leb_spec (from + len) (bk_size bk)).
  - rewrite (write_ok _ _ _ _ W rb 0 rbs) by (auto; lia).
    eexists _, _, (splice from (slice 0 len rbs) bs).
    split; [reflexivity|].
    assert (zlength (slice 0 len rbs) = len) by (apply zlength_slice; int_lia).
    assert (zlength (splice from (slice 0 len rbs) bs) = zlength bs)
      by (apply zlength_splice; int_lia).
    split; auto. apply nbd_inv_disk with bs; auto.
  - rewrite (write_range _ _ _ _ W) by (auto; lia). eauto 10.
Qed.

Lemma dispatch_safe fr bk s buf cap b bs h req type from len rc0 :
  nbd_inv fr bk buf cap b bs h -> sock_ok s -> 0 <= cap ->
  is_u64 from -> is_u32 len -> (rc0 = 0 \/ type = RAMDISK_NBD_CMD_WRITE -> len <= cap) ->
  safe_ret fr bk b bs s (nbd_dispatch bk s buf cap req type from len rc0) h.
Proof.
  intros I Hs Hc Tf Tl Hlen. unfold nbd_dispatch.
  pose proof (reply_safe fr bk s buf cap b bs Hc req) as RS.
  destruct (type =? RAMDISK_NBD_CMD_READ); [|destruct (Z.eqb_spec type RAMDISK_NBD_CMD_WRITE) as [Hw|_];
    [|destruct (type =? RAMDISK_NBD_CMD_FLUSH); [|destruct (type =? RAMDISK_NBD_CMD_TRIM);
    [|destruct (type =? RAMDISK_NBD_CMD_DISC)]]]].
  - assert (Hr : exists rc h1,
      (if rc0 =? 0 then ramdisk_backend_read (Some bk) from buf len else mret (rc0, Some bk)) h
      = Some (rc, Some bk, h1) /\ nbd_inv fr bk buf cap b bs h1 /\
      (rc = 0 -> exists d, load_bytes buf len h1 = Some (d, h1))).
    { destruct (Z.eqb_spec rc0 0) as [->|Hn]; [apply read_any; auto|].
      exists rc0, h. split; [reflexivity|]. split; [auto|]. intros; contradiction. }
    destruct Hr as (rc & h1 & E & I1 & Hl). unfold safe_ret. mstep. rewrite E. mstep.
    unfold get_backend. mstep.
    destruct (send_reply_any req rc s Hs) as (w & s2 & Es & Hs2 & Hi2). rewrite Es. mstep.
    destruct (w <? 0); [eexists _, h1, bs; split; [reflexivity|]; cbn; rewrite Hi2; auto 10|].
    destruct (Z.eqb_spec rc 0) as [->|];
      [|eexists _, h1, bs; split; [reflexivity|]; cbn; rewrite Hi2; auto 10].
    destruct (Hl eq_refl) as [d Ed]. mstep. rewrite Ed. mstep.
    destruct (write_full_any d s2 (proj2 Hs2)) as (r & t & s3 & E3 & _ & _ & Hi3 & Hr3 & Ho3 & _).
    rewrite E3. mstep. eexists _, h1, bs. split; [reflexivity|].
    assert (sock_ok s3) by (split; [rewrite Hr3; apply Hs2|auto]).
    destruct (r <? 0); cbn; rewrite Hi3, Hi2; auto 10.
  - specialize (Hlen (or_intror Hw)). clear Hw.
    destruct (read_full_any len s (proj1 Hs)) as (n & d & s1 & E & Hi & Hd & _ & Hw & Hok & _);
      [int_lia|].
    destruct (receive_ok _ _ _ _ _ _ _ d I) as (h1 & E1 & I1 & _); [lia|].
    assert (Hs1 : sock_ok s1) by (split; [auto|rewrite Hw; apply Hs]).
    assert (Hin1 : sk_in s1 `suffix_of` sk_in s) by (exists d; exact Hi).
    unfold safe_ret. rewrite E. mstep. rewrite E1. mstep.
    destruct (n <? 0); [eexists _, h1, bs; split; [reflexivity|]; cbn; auto 10|]. mstep.
    assert (Hwr : exists rc h2 bs',
      (if rc0 =? 0 then ramdisk_backend_write (Some bk) from buf len else mret (rc0, Some bk)) h1
      = Some (rc, Some bk, h2) /\ nbd_inv fr bk buf cap b bs' h2 /\ zlength bs' = zlength bs).
    { destruct (rc0 =? 0); [apply write_any; auto|]. exists rc0, h1, bs. auto. }
    destruct Hwr as (rc & h2 & bs' & E2 & I2 & Hz).
    rewrite E2. mstep. unfold get_backend. mstep.
    apply (RS rc s1 bs' h2 (fun x => Continue (mk_nbd_state bk x buf cap)) I2 Hz Hs1 Hin1);
      reflexivity.
  - apply (RS 0 s bs h (fun x => Continue (mk_nbd_state bk x buf cap)) I eq_refl Hs); auto.
  - destruct (zero_any fr bk buf cap b bs h I from len Tf Tl) as (rc & h2 & bs' & E2 & I2 & Hz).
    unfold safe_ret. mstep. rewrite E2. mstep. unfold get_backend. mstep.
    apply (RS rc s bs' h2 (fun x => Continue (mk_nbd_state bk x buf cap)) I2 Hz Hs); auto.
  - apply (RS 0 s bs h (fun x => Break (mk_nbd_state bk x buf cap)) I eq_refl Hs); auto.
  - apply (RS (- EIO) s bs h (fun x => Continue (mk_nbd_state bk x buf cap)) I eq_refl Hs); auto.
Qed.

Lemma ntohll_bound v : is_u64 (ntohll_u64 v).
Proof.
  unfold ntohll_u64. pose proof (ntohl_bound (u32 (Z.shiftr v 32))) as H1.
  pose proof (ntohl_bound (u32 (Z.land v 0xffffffff))) as H2. unfold is_u32 in *.
  rewrite lor_shift by auto. int_lia.
Qed.

(** What an iteration on arbitrary input gives; if the loop goes on, a header
    was read. *)
Definition iter_ok (fr : gmap Z (list Z)) (b : Z) (bs : list Z) (st : nbd_state)
    (o : option (loop_ret * heap)) : Prop :=
  exists lr h' bs', o = Some (lr, h') /\ let st' := loop_state lr in
    nbd_inv fr (ns_backend st) (ns_buf st') (ns_cap st') b bs' h' /\
    zlength bs' = zlength bs /\ ns_backend st' = ns_backend st /\ 0 <= ns_cap st' /\
    sock_ok (ns_sock st') /\ sk_in (ns_sock st') `suffix_of` sk_in (ns_sock st) /\
    match lr with
    | Continue _ => (length (sk_in (ns_sock st')) < length (sk_in (ns_sock st)))%nat
    | Break _ => True
    end.

Lemma nbd_step_safe fr env st b bs h :
  nbd_inv fr (ns_backend st) (ns_buf st) (ns_cap st) b bs h -> 0 <= ns_cap st ->
  sock_ok (ns_sock st) ->
  starved_write env (sk_in (ns_sock st)) \/ iter_ok fr b bs st (nbd_step env st h).
Proof.
  intros I Hc Hs. unfold nbd_step.
  destruct (read_full_any request_size (ns_sock st) (proj1 Hs))
    as (n & hdr & s & E & Hi & Hd & _ & Hw & Hok & Hn); [unfold request_size; lia|].
  assert (Hs1 : sock_ok s) by (split; [auto|rewrite Hw; apply Hs]).
  assert (Hsuf : sk_in s `suffix_of` sk_in (ns_sock st)) by (exists hdr; exact Hi).
  rewrite E. mstep.
  assert (Hbreak : iter_ok fr b bs st
    (Some (Break (mk_nbd_state (ns_backend st) s (ns_buf st) (ns_cap st)), h)))
    by (eexists _, h, bs; split; [reflexivity|]; cbn; auto 10).
  destruct (Z.eqb_spec n 0); [right; exact Hbreak|].
  destruct (Z.ltb_spec n 0); [right; exact Hbreak|].
  assert (Hlh : zlength hdr = request_size) by (unfold zlength, request_size in *; lia).
  set (req := request_of_bytes hdr).
  destruct (Z.eqb_spec (ntohl (nr_magic req)) RAMDISK_NBD_REQUEST_MAGIC) as [Hm|_];
    cbn [negb]; [|right; exact Hbreak]. clear Hbreak. mstep.
  pose proof (ntohl_bound (nr_len req)) as Tl. pose proof (ntohll_bound (nr_from req)) as Tf.
  destruct (prepare_buf fr env _ _ _ _ _ _ (ntohl (nr_len req)) I Tl Hc)
    as (nb & h1 & Eb & I1 & Hc1 & Hle).
  rewrite Eb. mstep.
  set (starve := starved env (ntohl (nr_len req)) (ns_cap st)) in *.
  destruct (decide (starve = true /\ ntohl (nr_type req) = RAMDISK_NBD_CMD_WRITE)) as [[Hst Ht]|Hno].
  { left. exists [], hdr, (sk_in s). split; [exact Hi|]. split; [exact Hlh|]. cbv zeta. fold req.
    split; [exact Hm|]. split; [exact Ht|]. unfold starve, starved in Hst.
    apply andb_true_iff in Hst as [_ Hst]. apply negb_true_iff in Hst. exact Hst. }
  right.
  destruct (dispatch_safe fr (ns_backend st) s nb _ b bs h1 req (ntohl (nr_type req))
    (ntohll_u64 (nr_from req)) (ntohl (nr_len req)) (if starve then - ENOMEM else 0) I1 Hs1 Hc1 Tf Tl)
    as (lr & h2 & bs' & Ed & I2 & Hz & Hb & Hc2 & Hs2 & Hl2).
  { intros Hor. apply Hle. destruct starve; [|reflexivity].
    destruct Hor as [Hor|Hor]; [discriminate|]. destruct Hno. auto. }
  exists lr, h2, bs'. split; [exact Ed|]. cbn zeta. split_and!; auto.
  - etrans; [exact Hl2|exact Hsuf].
  - destruct lr; auto. destruct Hl2 as [k Hk]. rewrite Hi, Hk, !length_app.
    unfold zlength, request_size in *. lia.
Qed.

Lemma serve_loop_safe fr env stop :
  forall fuel i st b bs h,
  nbd_inv fr (ns_backend st) (ns_buf st) (ns_cap st) b bs h -> 0 <= ns_cap st ->
  sock_ok (ns_sock st) -> (length (sk_in (ns_sock st)) < fuel)%nat ->
  starved_write env (sk_in (ns_sock st)) \/
  exists st' h' bs', serve_loop fuel env stop i st h = Some (Some st', h') /\
    nbd_inv fr (ns_backend st) (ns_buf st') (ns_cap st') b bs' h' /\
    zlength bs' = zlength bs /\ ns_backend st' = ns_backend st.
Proof.
  induction fuel as [|fuel IH]; intros i st b bs h I Hc Hs Hf; [lia|].
  cbn [serve_loop]. destruct (stop i); [right; exists st, h, bs; auto|]. mstep.
  destruct (nbd_step_safe fr env st b bs h I Hc Hs)
    as [Hst|(lr & h1 & bs1 & -> & I1 & Hz & Hb & Hc1 & Hs1 & Hsf & Hl)]; [auto|]. mstep.
  destruct lr as [st1|st1]; cbn [loop_state] in *.
  - rewrite <- Hb in I1. destruct (IH (S i) st1 b bs1 h1)
      as [Hst|(st2 & h2 & bs2 & E & I2 & Hz2 & Hb2)]; auto; [lia| |].
    + left. eapply starved_later; eauto.
    + right. rewrite Hb in *. exists st2, h2, bs2. split_and!; auto. congruence.
  - right. exists st1, h1, bs1. auto.
Qed.

(** The loop ends and keeps the memory it does not own. *)
Lemma serve_nbd_total env stop fuel bk b bs h s :
  backend_wf bk b bs h -> heap_fresh h -> sock_ok s -> (length (sk_in s) < fuel)%nat ->
  starved_write env (sk_in s) \/
  exists s' h' bs',
    serve_nbd fuel env stop bk s h = Some (Some (bk, s'), h') /\
    backend_wf bk b bs' h' /\ zlength bs' = zlength bs /\
    (forall x, x <> b -> h_blocks h' !! x = h_blocks h !! x).
Proof.
  intros W F Hs Hf. unfold serve_nbd. mstep.
  destruct (serve_loop_safe (h_blocks h) env stop fuel 0 (mk_nbd_state bk s Null 0) b bs h)
    as [Hst|(st & h1 & bs1 & E & I1 & Hz & Hb)]; auto; [apply nbd_inv_start; auto|cbn; lia|].
  right. rewrite E. mstep. cbn [ns_backend] in *.
  destruct (nbd_inv_free _ _ _ _ _ _ _ I1) as (h2 & Ef & W2 & R2).
  rewrite Ef. mstep. rewrite Hb. eauto 10.
Qed.

(** C7: the server against any peer.  For arbitrary input bytes, any schedule of
    short transfers, signals and I/O errors, any failures of [realloc] and a stop
    request at any iteration: unless the input holds a WRITE header whose length
    [realloc] refuses, the loop terminates without an access outside its memory,
    leaves a disk of the same size and the backend unlocked, touches no other
    block and frees its buffer.  The exception is real: there the data of the
    WRITE overflows the old buffer ([nbd_write_nomem_overflow]). *)
Theorem serve_nbd_safe env stop fuel bk b bs h s :
  backend_wf bk b bs h -> heap_fresh h -> sock_ok s -> (length (sk_in s) < fuel)%nat ->
  starved_write env (sk_in s) \/
  exists s' h' bs',
    serve_nbd fuel env stop bk s h = Some (Some (bk, s'), h') /\
    backend_wf bk b bs' h' /\ zlength bs' = zlength bs /\
    (forall x, x <> b -> h_blocks h' !! x = h_blocks h !! x).
Proof. apply serve_nbd_total. Qed.

(** ** Where the code departs from its documentation *)

(** C39: a WRITE whose data is cut off at once is carried out.  When the peer
    closes the stream right after the header, [read_full] returns 0, which the
    loop does not treat as an error: the old contents of the transfer buffer
    are written to the disk, success is replied and the loop goes on, although
    the design document asks for a disconnect on a short payload. *)
Theorem nbd_write_eof_stale env st c rb rbs b bs h :
  backend_wf (ns_backend st) b bs h ->
  ns_buf st = Ptr rb 0 -> h_blocks h !! rb = Some rbs -> zlength rbs = ns_cap st -> rb <> b ->
  sock_quiet (ns_sock st) -> cmd_typed c -> nc_type c = RAMDISK_NBD_CMD_WRITE ->
  0 < nc_len c <= ns_cap st -> nc_from c + nc_len c <= zlength bs ->
  sk_in (ns_sock st) = wire_header c ->
  exists s', nbd_step env st h
    = Some (Continue (mk_nbd_state (ns_backend st) s' (ns_buf st) (ns_cap st)),
            hset b (splice (nc_from c) (slice 0 (nc_len c) rbs) bs) h) /\
    sk_out s' = sk_out (ns_sock st) ++ wire_reply c 0.
Proof.
  intros W Hbuf Hrb Hz Hne Q Tc Ht Hl Hfit Hin.
  pose proof Tc as (Tt & Th & _ & Tf & Tl & Tp). unfold nbd_step.
  pose proof (length_wire_header c Th) as Lw.
  destruct (read_full_data request_size (ns_sock st)) as (sch & Er & Qr);
    [apply Q|unfold request_size; lia|rewrite Hin; unfold request_size, zlength; lia|].
  rewrite Er, Hin. change (Z.to_nat request_size) with 28%nat.
  rewrite take_ge, drop_ge by lia. mstep.
  change (request_size =? 0) with false. change (request_size <? 0) with false. cbv iota.
  destruct (decode_header c Tc) as (D1 & D2 & D3 & D4 & D5). cbn zeta in *.
  rewrite D1, D2, D4, D5, Z.eqb_refl, Ht, Hbuf. cbn [negb].
  destruct (nc_len c >? ns_cap st) eqn:Eg; [lia|]. mstep. unfold nbd_dispatch.
  change (RAMDISK_NBD_CMD_WRITE =? RAMDISK_NBD_CMD_READ) with false.
  change (RAMDISK_NBD_CMD_WRITE =? RAMDISK_NBD_CMD_WRITE) with true. cbv iota. mstep.
  destruct (read_full_eof (nc_len c)
    (mk_sock [] sch (sk_out (ns_sock st)) (sk_wr (ns_sock st)))) as (sch2 & E2 & Q2);
    auto; [lia|]. rewrite E2. mstep. cbn [receive_into]. mstep. cbn [Z.ltb Z.compare Z.eqb]. mstep.
  rewrite (write_ok _ _ _ _ W rb 0 rbs)
    by (auto; pose proof (bw_size _ _ _ _ W); lia). mstep. unfold get_backend. mstep.
  destruct (send_reply_ok c (request_of_bytes (wire_header c)) 0 0
    (mk_sock [] sch2 (sk_out (ns_sock st)) (sk_wr (ns_sock st))) D3 Th) as (sch3 & E3 & _);
    [unfold is_u32; lia|reflexivity|apply Q|].
  cbn [sk_out sk_wr sk_in sk_rd] in *. rewrite E3. mstep. cbn [Z.ltb Z.compare].
  eexists. split; [reflexivity|reflexivity].
Qed.

(** A failed [realloc] on a WRITE is followed by a buffer overflow.  The
    loop records -ENOMEM but still reads the data of the command into the old,
    smaller buffer; when more bytes arrive than it holds the access is out of
    bounds. *)
Theorem nbd_write_nomem_overflow env st c rb rbs h rest :
  ns_buf st = Ptr rb 0 -> h_blocks h !! rb = Some rbs -> zlength rbs = ns_cap st ->
  sock_quiet (ns_sock st) -> cmd_typed c -> nc_type c = RAMDISK_NBD_CMD_WRITE ->
  ns_cap st < nc_len c -> ne_realloc_ok env (nc_len c) = false ->
  sk_in (ns_sock st) = wire_cmd c ++ rest ->
  nbd_step env st h = None.
Proof.
  intros Hbuf Hrb Hz Q Tc Ht Hl He Hin.
  pose proof Tc as (Tt & Th & _ & Tf & Tl & Tp). unfold nbd_step.
  pose proof (length_wire_header c Th) as Lw. unfold wire_cmd in Hin.
  rewrite Ht in Hin. change (RAMDISK_NBD_CMD_WRITE =? RAMDISK_NBD_CMD_WRITE) with true in Hin.
  cbv iota in Hin. rewrite <- app_assoc in Hin.
  destruct (read_full_data request_size (ns_sock st)) as (sch & Er & Qr);
    [apply Q|unfold request_size; lia
    |rewrite Hin; unfold request_size, zlength; rewrite !length_app; lia|].
  rewrite Er, Hin. change (Z.to_nat request_size) with 28%nat.
  rewrite take_app_length', drop_app_length' by auto. mstep.
  change (request_size =? 0) with false. change (request_size <? 0) with false. cbv iota.
  destruct (decode_header c Tc) as (D1 & D2 & D3 & D4 & D5). cbn zeta in *.
  rewrite D1, D2, D4, D5, Z.eqb_refl, Ht, Hbuf, He. cbn [negb].
  destruct (nc_len c >? ns_cap st) eqn:Eg; [|lia]. mstep. unfold nbd_dispatch.
  change (RAMDISK_NBD_CMD_WRITE =? RAMDISK_NBD_CMD_READ) with false.
  change (RAMDISK_NBD_CMD_WRITE =? RAMDISK_NBD_CMD_WRITE) with true. cbv iota. mstep.
  destruct (read_full_data (nc_len c) (mk_sock (nc_payload c ++ rest) sch
    (sk_out (ns_sock st)) (sk_wr (ns_sock st)))) as (sch2 & E2 & _); auto;
    [int_lia|cbn; unfold zlength in *; rewrite length_app; lia|].
  rewrite E2. cbn [sk_in]. mstep.
  assert (Ep : take (Z.to_nat (nc_len c)) (nc_payload c ++ rest) = nc_payload c)
    by (apply take_app_length'; unfold zlength in Tp; lia).
  rewrite Ep. unfold receive_into. destruct (nc_payload c) as [|x p] eqn:Ex.
  - unfold zlength in *; cbn in Tp. lia.
  - rewrite <- Ex in *. unfold store_bytes, store. rewrite Hrb. cbn.
    unfold in_block. destruct (_ <=? zlength rbs) eqn:Eb; [lia|].
    rewrite andb_false_r. reflexivity.
Qed.

(** The 64-bit byte-order helpers.  [ntohll_u64] applied to eight wire
    bytes read as a native integer is their big-endian value, and
    [htonll_u64] is its inverse on every 64-bit value. *)
Theorem ntohll_big_endian bs v :
  Forall is_u8 bs -> length bs = 8%nat -> is_u64 v ->
  ntohll_u64 (le_val bs) = be_val bs /\ ntohll_u64 (htonll_u64 v) = v /\
  le_bytes 8 (htonll_u64 v) = be_bytes 8 v.
Proof.
  intros Hb Hl Hv. split; [apply ntohll_wire; auto|].
  assert (E : htonll_u64 v = le_val (be_bytes 8 v)).
  { change (htonll_u64 v) with (ntohll_u64 v).
    rewrite <- (le_val_bytes_small 8 v) at 1 by exact Hv.
    rewrite ntohll_wire; [reflexivity|apply le_bytes_u8|apply length_le_bytes]. }
  rewrite E. split.
  - rewrite ntohll_wire; [apply be_val_bytes; exact Hv|apply be_bytes_u8|apply length_be_bytes].
  - rewrite <- (length_be_bytes 8 v) at 1. apply le_bytes_val, be_bytes_u8.
Qed.

(** ** Concrete sessions *)

Definition ex_cmds : list nbd_cmd :=
  [ mk_cmd RAMDISK_NBD_CMD_WRITE (replicate 8 1) 100 3 [7; 8; 9];
    mk_cmd RAMDISK_NBD_CMD_READ (replicate 8 2) 101 2 [0; 0];
    mk_cmd RAMDISK_NBD_CMD_TRIM (replicate 8 3) 1020 8 (replicate 8 0);
    mk_cmd RAMDISK_NBD_CMD_DISC (replicate 8 4) 0 0 [] ].

Definition ex_nbd_env : nbd_env := mk_nbd_env (fun _ => true) 170.

Lemma ex_cmds_typed : Forall cmd_typed ex_cmds.
Proof. repeat constructor; vm_compute; intuition congruence. Qed.

Lemma ex_heap_fresh : heap_fresh ex_bk_heap.
Proof.
  intros b bs. unfold ex_bk_heap; cbn. rewrite !lookup_insert, lookup_empty.
  repeat case_decide; intros; simplify_eq; lia.
Qed.


Lemma serve_nbd_safe_witness :
  let s := mk_sock (replicate 40 37) [Chunk 3; Fail EIO] [] [Fail EPIPE] in
  exists s' h', serve_nbd 41 ex_nbd_env (fun i => (i =? 3)%nat) ex_backend s ex_bk_heap
                = Some (Some (ex_backend, s'), h').
Proof.
  intros s. destruct (serve_nbd_safe ex_nbd_env (fun i => (i =? 3)%nat) 41 ex_backend 1
    (replicate 1024 0) ex_bk_heap s ex_backend_wf ex_heap_fresh)
    as [(pre & hdr & rest & _ & _ & _ & _ & Hf)|(s' & h' & bs' & E & _)].
  - split; repeat constructor; unfold EIO, EPIPE; lia.
  - cbn; lia.
  - discriminate Hf.
  - exists s', h'. exact E.
Defined.

Definition ex_stale_cmd : nbd_cmd :=
  mk_cmd RAMDISK_NBD_CMD_WRITE (replicate 8 1) 100 3 [7; 8; 9].

Lemma ex_stale_typed : cmd_typed ex_stale_cmd.
Proof. repeat constructor; vm_compute; intuition congruence. Qed.

(** Block 2 of the example heap, filled with 7, is the old buffer. *)
Lemma nbd_write_eof_stale_witness :
  let st := mk_nbd_state ex_backend (mk_sock (wire_header ex_stale_cmd) [] [] []) (Ptr 2 0) 16 in
  exists s', nbd_step ex_nbd_env st ex_bk_heap
    = Some (Continue (mk_nbd_state ex_backend s' (Ptr 2 0) 16),
            hset 1 (splice 100 [7; 7; 7] (replicate 1024 0)) ex_bk_heap) /\
    sk_out s' = wire_reply ex_stale_cmd 0.
Proof.
  intros st. destruct (nbd_write_eof_stale ex_nbd_env st ex_stale_cmd 2 (replicate 16 7) 1
    (replicate 1024 0) ex_bk_heap ex_backend_wf) as (s' & E & Ho);
    try reflexivity; try exact ex_stale_typed; try (vm_compute; intuition congruence).
  - split; constructor.
  - exists s'. split; [exact E|exact Ho].
Defined.

Lemma nbd_write_nomem_overflow_witness :
  let st := mk_nbd_state ex_backend
              (mk_sock (wire_cmd (mk_cmd 1 (replicate 8 1) 0 17 (replicate 17 5))) [] [] [])
              (Ptr 2 0) 16 in
  nbd_step (mk_nbd_env (fun n => n <=? 16) 170) st ex_bk_heap = None.
Proof.
  intros st. apply (nbd_write_nomem_overflow (mk_nbd_env (fun n => n <=? 16) 170) st
    (mk_cmd 1 (replicate 8 1) 0 17 (replicate 17 5)) 2 (replicate 16 7) ex_bk_heap []);
    try reflexivity.
  - split; constructor.
  - repeat constructor; vm_compute; intuition congruence.
Defined.

Lemma ntohll_big_endian_witness :
  ntohll_u64 (le_val [1; 2; 3; 4; 5; 6; 7; 8]) = 0x0102030405060708 /\
  ntohll_u64 (htonll_u64 UINT64_MAX) = UINT64_MAX.
Proof.
  destruct (ntohll_big_endian [1; 2; 3; 4; 5; 6; 7; 8] UINT64_MAX) as (E1 & E2 & _).
  - repeat constructor; vm_compute; intuition congruence.
  - reflexivity.
  - int_lia.
  - split; [exact E1|exact E2].
Defined.
