(* ===== verification/UrmaMgr.v ===== *)
(** * The URMA manager (userspace-nbd/src/ramdisk_urma.c, ramdisk_urma.h)

    Peers, the request queue, the worker and the transfers, in the build
    without HAVE_URMA; in a build with it, a manager in mock mode does the
    same, since its peers hold no imported handles.  The manager's mutex makes
    each critical section one step: the functions below are the code between
    lock and unlock, and the functions of the source compose them.  The
    requests live on the stacks of the callers; [uw_reqs] maps the address of
    each live one to its contents, so a request whose caller has returned is
    no longer there and reading it is undefined. *)

From S2P Require Import Prelude.
From S2P Require Import Mem.
From S2P Require Import Backend.
From S2P Require Import CtrlProto.

Definition RAMDISK_URMA_MAX_PEERS : Z := 32.

Definition RAMDISK_URMA_MAX_QUEUE_DEPTH : Z := 1024.

Definition RAMDISK_URMA_DEFAULT_TIMEOUT_MS : Z := 30000.

Definition RAMDISK_URMA_DEFAULT_TOKEN : Z := 0xACFE.

Record ramdisk_urma_peer : Type := mk_peer {
  up_active : bool;
  up_peer_id : Z;
  up_eid : list Z;
  up_uasid : Z;
  up_seg_va : Z;
  up_seg_len : Z;
  up_seg_token_id : Z;
  up_jetty_id : Z;
  up_mock_hbm : ptr
}.

Definition peer_zero : ramdisk_urma_peer :=
  mk_peer false 0 (replicate 16 0) 0 0 0 0 0 Null.

Record ramdisk_urma_request : Type := mk_request {
  rq_peer_id : Z;
  rq_request_id : Z;
  rq_local_offset : Z;
  rq_remote_hbm_addr : Z;
  rq_length : Z;
  rq_direction : Z;
  rq_status : Z;
  rq_done : bool
}.

(** [um_queue] is [None] when the ring is not allocated; a slot of the ring is
    [NULL] or the address of a request.  The pointer to the backend is kept in the
    world below. *)
Record ramdisk_urma_mgr : Type := mk_mgr {
  um_initialized : bool;
  um_worker_started : bool;
  um_enabled : bool;
  um_use_mock : bool;
  um_stopping : bool;
  um_urma_dev : list Z;
  um_eid_index : Z;
  um_trans_mode : Z;
  um_tp_type : Z;
  um_local_token_value : Z;
  um_queue_depth : Z;
  um_queue : option (list (option Z));
  um_head : Z;
  um_tail : Z;
  um_pending : Z;
  um_inflight : Z;
  um_completed : Z;
  um_failed : Z;
  um_peers : list ramdisk_urma_peer
}.

Definition mgr_zero : ramdisk_urma_mgr :=
  mk_mgr false false false false false [] 0 0 0 0 0 None 0 0 0 0 0 0
    (replicate (Z.to_nat RAMDISK_URMA_MAX_PEERS) peer_zero).

Record ramdisk_urma_config : Type := mk_urma_config {
  uc_enable : bool;
  uc_use_mock : bool;
  uc_queue_depth : Z;
  uc_urma_dev : option (list Z);
  uc_eid_index : Z;
  uc_trans_mode : Z;
  uc_tp_type : Z;
  uc_local_token_value : Z
}.

(** The manager, the disk it serves and the live requests. *)
Record urma_world : Type := mk_world {
  uw_mgr : ramdisk_urma_mgr;
  uw_backend : option ramdisk_backend;
  uw_reqs : gmap Z ramdisk_urma_request
}.

(** ** Field updates *)

Definition set_enabled (v : bool) (m : ramdisk_urma_mgr) : ramdisk_urma_mgr :=
  mk_mgr (um_initialized m) (um_worker_started m) v (um_use_mock m) (um_stopping m)
    (um_urma_dev m) (um_eid_index m) (um_trans_mode m) (um_tp_type m)
    (um_local_token_value m) (um_queue_depth m) (um_queue m) (um_head m) (um_tail m)
    (um_pending m) (um_inflight m) (um_completed m) (um_failed m) (um_peers m).

Definition set_peers (ps : list ramdisk_urma_peer) (m : ramdisk_urma_mgr) : ramdisk_urma_mgr :=
  mk_mgr (um_initialized m) (um_worker_started m) (um_enabled m) (um_use_mock m)
    (um_stopping m) (um_urma_dev m) (um_eid_index m) (um_trans_mode m) (um_tp_type m)
    (um_local_token_value m) (um_queue_depth m) (um_queue m) (um_head m) (um_tail m)
    (um_pending m) (um_inflight m) (um_completed m) (um_failed m) ps.

Definition set_run (started stopping : bool) (m : ramdisk_urma_mgr) : ramdisk_urma_mgr :=
  mk_mgr (um_initialized m) started (um_enabled m) (um_use_mock m) stopping
    (um_urma_dev m) (um_eid_index m) (um_trans_mode m) (um_tp_type m)
    (um_local_token_value m) (um_queue_depth m) (um_queue m) (um_head m) (um_tail m)
    (um_pending m) (um_inflight m) (um_completed m) (um_failed m) (um_peers m).

(** The ring: contents, head, tail, pending and in-flight counts. *)
Definition set_ring (q : list (option Z)) (head tail pending inflight : Z)
    (m : ramdisk_urma_mgr) : ramdisk_urma_mgr :=
  mk_mgr (um_initialized m) (um_worker_started m) (um_enabled m) (um_use_mock m)
    (um_stopping m) (um_urma_dev m) (um_eid_index m) (um_trans_mode m) (um_tp_type m)
    (um_local_token_value m) (um_queue_depth m) (Some q) head tail pending inflight
    (um_completed m) (um_failed m) (um_peers m).

Definition set_counts (inflight completed failed : Z) (m : ramdisk_urma_mgr)
    : ramdisk_urma_mgr :=
  mk_mgr (um_initialized m) (um_worker_started m) (um_enabled m) (um_use_mock m)
    (um_stopping m) (um_urma_dev m) (um_eid_index m) (um_trans_mode m) (um_tp_type m)
    (um_local_token_value m) (um_queue_depth m) (um_queue m) (um_head m) (um_tail m)
    (um_pending m) inflight completed failed (um_peers m).

Definition set_final (m : ramdisk_urma_mgr) (ps : list ramdisk_urma_peer) : ramdisk_urma_mgr :=
  mk_mgr false (um_worker_started m) (um_enabled m) (um_use_mock m) (um_stopping m)
    (um_urma_dev m) (um_eid_index m) (um_trans_mode m) (um_tp_type m)
    (um_local_token_value m) (um_queue_depth m) None (um_head m) (um_tail m)
    (um_pending m) (um_inflight m) (um_completed m) (um_failed m) ps.

(** ** Timeouts *)

(** [struct timespec], seconds and nanoseconds; [now] is what the realtime
    clock shows. *)
Definition make_abs_timeout (now : Z * Z) (timeout_ms : Z) : Z * Z :=
  let sec := fst now + timeout_ms / 1000 in
  let nsec := snd now + (timeout_ms mod 1000) * 1000000 in
  if nsec >=? 1000000000 then (sec + 1, nsec - 1000000000) else (sec, nsec).

(** ** Peers and validation *)

(** The index of the first active slot with this identifier, from slot [i]. *)
Fixpoint find_peer_from (ps : list ramdisk_urma_peer) (peer_id : Z) (i : nat) : option nat :=
  match ps with
  | [] => None
  | p :: ps' =>
      if up_active p && (up_peer_id p =? peer_id) then Some i
      else find_peer_from ps' peer_id (S i)
  end.

Definition find_peer_locked (mgr : ramdisk_urma_mgr) (peer_id : Z) : option nat :=
  find_peer_from (um_peers mgr) peer_id 0.

Fixpoint find_free_from (ps : list ramdisk_urma_peer) (i : nat) : option nat :=
  match ps with
  | [] => None
  | p :: ps' => if negb (up_active p) then Some i else find_free_from ps' (S i)
  end.

Definition validate_alignment (backend : option ramdisk_backend)
    (xfer : ramdisk_ctrl_urma_transfer) : Z :=
  let bs := ramdisk_backend_block_size backend in
  if bs =? 0 then - EINVAL else
  if negb (ct_local_offset xfer mod bs =? 0) || negb (ct_remote_hbm_addr xfer mod bs =? 0)
     || negb (ct_length xfer mod bs =? 0) then - EINVAL
  else 0.

(** The result and, on success, the slot stored through [peer_out]; [None]
    when [*peer_out] is left as it was. *)
Definition validate_xfer_locked (mgr : ramdisk_urma_mgr) (backend : option ramdisk_backend)
    (xfer : option ramdisk_ctrl_urma_transfer) : Z * option nat :=
  if negb (um_enabled mgr) then (- EOPNOTSUPP, None) else
  match xfer with
  | None => (- EINVAL, None)
  | Some xfer =>
      if ct_length xfer =? 0 then (- EINVAL, None) else
      if negb (ct_direction xfer =? RAMDISK_TO_HBM)
         && negb (ct_direction xfer =? HBM_TO_RAMDISK) then (- EINVAL, None) else
      if negb (ramdisk_backend_validate_range backend (ct_local_offset xfer)
                 (ct_length xfer) =? 0) then (- ERANGE, None) else
      if negb (validate_alignment backend xfer =? 0) then (- EINVAL, None) else
      match find_peer_locked mgr (ct_peer_id xfer) with
      | None => (- ENODEV, None)
      | Some i =>
          let peer := nth i (um_peers mgr) peer_zero in
          if ct_remote_hbm_addr xfer <? up_seg_va peer then (- ERANGE, None) else
          let remote_off := u64 (ct_remote_hbm_addr xfer - up_seg_va peer) in
          if (remote_off >? up_seg_len peer)
             || (ct_length xfer >? u64 (up_seg_len peer - remote_off))
          then (- ERANGE, None) else (0, Some i)
      end
  end.

(** ** Executing a request *)

Definition execute_mock_xfer (backend : option ramdisk_backend)
    (req : ramdisk_urma_request) (peer : ramdisk_urma_peer)
    : mem (Z * option ramdisk_backend) :=
  let remote_off := u64 (rq_remote_hbm_addr req - up_seg_va peer) in
  if is_null (up_mock_hbm peer) then mret (- ENODEV, backend) else
  '(rc, backend) ← ramdisk_backend_lock backend;
  if negb (rc =? 0) then mret (rc, backend) else
  let hbm := padd (up_mock_hbm peer) remote_off in
  let disk := padd (ramdisk_backend_base backend) (rq_local_offset req) in
  _ ← (if rq_direction req =? RAMDISK_TO_HBM
       then memcpy hbm disk (rq_length req)
       else memcpy disk hbm (rq_length req));
  backend ← ramdisk_backend_unlock backend;
  mret (0, backend).

Definition xfer_of_request (r : ramdisk_urma_request) : ramdisk_ctrl_urma_transfer :=
  mk_transfer (rq_peer_id r) (rq_request_id r) (rq_local_offset r) (rq_remote_hbm_addr r)
    (rq_length r) (rq_direction r).

Definition set_remote (v : Z) (r : ramdisk_urma_request) : ramdisk_urma_request :=
  mk_request (rq_peer_id r) (rq_request_id r) (rq_local_offset r) v (rq_length r)
    (rq_direction r) (rq_status r) (rq_done r).

Definition set_done (status : Z) (r : ramdisk_urma_request) : ramdisk_urma_request :=
  mk_request (rq_peer_id r) (rq_request_id r) (rq_local_offset r) (rq_remote_hbm_addr r)
    (rq_length r) (rq_direction r) status true.

(** ** The worker *)

(** Outcome of the worker's first critical section: block on [not_empty],
    leave the loop, or a request with its slot and validation result. *)
Inductive dequeued : Type :=
| DeqWait
| DeqExit
| DeqJob (w : urma_world) (a : Z) (slot : nat) (rc : Z).

(** The source reads [peer->seg_va] after the validation whether it succeeded
    or not; [peer] is uninitialised when it did not. *)
Definition worker_dequeue (w : urma_world) : mem dequeued :=
  let m := uw_mgr w in
  if um_pending m =? 0 then mret (if um_stopping m then DeqExit else DeqWait) else
  match um_queue m with
  | None => ub
  | Some q =>
      slot ← lift (q !! Z.to_nat (um_head m));
      match slot with
      | None => ub
      | Some a =>
          head' ← umod (u32 (um_head m + 1)) (um_queue_depth m);
          let m' := set_ring (<[Z.to_nat (um_head m) := None]> q) head' (um_tail m)
                      (u32 (um_pending m - 1)) (u32 (um_inflight m + 1)) m in
          req ← lift (uw_reqs w !! a);
          let '(rc, peer) := validate_xfer_locked m' (uw_backend w) (Some (xfer_of_request req)) in
          match peer with
          | None => ub
          | Some i =>
              let seg_va := up_seg_va (nth i (um_peers m') peer_zero) in
              mret (DeqJob (mk_world m' (uw_backend w)
                             (<[a := set_remote seg_va req]> (uw_reqs w))) a i rc)
          end
      end
  end.

(** The transfer, outside the manager's lock; the slot is read again. *)
Definition worker_execute (w : urma_world) (a : Z) (slot : nat) (rc : Z) : mem (Z * urma_world) :=
  if negb (rc =? 0) then mret (rc, w) else
  req ← lift (uw_reqs w !! a);
  if um_use_mock (uw_mgr w) then
    '(rc, backend) ← execute_mock_xfer (uw_backend w) req
                       (nth slot (um_peers (uw_mgr w)) peer_zero);
    mret (rc, mk_world (uw_mgr w) backend (uw_reqs w))
  else mret (- ENOSYS, w).

Definition worker_complete (w : urma_world) (a rc : Z) : mem urma_world :=
  let m := uw_mgr w in
  req ← lift (uw_reqs w !! a);
  mret (mk_world
    (set_counts (u32 (um_inflight m - 1))
       (if rc =? 0 then u64 (um_completed m + 1) else um_completed m)
       (if rc =? 0 then um_failed m else u64 (um_failed m + 1)) m)
    (uw_backend w) (<[a := set_done rc req]> (uw_reqs w))).

(** The log message after the second critical section reads the request. *)
Definition worker_log (w : urma_world) (a : Z) : mem unit :=
  _ ← lift (uw_reqs w !! a); mret tt.

(** [urma_worker_main] without interference, until it blocks or leaves. *)
Fixpoint urma_worker_main (fuel : nat) (w : urma_world) : mem (option urma_world) :=
  match fuel with
  | O => mret None
  | S fuel' =>
      d ← worker_dequeue w;
      match d with
      | DeqWait | DeqExit => mret (Some w)
      | DeqJob w a slot rc =>
          '(rc, w) ← worker_execute w a slot rc;
          w ← worker_complete w a rc;
          _ ← worker_log w a;
          urma_worker_main fuel' w
      end
  end.

(** ** Life cycle *)

(** What the C library answers: the ring allocation, [pthread_mutex_init] and
    [pthread_create]. *)
Record urma_init_env : Type := mk_init_env {
  ie_calloc_ok : bool;
  ie_mutex_rc : Z;
  ie_thread_rc : Z
}.

Definition with_peers_off (p : ramdisk_urma_peer) : ramdisk_urma_peer :=
  mk_peer false (up_peer_id p) (up_eid p) (up_uasid p) (up_seg_va p) (up_seg_len p)
    (up_seg_token_id p) (up_jetty_id p) Null.

(** The loop over the peers in [ramdisk_urma_mgr_destroy]. *)
Fixpoint destroy_peers (ps : list ramdisk_urma_peer) : mem (list ramdisk_urma_peer) :=
  match ps with
  | [] => mret []
  | p :: ps' =>
      p ← (if up_active p
           then (_ ← free (up_mock_hbm p); mret (with_peers_off p))
           else mret p);
      ps' ← destroy_peers ps';
      mret (p :: ps')
  end.

(** [fuel] bounds the requests the worker still drains while it is joined. *)
Definition ramdisk_urma_mgr_destroy (fuel : nat) (mgr : option urma_world)
    : mem (option (option urma_world)) :=
  match mgr with
  | None => mret (Some None)
  | Some w =>
      if negb (um_initialized (uw_mgr w)) then mret (Some (Some w)) else
      ow ← (if um_worker_started (uw_mgr w) then
              ow ← urma_worker_main fuel
                     (mk_world (set_run true true (uw_mgr w)) (uw_backend w) (uw_reqs w));
              match ow with
              | None => mret None
              | Some w => mret (Some (mk_world (set_run false true (uw_mgr w))
                                        (uw_backend w) (uw_reqs w)))
              end
            else mret (Some w));
      match ow with
      | None => mret None
      | Some w =>
          ps ← destroy_peers (um_peers (uw_mgr w));
          mret (Some (Some (mk_world (set_final (uw_mgr w) ps) (uw_backend w) (uw_reqs w))))
      end
  end.

(** The manager with the fields set from the configuration, its ring allocated. *)
Definition mgr_of_config (config : option ramdisk_urma_config) (qd : Z) : ramdisk_urma_mgr :=
  mk_mgr true false
    (match config with Some c => uc_enable c | None => false end)
    (match config with Some c => uc_use_mock c | None => true end)
    false
    (match config with
     | Some c => match uc_urma_dev c with Some d => take 63 d | None => [] end
     | None => []
     end)
    (match config with Some c => uc_eid_index c | None => UINT32_MAX end)
    (match config with Some c => uc_trans_mode c | None => 1 end)
    (match config with Some c => uc_tp_type c | None => 0 end)
    (match config with
     | Some c => if negb (uc_local_token_value c =? 0) then uc_local_token_value c
                 else RAMDISK_URMA_DEFAULT_TOKEN
     | None => RAMDISK_URMA_DEFAULT_TOKEN
     end)
    qd (Some (replicate (Z.to_nat qd) None)) 0 0 0 0 0 0
    (replicate (Z.to_nat RAMDISK_URMA_MAX_PEERS) peer_zero).

(** [ramdisk_urma_mgr_init] up to the start of the provider: an early return or
    the manager.  When the mutex cannot be made the ring is freed and
    [mgr->queue] dangles in a manager that is not initialised: the ring counts as
    not allocated. *)
Definition mgr_prepare (env : urma_init_env) (mgr : option ramdisk_urma_mgr)
    (backend : option ramdisk_backend) (config : option ramdisk_urma_config)
    : (Z * option ramdisk_urma_mgr) + ramdisk_urma_mgr :=
  match mgr, backend with
  | Some _, Some bk =>
      if negb (bk_initialized bk) then inl (- EINVAL, mgr) else
      let qd := match config with
                | Some c => if negb (uc_queue_depth c =? 0) then uc_queue_depth c else 32
                | None => 32
                end in
      if qd >? RAMDISK_URMA_MAX_QUEUE_DEPTH then inl (- EINVAL, Some mgr_zero) else
      if negb (ie_calloc_ok env) then inl (- ENOMEM, Some mgr_zero) else
      if negb (ie_mutex_rc env =? 0) then inl (- ie_mutex_rc env, Some mgr_zero) else
      inr (mgr_of_config config qd)
  | _, _ => inl (- EINVAL, mgr)
  end.

(** A build without HAVE_URMA. *)
Definition ramdisk_urma_mgr_init (env : urma_init_env) (mgr : option ramdisk_urma_mgr)
    (backend : option ramdisk_backend) (config : option ramdisk_urma_config)
    : mem (Z * option ramdisk_urma_mgr) :=
  match mgr_prepare env mgr backend config with
  | inl r => mret r
  | inr m =>
      if negb (um_use_mock m) then
        r ← ramdisk_urma_mgr_destroy 1 (Some (mk_world m backend ∅));
        w ← lift r;
        mret (- ENOSYS, option_map uw_mgr w)
      else if negb (ie_thread_rc env =? 0) then
        r ← ramdisk_urma_mgr_destroy 1 (Some (mk_world m backend ∅));
        w ← lift r;
        mret (- ie_thread_rc env, option_map uw_mgr w)
      else mret (0, Some (set_run true false m))
  end.

Definition ramdisk_urma_enable (mgr : option ramdisk_urma_mgr) : Z * option ramdisk_urma_mgr :=
  match mgr with
  | Some m => if negb (um_initialized m) then (- EINVAL, mgr) else (0, Some (set_enabled true m))
  | None => (- EINVAL, mgr)
  end.

Definition ramdisk_urma_disable (mgr : option ramdisk_urma_mgr) : Z * option ramdisk_urma_mgr :=
  match mgr with
  | Some m => if negb (um_initialized m) then (- EINVAL, mgr) else (0, Some (set_enabled false m))
  | None => (- EINVAL, mgr)
  end.

(** ** Peers *)

Definition peer_of_info (info : ramdisk_ctrl_peer_connect_info) (hbm : ptr) : ramdisk_urma_peer :=
  mk_peer true (ci_peer_id info) (ci_eid info) (ci_uasid info) (ci_seg_va info)
    (ci_seg_len info) (ci_seg_token_id info) (ci_jetty_id info) hbm.

(** The critical section of [ramdisk_urma_peer_connect]. *)
Definition peer_connect_locked (m : ramdisk_urma_mgr) (new_peer : ramdisk_urma_peer)
    : Z * ramdisk_urma_mgr :=
  if negb (um_enabled m) then (- EOPNOTSUPP, m) else
  match find_peer_locked m (up_peer_id new_peer) with
  | Some _ => (- EEXIST, m)
  | None =>
      match find_free_from (um_peers m) 0 with
      | None => (- ENOSPC, m)
      | Some i => (0, set_peers (<[i := new_peer]> (um_peers m)) m)
      end
  end.

Definition ramdisk_urma_peer_connect (calloc_ok : bool) (mgr : option ramdisk_urma_mgr)
    (info : option ramdisk_ctrl_peer_connect_info) : mem (Z * option ramdisk_urma_mgr) :=
  match mgr, info with
  | Some m, Some info =>
      if negb (um_initialized m) then mret (- EINVAL, mgr) else
      if (ci_peer_id info =? 0) || (ci_seg_len info =? 0) then mret (- EINVAL, mgr) else
      if um_use_mock m then
        mock_hbm ← calloc calloc_ok (ci_seg_len info);
        if is_null mock_hbm then mret (- ENOMEM, mgr) else
        let '(rc, m') := peer_connect_locked m (peer_of_info info mock_hbm) in
        if rc =? 0 then mret (0, Some m') else
        _ ← free mock_hbm;
        mret (rc, Some m')
      else mret (- ENOSYS, mgr)
  | _, _ => mret (- EINVAL, mgr)
  end.

(** The critical section of [ramdisk_urma_peer_disconnect]: the removed peer. *)
Definition peer_disconnect_locked (m : ramdisk_urma_mgr) (peer_id : Z)
    : option (ramdisk_urma_peer * ramdisk_urma_mgr) :=
  match find_peer_locked m peer_id with
  | None => None
  | Some i => Some (nth i (um_peers m) peer_zero, set_peers (<[i := peer_zero]> (um_peers m)) m)
  end.

Definition ramdisk_urma_peer_disconnect (mgr : option ramdisk_urma_mgr) (peer_id : Z)
    : mem (Z * option ramdisk_urma_mgr) :=
  match mgr with
  | Some m =>
      if negb (um_initialized m) || (peer_id =? 0) then mret (- EINVAL, mgr) else
      match peer_disconnect_locked m peer_id with
      | None => mret (- ENOENT, mgr)
      | Some (old, m') => _ ← free (up_mock_hbm old); mret (0, Some m')
      end
  | None => mret (- EINVAL, mgr)
  end.

(** ** Transfers *)

Definition request_of_xfer (xfer : ramdisk_ctrl_urma_transfer) : ramdisk_urma_request :=
  mk_request (ct_peer_id xfer) (ct_request_id xfer) (ct_local_offset xfer)
    (ct_remote_hbm_addr xfer) (ct_length xfer) (ct_direction xfer) 0 false.

(** The critical section of [ramdisk_urma_transfer_sync] up to its first wait:
    an immediate result, or the world with the request queued at address [a],
    the caller's stack frame. *)
Definition transfer_submit (w : urma_world) (xfer : ramdisk_ctrl_urma_transfer) (a : Z)
    : mem (Z + urma_world) :=
  let m := uw_mgr w in
  let '(rc, _) := validate_xfer_locked m (uw_backend w) (Some xfer) in
  if negb (rc =? 0) then mret (inl rc) else
  if um_pending m >=? um_queue_depth m then mret (inl (- EBUSY)) else
  match um_queue m with
  | None => ub
  | Some q =>
      _ ← lift (q !! Z.to_nat (um_tail m));
      tail' ← umod (u32 (um_tail m + 1)) (um_queue_depth m);
      mret (inr (mk_world
        (set_ring (<[Z.to_nat (um_tail m) := Some a]> q) (um_head m) tail'
           (u32 (um_pending m + 1)) (um_inflight m) m)
        (uw_backend w) (<[a := request_of_xfer xfer]> (uw_reqs w))))
  end.

(** The wait loop.  Each element of [evs] is one [pthread_cond_timedwait]: what
    the other threads do while the lock is released, and its return value.
    The frame dies when the function returns; [None] while it still waits. *)
Fixpoint transfer_wait (evs : list ((urma_world -> mem urma_world) * Z)) (w : urma_world)
    (a : Z) : mem (option (Z * urma_world)) :=
  req ← lift (uw_reqs w !! a);
  if rq_done req
  then mret (Some (rq_status req, mk_world (uw_mgr w) (uw_backend w) (delete a (uw_reqs w)))) else
  match evs with
  | [] => mret None
  | (act, rc) :: evs' =>
      w' ← act w;
      if (rc =? ETIMEDOUT) || (rc =? 0) then transfer_wait evs' w' a
      else mret (Some (- rc, mk_world (uw_mgr w') (uw_backend w') (delete a (uw_reqs w'))))
  end.

Definition ramdisk_urma_transfer_sync (evs : list ((urma_world -> mem urma_world) * Z))
    (a : Z) (mgr : option urma_world) (xfer : option ramdisk_ctrl_urma_transfer)
    : mem (option (Z * option urma_world)) :=
  match mgr, xfer with
  | Some w, Some xfer =>
      if negb (um_initialized (uw_mgr w)) then mret (Some (- EINVAL, mgr)) else
      r ← transfer_submit w xfer a;
      match r with
      | inl rc => mret (Some (rc, mgr))
      | inr w =>
          ow ← transfer_wait evs w a;
          match ow with
          | Some (rc, w) => mret (Some (rc, Some w))
          | None => mret None
          end
      end
  | _, _ => mret (Some (- EINVAL, mgr))
  end.

(** ** Status and the mock peer memory *)

Fixpoint count_active (ps : list ramdisk_urma_peer) (n : Z) : Z :=
  match ps with
  | [] => n
  | p :: ps' => count_active ps' (if up_active p then u32 (n + 1) else n)
  end.

Definition ramdisk_urma_fill_status (mgr : option ramdisk_urma_mgr)
    (status : ramdisk_ctrl_status) : ramdisk_ctrl_status :=
  match mgr with
  | None => status
  | Some m =>
      if negb (um_initialized m) then status else
      mk_status (cs_size status) (cs_block_size status) (if um_enabled m then 1 else 0)
        (count_active (um_peers m) (cs_peer_count status)) (um_queue_depth m)
        (um_inflight m) (um_pending m) (um_completed m) (um_failed m)
  end.

(** The range test both mock accessors share. *)
Definition mock_peer_at (m : ramdisk_urma_mgr) (peer_id remote_addr len : Z) : Z + ptr :=
  match find_peer_locked m peer_id with
  | None => inl (- ENODEV)
  | Some i =>
      let peer := nth i (um_peers m) peer_zero in
      if is_null (up_mock_hbm peer) then inl (- ENODEV) else
      if (remote_addr <? up_seg_va peer) || (len >? up_seg_len peer)
         || (u64 (remote_addr - up_seg_va peer) >? u64 (up_seg_len peer - len))
      then inl (- ERANGE)
      else inr (padd (up_mock_hbm peer) (u64 (remote_addr - up_seg_va peer)))
  end.

Definition ramdisk_urma_mock_write_peer (mgr : option ramdisk_urma_mgr)
    (peer_id remote_addr : Z) (buf : ptr) (len : Z) : mem Z :=
  match mgr with
  | None => mret (- EINVAL)
  | Some m =>
      if is_null buf then mret (- EINVAL) else
      match mock_peer_at m peer_id remote_addr len with
      | inl rc => mret rc
      | inr p => _ ← memcpy p buf len; mret 0
      end
  end.

Definition ramdisk_urma_mock_read_peer (mgr : option ramdisk_urma_mgr)
    (peer_id remote_addr : Z) (buf : ptr) (len : Z) : mem Z :=
  match mgr with
  | None => mret (- EINVAL)
  | Some m =>
      if is_null buf then mret (- EINVAL) else
      match mock_peer_at m peer_id remote_addr len with
      | inl rc => mret rc
      | inr p => _ ← memcpy buf p len; mret 0
      end
  end.
