(* ===== verification/UrmaQueue.v ===== *)
(** * Invariants of the URMA manager

    The ring of [ramdisk_urma.c] as a FIFO queue, the peer table and its
    memory, and what each critical section does on a manager that satisfies
    them. *)

From S2P Require Import Prelude.
From S2P Require Import Mem.
From S2P Require Import Backend.
From S2P Require Import CtrlProto.
From S2P Require Import UrmaMgr.

(** ** The ring *)

(** Slot of the [k]-th element from the head. *)
Definition ring_at (head depth k : Z) : nat := Z.to_nat ((head + k) mod depth).

(** The ring [q] holds exactly [l], oldest first. *)
Record ring_ok (q : list (option Z)) (depth head tail pending : Z) (l : list Z) : Prop := {
  ro_depth : 0 < depth <= RAMDISK_URMA_MAX_QUEUE_DEPTH;
  ro_len : zlength q = depth;
  ro_head : 0 <= head < depth;
  ro_pending : pending = zlength l;
  ro_bound : pending <= depth;
  ro_tail : tail = (head + pending) mod depth;
  ro_full : forall k a, l !! k = Some a -> q !! ring_at head depth (Z.of_nat k) = Some (Some a);
  ro_free : forall k, pending <= k < depth -> q !! ring_at head depth k = Some None
}.

Lemma ring_at_inj head depth k k' :
  0 < depth -> 0 <= k < depth -> 0 <= k' < depth ->
  ring_at head depth k = ring_at head depth k' -> k = k'.
Proof.
  unfold ring_at. intros Hd Hk Hk' E.
  pose proof (Z.mod_pos_bound (head + k) depth Hd).
  pose proof (Z.mod_pos_bound (head + k') depth Hd).
  assert (E' : (head + k) mod depth = (head + k') mod depth) by lia.
  pose proof (Z.div_mod (head + k) depth). pose proof (Z.div_mod (head + k') depth).
  assert ((head + k) / depth = (head + k') / depth \/
          (head + k) / depth < (head + k') / depth \/
          (head + k') / depth < (head + k) / depth) as [?|[?|?]] by lia; nia.
Qed.

Lemma ring_at_bound head depth k : 0 < depth -> 0 <= Z.of_nat (ring_at head depth k) < depth.
Proof. intros Hd. unfold ring_at. pose proof (Z.mod_pos_bound (head + k) depth Hd). lia. Qed.

Lemma ring_at_head head depth : 0 <= head < depth -> ring_at head depth 0 = Z.to_nat head.
Proof. intros. unfold ring_at. rewrite Z.add_0_r, Z.mod_small by lia. auto. Qed.

Lemma ring_at_succ head depth k :
  0 < depth -> ring_at ((head + 1) mod depth) depth k = ring_at head depth (k + 1).
Proof.
  intros. unfold ring_at. rewrite Zplus_mod_idemp_l. do 2 f_equal. lia.
Qed.

Lemma ring_empty depth : 0 < depth <= RAMDISK_URMA_MAX_QUEUE_DEPTH ->
  ring_ok (replicate (Z.to_nat depth) None) depth 0 0 0 [].
Proof.
  intros Hd. split; auto; try lia.
  - apply zlength_replicate; lia.
  - intros k a. rewrite lookup_nil. discriminate.
  - intros k Hk. apply lookup_replicate. split; auto.
    pose proof (ring_at_bound 0 depth k). lia.
Qed.

Lemma ring_enqueue q depth head tail pending l a :
  ring_ok q depth head tail pending l -> pending < depth ->
  is_Some (q !! Z.to_nat tail) /\
  ring_ok (<[Z.to_nat tail := Some a]> q) depth head ((tail + 1) mod depth) (pending + 1)
    (l ++ [a]).
Proof.
  intros [Hd Hl Hh Hp Hb Ht Hf He] Hlt.
  assert (Ea : Z.to_nat tail = ring_at head depth pending) by (rewrite Ht; auto).
  pose proof (ring_at_bound head depth pending) as Bp.
  assert (Hn : (Z.to_nat tail < length q)%nat) by (unfold zlength in Hl; lia).
  split; [apply lookup_lt_is_Some; auto|].
  assert (Hp0 : 0 <= pending) by (unfold zlength in Hp; lia).
  split; auto; try lia.
  - unfold zlength in *. rewrite length_insert. auto.
  - unfold zlength in *. rewrite length_app. cbn. lia.
  - rewrite Ht, Zplus_mod_idemp_l. f_equal. lia.
  - intros k x Hk. apply lookup_app_Some in Hk as [Hk|[Hge Hk]].
    + assert (Z.of_nat k < pending) by (apply lookup_lt_Some in Hk; unfold zlength in Hp; lia).
      rewrite list_lookup_insert_ne; auto.
      rewrite Ea. intros E. apply ring_at_inj in E; lia.
    + destruct (k - length l)%nat eqn:Ek; cbn in Hk; [|discriminate].
      injection Hk as <-. replace (Z.of_nat k) with pending by (unfold zlength in Hp; lia).
      rewrite <- Ea. apply list_lookup_insert_eq; auto.
  - intros k Hk. rewrite list_lookup_insert_ne; [apply He; lia|].
    rewrite Ea. intros E. apply ring_at_inj in E; lia.
Qed.

Lemma ring_dequeue q depth head tail pending a l :
  ring_ok q depth head tail pending (a :: l) ->
  q !! Z.to_nat head = Some (Some a) /\
  ring_ok (<[Z.to_nat head := None]> q) depth ((head + 1) mod depth) tail (pending - 1) l.
Proof.
  intros [Hd Hl Hh Hp Hb Ht Hf He].
  assert (Hp0 : pending = zlength l + 1) by (unfold zlength in *; cbn in Hp; lia).
  assert (Ea : Z.to_nat head = ring_at head depth 0) by (rewrite ring_at_head; auto).
  assert (Hn : (Z.to_nat head < length q)%nat) by (unfold zlength in Hl; lia).
  split; [rewrite Ea; apply (Hf 0%nat a); reflexivity|].
  assert (0 <= zlength l) by (unfold zlength; lia).
  split; auto; try lia.
  - unfold zlength in *. rewrite length_insert. auto.
  - apply Z.mod_pos_bound; lia.
  - rewrite Ht, Zplus_mod_idemp_l. f_equal. lia.
  - intros k x Hk. rewrite ring_at_succ by lia.
    assert (Z.of_nat k < zlength l) by (apply lookup_lt_Some in Hk; unfold zlength; lia).
    replace (Z.of_nat k + 1) with (Z.of_nat (S k)) by lia.
    rewrite list_lookup_insert_ne; [apply (Hf (S k)); auto|].
    rewrite Ea. intros E. apply ring_at_inj in E; lia.
  - intros k Hk. rewrite ring_at_succ by lia. destruct (Z.eq_dec (k + 1) depth) as [E|E].
    + replace (ring_at head depth (k + 1)) with (Z.to_nat head);
        [apply list_lookup_insert_eq; auto|].
      unfold ring_at. rewrite E. replace (head + depth) with (head + 1 * depth) by lia.
      rewrite Z.mod_add, Z.mod_small by lia. auto.
    + rewrite list_lookup_insert_ne; [apply He; lia|].
      rewrite Ea. intros E'. apply ring_at_inj in E'; lia.
Qed.

(** ** Peers *)

(** An active peer owns a block of its segment's size, not the disk. *)
Definition peer_mem (p : ramdisk_urma_peer) (b : Z) (h : heap) (hb : Z) (hbs : list Z) : Prop :=
  up_mock_hbm p = Ptr hb 0 /\ hb <> b /\ h_blocks h !! hb = Some hbs /\
  zlength hbs = up_seg_len p /\ 0 < up_seg_len p /\ is_u64 (up_seg_len p) /\
  is_u64 (up_seg_va p) /\ up_peer_id p <> 0.

(** The peer table: identifiers and blocks of active peers are distinct. *)
Record peers_ok (ps : list ramdisk_urma_peer) (b : Z) (h : heap) : Prop := {
  po_len : zlength ps = RAMDISK_URMA_MAX_PEERS;
  po_mem : forall i p, ps !! i = Some p -> up_active p = true ->
    exists hb hbs, peer_mem p b h hb hbs;
  po_ids : forall i j p q, ps !! i = Some p -> ps !! j = Some q ->
    up_active p = true -> up_active q = true -> up_peer_id p = up_peer_id q -> i = j;
  po_hbm : forall i j p q, ps !! i = Some p -> ps !! j = Some q ->
    up_active p = true -> up_active q = true -> up_mock_hbm p = up_mock_hbm q -> i = j
}.

Lemma find_peer_Some ps id : forall n k, find_peer_from ps id n = Some k ->
  exists i p, k = (n + i)%nat /\ ps !! i = Some p /\ up_active p = true /\ up_peer_id p = id.
Proof.
  induction ps as [|p ps IH]; cbn; intros n k E; [discriminate|].
  destruct (up_active p && (up_peer_id p =? id)) eqn:Ep.
  - injection E as <-. apply andb_true_iff in Ep as [? ?]. exists 0%nat, p.
    split_and!; auto; lia.
  - apply IH in E as (i & q & -> & Hq & ? & ?). exists (S i), q. split_and!; auto; lia.
Qed.

Lemma find_peer_None ps id : forall n, find_peer_from ps id n = None ->
  forall i p, ps !! i = Some p -> up_active p = true -> up_peer_id p <> id.
Proof.
  induction ps as [|p ps IH]; cbn; intros n E [|i] q Hq Ha; try discriminate; cbn in Hq.
  - injection Hq as <-. rewrite Ha in E. cbn in E.
    destruct (Z.eqb_spec (up_peer_id p) id); [discriminate|auto].
  - destruct (up_active p && _); [discriminate|]. eauto.
Qed.

Lemma find_peer_unique ps b h i p :
  peers_ok ps b h -> ps !! i = Some p -> up_active p = true ->
  find_peer_from ps (up_peer_id p) 0 = Some i.
Proof.
  intros P Hi Ha. destruct (find_peer_from ps (up_peer_id p) 0) as [k|] eqn:E.
  - apply find_peer_Some in E as (j & q & -> & Hq & Haq & Hid). f_equal. cbn.
    symmetry. apply (po_ids _ _ _ P i j p q); auto.
  - eapply find_peer_None in E; eauto. congruence.
Qed.

Lemma find_free_Some ps : forall n k, find_free_from ps n = Some k ->
  exists i p, k = (n + i)%nat /\ ps !! i = Some p /\ up_active p = false.
Proof.
  induction ps as [|p ps IH]; cbn; intros n k E; [discriminate|].
  destruct (up_active p) eqn:Ep; cbn in E.
  - apply IH in E as (i & q & -> & Hq & ?). exists (S i), q. split_and!; auto; lia.
  - injection E as <-. exists 0%nat, p. split_and!; auto; lia.
Qed.

Lemma find_free_None ps : forall n, find_free_from ps n = None ->
  forall i p, ps !! i = Some p -> up_active p = true.
Proof.
  induction ps as [|p ps IH]; cbn; intros n E [|i] q Hq; try discriminate; cbn in Hq.
  - injection Hq as <-. destruct (up_active p); [auto|discriminate].
  - destruct (negb (up_active p)); [discriminate|]. eauto.
Qed.

Lemma nth_lookup' (ps : list ramdisk_urma_peer) i p : ps !! i = Some p -> nth i ps peer_zero = p.
Proof. intros H. rewrite nth_lookup, H. auto. Qed.

(** ** Validation *)

(** Reference validation over unbounded integers, for a table whose active
    peers are given by [look]. *)
Definition xfer_spec (enabled : bool) (size bs : Z) (look : Z -> option ramdisk_urma_peer)
    (x : ramdisk_ctrl_urma_transfer) : Z :=
  if negb enabled then - EOPNOTSUPP
  else if ct_length x =? 0 then - EINVAL
  else if negb ((ct_direction x =? RAMDISK_TO_HBM) || (ct_direction x =? HBM_TO_RAMDISK))
  then - EINVAL
  else if negb (ct_local_offset x + ct_length x <=? size) then - ERANGE
  else if negb ((ct_local_offset x mod bs =? 0) && (ct_remote_hbm_addr x mod bs =? 0)
                && (ct_length x mod bs =? 0)) then - EINVAL
  else match look (ct_peer_id x) with
       | None => - ENODEV
       | Some p =>
           if (up_seg_va p <=? ct_remote_hbm_addr x)
              && (ct_remote_hbm_addr x + ct_length x <=? up_seg_va p + up_seg_len p)
           then 0 else - ERANGE
       end.

(** The active peer with an identifier. *)
Definition peer_lookup (ps : list ramdisk_urma_peer) (id : Z) : option ramdisk_urma_peer :=
  find_peer_from ps id 0 ≫= fun i => ps !! i.

Lemma block_size_pos bk b bs h : backend_wf bk b bs h -> 0 < bk_block_size bk.
Proof.
  intros W. pose proof (bw_bs _ _ _ _ W) as H. unfold validate_block_size in H.
  destruct (bk_block_size bk) eqn:E; cbn in *; try lia; try discriminate.
  unfold is_power_of_two in H. repeat case_if_in H; unfold EINVAL in *; try lia.
Qed.

Lemma validate_xfer_eq m bk b bs h x :
  backend_wf bk b bs h -> peers_ok (um_peers m) b h -> transfer_typed x ->
  let r := xfer_spec (um_enabled m) (zlength bs) (bk_block_size bk)
             (peer_lookup (um_peers m)) x in
  validate_xfer_locked m (Some bk) (Some x)
  = (r, if r =? 0 then find_peer_locked m (ct_peer_id x) else None).
Proof.
  intros W P (T1 & T2 & T3 & T4 & T5 & T6). cbn zeta.
  unfold validate_xfer_locked, xfer_spec. destruct (um_enabled m); cbn [negb]; [|reflexivity].
  destruct (ct_length x =? 0) eqn:El; [reflexivity|].
  rewrite negb_orb. destruct (negb (ct_direction x =? RAMDISK_TO_HBM) && _); [reflexivity|].
  rewrite (validate_range_eq _ _ _ _ _ _ W) by int_lia. unfold range_spec.
  rewrite <- (bw_size _ _ _ _ W).
  destruct (ct_local_offset x + ct_length x <=? zlength bs); cbn [negb Z.eqb]; [|reflexivity].
  unfold validate_alignment, ramdisk_backend_block_size. rewrite (bw_init _ _ _ _ W).
  pose proof (block_size_pos _ _ _ _ W). destruct (Z.eqb_spec (bk_block_size bk) 0); [lia|].
  rewrite !negb_andb.
  destruct (negb (ct_local_offset x mod bk_block_size bk =? 0) || _ || _) eqn:Ea;
    cbn [negb Z.eqb]; [reflexivity|].
  unfold find_peer_locked, peer_lookup.
  destruct (find_peer_from (um_peers m) (ct_peer_id x) 0) as [i|] eqn:Ef; [|reflexivity].
  pose proof (find_peer_Some _ _ _ _ Ef) as (j & p & -> & Hp & Ha & Hid). cbn [Nat.add].
  cbn. rewrite Hp, (nth_lookup' _ _ _ Hp). cbn.
  destruct (po_mem _ _ _ P j p Hp Ha) as (hb & hbs & _ & _ & _ & _ & Hl0 & Hl & Hv & _).
  destruct (Z.ltb_spec (ct_remote_hbm_addr x) (up_seg_va p)) as [Hlt|Hge].
  { destruct (Z.leb_spec (up_seg_va p) (ct_remote_hbm_addr x)); [lia|]. reflexivity. }
  destruct (Z.leb_spec (up_seg_va p) (ct_remote_hbm_addr x)); [|lia]. cbn [andb].
  rewrite (u64_small (ct_remote_hbm_addr x - up_seg_va p)) by int_lia.
  destruct (ct_remote_hbm_addr x - up_seg_va p >? up_seg_len p) eqn:Eo; cbn [orb].
  { destruct (Z.leb_spec (ct_remote_hbm_addr x + ct_length x) (up_seg_va p + up_seg_len p));
      [int_lia|reflexivity]. }
  rewrite u64_small by int_lia.
  destruct (Z.leb_spec (ct_remote_hbm_addr x + ct_length x) (up_seg_va p + up_seg_len p));
    destruct (ct_length x >? _) eqn:E2; try lia; reflexivity.
Qed.

(** C24: the validation of a transfer accepts exactly the requests that are in
    range over unbounded integers.  In 64-bit arithmetic with wrap-around, for
    every request, the checks of [validate_xfer_locked] give the result of the
    reference: the path enabled, a known direction, a non-empty block-aligned
    range inside the disk and a remote range inside the peer's segment. *)
Theorem validate_xfer_exact m bk b bs h x :
  backend_wf bk b bs h -> peers_ok (um_peers m) b h -> transfer_typed x ->
  fst (validate_xfer_locked m (Some bk) (Some x))
  = xfer_spec (um_enabled m) (zlength bs) (bk_block_size bk) (peer_lookup (um_peers m)) x.
Proof. intros W P T. rewrite (validate_xfer_eq _ _ _ _ _ _ W P T). reflexivity. Qed.

(** What a validated transfer guarantees. *)
Lemma validate_xfer_ok m bk b bs h x i :
  backend_wf bk b bs h -> peers_ok (um_peers m) b h -> transfer_typed x ->
  validate_xfer_locked m (Some bk) (Some x) = (0, Some i) ->
  um_enabled m = true /\ 0 < ct_length x /\
  (ct_direction x = RAMDISK_TO_HBM \/ ct_direction x = HBM_TO_RAMDISK) /\
  ct_local_offset x + ct_length x <= zlength bs /\
  exists p, um_peers m !! i = Some p /\ up_active p = true /\ up_peer_id p = ct_peer_id x /\
    up_seg_va p <= ct_remote_hbm_addr x /\
    ct_remote_hbm_addr x + ct_length x <= up_seg_va p + up_seg_len p.
Proof.
  intros W P T E. rewrite (validate_xfer_eq _ _ _ _ _ _ W P T) in E.
  pose proof T as (T1 & T2 & T3 & T4 & T5 & T6).
  injection E as E0 E1. rewrite E0 in E1. cbn [Z.eqb] in E1. unfold xfer_spec in E0.
  destruct (um_enabled m); cbn [negb] in E0; [|discriminate].
  destruct (Z.eqb_spec (ct_length x) 0); [discriminate|].
  destruct ((ct_direction x =? RAMDISK_TO_HBM) || _) eqn:Ed; cbn [negb] in E0; [|discriminate].
  destruct (ct_local_offset x + ct_length x <=? _) eqn:Er; cbn [negb] in E0; [|discriminate].
  destruct ((_ && _)) in E0; cbn [negb] in E0; [|discriminate].
  unfold peer_lookup in E0. unfold find_peer_locked in E1. rewrite E1 in E0. cbn in E0.
  apply find_peer_Some in E1 as (j & p & -> & Hp & Ha & Hid). cbn in E0. rewrite Hp in E0.
  cbn in E0. destruct ((up_seg_va p <=? _) && _) eqn:Eb; [|discriminate].
  split; [auto|]. split; [int_lia|]. split; [apply orb_true_iff in Ed; lia|].
  split; [lia|]. exists p. split_and!; auto; lia.
Qed.

(** Connecting another peer does not change the outcome for this one. *)
Lemma validate_xfer_ext m m' bk b bs h x i :
  backend_wf bk b bs h -> peers_ok (um_peers m) b h -> peers_ok (um_peers m') b h ->
  transfer_typed x -> um_enabled m' = true ->
  (forall j p, um_peers m !! j = Some p -> up_active p = true -> um_peers m' !! j = Some p) ->
  validate_xfer_locked m (Some bk) (Some x) = (0, Some i) ->
  validate_xfer_locked m' (Some bk) (Some x) = (0, Some i).
Proof.
  intros W P P' T Hen Hsub E. pose proof (validate_xfer_ok _ _ _ _ _ _ _ W P T E)
    as (He & _ & _ & _ & p & Hp & Ha & Hid & Hlo & Hhi).
  rewrite (validate_xfer_eq _ _ _ _ _ _ W P T) in E.
  rewrite (validate_xfer_eq _ _ _ _ _ _ W P' T).
  injection E as E0 E1. rewrite E0 in E1. cbn [Z.eqb] in E1.
  pose proof (find_peer_unique _ _ _ _ _ P' (Hsub _ _ Hp Ha) Ha) as F'. rewrite Hid in F'.
  assert (Es : xfer_spec (um_enabled m') (zlength bs) (bk_block_size bk)
                 (peer_lookup (um_peers m')) x = 0).
  { rewrite <- E0. unfold xfer_spec. rewrite Hen, He. unfold peer_lookup.
    unfold find_peer_locked in E1. rewrite E1, F'. cbn. rewrite Hp, (Hsub _ _ Hp Ha). auto. }
  rewrite Es. cbn [Z.eqb]. unfold find_peer_locked. rewrite F'. auto.
Qed.

(** ** Executing a request *)

(** The heap after copying [len] bytes between the disk at [loff] and the
    peer's memory at [roff]. *)
Definition copy_effect (dir loff roff len b hb : Z) (bs hbs : list Z) (h : heap) : heap :=
  if dir =? RAMDISK_TO_HBM
  then hset hb (splice roff (slice loff len bs) hbs) h
  else hset b (splice loff (slice roff len hbs) bs) h.

Definition disk_after (dir loff roff len : Z) (bs hbs : list Z) : list Z :=
  if dir =? RAMDISK_TO_HBM then bs else splice loff (slice roff len hbs) bs.

Lemma execute_mock_ok bk b bs h req p hb hbs roff :
  backend_wf bk b bs h -> peer_mem p b h hb hbs ->
  rq_remote_hbm_addr req = up_seg_va p + roff -> 0 <= roff ->
  roff + rq_length req <= up_seg_len p ->
  is_u64 (rq_local_offset req) -> is_u32 (rq_length req) ->
  rq_local_offset req + rq_length req <= zlength bs ->
  execute_mock_xfer (Some bk) req p h
  = Some (0, Some bk, copy_effect (rq_direction req) (rq_local_offset req) roff
                        (rq_length req) b hb bs hbs h).
Proof.
  intros W (Hm & Hne & Hb & Hz & Hp & Hl & Hv & _) Hr H0 Hfit To Tl Hloc.
  unfold execute_mock_xfer. rewrite Hm. cbn [is_null]. mstep.
  rewrite (lock_ok _ _ _ _ W). mstep. cbn [Z.eqb negb]. mstep.
  rewrite Hr. replace (up_seg_va p + roff - up_seg_va p) with roff by lia.
  rewrite u64_small by int_lia.
  assert (Hbase : ramdisk_backend_base (Some (set_lock bk true)) = Ptr b 0).
  { cbn. rewrite (bw_init _ _ _ _ W), (bw_base _ _ _ _ W). auto. }
  rewrite Hbase. cbn [padd]. rewrite !Z.add_0_l.
  pose proof (bw_block _ _ _ _ W) as Hd.
  unfold copy_effect. destruct (rq_direction req =? RAMDISK_TO_HBM).
  - rewrite (memcpy_ok h hb hbs roff b bs (rq_local_offset req)) by (auto; int_lia).
    mstep. rewrite (unlock_ok _ _ _ _ W). reflexivity.
  - rewrite (memcpy_ok h b bs (rq_local_offset req) hb hbs roff) by (auto; int_lia).
    mstep. rewrite (unlock_ok _ _ _ _ W). reflexivity.
Qed.

(** A heap change that keeps every block's size and the disk's contents known. *)
Lemma peers_ok_mono ps b h h' :
  peers_ok ps b h ->
  (forall x v, x <> b -> h_blocks h !! x = Some v ->
     exists v', h_blocks h' !! x = Some v' /\ zlength v' = zlength v) ->
  peers_ok ps b h'.
Proof.
  intros [P1 P2 P3 P4] Hh. split; auto. intros i p Hi Ha.
  destruct (P2 i p Hi Ha) as (hb & hbs & E1 & E2 & E3 & E4 & E5).
  destruct (Hh hb hbs E2 E3) as (v' & E6 & E7). exists hb, v'.
  split; [auto|]. split; [auto|]. split; [auto|]. split; [congruence|auto].
Qed.

Lemma copy_effect_ok bk b bs h p hb hbs dir loff roff len ps :
  backend_wf bk b bs h -> heap_fresh h -> peers_ok ps b h -> peer_mem p b h hb hbs ->
  0 <= loff -> 0 <= len -> loff + len <= zlength bs -> 0 <= roff -> roff + len <= zlength hbs ->
  let h' := copy_effect dir loff roff len b hb bs hbs h in
  backend_wf bk b (disk_after dir loff roff len bs hbs) h' /\ heap_fresh h' /\
  peers_ok ps b h' /\ zlength (disk_after dir loff roff len bs hbs) = zlength bs.
Proof.
  intros W F P (Hm & Hne & Hb & Hz & _) L0 L1 L2 R0 R1. cbn zeta.
  unfold copy_effect, disk_after. destruct (dir =? RAMDISK_TO_HBM).
  - assert (Es : zlength (splice roff (slice loff len bs) hbs) = zlength hbs)
      by (rewrite zlength_splice; auto; rewrite zlength_slice; lia).
    split; [apply backend_wf_frame; auto|]. split; [eapply heap_fresh_hset; eauto|].
    split; [|auto]. eapply peers_ok_mono; [exact P|]. intros x v Hx Hv.
    destruct (decide (hb = x)) as [<-|].
    + eexists. rewrite hset_lookup. split; [reflexivity|]. congruence.
    + exists v. rewrite hset_lookup_ne by auto. auto.
  - assert (Es : zlength (splice loff (slice roff len hbs) bs) = zlength bs)
      by (rewrite zlength_splice; auto; rewrite zlength_slice; lia).
    split; [apply (backend_wf_hset _ _ _ _ _ W); auto|].
    split; [eapply heap_fresh_hset; eauto using bw_block|]. split; [|auto].
    eapply peers_ok_mono; [exact P|]. intros x v Hx Hv. exists v.
    rewrite hset_lookup_ne by auto. auto.
Qed.

(** ** The manager's invariant *)

(** A queued request: its caller waits, and it still validates. *)
Definition queued_ok (w : urma_world) (bk : ramdisk_backend) (a : Z) : Prop :=
  exists req i, uw_reqs w !! a = Some req /\ rq_done req = false /\
    transfer_typed (xfer_of_request req) /\
    validate_xfer_locked (uw_mgr w) (Some bk) (Some (xfer_of_request req)) = (0, Some i).

Record urma_inv (w : urma_world) (bk : ramdisk_backend) (b : Z) (bs : list Z) (h : heap)
    (l : list Z) : Prop := {
  ui_backend : uw_backend w = Some bk;
  ui_wf : backend_wf bk b bs h;
  ui_fresh : heap_fresh h;
  ui_init : um_initialized (uw_mgr w) = true;
  ui_mock : um_use_mock (uw_mgr w) = true;
  ui_peers : peers_ok (um_peers (uw_mgr w)) b h;
  ui_ring : exists q, um_queue (uw_mgr w) = Some q /\
    ring_ok q (um_queue_depth (uw_mgr w)) (um_head (uw_mgr w)) (um_tail (uw_mgr w))
      (um_pending (uw_mgr w)) l;
  ui_queued : forall a, a ∈ l -> queued_ok w bk a;
  ui_nodup : NoDup l
}.

(** A request the worker has taken: its range is the whole prefix of the
    peer's segment, since the worker overwrote the remote address. *)
Definition job_ok (w : urma_world) (bs : list Z) (a : Z) (i : nat) : Prop :=
  exists req p, uw_reqs w !! a = Some req /\ rq_done req = false /\
    um_peers (uw_mgr w) !! i = Some p /\ up_active p = true /\
    rq_remote_hbm_addr req = up_seg_va p /\ is_u64 (rq_local_offset req) /\
    is_u32 (rq_length req) /\ rq_local_offset req + rq_length req <= zlength bs /\
    rq_length req <= up_seg_len p.

(** Validation looks at the switch and the peers only. *)
Lemma validate_ring m bk x q hd tl pe inf :
  validate_xfer_locked (set_ring q hd tl pe inf m) bk x = validate_xfer_locked m bk x.
Proof. reflexivity. Qed.

Lemma dequeue_ok w bk b bs h a l :
  urma_inv w bk b bs h (a :: l) -> is_u32 (um_inflight (uw_mgr w) + 1) ->
  exists req p i q hd,
    uw_reqs w !! a = Some req /\ um_peers (uw_mgr w) !! i = Some p /\
    worker_dequeue w h
    = Some (DeqJob (mk_world (set_ring q hd (um_tail (uw_mgr w)) (um_pending (uw_mgr w) - 1)
                                (um_inflight (uw_mgr w) + 1) (uw_mgr w)) (Some bk)
                      (<[a := set_remote (up_seg_va p) req]> (uw_reqs w))) a i 0, h) /\
    let w' := mk_world (set_ring q hd (um_tail (uw_mgr w)) (um_pending (uw_mgr w) - 1)
                                (um_inflight (uw_mgr w) + 1) (uw_mgr w)) (Some bk)
                      (<[a := set_remote (up_seg_va p) req]> (uw_reqs w)) in
    urma_inv w' bk b bs h l /\ job_ok w' bs a i /\ find_peer_locked (uw_mgr w) (rq_peer_id req) = Some i.
Proof.
  intros [Ub W F Ui Um P (q & Hq & R) Q N] Hinf.
  destruct (Q a) as (req & i & Hr & Hd & Ht & Hv); [left|].
  pose proof (validate_xfer_ok _ _ _ _ _ _ _ W P Ht Hv)
    as (_ & Hl & _ & Hfit & p & Hp & Ha & Hid & Hlo & Hhi).
  pose proof (ring_dequeue _ _ _ _ _ _ _ R) as [Hslot R'].
  pose proof (ro_pending _ _ _ _ _ _ R) as Hpe. pose proof (ro_depth _ _ _ _ _ _ R) as Hde.
  pose proof (ro_head _ _ _ _ _ _ R) as Hhe. pose proof (ro_bound _ _ _ _ _ _ R) as Hbo.
  unfold RAMDISK_URMA_MAX_QUEUE_DEPTH in Hde.
  assert (0 < um_pending (uw_mgr w)) by (rewrite Hpe; unfold zlength; cbn; lia).
  pose proof Ht as (_ & _ & To & Tr & Tl & _).
  cbn [xfer_of_request ct_length ct_local_offset ct_remote_hbm_addr ct_peer_id] in *.
  exists req, p, i, (<[Z.to_nat (um_head (uw_mgr w)) := None]> q),
    ((um_head (uw_mgr w) + 1) mod um_queue_depth (uw_mgr w)).
  split; [auto|]. split; [auto|]. split.
  { unfold worker_dequeue. destruct (Z.eqb_spec (um_pending (uw_mgr w)) 0); [lia|].
    rewrite Hq, Hslot. mstep.
    rewrite (u32_small (um_head (uw_mgr w) + 1)) by int_lia. unfold umod.
    destruct (Z.eqb_spec (um_queue_depth (uw_mgr w)) 0); [lia|]. mstep.
    rewrite Hr. mstep. rewrite Ub, validate_ring, Hv.
    rewrite !u32_small by int_lia.
    cbn [um_peers set_ring]. rewrite (nth_lookup' _ _ _ Hp). reflexivity. }
  apply NoDup_cons in N as [Na Nl]. split; [|split].
  - split; auto.
    + eexists. split; [reflexivity|]. cbn [um_head um_tail um_pending um_queue_depth set_ring uw_mgr].
      exact R'.
    + intros a' Ha'. destruct (Q a') as (req' & i' & ? & ? & ? & ?); [right; auto|].
      exists req', i'. cbn [uw_reqs uw_mgr]. rewrite lookup_insert_ne by (intros <-; auto). auto.
  - exists (set_remote (up_seg_va p) req), p. cbn [uw_reqs uw_mgr].
    rewrite lookup_insert_eq. cbn. split_and!; auto. lia.
  - pose proof (find_peer_unique _ _ _ _ _ P Hp Ha) as Fu. rewrite Hid in Fu. exact Fu.
Qed.

(** The worker's transfer keeps the invariant; it copies at offset zero of the
    peer's segment. *)
Lemma execute_ok w bk b bs h l a i :
  urma_inv w bk b bs h l -> job_ok w bs a i ->
  exists req p hb hbs, uw_reqs w !! a = Some req /\ um_peers (uw_mgr w) !! i = Some p /\
    peer_mem p b h hb hbs /\
    let h' := copy_effect (rq_direction req) (rq_local_offset req) 0 (rq_length req) b hb bs hbs h in
    let bs' := disk_after (rq_direction req) (rq_local_offset req) 0 (rq_length req) bs hbs in
    worker_execute w a i 0 h = Some (0, w, h') /\
    urma_inv w bk b bs' h' l /\ zlength bs' = zlength bs.
Proof.
  intros [Ub W F Ui Um P R Q N] (req & p & Hr & Hd & Hp & Ha & Hrem & To & Tl & Hfit & Hseg).
  destruct (po_mem _ _ _ P i p Hp Ha) as (hb & hbs & M).
  pose proof M as (_ & _ & _ & Hz & _).
  exists req, p, hb, hbs. split; [auto|]. split; [auto|]. split; [auto|]. cbn zeta.
  destruct (copy_effect_ok bk b bs h p hb hbs (rq_direction req) (rq_local_offset req) 0
    (rq_length req) _ W F P M) as (W' & F' & P' & Hz'); try int_lia.
  split; [|split; [|exact Hz']].
  - unfold worker_execute. cbn [Z.eqb negb]. rewrite Hr. mstep. rewrite Um, Ub.
    rewrite (nth_lookup' _ _ _ Hp). mstep.
    rewrite (execute_mock_ok bk b bs h req p hb hbs 0) by (auto; lia). mstep.
    destruct w as [m o r]. cbn in *. subst. reflexivity.
  - split; auto.
Qed.

Lemma complete_ok w bk b bs h l a i rc :
  urma_inv w bk b bs h l -> job_ok w bs a i -> a ∉ l ->
  exists req, uw_reqs w !! a = Some req /\
    let w' := mk_world
      (set_counts (u32 (um_inflight (uw_mgr w) - 1))
         (if rc =? 0 then u64 (um_completed (uw_mgr w) + 1) else um_completed (uw_mgr w))
         (if rc =? 0 then um_failed (uw_mgr w) else u64 (um_failed (uw_mgr w) + 1)) (uw_mgr w))
      (uw_backend w) (<[a := set_done rc req]> (uw_reqs w)) in
    worker_complete w a rc h = Some (w', h) /\ urma_inv w' bk b bs h l.
Proof.
  intros [Ub W F Ui Um P R Q N] (req & p & Hr & _) Hn. exists req. split; auto. cbn zeta.
  split; [unfold worker_complete; rewrite Hr; reflexivity|].
  split; auto. intros a' Ha'. destruct (Q a' Ha') as (req' & i' & E1 & E2 & E3 & E4).
  exists req', i'. cbn [uw_reqs uw_mgr]. rewrite lookup_insert_ne by (intros <-; auto). auto.
Qed.

(** Submitting: refused with the reference error, or queued at the end. *)
Lemma submit_ok w bk b bs h l x a :
  urma_inv w bk b bs h l -> transfer_typed x -> uw_reqs w !! a = None ->
  let r := xfer_spec (um_enabled (uw_mgr w)) (zlength bs) (bk_block_size bk)
             (peer_lookup (um_peers (uw_mgr w))) x in
  if negb (r =? 0) then transfer_submit w x a h = Some (inl r, h)
  else if um_queue_depth (uw_mgr w) <=? zlength l
       then transfer_submit w x a h = Some (inl (- EBUSY), h)
  else exists q tl,
    let w' := mk_world (set_ring q (um_head (uw_mgr w)) tl (um_pending (uw_mgr w) + 1)
                          (um_inflight (uw_mgr w)) (uw_mgr w)) (Some bk)
                (<[a := request_of_xfer x]> (uw_reqs w)) in
    transfer_submit w x a h = Some (inr w', h) /\ urma_inv w' bk b bs h (l ++ [a]).
Proof.
  intros [Ub W F Ui Um P (q & Hq & R) Q N] Tx Hfree. cbn zeta.
  pose proof (validate_xfer_eq _ _ _ _ _ _ W P Tx) as Ev. cbn zeta in Ev.
  set (r := xfer_spec _ _ _ _ x) in *. unfold transfer_submit. rewrite Ub, Ev.
  destruct (Z.eqb_spec r 0) as [E0|E0]; cbn [negb]; [|reflexivity].
  pose proof (ro_pending _ _ _ _ _ _ R) as Hpe. pose proof (ro_depth _ _ _ _ _ _ R) as Hde.
  unfold RAMDISK_URMA_MAX_QUEUE_DEPTH in Hde.
  rewrite Z.geb_leb, Hpe. destruct (Z.leb_spec (um_queue_depth (uw_mgr w)) (zlength l)) as [Hf|Hf].
  { reflexivity. }
  pose proof (ring_enqueue _ _ _ _ _ _ a R) as [[s Hs] R']; [lia|].
  pose proof (ro_tail _ _ _ _ _ _ R) as Hta.
  pose proof (Z.mod_pos_bound (um_head (uw_mgr w) + um_pending (uw_mgr w))
    (um_queue_depth (uw_mgr w))) as Hmb. rewrite <- Hta in Hmb.
  exists (<[Z.to_nat (um_tail (uw_mgr w)) := Some a]> q),
    ((um_tail (uw_mgr w) + 1) mod um_queue_depth (uw_mgr w)).
  split.
  { rewrite Hq, Hs. mstep. rewrite (u32_small (um_tail (uw_mgr w) + 1)) by int_lia.
    unfold umod. destruct (Z.eqb_spec (um_queue_depth (uw_mgr w)) 0); [lia|]. mstep.
    rewrite u32_small by (unfold zlength in *; int_lia). rewrite <- Hpe. reflexivity. }
  assert (Hnl : a ∉ l).
  { intros Hin. destruct (Q a Hin) as (? & ? & ? & _). congruence. }
  split; auto.
  - eexists. split; [reflexivity|].
    cbn [um_head um_tail um_pending um_queue_depth set_ring uw_mgr]. rewrite <- Hpe. exact R'.
  - intros a' Ha'. apply elem_of_app in Ha' as [Ha'|Ha'].
    + destruct (Q a' Ha') as (req' & i' & ? & ? & ? & ?). exists req', i'.
      cbn [uw_reqs uw_mgr]. rewrite lookup_insert_ne by (intros <-; auto). auto.
    + apply list_elem_of_singleton in Ha' as ->.
      destruct (find_peer_locked (uw_mgr w) (ct_peer_id x)) as [i|] eqn:Ef.
      * exists (request_of_xfer x), i. cbn [uw_reqs uw_mgr]. rewrite lookup_insert_eq.
        assert (Ex : xfer_of_request (request_of_xfer x) = x) by (destruct x; reflexivity).
        rewrite Ex, validate_ring, Ev, E0. auto.
      * exfalso. revert E0. unfold r, xfer_spec, peer_lookup.
        unfold find_peer_locked in Ef. rewrite Ef. cbn. repeat case_if; discriminate.
  - apply NoDup_app. split_and!; auto; [|apply NoDup_singleton].
    intros y Hy Hy'. apply list_elem_of_singleton in Hy' as ->. auto.
Qed.

(** ** One request through the worker *)

(** Dequeue, execute, complete and log one request, on an idle worker. *)
Lemma worker_one w bk b bs h a l fuel :
  urma_inv w bk b bs h (a :: l) -> um_inflight (uw_mgr w) = 0 ->
  exists req p hb hbs w' i,
    uw_reqs w !! a = Some req /\ find_peer_locked (uw_mgr w) (rq_peer_id req) = Some i /\
    um_peers (uw_mgr w) !! i = Some p /\ peer_mem p b h hb hbs /\
    let h' := copy_effect (rq_direction req) (rq_local_offset req) 0 (rq_length req) b hb bs hbs h in
    let bs' := disk_after (rq_direction req) (rq_local_offset req) 0 (rq_length req) bs hbs in
    urma_worker_main (S fuel) w h = urma_worker_main fuel w' h' /\
    urma_inv w' bk b bs' h' l /\ zlength bs' = zlength bs /\
    um_inflight (uw_mgr w') = 0 /\ um_stopping (uw_mgr w') = um_stopping (uw_mgr w) /\
    um_completed (uw_mgr w') = u64 (um_completed (uw_mgr w) + 1) /\
    um_failed (uw_mgr w') = um_failed (uw_mgr w) /\
    um_peers (uw_mgr w') = um_peers (uw_mgr w) /\
    um_enabled (uw_mgr w') = um_enabled (uw_mgr w) /\
    um_queue_depth (uw_mgr w') = um_queue_depth (uw_mgr w) /\
    uw_reqs w' = <[a := set_done 0 (set_remote (up_seg_va p) req)]> (uw_reqs w).
Proof.
  intros I Hinf. pose proof (ui_nodup _ _ _ _ _ _ I) as N. apply NoDup_cons in N as [Na _].
  destruct (dequeue_ok w bk b bs h a l I) as (req & p & i & q & hd & Hr & Hp & Ed & I1 & J & Hf);
    [rewrite Hinf; unfold is_u32; lia|].
  cbn zeta in I1, J. set (w1 := mk_world _ _ _) in *.
  destruct (execute_ok w1 bk b bs h l a i I1 J) as (req1 & p1 & hb & hbs & Hr1 & Hp1 & M & Ex & I2 & Hz).
  assert (req1 = set_remote (up_seg_va p) req) as ->
    by (unfold w1 in Hr1; cbn in Hr1; rewrite lookup_insert_eq in Hr1; congruence).
  assert (p1 = p) as -> by (unfold w1 in Hp1; cbn in Hp1; congruence).
  cbn [rq_direction rq_local_offset rq_length set_remote] in *.
  set (h1 := copy_effect _ _ _ _ _ _ _ _ _) in *. set (bs1 := disk_after _ _ _ _ _ _) in *.
  assert (J1 : job_ok w1 bs1 a i).
  { destruct J as (r0 & p0 & ? & ? & ? & ? & ? & ? & ? & ? & ?). exists r0, p0.
    split_and!; auto. lia. }
  destruct (complete_ok w1 bk b bs1 h1 l a i 0 I2 J1 Na) as (req2 & Hr2 & Ec & I3).
  assert (req2 = set_remote (up_seg_va p) req) as -> by congruence. cbn zeta in Ec, I3.
  set (w2 := mk_world _ _ _) in Ec, I3.
  exists req, p, hb, hbs, w2, i. split; [auto|]. split; [auto|]. split; [auto|]. split; [auto|].
  cbn zeta. split_and!; auto; try reflexivity.
  - cbn [urma_worker_main]. mstep. rewrite Ed. mstep. rewrite Ex. mstep. rewrite Ec. mstep.
    unfold worker_log. assert (El : uw_reqs w2 !! a = Some (set_done 0 (set_remote (up_seg_va p) req)))
      by (unfold w2; cbn; apply lookup_insert_eq). rewrite El. mstep. reflexivity.
  - unfold w2. cbn. rewrite Hinf. reflexivity.
  - unfold w2, w1. cbn. apply insert_insert_eq.
Qed.

(** The worker blocks or leaves on an empty queue. *)
Lemma worker_idle w bk b bs h fuel :
  urma_inv w bk b bs h [] -> urma_worker_main (S fuel) w h = Some (Some w, h).
Proof.
  intros I. destruct (ui_ring _ _ _ _ _ _ I) as (q & _ & R).
  pose proof (ro_pending _ _ _ _ _ _ R) as Hp. unfold zlength in Hp. cbn in Hp.
  cbn [urma_worker_main]. mstep. unfold worker_dequeue. rewrite Hp. cbn [Z.eqb]. mstep.
  destruct (um_stopping _); reflexivity.
Qed.

Lemma u64_add_add c n : u64 (u64 (c + 1) + n) = u64 (c + (n + 1)).
Proof. unfold u64, wrap. rewrite Zplus_mod_idemp_l. f_equal. lia. Qed.

(** The live blocks are the same. *)
Definition same_blocks (h h' : heap) : Prop :=
  forall x, is_Some (h_blocks h !! x) <-> is_Some (h_blocks h' !! x).

Lemma copy_effect_blocks dir loff roff len b hb bs hbs h :
  is_Some (h_blocks h !! b) -> is_Some (h_blocks h !! hb) ->
  same_blocks h (copy_effect dir loff roff len b hb bs hbs h).
Proof.
  intros Hb Hh x. unfold copy_effect.
  case_if; cbn; rewrite lookup_insert; case_decide; subst; split; intros; eauto.
Qed.

(** Left alone, the worker completes every queued request. *)
Lemma worker_drains l : forall w bk b bs h fuel,
  urma_inv w bk b bs h l -> um_inflight (uw_mgr w) = 0 -> is_u64 (um_completed (uw_mgr w)) ->
  (length l < fuel)%nat ->
  exists w' bs' h', urma_worker_main fuel w h = Some (Some w', h') /\
    urma_inv w' bk b bs' h' [] /\ zlength bs' = zlength bs /\ um_inflight (uw_mgr w') = 0 /\
    um_completed (uw_mgr w') = u64 (um_completed (uw_mgr w) + zlength l) /\
    um_failed (uw_mgr w') = um_failed (uw_mgr w) /\
    um_peers (uw_mgr w') = um_peers (uw_mgr w) /\
    (forall a, a ∈ l -> exists req, uw_reqs w' !! a = Some req /\ rq_done req = true /\
       rq_status req = 0) /\
    (forall a, a ∉ l -> uw_reqs w' !! a = uw_reqs w !! a) /\ same_blocks h h'.
Proof.
  induction l as [|a l IH]; intros w bk b bs h [|fuel] I Hinf Hc Hf; cbn [length] in Hf; try lia.
  - exists w, bs, h. split; [apply (worker_idle _ _ _ _ _ _ I)|].
    split_and!; auto; try (intros ?; tauto).
    + unfold zlength; cbn. rewrite Z.add_0_r, u64_small; auto.
    + intros a Ha. apply not_elem_of_nil in Ha. destruct Ha.
  - pose proof (ui_nodup _ _ _ _ _ _ I) as N. apply NoDup_cons in N as [Na _].
    destruct (worker_one w bk b bs h a l fuel I Hinf)
      as (req & p & hb & hbs & w1 & i & Hr & _ & Hp & M & E1 & I1 & Hz1 & Hi1 & _ & Hc1 & Hf1
          & Hp1 & _ & _ & Hr1).
    cbn zeta in *.
    pose proof (copy_effect_blocks (rq_direction req) (rq_local_offset req) 0 (rq_length req)
      b hb bs hbs h) as Hdom.
    set (h1 := copy_effect _ _ _ _ _ _ _ _ _) in *.
    destruct (IH w1 bk b _ h1 fuel I1 Hi1)
      as (w2 & bs2 & h2 & E2 & I2 & Hz2 & Hi2 & Hc2 & Hf2 & Hp2 & Hd2 & Hk2 & Hx2);
      [rewrite Hc1; apply wrap_bound; lia|lia|].
    exists w2, bs2, h2. split; [rewrite E1; exact E2|]. split; [auto|].
    split; [congruence|]. split; [auto|]. split.
    { rewrite Hc2, Hc1, u64_add_add. unfold zlength. cbn [length]. do 2 f_equal. lia. }
    split; [congruence|]. split; [congruence|]. split; [|split].
    + intros x Hx. apply elem_of_cons in Hx as [->|Hx]; [|auto].
      rewrite Hk2, Hr1, lookup_insert_eq by auto. eauto.
    + intros x Hx. apply not_elem_of_cons in Hx as [? ?].
      rewrite Hk2, Hr1, lookup_insert_ne by auto. auto.
    + intros x. destruct M as (_ & _ & Mb & _).
      pose proof (bw_block _ _ _ _ (ui_wf _ _ _ _ _ _ I)) as Hb.
      rewrite (Hdom ltac:(eauto) ltac:(eauto) x). apply Hx2.
Qed.

(** ** Destruction *)

(** Block [x] is the memory of an active peer. *)
Definition peer_block (ps : list ramdisk_urma_peer) (x : Z) : Prop :=
  exists i p, ps !! i = Some p /\ up_active p = true /\ up_mock_hbm p = Ptr x 0.

Lemma destroy_peers_ok ps : forall h,
  (forall i p, ps !! i = Some p -> up_active p = true ->
     exists hb, up_mock_hbm p = Ptr hb 0 /\ is_Some (h_blocks h !! hb)) ->
  (forall i j p q, ps !! i = Some p -> ps !! j = Some q -> up_active p = true ->
     up_active q = true -> up_mock_hbm p = up_mock_hbm q -> i = j) ->
  exists ps' h', destroy_peers ps h = Some (ps', h') /\
    (forall p, p ∈ ps' -> up_active p = false) /\
    (forall x, peer_block ps x -> h_blocks h' !! x = None) /\
    (forall x, ~ peer_block ps x -> h_blocks h' !! x = h_blocks h !! x).
Proof.
  induction ps as [|p ps IH]; intros h Hm Hd.
  { exists [], h. split; [reflexivity|]. split_and!; auto.
    - intros p Hp. apply not_elem_of_nil in Hp. destruct Hp.
    - intros x (i & p & Hp & _). rewrite lookup_nil in Hp. discriminate. }
  cbn [destroy_peers]. mstep.
  assert (Htl : forall x, peer_block ps x -> peer_block (p :: ps) x)
    by (intros x (i & q & ? & ?); exists (S i), q; auto).
  destruct (up_active p) eqn:Ea; mstep.
  - destruct (Hm 0%nat p eq_refl Ea) as (hb & Eh & [v Hv]). rewrite Eh.
    rewrite (free_ok _ _ _ Hv). mstep.
    assert (Hne : forall i q, ps !! i = Some q -> up_active q = true -> up_mock_hbm q <> Ptr hb 0).
    { intros i q Hq Haq E. assert (S i = 0%nat) by
        (apply (Hd (S i) 0%nat q p); auto; congruence). lia. }
    destruct (IH (hdel hb h)) as (ps' & h' & -> & H1 & H2 & H3).
    + intros i q Hq Haq. destruct (Hm (S i) q Hq Haq) as (hb' & E' & L'). exists hb'.
      split; auto. cbn. rewrite lookup_delete_ne; auto. intros <-. eapply Hne; eauto.
    + intros i j q r Hq Hr A1 A2 E. assert (S i = S j) by eauto. lia.
    + mstep. eexists _, h'. split; [reflexivity|]. split_and!.
      * intros q Hq. apply elem_of_cons in Hq as [->|Hq]; auto.
      * intros x (i & q & Hq & Haq & Eq). destruct i as [|i]; cbn in Hq.
        -- injection Hq as <-. assert (x = hb) as -> by congruence. rewrite H3.
           ++ cbn. apply lookup_delete_eq.
           ++ intros (i & q & Hq & Haq' & Eq'). eapply Hne; eauto.
        -- apply H2. exists i, q. auto.
      * intros x Hx. rewrite H3 by auto. cbn. apply lookup_delete_ne. intros <-.
        apply Hx. exists 0%nat, p. auto.
  - destruct (IH h) as (ps' & h' & -> & H1 & H2 & H3).
    + intros i q. apply (Hm (S i) q).
    + intros i j q r Hq Hr A1 A2 E. assert (S i = S j) by eauto. lia.
    + mstep. eexists _, h'. split; [reflexivity|]. split_and!.
      * intros q Hq. apply elem_of_cons in Hq as [->|Hq]; auto.
      * intros x (i & q & Hq & Haq & Eq). destruct i as [|i]; cbn in Hq.
        -- congruence.
        -- apply H2. exists i, q. auto.
      * intros x Hx. apply H3. auto.
Qed.

(** Starting or stopping changes nothing the invariant speaks about. *)
Lemma urma_inv_run s t w bk b bs h l :
  urma_inv w bk b bs h l ->
  urma_inv (mk_world (set_run s t (uw_mgr w)) (uw_backend w) (uw_reqs w)) bk b bs h l.
Proof. intros [Ub W F Ui Um P R Q N]. split; auto. Qed.

(** C27: destroying a running manager terminates and leaks nothing.  The worker
    first completes every queued request with success; then the memory of
    every active peer is released, and nothing else; the disk keeps its size,
    the manager ends uninitialised with no ring and no active peer, and a
    second call changes nothing. *)
Theorem mgr_destroy_drains_and_frees w bk b bs h l fuel :
  urma_inv w bk b bs h l -> um_worker_started (uw_mgr w) = true ->
  um_inflight (uw_mgr w) = 0 -> is_u64 (um_completed (uw_mgr w)) -> (length l < fuel)%nat ->
  exists w' bs' h',
    ramdisk_urma_mgr_destroy fuel (Some w) h = Some (Some (Some w'), h') /\
    um_initialized (uw_mgr w') = false /\ um_queue (uw_mgr w') = None /\
    um_pending (uw_mgr w') = 0 /\
    (forall p, p ∈ um_peers (uw_mgr w') -> up_active p = false) /\
    um_completed (uw_mgr w') = u64 (um_completed (uw_mgr w) + zlength l) /\
    um_failed (uw_mgr w') = um_failed (uw_mgr w) /\
    (forall a, a ∈ l -> exists req, uw_reqs w' !! a = Some req /\ rq_done req = true /\
       rq_status req = 0) /\
    backend_wf bk b bs' h' /\ zlength bs' = zlength bs /\
    (forall x, is_Some (h_blocks h' !! x) <->
       is_Some (h_blocks h !! x) /\ ~ peer_block (um_peers (uw_mgr w)) x) /\
    ramdisk_urma_mgr_destroy fuel (Some w') h' = Some (Some (Some w'), h').
Proof.
  intros I Hs Hinf Hc Hf. unfold ramdisk_urma_mgr_destroy at 1.
  rewrite (ui_init _ _ _ _ _ _ I), Hs. cbn [negb]. mstep.
  destruct (worker_drains l _ bk b bs h fuel (urma_inv_run true true _ _ _ _ _ _ I) Hinf Hc Hf)
    as (w1 & bs1 & h1 & -> & I1 & Hz1 & Hi1 & Hc1 & Hf1 & Hp1 & Hd1 & _ & Hx1).
  cbn [uw_mgr um_peers um_completed um_failed set_run] in *. mstep.
  pose proof (ui_peers _ _ _ _ _ _ I1) as P1. rewrite Hp1 in P1.
  destruct (destroy_peers_ok (um_peers (uw_mgr w)) h1) as (ps & h2 & E2 & A2 & G2 & K2).
  { intros i p Hp Ha. destruct (po_mem _ _ _ P1 i p Hp Ha) as (hb & hbs & E & _ & L & _).
    eauto. }
  { exact (po_hbm _ _ _ P1). }
  cbn [uw_mgr um_peers set_run]. rewrite Hp1, E2. mstep.
  eexists _, bs1, h2. split; [reflexivity|]. cbn [uw_mgr um_initialized um_queue um_peers
    um_pending um_completed um_failed set_final set_run uw_reqs].
  destruct (ui_ring _ _ _ _ _ _ I1) as (q & _ & R). pose proof (ro_pending _ _ _ _ _ _ R) as Hpe.
  assert (Hb : ~ peer_block (um_peers (uw_mgr w)) b).
  { intros (i & p & Hp & Ha & E). destruct (po_mem _ _ _ P1 i p Hp Ha) as (hb & hbs & E' & Hne & _).
    congruence. }
  split_and!; auto.
  - pose proof (ui_wf _ _ _ _ _ _ I1) as [? ? Hbl ? ? ? ? ?]. split; auto. rewrite K2; auto.
  - intros x. rewrite (Hx1 x).
    split; [|intros [? Hn]; rewrite K2; auto].
    intros Hx. assert (Hn : ~ peer_block (um_peers (uw_mgr w)) x).
    { intros Hpb. rewrite (G2 x Hpb) in Hx. destruct Hx. discriminate. }
    rewrite K2 in Hx by auto. auto.
Qed.

(** ** Connecting and disconnecting peers *)

Definition connect_spec (calloc_ok enabled : bool) (ps : list ramdisk_urma_peer)
    (info : ramdisk_ctrl_peer_connect_info) : Z :=
  if (ci_peer_id info =? 0) || (ci_seg_len info =? 0) then - EINVAL
  else if negb calloc_ok then - ENOMEM
  else if negb enabled then - EOPNOTSUPP
  else if bool_decide (is_Some (peer_lookup ps (ci_peer_id info))) then - EEXIST
  else if forallb up_active ps then - ENOSPC
  else 0.

Lemma peer_lookup_Some ps id i : find_peer_from ps id 0 = Some i -> is_Some (peer_lookup ps id).
Proof.
  intros E. unfold peer_lookup. rewrite E. cbn.
  apply find_peer_Some in E as (j & p & -> & Hp & _). cbn. eauto.
Qed.

Lemma find_free_forallb ps n : find_free_from ps n = None <-> forallb up_active ps = true.
Proof.
  revert n. induction ps as [|p ps IH]; intros n; cbn; [tauto|].
  destruct (up_active p); cbn; [apply IH|split; discriminate].
Qed.

Lemma peers_ok_insert ps b h i p new hb d :
  peers_ok ps b h -> ps !! i = Some p -> up_active p = false ->
  find_peer_from ps (up_peer_id new) 0 = None -> up_active new = true ->
  heap_fresh h -> hb = h_next h -> is_Some (h_blocks h !! b) ->
  peer_mem new b (snd (halloc d h)) hb d ->
  peers_ok (<[i := new]> ps) b (snd (halloc d h)).
Proof.
  intros [P1 P2 P3 P4] Hi Hia Hnf Hna F -> [bs Hb] M.
  assert (Hlt : forall x v, h_blocks h !! x = Some v -> h_blocks (snd (halloc d h)) !! x = Some v).
  { intros x v Hx. cbn. rewrite lookup_insert_ne; auto. apply F in Hx. lia. }
  assert (Hold : forall j q, ps !! j = Some q -> up_active q = true ->
    exists hb' hbs', peer_mem q b h hb' hbs') by auto.
  assert (Hne : forall j q, ps !! j = Some q -> up_active q = true ->
    up_mock_hbm q <> up_mock_hbm new).
  { intros j q Hq Ha E. destruct (Hold j q Hq Ha) as (hb' & hbs' & E1 & _ & L & _).
    destruct M as (E2 & _). rewrite E1, E2 in E. injection E as E. subst. apply F in L. lia. }
  assert (Hid : forall j q, ps !! j = Some q -> up_active q = true ->
    up_peer_id q <> up_peer_id new) by (intros; eapply find_peer_None; eauto).
  assert (Hlook : forall j q, <[i := new]> ps !! j = Some q ->
    (j = i /\ q = new) \/ (j <> i /\ ps !! j = Some q)).
  { intros j q Hq. destruct (decide (j = i)) as [->|].
    - rewrite list_lookup_insert_eq in Hq by (apply lookup_lt_Some in Hi; auto).
      left. split; congruence.
    - rewrite list_lookup_insert_ne in Hq by auto. auto. }
  split.
  - unfold zlength in *. rewrite length_insert. auto.
  - intros j q Hq Ha. apply Hlook in Hq as [[-> ->]|[_ Hq]]; [eauto|].
    destruct (Hold j q Hq Ha) as (hb' & hbs' & E1 & E2 & E3 & E4).
    exists hb', hbs'. split; [auto|]. split; [auto|]. split; [apply Hlt; auto|auto].
  - intros j k q r Hq Hr Aq Ar E. apply Hlook in Hq, Hr.
    destruct Hq as [[-> ->]|[? Hq]], Hr as [[-> ->]|[? Hr]]; auto.
    + exfalso. eapply Hid; eauto.
    + exfalso. eapply Hid; eauto.
    + eauto.
  - intros j k q r Hq Hr Aq Ar E. apply Hlook in Hq, Hr.
    destruct Hq as [[-> ->]|[? Hq]], Hr as [[-> ->]|[? Hr]]; auto.
    + exfalso. eapply Hne; eauto.
    + exfalso. eapply Hne; eauto.
    + eauto.
Qed.

(** Counters that connecting and disconnecting leave alone. *)
Definition same_counts (m m' : ramdisk_urma_mgr) : Prop :=
  um_inflight m' = um_inflight m /\ um_completed m' = um_completed m /\
  um_failed m' = um_failed m /\ um_pending m' = um_pending m.

Lemma peer_connect_full w bk b bs h l calloc_ok info :
  urma_inv w bk b bs h l -> peer_info_typed info ->
  exists rc m' h',
    ramdisk_urma_peer_connect calloc_ok (Some (uw_mgr w)) (Some info) h = Some (rc, Some m', h') /\
    rc = connect_spec calloc_ok (um_enabled (uw_mgr w)) (um_peers (uw_mgr w)) info /\
    urma_inv (mk_world m' (uw_backend w) (uw_reqs w)) bk b bs h' l /\
    same_counts (uw_mgr w) m' /\
    (forall j p, um_peers (uw_mgr w) !! j = Some p -> up_active p = true ->
       um_peers m' !! j = Some p) /\
    (rc <> 0 -> m' = uw_mgr w /\ h_blocks h' = h_blocks h) /\
    (rc = 0 -> exists hb p, peer_lookup (um_peers m') (ci_peer_id info) = Some p /\
       peer_mem p b h' hb (replicate (Z.to_nat (ci_seg_len info)) 0) /\
       up_seg_va p = ci_seg_va info /\ h_blocks h !! hb = None).
Proof.
  intros I T. pose proof I as [Ub W F Ui Um P R Q N].
  destruct T as (T1 & _ & _ & _ & _ & T4 & T5 & _).
  unfold ramdisk_urma_peer_connect, connect_spec. rewrite Ui, Um. cbn [negb].
  assert (Isame : urma_inv (mk_world (uw_mgr w) (uw_backend w) (uw_reqs w)) bk b bs h l)
    by (destruct w; exact I).
  assert (Hfail : forall e, - e <> 0 -> forall h', h_blocks h' = h_blocks h -> h_next h <= h_next h' ->
    exists rc m' h'', Some (- e, Some (uw_mgr w), h') = Some (rc, Some m', h'') /\ rc = - e /\
      urma_inv (mk_world m' (uw_backend w) (uw_reqs w)) bk b bs h'' l /\
      same_counts (uw_mgr w) m' /\
      (forall j p, um_peers (uw_mgr w) !! j = Some p -> up_active p = true ->
         um_peers m' !! j = Some p) /\
      (rc <> 0 -> m' = uw_mgr w /\ h_blocks h'' = h_blocks h) /\
      (rc = 0 -> exists hb p, peer_lookup (um_peers m') (ci_peer_id info) = Some p /\
         peer_mem p b h'' hb (replicate (Z.to_nat (ci_seg_len info)) 0) /\
         up_seg_va p = ci_seg_va info /\ h_blocks h !! hb = None)).
  { intros e He h' Eb En. exists (- e), (uw_mgr w), h'. split; [reflexivity|]. split; [auto|].
    split; [|split; [repeat split|split; [auto|split; [auto|intros; contradiction]]]]. destruct W as [? ? Hb ? ? ? ? ?].
    split; auto.
    - split; auto. rewrite Eb. auto.
    - intros x v Hx. rewrite Eb in Hx. apply F in Hx. lia.
    - eapply peers_ok_mono; [exact P|]. intros x v _ Hv. exists v. rewrite Eb. auto. }
  destruct ((ci_peer_id info =? 0) || (ci_seg_len info =? 0)) eqn:E0;
    [apply (Hfail EINVAL); auto; discriminate || lia|].
  mstep. destruct calloc_ok; cbn [negb calloc]; mstep;
    [|cbn [is_null]; mstep; apply (Hfail ENOMEM); auto; discriminate || lia].
  set (zs := replicate (Z.to_nat (ci_seg_len info)) 0).
  set (h1 := snd (halloc zs h)). change (halloc zs h) with (Ptr (h_next h) 0, h1).
  cbn beta iota. change (is_null (Ptr (h_next h) 0)) with false. cbv iota.
  unfold peer_connect_locked. cbn [up_peer_id peer_of_info].
  assert (Hb' : delete (h_next h) (<[h_next h := zs]> (h_blocks h)) = h_blocks h).
  { apply delete_insert_id. destruct (h_blocks h !! h_next h) eqn:E; auto. apply F in E. lia. }
  assert (Hfree : free (Ptr (h_next h) 0) h1 = Some (tt, hdel (h_next h) h1)).
  { eapply free_ok. cbn. apply lookup_insert_eq. }
  destruct (um_enabled (uw_mgr w)) eqn:En; cbn [negb];
    [|change (- EOPNOTSUPP =? 0) with false; cbv iota; mstep; rewrite Hfree; mstep;
      apply (Hfail EOPNOTSUPP); [discriminate|cbn; auto|cbn; lia]].
  unfold find_peer_locked. destruct (find_peer_from (um_peers (uw_mgr w)) (ci_peer_id info) 0) as [k|] eqn:Ef.
  { rewrite bool_decide_true by (eapply peer_lookup_Some; eauto).
    change (- EEXIST =? 0) with false. cbv iota. mstep. rewrite Hfree. mstep.
    apply (Hfail EEXIST); [discriminate|cbn; auto|cbn; lia]. }
  rewrite bool_decide_false by (unfold peer_lookup; rewrite Ef; cbn; intros [? ?]; discriminate).
  destruct (find_free_from (um_peers (uw_mgr w)) 0) as [i|] eqn:Ei.
  2: { rewrite (proj1 (find_free_forallb _ _) Ei).
    change (- ENOSPC =? 0) with false. cbv iota. mstep. rewrite Hfree. mstep.
    apply (Hfail ENOSPC); [discriminate|cbn; auto|cbn; lia]. }
  destruct (forallb up_active (um_peers (uw_mgr w))) eqn:Ea.
  { apply (find_free_forallb _ 0) in Ea. congruence. }
  cbn [Z.eqb]. mstep.
  apply find_free_Some in Ei as (i' & p & -> & Hp & Hpa). cbn [Nat.add].
  set (new := peer_of_info info (Ptr (h_next h) 0)).
  pose proof (bw_block _ _ _ _ W) as Hbb. pose proof (F _ _ Hbb) as Hbn.
  assert (M : peer_mem new b (snd (halloc zs h)) (h_next h) zs).
  { split; [reflexivity|]. split; [lia|]. split; [cbn; apply lookup_insert_eq|].
    cbn. split; [apply zlength_replicate; int_lia|]. split; [int_lia|]. split; [auto|].
    split; [auto|lia]. }
  pose proof (peers_ok_insert _ _ _ _ _ new _ zs P Hp Hpa Ef eq_refl F eq_refl
    ltac:(eauto) M) as P'.
  assert (Hnew : <[i' := new]> (um_peers (uw_mgr w)) !! i' = Some new)
    by (apply list_lookup_insert_eq; apply lookup_lt_Some in Hp; auto).
  exists 0, (set_peers (<[i' := new]> (um_peers (uw_mgr w))) (uw_mgr w)), (snd (halloc zs h)).
  split; [reflexivity|]. split; [reflexivity|].
  assert (W' : backend_wf bk b bs (snd (halloc zs h))).
  { destruct W. split; auto. cbn. rewrite lookup_insert_ne; auto. lia. }
  assert (Hkeep : forall k q, um_peers (uw_mgr w) !! k = Some q -> up_active q = true ->
    <[i' := new]> (um_peers (uw_mgr w)) !! k = Some q)
    by (intros k q Hk Hka; rewrite list_lookup_insert_ne; auto; intros <-; congruence).
  split; [|split; [repeat split|split; [exact Hkeep|split; [intros; contradiction|]]]].
  - split; auto; [apply heap_fresh_halloc; auto|].
    intros a Ha. destruct (Q a Ha) as (req & j & ? & ? & ? & ?). exists req, j.
    split_and!; auto. cbn [uw_mgr].
    eapply (validate_xfer_ext (uw_mgr w)); eauto.
    + eapply peers_ok_mono; [exact P|]. intros x v _ Hv. exists v. split; auto.
      cbn. rewrite lookup_insert_ne; auto. apply F in Hv. lia.
  - intros _. exists (h_next h), new. split; [|split; [exact M|split; [reflexivity|]]].
    + unfold peer_lookup. cbn [um_peers set_peers].
      pose proof (find_peer_unique _ _ _ _ _ P' Hnew eq_refl) as E.
      cbn [up_peer_id new peer_of_info] in E. rewrite E. exact Hnew.
    + destruct (h_blocks h !! h_next h) eqn:E; auto. apply F in E. lia.
Qed.

(** C28: connecting a peer, on every branch.  The result is that of the
    reference; a refused peer leaves the manager as it was and leaks no memory;
    an accepted one is found under its identifier with a zero-filled segment of
    its own, and neither the invariant nor any request already queued is
    disturbed. *)
Theorem peer_connect_spec w bk b bs h l calloc_ok info :
  urma_inv w bk b bs h l -> peer_info_typed info ->
  exists rc m' h',
    ramdisk_urma_peer_connect calloc_ok (Some (uw_mgr w)) (Some info) h = Some (rc, Some m', h') /\
    rc = connect_spec calloc_ok (um_enabled (uw_mgr w)) (um_peers (uw_mgr w)) info /\
    urma_inv (mk_world m' (uw_backend w) (uw_reqs w)) bk b bs h' l /\
    (rc <> 0 -> m' = uw_mgr w /\ h_blocks h' = h_blocks h) /\
    (rc = 0 -> exists hb p, peer_lookup (um_peers m') (ci_peer_id info) = Some p /\
       peer_mem p b h' hb (replicate (Z.to_nat (ci_seg_len info)) 0) /\
       up_seg_va p = ci_seg_va info /\ h_blocks h !! hb = None).
Proof.
  intros I T. destruct (peer_connect_full w bk b bs h l calloc_ok info I T)
    as (rc & m' & h' & E & Hrc & I' & _ & _ & H1 & H2).
  exists rc, m', h'. auto.
Qed.

Lemma peers_ok_remove ps b h i p hb :
  peers_ok ps b h -> ps !! i = Some p -> up_active p = true -> up_mock_hbm p = Ptr hb 0 ->
  peers_ok (<[i := peer_zero]> ps) b (hdel hb h).
Proof.
  intros [P1 P2 P3 P4] Hi Hia Hm.
  assert (Hlook : forall j q, <[i := peer_zero]> ps !! j = Some q -> up_active q = true ->
    j <> i /\ ps !! j = Some q).
  { intros j q Hq Ha. destruct (decide (j = i)) as [->|].
    - rewrite list_lookup_insert_eq in Hq by (apply lookup_lt_Some in Hi; auto).
      injection Hq as <-. discriminate.
    - rewrite list_lookup_insert_ne in Hq by auto. auto. }
  split.
  - unfold zlength in *. rewrite length_insert. auto.
  - intros j q Hq Ha. apply Hlook in Hq as [Hne Hq]; auto.
    destruct (P2 j q Hq Ha) as (hb' & hbs' & E1 & E2 & E3 & E4). exists hb', hbs'.
    split; [auto|]. split; [auto|]. split; [|auto].
    cbn. rewrite lookup_delete_ne; auto. intros <-. apply Hne.
    apply (P4 j i q p); auto. congruence.
  - intros j k q r Hq Hr Aq Ar E. apply Hlook in Hq as [_ Hq]; auto.
    apply Hlook in Hr as [_ Hr]; auto. eauto.
  - intros j k q r Hq Hr Aq Ar E. apply Hlook in Hq as [_ Hq]; auto.
    apply Hlook in Hr as [_ Hr]; auto. eauto.
Qed.

Lemma peer_disconnect_full w bk b bs h peer_id :
  urma_inv w bk b bs h [] ->
  (peer_id = 0 ->
     ramdisk_urma_peer_disconnect (Some (uw_mgr w)) peer_id h
     = Some (- EINVAL, Some (uw_mgr w), h)) /\
  (peer_id <> 0 -> peer_lookup (um_peers (uw_mgr w)) peer_id = None ->
     ramdisk_urma_peer_disconnect (Some (uw_mgr w)) peer_id h
     = Some (- ENOENT, Some (uw_mgr w), h)) /\
  (forall p, peer_lookup (um_peers (uw_mgr w)) peer_id = Some p ->
     exists m' hb hbs, peer_mem p b h hb hbs /\
       ramdisk_urma_peer_disconnect (Some (uw_mgr w)) peer_id h = Some (0, Some m', hdel hb h) /\
       peer_lookup (um_peers m') peer_id = None /\ same_counts (uw_mgr w) m' /\
       urma_inv (mk_world m' (uw_backend w) (uw_reqs w)) bk b bs (hdel hb h) []).
Proof.
  intros [Ub W F Ui Um P R Q N]. unfold ramdisk_urma_peer_disconnect, peer_disconnect_locked.
  rewrite Ui. cbn [negb orb]. unfold find_peer_locked, peer_lookup. split_and!.
  - intros ->. reflexivity.
  - intros Hid Hl. destruct (Z.eqb_spec peer_id 0); [lia|].
    destruct (find_peer_from (um_peers (uw_mgr w)) peer_id 0) as [i|] eqn:E; [|reflexivity].
    cbn in Hl. apply find_peer_Some in E as (j & q & -> & Hq & _). cbn in Hl. congruence.
  - intros p Hl.
    destruct (find_peer_from (um_peers (uw_mgr w)) peer_id 0) as [i|] eqn:E; [|discriminate].
    cbn in Hl. apply find_peer_Some in E as (j & q & -> & Hq & Ha & Hid). cbn in Hl |- *.
    rewrite Hq in Hl. injection Hl as ->. rewrite (nth_lookup' _ _ _ Hq).
    destruct (po_mem _ _ _ P j p Hq Ha) as (hb & hbs & M).
    pose proof M as (Em & Hne & Hb & _ & _ & _ & _ & Hnz).
    destruct (Z.eqb_spec peer_id 0); [lia|]. mstep. rewrite Em, (free_ok _ _ _ Hb). mstep.
    pose proof (peers_ok_remove _ _ _ _ _ _ P Hq Ha Em) as P'.
    eexists _, hb, hbs. split; [exact M|]. split; [reflexivity|]. split; [|split; [repeat split|]].
    + cbn [um_peers set_peers].
      destruct (find_peer_from (<[j := peer_zero]> (um_peers (uw_mgr w))) peer_id 0)
        as [k|] eqn:E2; auto. exfalso.
      apply find_peer_Some in E2 as (k' & r & -> & Hr & Har & Hidr).
      destruct (decide (k' = j)) as [->|Hkj].
      * rewrite list_lookup_insert_eq in Hr by (apply lookup_lt_Some in Hq; auto).
        injection Hr as <-. discriminate.
      * rewrite list_lookup_insert_ne in Hr by auto. apply Hkj.
        apply (po_ids _ _ _ P k' j r p); auto. congruence.
    + split; auto.
      * destruct W. split; auto. cbn. rewrite lookup_delete_ne; auto.
      * apply heap_fresh_hdel; auto.
      * intros a Ha'. apply not_elem_of_nil in Ha'. destruct Ha'.
Qed.

(** Disconnecting a peer while no request is queued.  A zero identifier
    and an unknown one are refused without effect; a known peer is removed, its
    segment and only its segment is freed, its identifier is free again and the
    invariant holds. *)
Theorem peer_disconnect_spec w bk b bs h peer_id :
  urma_inv w bk b bs h [] ->
  (peer_id = 0 ->
     ramdisk_urma_peer_disconnect (Some (uw_mgr w)) peer_id h
     = Some (- EINVAL, Some (uw_mgr w), h)) /\
  (peer_id <> 0 -> peer_lookup (um_peers (uw_mgr w)) peer_id = None ->
     ramdisk_urma_peer_disconnect (Some (uw_mgr w)) peer_id h
     = Some (- ENOENT, Some (uw_mgr w), h)) /\
  (forall p, peer_lookup (um_peers (uw_mgr w)) peer_id = Some p ->
     exists m' hb hbs, peer_mem p b h hb hbs /\
       ramdisk_urma_peer_disconnect (Some (uw_mgr w)) peer_id h = Some (0, Some m', hdel hb h) /\
       peer_lookup (um_peers m') peer_id = None /\
       urma_inv (mk_world m' (uw_backend w) (uw_reqs w)) bk b bs (hdel hb h) []).
Proof.
  intros I. destruct (peer_disconnect_full w bk b bs h peer_id I) as (H1 & H2 & H3).
  split; [exact H1|]. split; [exact H2|]. intros p Hp.
  destruct (H3 p Hp) as (m' & hb & hbs & M & E & Hl & _ & I'). exists m', hb, hbs. auto.
Qed.

(** ** A synchronous transfer *)

(** What the worker does while the caller waits. *)
Definition run_worker (fuel : nat) (w : urma_world) : mem urma_world :=
  r ← urma_worker_main fuel w; lift r.

(** How the wait may go: any number of time-outs and spurious wake-ups during
    which the worker does nothing that is seen, then one during which the worker
    takes the request, executes it, completes it and writes its log message. *)
Definition wakes (rc : Z) : Prop := rc = 0 \/ rc = ETIMEDOUT.

Definition worker_waits (evs : list ((urma_world -> mem urma_world) * Z)) : Prop :=
  exists idle rc rest, evs = ((fun rc => (mret, rc)) <$> idle) ++ (run_worker 2, rc) :: rest /\
    Forall wakes idle /\ wakes rc.

Lemma wakes_again rc : wakes rc -> (rc =? ETIMEDOUT) || (rc =? 0) = true.
Proof. intros [-> | ->]; reflexivity. Qed.

(** Such a wait ends as the shortest one does. *)
Lemma transfer_wait_waits evs w a h r h' :
  worker_waits evs -> transfer_wait [(run_worker 2, 0)] w a h = Some (Some r, h') ->
  transfer_wait evs w a h = Some (Some r, h').
Proof.
  intros (idle & rc & rest & -> & Hi & Hrc). induction Hi as [|x idle Hx Hi IH]; intros E.
  - cbn [fmap list_fmap app]. revert E. cbn [transfer_wait]. mstep.
    destruct (lift (uw_reqs w !! a) h) as [[req h1]|]; [|auto]. mstep.
    destruct (rq_done req); [auto|]. mstep. destruct (run_worker 2 w h1) as [[w1 h2]|]; [|auto].
    rewrite (wakes_again rc Hrc). change ((0 =? ETIMEDOUT) || (0 =? 0)) with true. cbv iota.
    mstep. destruct (lift (uw_reqs w1 !! a) h2) as [[req1 h3]|] eqn:E1; [|discriminate].
    mstep. destruct (rq_done req1) eqn:E2; [|discriminate].
    intros E. destruct rest; cbn [transfer_wait]; mstep; rewrite E1; mstep; rewrite E2; exact E.
  - specialize (IH E). cbn [fmap list_fmap app transfer_wait]. mstep.
    destruct (uw_reqs w !! a) as [req|] eqn:Er;
      [|cbn [transfer_wait] in E; revert E; mstep; rewrite Er; discriminate].
    mstep. destruct (rq_done req) eqn:Ed.
    + cbn [transfer_wait] in E. revert E. mstep. rewrite Er. mstep. rewrite Ed. auto.
    + mstep. rewrite (wakes_again x Hx). exact IH.
Qed.

Lemma transfer_sync_waits evs a w x h r h' :
  worker_waits evs ->
  ramdisk_urma_transfer_sync [(run_worker 2, 0)] a (Some w) (Some x) h = Some (Some r, h') ->
  ramdisk_urma_transfer_sync evs a (Some w) (Some x) h = Some (Some r, h').
Proof.
  intros Hw. unfold ramdisk_urma_transfer_sync. destruct (um_initialized (uw_mgr w)); cbn [negb]; [|auto].
  mstep. destruct (transfer_submit w x a h) as [[[rc|w1] h1]|]; mstep; auto.
  destruct (transfer_wait [(run_worker 2, 0)] w1 a h1) as [[[ow|] h2]|] eqn:E; [|discriminate..].
  rewrite (transfer_wait_waits evs w1 a h1 ow h2 Hw E). auto.
Qed.

Lemma worker_waits_one : worker_waits [(run_worker 2, 0)].
Proof. exists [], 0, []. split; [reflexivity|]. split; [constructor|left; reflexivity]. Qed.

Lemma transfer_sync_full w bk b bs h x a :
  urma_inv w bk b bs h [] -> um_inflight (uw_mgr w) = 0 -> transfer_typed x ->
  uw_reqs w !! a = None ->
  let r := xfer_spec (um_enabled (uw_mgr w)) (zlength bs) (bk_block_size bk)
             (peer_lookup (um_peers (uw_mgr w))) x in
  (r <> 0 -> forall evs, ramdisk_urma_transfer_sync evs a (Some w) (Some x) h
                         = Some (Some (r, Some w), h)) /\
  (r = 0 -> exists p hb hbs w',
     peer_lookup (um_peers (uw_mgr w)) (ct_peer_id x) = Some p /\ peer_mem p b h hb hbs /\
     let h' := copy_effect (ct_direction x) (ct_local_offset x) 0 (ct_length x) b hb bs hbs h in
     let bs' := disk_after (ct_direction x) (ct_local_offset x) 0 (ct_length x) bs hbs in
     ramdisk_urma_transfer_sync [(run_worker 2, 0)] a (Some w) (Some x) h
     = Some (Some (0, Some w'), h') /\
     urma_inv w' bk b bs' h' [] /\ zlength bs' = zlength bs /\ uw_reqs w' = uw_reqs w /\
     um_inflight (uw_mgr w') = 0 /\ um_failed (uw_mgr w') = um_failed (uw_mgr w) /\
     um_completed (uw_mgr w') = u64 (um_completed (uw_mgr w) + 1)).
Proof.
  intros I Hinf Tx Ha. cbn zeta. pose proof (submit_ok _ _ _ _ _ _ _ a I Tx Ha) as S.
  cbn zeta in S. set (r := xfer_spec _ _ _ _ x) in *.
  unfold ramdisk_urma_transfer_sync. rewrite (ui_init _ _ _ _ _ _ I). cbn [negb].
  destruct (Z.eqb_spec r 0) as [E0|E0]; cbn [negb] in S.
  2: { split; [|intros; contradiction]. intros _ evs. mstep. rewrite S. reflexivity. }
  split; [intros; contradiction|]. intros _.
  destruct (ui_ring _ _ _ _ _ _ I) as (q0 & _ & R0). pose proof (ro_depth _ _ _ _ _ _ R0) as Hde.
  destruct (um_queue_depth (uw_mgr w) <=? zlength []) eqn:Ed; [unfold zlength in Ed; cbn [length] in Ed; lia|].
  destruct S as (q & tl & Es & I1). set (w1 := mk_world _ _ _) in *.
  destruct (worker_one w1 bk b bs h a [] 1 I1 Hinf)
    as (req & p & hb & hbs & w2 & i & Hr & Hf & Hp & M & E1 & I2 & Hz2 & Hi2 & _ & Hc2 & Hf2
        & _ & _ & _ & Hr2).
  assert (req = request_of_xfer x) as ->
    by (unfold w1 in Hr; cbn in Hr; rewrite lookup_insert_eq in Hr; congruence).
  cbn [rq_direction rq_local_offset rq_length rq_peer_id request_of_xfer] in *. cbn zeta in *.
  set (h' := copy_effect _ _ _ _ _ _ _ _ _) in *.
  exists p, hb, hbs, (mk_world (uw_mgr w2) (uw_backend w2) (delete a (uw_reqs w2))).
  split; [|split; [exact M|]].
  { unfold peer_lookup. unfold find_peer_locked in Hf.
    change (um_peers (uw_mgr w1)) with (um_peers (uw_mgr w)) in *. rewrite Hf. cbn. exact Hp. }
  cbn zeta. split_and!; auto.
  - mstep. rewrite Es. mstep.
    assert (Hr1 : uw_reqs w1 !! a = Some (request_of_xfer x))
      by (unfold w1; cbn; apply lookup_insert_eq).
    cbn [transfer_wait]. rewrite Hr1. mstep. cbn [rq_done request_of_xfer]. mstep.
    unfold run_worker. mstep. rewrite E1.
    rewrite (worker_idle _ _ _ _ _ 0 I2). mstep. cbn [Z.eqb orb].
    assert (Hr3 : uw_reqs w2 !! a = Some (set_done 0 (set_remote (up_seg_va p) (request_of_xfer x))))
      by (rewrite Hr2; apply lookup_insert_eq).
    change (0 =? ETIMEDOUT) with false. cbv iota. mstep. rewrite Hr3. mstep.
    cbn [rq_done rq_status set_done]. mstep. reflexivity.
  - destruct I2 as [? ? ? ? ? ? ? Q2 ?]. split; auto.
    intros y Hy. apply not_elem_of_nil in Hy. destruct Hy.
  - cbn [uw_reqs]. rewrite Hr2. unfold w1. cbn.
    rewrite delete_insert_eq. apply delete_insert_id. auto.
Qed.


(** ** The mock peer memory and timeouts *)

(** The mock accessors of a peer's memory, on every branch.  A write of
    [len] bytes and a read of the same range give the bytes back; an unknown
    peer and any range that leaves the segment over unbounded integers are
    refused without touching memory. *)
Theorem mock_peer_roundtrip m b h id addr len sb sbs rb rbs :
  peers_ok (um_peers m) b h -> is_u64 addr -> is_u32 len ->
  h_blocks h !! sb = Some sbs -> len <= zlength sbs ->
  h_blocks h !! rb = Some rbs -> len <= zlength rbs ->
  (forall p hb, peer_lookup (um_peers m) id = Some p -> up_mock_hbm p = Ptr hb 0 ->
     sb <> hb /\ rb <> hb) ->
  match peer_lookup (um_peers m) id with
  | None => ramdisk_urma_mock_write_peer (Some m) id addr (Ptr sb 0) len h = Some (- ENODEV, h) /\
            ramdisk_urma_mock_read_peer (Some m) id addr (Ptr rb 0) len h = Some (- ENODEV, h)
  | Some p =>
      if (up_seg_va p <=? addr) && (addr + len <=? up_seg_va p + up_seg_len p)
      then exists h1 h2,
        ramdisk_urma_mock_write_peer (Some m) id addr (Ptr sb 0) len h = Some (0, h1) /\
        ramdisk_urma_mock_read_peer (Some m) id addr (Ptr rb 0) len h1 = Some (0, h2) /\
        load (Ptr rb 0) len h2 = Some (slice 0 len sbs)
      else ramdisk_urma_mock_write_peer (Some m) id addr (Ptr sb 0) len h = Some (- ERANGE, h) /\
           ramdisk_urma_mock_read_peer (Some m) id addr (Ptr rb 0) len h = Some (- ERANGE, h)
  end.
Proof.
  intros P Ta Tl Hs Hsl Hr Hrl Hdis.
  unfold ramdisk_urma_mock_write_peer, ramdisk_urma_mock_read_peer, mock_peer_at.
  unfold find_peer_locked, peer_lookup in *. cbn [is_null].
  destruct (find_peer_from (um_peers m) id 0) as [i|] eqn:E; [|split; reflexivity].
  apply find_peer_Some in E as (j & p & -> & Hp & Ha & Hid). cbn [Nat.add] in *.
  change (Some j ≫= (fun i => um_peers m !! i)) with (um_peers m !! j) in *.
  rewrite Hp in *. rewrite (nth_lookup' _ _ _ Hp).
  destruct (po_mem _ _ _ P j p Hp Ha) as (hb & hbs & Em & Hne & Hb & Hz & Hl0 & Hl & Hv & _).
  destruct (Hdis p hb eq_refl Em) as [Hsh Hrh]. rewrite Em. cbn [is_null].
  destruct (Z.ltb_spec addr (up_seg_va p)) as [Hlt|Hge].
  { destruct (Z.leb_spec (up_seg_va p) addr); [lia|]. cbn. auto. }
  destruct (Z.leb_spec (up_seg_va p) addr); [|lia]. cbn [orb andb].
  rewrite (u64_small (addr - up_seg_va p)) by int_lia.
  destruct (len >? up_seg_len p) eqn:E1; cbn [orb].
  { destruct (Z.leb_spec (addr + len) (up_seg_va p + up_seg_len p)); [lia|]. auto. }
  rewrite u64_small by int_lia.
  destruct (addr - up_seg_va p >? up_seg_len p - len) eqn:E2;
    destruct (Z.leb_spec (addr + len) (up_seg_va p + up_seg_len p)); try lia; auto.
  cbn [padd]. set (off := 0 + (addr - up_seg_va p)).
  assert (Hsz : zlength (slice 0 len sbs) = len) by (apply zlength_slice; int_lia).
  eexists _, _. mstep.
  rewrite (memcpy_ok h hb hbs off sb sbs 0 len) by (auto; unfold off; int_lia). mstep.
  split; [reflexivity|].
  erewrite memcpy_ok; [|apply hset_lookup|unfold off; lia|int_lia
    |rewrite zlength_splice; unfold off; lia|rewrite hset_lookup_ne by auto; eauto|lia|lia].
  mstep. split; [reflexivity|].
  erewrite load_ok; [|apply hset_lookup|lia|int_lia|].
  - rewrite (slice_splice_eq off) by (unfold off; lia).
    rewrite slice_splice_eq by lia. reflexivity.
  - rewrite zlength_splice; [lia|lia|]. rewrite slice_splice_eq by (unfold off; lia). lia.
Qed.

(** The deadline is exactly [timeout_ms] after now, with a normalised
    nanosecond field, for every 32-bit timeout. *)
Theorem make_abs_timeout_exact sec nsec timeout_ms :
  0 <= nsec < 1000000000 -> is_u32 timeout_ms ->
  let '(s, n) := make_abs_timeout (sec, nsec) timeout_ms in
  s * 1000000000 + n = sec * 1000000000 + nsec + timeout_ms * 1000000 /\ 0 <= n < 1000000000.
Proof.
  intros Hn Ht. unfold make_abs_timeout. cbn [fst snd].
  pose proof (Z.div_mod timeout_ms 1000). pose proof (Z.mod_pos_bound timeout_ms 1000).
  destruct (_ >=? _) eqn:E; lia.
Qed.

Lemma make_abs_timeout_exact_witness :
  let '(s, n) := make_abs_timeout (10, 999000000) 30002 in
  s * 1000000000 + n = 10 * 1000000000 + 999000000 + 30002 * 1000000 /\ 0 <= n < 1000000000.
Proof. apply (make_abs_timeout_exact 10 999000000 30002); [lia|int_lia]. Defined.

(** ** A concrete manager *)

Definition ex_peer : ramdisk_urma_peer :=
  mk_peer true 7 (replicate 16 0) 0 0x100000 1024 11 22 (Ptr 2 0).

Definition ex_mgr : ramdisk_urma_mgr :=
  mk_mgr true true true true false [] UINT32_MAX 1 0 RAMDISK_URMA_DEFAULT_TOKEN 2
    (Some [None; None]) 0 0 0 0 0 0 (ex_peer :: replicate 31 peer_zero).

Definition ex_urma_heap : heap :=
  {| h_next := 4;
     h_blocks := <[1 := replicate 1024 5]> (<[2 := replicate 1024 9]>
                 (<[3 := replicate 512 6]> ∅)) |}.

Definition ex_world : urma_world := mk_world ex_mgr (Some ex_backend) ∅.

Definition ex_xfer : ramdisk_ctrl_urma_transfer :=
  mk_transfer 7 1 512 0x100200 512 RAMDISK_TO_HBM.

Lemma ex_peers_active i p :
  um_peers ex_mgr !! i = Some p -> up_active p = true -> i = 0%nat /\ p = ex_peer.
Proof.
  cbn [um_peers ex_mgr]. destruct i as [|i].
  - intros [= <-] _. auto.
  - intros Hp Ha. change (replicate 31 peer_zero !! i = Some p) in Hp.
    apply lookup_replicate in Hp as [-> _]. discriminate.
Qed.

Lemma ex_urma_fresh : heap_fresh ex_urma_heap.
Proof.
  intros b bs. unfold ex_urma_heap; cbn. rewrite !lookup_insert, lookup_empty.
  repeat case_decide; intros; simplify_eq; lia.
Qed.

Lemma ex_peers_ok : peers_ok (um_peers ex_mgr) 1 ex_urma_heap.
Proof.
  split.
  - reflexivity.
  - intros i p Hp Ha. destruct (ex_peers_active i p Hp Ha) as [_ ->].
    exists 2, (replicate 1024 9). split_and!; try reflexivity; vm_compute; intuition congruence.
  - intros i j p q Hp Hq Ap Aq _. destruct (ex_peers_active i p Hp Ap) as [-> _].
    destruct (ex_peers_active j q Hq Aq) as [-> _]. auto.
  - intros i j p q Hp Hq Ap Aq _. destruct (ex_peers_active i p Hp Ap) as [-> _].
    destruct (ex_peers_active j q Hq Aq) as [-> _]. auto.
Qed.

Lemma ex_urma_backend : backend_wf ex_backend 1 (replicate 1024 5) ex_urma_heap.
Proof. split; try reflexivity; vm_compute; intuition congruence. Qed.

Lemma ex_urma_inv : urma_inv ex_world ex_backend 1 (replicate 1024 5) ex_urma_heap [].
Proof.
  split; try reflexivity.
  - exact ex_urma_backend.
  - exact ex_urma_fresh.
  - exact ex_peers_ok.
  - eexists. split; [reflexivity|]. apply (ring_empty 2). unfold RAMDISK_URMA_MAX_QUEUE_DEPTH. lia.
  - intros a Ha. apply not_elem_of_nil in Ha. destruct Ha.
  - constructor.
Qed.

Lemma ex_xfer_typed : transfer_typed ex_xfer.
Proof. repeat constructor; vm_compute; intuition congruence. Qed.

Lemma validate_xfer_exact_witness :
  fst (validate_xfer_locked ex_mgr (Some ex_backend) (Some ex_xfer)) = 0.
Proof.
  rewrite (validate_xfer_exact ex_mgr ex_backend 1 (replicate 1024 5) ex_urma_heap ex_xfer
    ex_urma_backend ex_peers_ok ex_xfer_typed). reflexivity.
Defined.

Lemma mgr_destroy_drains_and_frees_witness :
  exists w' h', ramdisk_urma_mgr_destroy 1 (Some ex_world) ex_urma_heap
                = Some (Some (Some w'), h') /\ h_blocks h' !! 1 <> None.
Proof.
  destruct (mgr_destroy_drains_and_frees ex_world ex_backend 1 (replicate 1024 5) ex_urma_heap
    [] 1 ex_urma_inv) as (w' & bs' & h' & E & _ & _ & _ & _ & _ & _ & _ & W & _);
    [reflexivity|reflexivity|vm_compute; intuition congruence|cbn; lia|].
  exists w', h'. split; [exact E|]. rewrite (bw_block _ _ _ _ W). discriminate.
Defined.

Lemma peer_connect_spec_witness :
  exists m' h', ramdisk_urma_peer_connect true (Some ex_mgr)
    (Some (mk_peer_info 8 (replicate 16 1) 0 0 0x200000 64 3 4)) ex_urma_heap
    = Some (0, Some m', h').
Proof.
  destruct (peer_connect_spec ex_world ex_backend 1 (replicate 1024 5) ex_urma_heap [] true
    (mk_peer_info 8 (replicate 16 1) 0 0 0x200000 64 3 4) ex_urma_inv)
    as (rc & m' & h' & E & Hrc & _).
  - repeat constructor; vm_compute; intuition congruence.
  - exists m', h'. rewrite Hrc in E. exact E.
Defined.

Lemma peer_disconnect_spec_witness :
  exists m', ramdisk_urma_peer_disconnect (Some ex_mgr) 7 ex_urma_heap
             = Some (0, Some m', hdel 2 ex_urma_heap).
Proof.
  destruct (peer_disconnect_spec ex_world ex_backend 1 (replicate 1024 5) ex_urma_heap 7
    ex_urma_inv) as (_ & _ & H).
  destruct (H ex_peer eq_refl) as (m' & hb & hbs & M & E & _).
  exists m'. destruct M as (M & _). injection M as M. subst. exact E.
Defined.


Lemma mock_peer_roundtrip_witness :
  exists h1 h2,
    ramdisk_urma_mock_write_peer (Some ex_mgr) 7 0x100100 (Ptr 3 0) 512 ex_urma_heap = Some (0, h1) /\
    ramdisk_urma_mock_read_peer (Some ex_mgr) 7 0x100100 (Ptr 1 0) 512 h1 = Some (0, h2) /\
    load (Ptr 1 0) 512 h2 = Some (slice 0 512 (replicate 512 6)).
Proof.
  apply (mock_peer_roundtrip ex_mgr 1 ex_urma_heap 7 0x100100 512 3 (replicate 512 6) 1
    (replicate 1024 5) ex_peers_ok); try reflexivity; try (vm_compute; intuition congruence).
  intros p hb Hp Hm. assert (p = ex_peer) as -> by (vm_compute in Hp; vm_compute; congruence).
  injection Hm as <-. lia.
Defined.
