(* ===== verification/UrmaInit.v ===== *)
(** * Starting the URMA manager (ramdisk_urma.c)

    The result of [ramdisk_urma_mgr_init] on every branch of a build without
    HAVE_URMA, and the invariant of UrmaQueue that a successful start
    establishes. *)

From S2P Require Import Prelude.
From S2P Require Import Mem.
From S2P Require Import Backend.
From S2P Require Import CtrlProto.
From S2P Require Import UrmaMgr.
From S2P Require Import UrmaQueue.

(** The queue depth a configuration asks for: 32 when it names none. *)
Definition depth_of (config : option ramdisk_urma_config) : Z :=
  match config with
  | Some c => if uc_queue_depth c =? 0 then 32 else uc_queue_depth c
  | None => 32
  end.

Definition mock_of (config : option ramdisk_urma_config) : bool :=
  match config with Some c => uc_use_mock c | None => true end.

Definition enabled_of (config : option ramdisk_urma_config) : bool :=
  match config with Some c => uc_enable c | None => false end.

(** The first obstacle decides. *)
Definition init_spec (env : urma_init_env) (config : option ramdisk_urma_config) : Z :=
  if RAMDISK_URMA_MAX_QUEUE_DEPTH <? depth_of config then - EINVAL
  else if negb (ie_calloc_ok env) then - ENOMEM
  else if negb (ie_mutex_rc env =? 0) then - ie_mutex_rc env
  else if negb (mock_of config) then - ENOSYS
  else - ie_thread_rc env.

Definition config_typed (config : option ramdisk_urma_config) : Prop :=
  match config with Some c => is_u32 (uc_queue_depth c) | None => True end.

Lemma depth_pos config : config_typed config -> 0 < depth_of config.
Proof.
  destruct config as [c|]; cbn; [|lia]. intros Hc.
  destruct (Z.eqb_spec (uc_queue_depth c) 0); int_lia.
Qed.

Lemma mgr_prepare_eq env m0 bk config :
  bk_initialized bk = true ->
  mgr_prepare env (Some m0) (Some bk) config
  = if RAMDISK_URMA_MAX_QUEUE_DEPTH <? depth_of config then inl (- EINVAL, Some mgr_zero)
    else if negb (ie_calloc_ok env) then inl (- ENOMEM, Some mgr_zero)
    else if negb (ie_mutex_rc env =? 0) then inl (- ie_mutex_rc env, Some mgr_zero)
    else inr (mgr_of_config config (depth_of config)).
Proof.
  intros Hb. unfold mgr_prepare. rewrite Hb. cbn [negb].
  assert (Hd : match config with
    | Some c => if negb (uc_queue_depth c =? 0) then uc_queue_depth c else 32
    | None => 32 end = depth_of config).
  { destruct config as [c|]; [|reflexivity]. cbn. destruct (uc_queue_depth c =? 0); reflexivity. }
  rewrite Hd, Z.gtb_ltb. reflexivity.
Qed.

(** Without peers nothing is freed. *)
Lemma destroy_peers_none n h :
  destroy_peers (replicate n peer_zero) h = Some (replicate n peer_zero, h).
Proof. induction n as [|n IH]; [reflexivity|]. cbn. mstep. rewrite IH. reflexivity. Qed.

Lemma destroy_unstarted config qd backend h :
  exists m', ramdisk_urma_mgr_destroy 1 (Some (mk_world (mgr_of_config config qd) backend ∅)) h
    = Some (Some (Some (mk_world m' backend ∅)), h) /\ um_initialized m' = false.
Proof.
  unfold ramdisk_urma_mgr_destroy.
  cbn [uw_mgr mgr_of_config um_initialized um_worker_started negb]. mstep.
  change (um_peers _) with (replicate (Z.to_nat RAMDISK_URMA_MAX_PEERS) peer_zero).
  rewrite destroy_peers_none. mstep. eexists. split; reflexivity.
Qed.

(** A table without peers. *)
Lemma peers_ok_zero b h : peers_ok (replicate (Z.to_nat RAMDISK_URMA_MAX_PEERS) peer_zero) b h.
Proof.
  assert (Hno : forall i p, replicate (Z.to_nat RAMDISK_URMA_MAX_PEERS) peer_zero !! i = Some p ->
    up_active p = true -> False).
  { intros i p Hp Ha. apply lookup_replicate in Hp as [-> _]. discriminate. }
  split; [reflexivity| | |]; intros; exfalso; eauto.
Qed.

Lemma started_inv config bk b bs h :
  backend_wf bk b bs h -> heap_fresh h -> mock_of config = true ->
  0 < depth_of config <= RAMDISK_URMA_MAX_QUEUE_DEPTH ->
  urma_inv (mk_world (set_run true false (mgr_of_config config (depth_of config))) (Some bk) ∅)
    bk b bs h [].
Proof.
  intros W F Hm Hd. split; auto.
  - apply peers_ok_zero.
  - eexists. split; [reflexivity|]. apply ring_empty. exact Hd.
  - intros a Ha. apply not_elem_of_nil in Ha. destruct Ha.
  - constructor.
Qed.

(** C21.  Starting the manager.  On a well-formed disk, for every configuration and
    every outcome of the allocation, of the mutex and of thread creation, the result
    is that of the first obstacle: a queue deeper than 1024, no memory, no mutex, the
    real provider in a build without it, no thread.  A start that fails leaves the
    manager uninitialised and memory untouched; one that succeeds establishes the
    manager's invariant with an empty ring of the configured depth (32 by default),
    no peers, the path switched as configured and the worker running. *)
Theorem mgr_init_establishes env m0 bk b bs h config :
  backend_wf bk b bs h -> heap_fresh h -> config_typed config ->
  exists m', ramdisk_urma_mgr_init env (Some m0) (Some bk) config h
    = Some (init_spec env config, Some m', h) /\
  (init_spec env config <> 0 -> um_initialized m' = false) /\
  (init_spec env config = 0 ->
     urma_inv (mk_world m' (Some bk) ∅) bk b bs h [] /\ um_worker_started m' = true /\
     um_enabled m' = enabled_of config /\ um_queue_depth m' = depth_of config /\
     um_inflight m' = 0 /\ um_completed m' = 0 /\ um_failed m' = 0).
Proof.
  intros W F Hc. unfold ramdisk_urma_mgr_init, init_spec.
  rewrite (mgr_prepare_eq env m0 bk config (bw_init _ _ _ _ W)).
  pose proof (depth_pos config Hc) as Hd.
  destruct (Z.ltb_spec RAMDISK_URMA_MAX_QUEUE_DEPTH (depth_of config));
    [exists mgr_zero; split; [reflexivity|]; split; [auto|unfold EINVAL; lia]|].
  destruct (ie_calloc_ok env); cbn [negb];
    [|exists mgr_zero; split; [reflexivity|]; split; [auto|unfold ENOMEM; lia]].
  destruct (Z.eqb_spec (ie_mutex_rc env) 0); cbn [negb];
    [|exists mgr_zero; split; [reflexivity|]; split; [auto|lia]].
  destruct (destroy_unstarted config (depth_of config) (Some bk) h) as (m1 & E1 & Hm1).
  change (um_use_mock _) with (mock_of config). destruct (mock_of config) eqn:Hmk; cbn [negb].
  2: { mstep. rewrite E1. mstep. exists m1. split; [reflexivity|].
       split; [auto|unfold ENOSYS; lia]. }
  destruct (Z.eqb_spec (ie_thread_rc env) 0) as [->|Ht]; cbn [negb].
  - mstep. eexists. split; [reflexivity|]. split; [lia|]. intros _.
    split; [apply started_inv; auto|]. split_and!; reflexivity.
  - mstep. rewrite E1. mstep. exists m1. split; [reflexivity|]. split; [auto|lia].
Qed.

Lemma mgr_init_establishes_witness :
  exists m', ramdisk_urma_mgr_init (mk_init_env true 0 0) (Some mgr_zero) (Some ex_backend) None
      ex_urma_heap = Some (0, Some m', ex_urma_heap) /\
    urma_inv (mk_world m' (Some ex_backend) ∅) ex_backend 1 (replicate 1024 5) ex_urma_heap [].
Proof.
  destruct (mgr_init_establishes (mk_init_env true 0 0) mgr_zero ex_backend 1 (replicate 1024 5)
    ex_urma_heap None ex_urma_backend ex_urma_fresh I) as (m' & E & _ & H).
  exists m'. split; [exact E|]. apply H. reflexivity.
Defined.
