(* ===== verification/UrmaSys.v ===== *)
(** * Interleavings of the URMA worker and its callers

    The worker thread of ramdisk_urma.c against any number of callers, as a
    transition system whose steps are the critical sections of [UrmaMgr] and
    the worker's transfer and log line between them.  [Ub] is undefined
    behaviour.  The system remembers the order in which requests were queued
    and completed. *)

From S2P Require Import Prelude.
From S2P Require Import Mem.
From S2P Require Import Backend.
From S2P Require Import CtrlProto.
From S2P Require Import UrmaMgr.
From S2P Require Import UrmaQueue.

(** Where the worker is. *)
Inductive phase : Type :=
| PIdle
| PExec (a : Z) (slot : nat) (rc : Z)
| PComplete (a rc : Z)
| PLog (a : Z)
| PExit.

Record sys : Type := mk_sys {
  sy_w : urma_world;
  sy_h : heap;
  sy_ph : phase;
  sy_enq : list Z;
  sy_fin : list Z
}.

Inductive act : Type :=
| ASubmit (x : ramdisk_ctrl_urma_transfer) (a : Z)
| AReturn (a : Z)
| AWaitError (a e : Z)
| AEnable
| ADisable
| AConnect (calloc_ok : bool) (info : ramdisk_ctrl_peer_connect_info)
| ADisconnect (peer_id : Z)
| ADequeue
| AExecute
| AComplete
| ALog.

Inductive outcome : Type :=
| Blocked
| Ub
| Next (s : sys).

Definition of_mem {A} (m : mem A) (h : heap) (k : A -> heap -> outcome) : outcome :=
  match m h with None => Ub | Some (a, h') => k a h' end.

Definition with_mgr (w : urma_world) (m : ramdisk_urma_mgr) : urma_world :=
  mk_world m (uw_backend w) (uw_reqs w).

Definition drop_frame (w : urma_world) (a : Z) : urma_world :=
  mk_world (uw_mgr w) (uw_backend w) (delete a (uw_reqs w)).

(** One step.  A caller's frame address [a] is one that was not used before. *)
Definition step_fn (c : act) (s : sys) : outcome :=
  let w := sy_w s in
  let h := sy_h s in
  match c with
  | ASubmit x a =>
      if bool_decide (a ∈ sy_enq s) || bool_decide (is_Some (uw_reqs w !! a)) then Blocked else
      of_mem (transfer_submit w x a) h (fun r h' =>
        match r with
        | inl _ => Next (mk_sys w h' (sy_ph s) (sy_enq s) (sy_fin s))
        | inr w' => Next (mk_sys w' h' (sy_ph s) (sy_enq s ++ [a]) (sy_fin s))
        end)
  | AReturn a =>
      match uw_reqs w !! a with
      | Some r => if rq_done r
                  then Next (mk_sys (drop_frame w a) h (sy_ph s) (sy_enq s) (sy_fin s))
                  else Blocked
      | None => Blocked
      end
  | AWaitError a _ =>
      match uw_reqs w !! a with
      | Some r => if rq_done r then Blocked
                  else Next (mk_sys (drop_frame w a) h (sy_ph s) (sy_enq s) (sy_fin s))
      | None => Blocked
      end
  | AEnable =>
      match ramdisk_urma_enable (Some (uw_mgr w)) with
      | (_, Some m) => Next (mk_sys (with_mgr w m) h (sy_ph s) (sy_enq s) (sy_fin s))
      | _ => Blocked
      end
  | ADisable =>
      match ramdisk_urma_disable (Some (uw_mgr w)) with
      | (_, Some m) => Next (mk_sys (with_mgr w m) h (sy_ph s) (sy_enq s) (sy_fin s))
      | _ => Blocked
      end
  | AConnect ok info =>
      of_mem (ramdisk_urma_peer_connect ok (Some (uw_mgr w)) (Some info)) h (fun r h' =>
        match r with
        | (_, Some m) => Next (mk_sys (with_mgr w m) h' (sy_ph s) (sy_enq s) (sy_fin s))
        | _ => Blocked
        end)
  | ADisconnect id =>
      of_mem (ramdisk_urma_peer_disconnect (Some (uw_mgr w)) id) h (fun r h' =>
        match r with
        | (_, Some m) => Next (mk_sys (with_mgr w m) h' (sy_ph s) (sy_enq s) (sy_fin s))
        | _ => Blocked
        end)
  | ADequeue =>
      match sy_ph s with
      | PIdle =>
          of_mem (worker_dequeue w) h (fun d h' =>
            match d with
            | DeqWait => Blocked
            | DeqExit => Next (mk_sys w h' PExit (sy_enq s) (sy_fin s))
            | DeqJob w' a i rc => Next (mk_sys w' h' (PExec a i rc) (sy_enq s) (sy_fin s))
            end)
      | _ => Blocked
      end
  | AExecute =>
      match sy_ph s with
      | PExec a i rc =>
          of_mem (worker_execute w a i rc) h (fun r h' =>
            Next (mk_sys (snd r) h' (PComplete a (fst r)) (sy_enq s) (sy_fin s)))
      | _ => Blocked
      end
  | AComplete =>
      match sy_ph s with
      | PComplete a rc =>
          of_mem (worker_complete w a rc) h (fun w' h' =>
            Next (mk_sys w' h' (PLog a) (sy_enq s) (sy_fin s ++ [a])))
      | _ => Blocked
      end
  | ALog =>
      match sy_ph s with
      | PLog a =>
          of_mem (worker_log w a) h (fun _ h' =>
            Next (mk_sys w h' PIdle (sy_enq s) (sy_fin s)))
      | _ => Blocked
      end
  end.

(** The discipline under which the code is safe: peers are removed and the
    path disabled only while no request is queued or being executed, waiting
    does not fail, and a caller returns only after the worker has logged its
    request. *)
Definition allowed (c : act) (s : sys) : Prop :=
  match c with
  | ASubmit x _ => transfer_typed x
  | AConnect _ info => peer_info_typed info
  | ADisable | ADisconnect _ =>
      um_pending (uw_mgr (sy_w s)) = 0 /\ forall a i rc, sy_ph s <> PExec a i rc
  | AReturn a => sy_ph s <> PLog a
  | AWaitError _ _ => False
  | _ => True
  end.

Inductive reachable (s0 : sys) : sys -> Prop :=
| reach_here : reachable s0 s0
| reach_step c s s' :
    reachable s0 s -> allowed c s -> step_fn c s = Next s' -> reachable s0 s'.

(** The request the worker holds. *)
Definition current (p : phase) : list Z :=
  match p with PExec a _ _ | PComplete a _ => [a] | _ => [] end.

(** The state of the worker's request in each phase. *)
Definition phase_ok (s : sys) (bs : list Z) : Prop :=
  match sy_ph s with
  | PExec a i rc => rc = 0 /\ job_ok (sy_w s) bs a i
  | PComplete a rc => rc = 0 /\ exists r, uw_reqs (sy_w s) !! a = Some r /\ rq_done r = false
  | PLog a => exists r, uw_reqs (sy_w s) !! a = Some r /\ rq_done r = true
  | _ => True
  end.

Record sys_inv (s : sys) (bk : ramdisk_backend) (b size c0 f0 : Z) : Prop := mk_sys_inv {
  si_core : exists bs l, zlength bs = size /\ urma_inv (sy_w s) bk b bs (sy_h s) l /\
    phase_ok s bs /\ sy_enq s = sy_fin s ++ current (sy_ph s) ++ l;
  si_nodup : NoDup (sy_enq s);
  si_inflight : um_inflight (uw_mgr (sy_w s)) = zlength (current (sy_ph s));
  si_frames : forall a r, uw_reqs (sy_w s) !! a = Some r -> a ∈ sy_enq s;
  si_done : forall a r, a ∈ sy_fin s -> uw_reqs (sy_w s) !! a = Some r ->
    rq_done r = true /\ rq_status r = 0;
  si_completed : um_completed (uw_mgr (sy_w s)) = u64 (c0 + zlength (sy_fin s));
  si_failed : um_failed (uw_mgr (sy_w s)) = f0
}.

(** ** Each step keeps the invariant *)

(** What a step must do: block, or go on with the invariant. *)
Definition step_keeps (c : act) (s : sys) (bk : ramdisk_backend) (b size c0 f0 : Z) : Prop :=
  step_fn c s = Blocked \/
  exists s', step_fn c s = Next s' /\ sys_inv s' bk b size c0 f0.

Section Steps.
Context (s : sys) (bk : ramdisk_backend) (b size c0 f0 : Z) (I : sys_inv s bk b size c0 f0).

Lemma keeps_submit x a : transfer_typed x -> step_keeps (ASubmit x a) s bk b size c0 f0.
Proof.
  intros Tx. destruct I as [(bs & l & Hz & U & Ph & He) N Hi Hf Hd Hc Hfa].
  unfold step_keeps. cbn [step_fn]. destruct (bool_decide (a ∈ sy_enq s)) eqn:E1; [auto|].
  destruct (bool_decide (is_Some (uw_reqs (sy_w s) !! a))) eqn:E2; [auto|]. cbn [orb].
  apply bool_decide_eq_false in E1, E2. right.
  assert (Ha : uw_reqs (sy_w s) !! a = None) by (destruct (uw_reqs (sy_w s) !! a); eauto; destruct E2; eauto).
  pose proof (submit_ok _ _ _ _ _ _ x a U Tx Ha) as S. cbn zeta in S. unfold of_mem.
  assert (Hrefuse : forall rc, transfer_submit (sy_w s) x a (sy_h s) = Some (inl rc, sy_h s) ->
    exists s', match transfer_submit (sy_w s) x a (sy_h s) with
      | Some (r, h') => match r with
          | inl _ => Next (mk_sys (sy_w s) h' (sy_ph s) (sy_enq s) (sy_fin s))
          | inr w' => Next (mk_sys w' h' (sy_ph s) (sy_enq s ++ [a]) (sy_fin s)) end
      | None => Ub end = Next s' /\ sys_inv s' bk b size c0 f0).
  { intros rc ->. eexists. split; [reflexivity|]. destruct s; exact I. }
  destruct (negb _) in S; [eauto|]. destruct (_ <=? _) in S; [eauto|]. clear Hrefuse.
  destruct S as (q & tl & Es & U'). rewrite Es. eexists. split; [reflexivity|].
  assert (Hne : forall y, y ∈ sy_enq s -> y <> a) by (intros y Hy ->; auto).
  split; cbn [sy_w sy_h sy_ph sy_enq sy_fin uw_mgr uw_reqs um_inflight um_completed um_failed set_ring]; auto.
  - exists bs, (l ++ [a]). split; [auto|]. split; [exact U'|]. split.
    + unfold phase_ok in *. cbn [sy_ph sy_w uw_reqs uw_mgr].
      assert (Hin : forall y, current (sy_ph s) = [y] -> y <> a).
      { intros y Hy. apply Hne. rewrite He, Hy. apply elem_of_app. right. left. }
      destruct (sy_ph s) as [|y i rc|y rc|y|]; auto.
      * destruct Ph as [-> (r & p & ? & ?)]. split; auto. exists r, p. cbn [uw_reqs uw_mgr].
        rewrite lookup_insert_ne by (intros <-; eapply Hin; eauto). auto.
      * destruct Ph as [-> (r & ? & ?)]. split; auto. exists r.
        rewrite lookup_insert_ne by (intros <-; eapply Hin; eauto). auto.
      * destruct Ph as (r & Hr & ?). exists r.
        rewrite lookup_insert_ne by (intros <-; congruence). auto.
    + rewrite He, <- !app_assoc. auto.
  - apply NoDup_app. split_and!; auto; [|apply NoDup_singleton].
    intros y Hy Hy'. apply list_elem_of_singleton in Hy' as ->. auto.
  - intros y r. rewrite lookup_insert. case_decide; [intros; subst; apply elem_of_app; right; left|].
    intros Hr. apply elem_of_app. eauto.
  - intros y r Hy. rewrite lookup_insert_ne; [eauto|]. intros <-.
    apply (Hne a); auto. rewrite He. apply elem_of_app. auto.
Qed.

Lemma keeps_return a : sy_ph s <> PLog a -> step_keeps (AReturn a) s bk b size c0 f0.
Proof.
  intros Hp. destruct I as [(bs & l & Hz & U & Ph & He) N Hi Hf Hd Hc Hfa].
  unfold step_keeps. cbn [step_fn].
  destruct (uw_reqs (sy_w s) !! a) as [r|] eqn:Er; [|auto].
  destruct (rq_done r) eqn:Edn; [|auto]. right. eexists. split; [reflexivity|].
  assert (Hnot : forall y r', uw_reqs (sy_w s) !! y = Some r' -> rq_done r' = false -> y <> a)
    by (intros y r' ? ? ->; congruence).
  split; cbn [sy_w sy_h sy_ph sy_enq sy_fin drop_frame uw_mgr]; auto.
  - exists bs, l. split; [auto|]. split; [|split; [|auto]].
    + destruct U as [? ? ? ? ? ? ? Q ?]. split; auto. intros y Hy.
      destruct (Q y Hy) as (r' & i & ? & ? & ? & ?). exists r', i. cbn [drop_frame uw_reqs uw_mgr].
      rewrite lookup_delete_ne by (apply not_eq_sym; eauto). auto.
    + unfold phase_ok in *. cbn [sy_ph sy_w drop_frame uw_reqs uw_mgr].
      destruct (sy_ph s) as [|y i rc|y rc|y|]; auto.
      * destruct Ph as [-> (r' & p & ? & ? & ?)]. split; auto. exists r', p.
        cbn [drop_frame uw_reqs uw_mgr].
        rewrite lookup_delete_ne by (apply not_eq_sym; eauto). auto.
      * destruct Ph as [-> (r' & ? & ?)]. split; auto. exists r'.
        rewrite lookup_delete_ne by (apply not_eq_sym; eauto). auto.
      * destruct Ph as (r' & ? & ?). exists r'.
        rewrite lookup_delete_ne by congruence. auto.
  - intros y r' Hy. cbn in Hy. apply lookup_delete_Some in Hy as [_ Hy]. eauto.
  - intros y r' Hy Hr. cbn in Hr. apply lookup_delete_Some in Hr as [_ Hr]. eauto.
Qed.

(** Replacing the manager by one with the same counters and peers that the
    running job still sees. *)
Lemma keeps_mgr m' h' bs l :
  zlength bs = size -> urma_inv (with_mgr (sy_w s) m') bk b bs h' l ->
  phase_ok (mk_sys (with_mgr (sy_w s) m') h' (sy_ph s) (sy_enq s) (sy_fin s)) bs ->
  sy_enq s = sy_fin s ++ current (sy_ph s) ++ l ->
  um_inflight m' = um_inflight (uw_mgr (sy_w s)) ->
  um_completed m' = um_completed (uw_mgr (sy_w s)) ->
  um_failed m' = um_failed (uw_mgr (sy_w s)) ->
  sys_inv (mk_sys (with_mgr (sy_w s) m') h' (sy_ph s) (sy_enq s) (sy_fin s)) bk b size c0 f0.
Proof.
  intros Hz U Ph He E1 E2 E3. destruct I as [_ N Hi Hf Hd Hc Hfa].
  split; cbn [sy_w sy_h sy_ph sy_enq sy_fin with_mgr uw_mgr uw_reqs]; try congruence; eauto 10.
Qed.

(** The job in progress only depends on the active peers. *)
Lemma phase_ok_mgr m' h' bs :
  phase_ok s bs ->
  (forall j p, um_peers (uw_mgr (sy_w s)) !! j = Some p -> up_active p = true ->
     um_peers m' !! j = Some p) ->
  phase_ok (mk_sys (with_mgr (sy_w s) m') h' (sy_ph s) (sy_enq s) (sy_fin s)) bs.
Proof.
  intros Ph Hsub. unfold phase_ok in *. cbn [sy_ph sy_w].
  destruct (sy_ph s) as [|y i rc|y rc|y|]; auto.
  destruct Ph as [-> (r & p & E1 & E2 & E3 & E4 & E5)]. split; auto.
  exists r, p. split; [auto|]. split; [auto|]. split; [apply Hsub; auto|auto].
Qed.

Lemma keeps_enable : step_keeps AEnable s bk b size c0 f0.
Proof.
  pose proof (si_core _ _ _ _ _ _ I) as (bs & l & Hz & U & Ph & He).
  unfold step_keeps. cbn [step_fn ramdisk_urma_enable]. rewrite (ui_init _ _ _ _ _ _ U).
  cbn [negb]. right. eexists. split; [reflexivity|].
  eapply keeps_mgr; [exact Hz| |apply phase_ok_mgr; auto|exact He|reflexivity..].
  destruct U as [Ub W F Ui Um P R Q N]. split; auto. intros a Ha.
  destruct (Q a Ha) as (r & i & ? & ? & Ht & Hv). exists r, i. split_and!; auto.
  eapply (validate_xfer_ext (uw_mgr (sy_w s))); eauto.
Qed.

Lemma keeps_disable :
  um_pending (uw_mgr (sy_w s)) = 0 -> step_keeps ADisable s bk b size c0 f0.
Proof.
  intros Hp. pose proof (si_core _ _ _ _ _ _ I) as (bs & l & Hz & U & Ph & He).
  unfold step_keeps. cbn [step_fn ramdisk_urma_disable]. rewrite (ui_init _ _ _ _ _ _ U).
  cbn [negb]. right. eexists. split; [reflexivity|].
  eapply keeps_mgr; [exact Hz| |apply phase_ok_mgr; auto|exact He|reflexivity..].
  destruct U as [Ub W F Ui Um P R Q N]. split; auto. intros a Ha. exfalso.
  destruct R as (q & _ & R). pose proof (ro_pending _ _ _ _ _ _ R) as Hl.
  destruct l; [apply not_elem_of_nil in Ha; auto|]. unfold zlength in Hl. cbn in Hl. lia.
Qed.

Lemma keeps_connect ok info :
  peer_info_typed info -> step_keeps (AConnect ok info) s bk b size c0 f0.
Proof.
  intros T. pose proof (si_core _ _ _ _ _ _ I) as (bs & l & Hz & U & Ph & He).
  destruct (peer_connect_full _ _ _ _ _ _ ok info U T)
    as (rc & m' & h' & E & _ & U' & (C1 & C2 & C3 & _) & Hk & _).
  right. cbn [step_fn]. unfold of_mem. rewrite E. eexists. split; [reflexivity|].
  eapply keeps_mgr; [exact Hz|exact U'|apply phase_ok_mgr; auto|exact He|auto..].
Qed.

Lemma no_job_phase m' h' bs :
  phase_ok s bs -> (forall a i rc, sy_ph s <> PExec a i rc) ->
  phase_ok (mk_sys (with_mgr (sy_w s) m') h' (sy_ph s) (sy_enq s) (sy_fin s)) bs.
Proof.
  intros Ph Hn. unfold phase_ok in *. cbn [sy_ph sy_w].
  destruct (sy_ph s) as [|y i rc|y rc|y|]; auto. destruct (Hn y i rc). auto.
Qed.

Lemma pending_zero bs l :
  urma_inv (sy_w s) bk b bs (sy_h s) l -> um_pending (uw_mgr (sy_w s)) = 0 -> l = [].
Proof.
  intros U Hp. destruct (ui_ring _ _ _ _ _ _ U) as (q & _ & R).
  pose proof (ro_pending _ _ _ _ _ _ R) as Hl. destruct l; [auto|].
  unfold zlength in Hl. cbn in Hl. lia.
Qed.

Lemma keeps_disconnect id :
  um_pending (uw_mgr (sy_w s)) = 0 -> (forall a i rc, sy_ph s <> PExec a i rc) ->
  step_keeps (ADisconnect id) s bk b size c0 f0.
Proof.
  intros Hp Hn. pose proof (si_core _ _ _ _ _ _ I) as (bs & l & Hz & U & Ph & He).
  assert (l = []) as -> by (eapply pending_zero; eauto).
  right. cbn [step_fn]. unfold of_mem.
  destruct (peer_disconnect_full _ _ _ _ _ id U) as (H1 & H2 & H3).
  assert (Hsame : sys_inv (mk_sys (with_mgr (sy_w s) (uw_mgr (sy_w s))) (sy_h s) (sy_ph s)
                    (sy_enq s) (sy_fin s)) bk b size c0 f0)
    by (destruct s as [[] ? ? ? ?]; exact I).
  destruct (Z.eq_dec id 0) as [E0|E0]; [rewrite (H1 E0); eauto|].
  destruct (peer_lookup (um_peers (uw_mgr (sy_w s))) id) as [p|] eqn:El;
    [|rewrite (H2 E0 eq_refl); eauto].
  destruct (H3 p eq_refl) as (m' & hb & hbs & _ & E & _ & (C1 & C2 & C3 & _) & U').
  rewrite E. eexists. split; [reflexivity|].
  eapply keeps_mgr; [exact Hz|exact U'|apply no_job_phase; auto|exact He|auto..].
Qed.

Lemma keeps_dequeue : step_keeps ADequeue s bk b size c0 f0.
Proof.
  destruct I as [(bs & l & Hz & U & Ph & He) N Hi Hf Hd Hc Hfa].
  unfold step_keeps. cbn [step_fn]. destruct (sy_ph s) eqn:Ep; auto.
  cbn [current app] in *. unfold of_mem. destruct l as [|a l].
  - destruct (ui_ring _ _ _ _ _ _ U) as (q & _ & R). pose proof (ro_pending _ _ _ _ _ _ R) as Hl.
    unfold worker_dequeue. rewrite Hl. cbn. destruct (um_stopping _); [right|left; reflexivity].
    eexists. split; [reflexivity|]. split; cbn [sy_w sy_h sy_ph sy_enq sy_fin current]; auto.
    exists bs, []. split_and!; auto; try exact Logic.I.
  - right. destruct (dequeue_ok _ _ _ _ _ _ _ U) as (req & p & i & q & hd & Hr & Hp & E & U' & J & _);
      [rewrite Hi; unfold is_u32, zlength; cbn; lia|].
    rewrite E. eexists. split; [reflexivity|]. cbn zeta in U', J.
    assert (Ha : a ∉ sy_fin s).
    { rewrite He in N. apply NoDup_app in N as (_ & Hn & _). intros Hin.
      apply (Hn a Hin). left. }
    split; cbn [sy_w sy_h sy_ph sy_enq sy_fin current]; auto.
    + exists bs, l. split; [auto|]. split; [exact U'|]. split; [split; auto|exact He].
    + cbn. rewrite Hi. reflexivity.
    + intros y r. cbn. rewrite lookup_insert. case_decide; [|eauto].
      intros _. subst. rewrite He. apply elem_of_app. right. left.
    + intros y r Hy. cbn. rewrite lookup_insert_ne by (intros <-; auto). eauto.
Qed.

Lemma keeps_execute : step_keeps AExecute s bk b size c0 f0.
Proof.
  destruct I as [(bs & l & Hz & U & Ph & He) N Hi Hf Hd Hc Hfa].
  unfold step_keeps. cbn [step_fn]. unfold phase_ok in Ph. destruct (sy_ph s) eqn:Ep; auto.
  destruct Ph as [-> J]. right.
  destruct (execute_ok _ _ _ _ _ _ _ _ U J) as (req & p & hb & hbs & Hr & Hp & M & E & U' & Hz').
  cbn zeta in *. unfold of_mem. rewrite E. eexists. split; [reflexivity|].
  split; cbn [sy_w sy_h sy_ph sy_enq sy_fin current fst snd] in *; auto.
  eexists _, l. split; [|split; [exact U'|split; [|exact He]]]; [congruence|].
  split; [reflexivity|]. destruct J as (r & ? & ? & ? & _). eauto.
Qed.

Lemma keeps_complete : step_keeps AComplete s bk b size c0 f0.
Proof.
  destruct I as [(bs & l & Hz & U & Ph & He) N Hi Hf Hd Hc Hfa].
  unfold step_keeps. cbn [step_fn]. unfold phase_ok in Ph.
  destruct (sy_ph s) as [| |a rc| |] eqn:Ep; auto.
  destruct Ph as [-> (req & Hr & Hdn)]. right. cbn [current app] in He.
  assert (Na : (a ∉ l) /\ (a ∉ sy_fin s)).
  { rewrite He in N. apply NoDup_app in N as (_ & Hn & N2). apply NoDup_cons in N2 as [? _].
    split; auto. intros Hin. apply (Hn a Hin). left. }
  unfold of_mem, worker_complete. rewrite Hr. mstep. eexists. split; [reflexivity|].
  split; cbn [sy_w sy_h sy_ph sy_enq sy_fin current uw_mgr uw_reqs um_inflight um_completed
              um_failed set_counts Z.eqb]; auto.
  - exists bs, l. split; [auto|]. split; [|split].
    + destruct U as [? ? ? ? ? ? ? Q ?]. split; auto. intros y Hy.
      destruct (Q y Hy) as (r & i & ? & ? & ? & ?). exists r, i. cbn [uw_reqs uw_mgr].
      rewrite lookup_insert_ne by (intros <-; tauto). auto.
    + unfold phase_ok. cbn [sy_ph sy_w uw_reqs]. eexists. rewrite lookup_insert_eq. split; reflexivity.
    + rewrite He, <- app_assoc. auto.
  - rewrite Hi. reflexivity.
  - intros y r. rewrite lookup_insert. case_decide; [|eauto].
    intros _. subst. rewrite He. apply elem_of_app. right. left.
  - intros y r Hy. rewrite lookup_insert. case_decide as Hya.
    + intros [= <-]. auto.
    + intros Hyr. apply elem_of_app in Hy as [Hy|Hy]; [eauto|].
      apply list_elem_of_singleton in Hy. congruence.
  - rewrite Hc. unfold zlength. rewrite length_app. cbn [length].
    unfold u64, wrap. rewrite Zplus_mod_idemp_l. f_equal. lia.
Qed.

Lemma keeps_log : step_keeps ALog s bk b size c0 f0.
Proof.
  destruct I as [(bs & l & Hz & U & Ph & He) N Hi Hf Hd Hc Hfa].
  unfold step_keeps. cbn [step_fn]. unfold phase_ok in Ph.
  destruct (sy_ph s) as [| | |a|] eqn:Ep; auto.
  destruct Ph as (req & Hr & _). right. unfold of_mem, worker_log. rewrite Hr. mstep.
  eexists. split; [reflexivity|]. split; cbn [sy_w sy_h sy_ph sy_enq sy_fin current]; auto.
  exists bs, l. split_and!; auto. exact Logic.I.
Qed.

Lemma keeps_all c : allowed c s -> step_keeps c s bk b size c0 f0.
Proof.
  destruct c; cbn [allowed]; intros Ha;
    [apply keeps_submit|apply keeps_return|destruct Ha|apply keeps_enable|apply keeps_disable
    |apply keeps_connect|apply keeps_disconnect|apply keeps_dequeue|apply keeps_execute
    |apply keeps_complete|apply keeps_log]; tauto.
Qed.

End Steps.

(** C6: safety of every interleaving.  From any state that satisfies the
    invariant, whatever the order in which callers submit, return, connect and
    configure and the worker runs, as long as the discipline [allowed] is kept:
    no step has undefined behaviour, the ring holds exactly the requests queued
    and not yet taken, requests complete in the order they were queued and each
    at most once, every completed request reports success to its caller, and
    the counters and the disk size are right. *)
Theorem urma_interleavings_safe s0 s bk b size c0 f0 :
  sys_inv s0 bk b size c0 f0 -> reachable s0 s ->
  sys_inv s bk b size c0 f0 /\ sy_fin s `prefix_of` sy_enq s /\
  (forall c, allowed c s -> step_fn c s <> Ub).
Proof.
  intros I0 R. assert (I : sys_inv s bk b size c0 f0).
  { induction R as [|c s s' _ IH Ha E]; [auto|].
    destruct (keeps_all s bk b size c0 f0 IH c Ha) as [E'|(s2 & E' & I2)]; congruence. }
  split; [exact I|]. split.
  { destruct (si_core _ _ _ _ _ _ I) as (bs & l & _ & _ & _ & ->). apply prefix_app_r. auto. }
  intros c Ha E. destruct (keeps_all s bk b size c0 f0 I c Ha) as [E'|(s2 & E' & _)]; congruence.
Qed.

(** ** Progress *)

Fixpoint run_acts (cs : list act) (s : sys) : outcome :=
  match cs with
  | [] => Next s
  | c :: cs' => match step_fn c s with Next s' => run_acts cs' s' | o => o end
  end.

Section Progress.
Context (s : sys) (bk : ramdisk_backend) (b size c0 f0 : Z) (I : sys_inv s bk b size c0 f0).

(** The worker's step [c] is enabled and leads to a state with this phase and
    completion history. *)
Definition steps_to (c : act) (ok : phase -> Prop) (fin : list Z) : Prop :=
  exists s', step_fn c s = Next s' /\ sys_inv s' bk b size c0 f0 /\ ok (sy_ph s') /\
    sy_fin s' = fin /\ sy_enq s' = sy_enq s.

Lemma dequeue_next a l :
  sy_ph s = PIdle -> sy_enq s = sy_fin s ++ a :: l ->
  steps_to ADequeue (fun ph => exists i rc, ph = PExec a i rc) (sy_fin s).
Proof.
  intros Hp He. pose proof (si_core _ _ _ _ _ _ I) as (bs & l' & Hz & U & Ph & He').
  rewrite Hp in He'. cbn in He'. rewrite He' in He. apply app_inv_head in He as ->.
  destruct (dequeue_ok _ _ _ _ _ _ _ U) as (req & p & i & q & hd & _ & _ & E & _);
    [rewrite (si_inflight _ _ _ _ _ _ I), Hp; unfold is_u32, zlength; cbn; lia|].
  destruct (keeps_dequeue s _ _ _ _ _ I) as [E1|(s1 & E1 & I1)]; unfold steps_to;
    cbn [step_fn] in *; rewrite Hp in *; unfold of_mem in *; rewrite E in *; [discriminate|].
  injection E1 as <-. eexists. split; [reflexivity|]. cbn [sy_ph sy_fin sy_enq]. eauto 10.
Qed.

Lemma execute_next a i rc :
  sy_ph s = PExec a i rc ->
  steps_to AExecute (fun ph => exists rc', ph = PComplete a rc') (sy_fin s).
Proof.
  intros Hp. destruct (keeps_execute s _ _ _ _ _ I) as [E1|(s1 & E1 & I1)]; unfold steps_to;
    cbn [step_fn] in *; rewrite Hp in *; unfold of_mem in *;
    destruct (worker_execute _ _ _ _ _) as [[? ?]|]; try discriminate.
  injection E1 as <-. eexists. split; [reflexivity|]. cbn [sy_ph sy_fin sy_enq]. eauto 10.
Qed.

Lemma complete_next a rc :
  sy_ph s = PComplete a rc -> steps_to AComplete (fun ph => ph = PLog a) (sy_fin s ++ [a]).
Proof.
  intros Hp. destruct (keeps_complete s _ _ _ _ _ I) as [E1|(s1 & E1 & I1)]; unfold steps_to;
    cbn [step_fn] in *; rewrite Hp in *; unfold of_mem in *;
    destruct (worker_complete _ _ _ _) as [[? ?]|]; try discriminate.
  injection E1 as <-. eexists. split; [reflexivity|]. auto.
Qed.

(** After the log line the request is still there, done with status 0. *)
Lemma log_next a :
  sy_ph s = PLog a -> a ∈ sy_fin s ->
  exists s' r, step_fn ALog s = Next s' /\ sys_inv s' bk b size c0 f0 /\ sy_ph s' = PIdle /\
    sy_fin s' = sy_fin s /\ sy_enq s' = sy_enq s /\
    uw_reqs (sy_w s') !! a = Some r /\ rq_done r = true /\ rq_status r = 0.
Proof.
  intros Hp Ha. pose proof (si_core _ _ _ _ _ _ I) as (bs & l & _ & _ & Ph & _).
  unfold phase_ok in Ph. rewrite Hp in Ph. destruct Ph as (r & Hr & Hd).
  destruct (keeps_log s _ _ _ _ _ I) as [E1|(s1 & E1 & I1)];
    cbn [step_fn] in *; rewrite Hp in *; unfold of_mem, worker_log in *; rewrite Hr in *;
    [discriminate|].
  injection E1 as <-. eexists _, r. split; [reflexivity|]. cbn [sy_ph sy_fin sy_enq sy_w].
  split_and!; auto. apply (si_done _ _ _ _ _ _ I a); auto.
Qed.

End Progress.

(** C26: the worker makes progress.  Whenever it is idle and a request is
    queued, its next four steps are enabled: it takes the oldest request,
    executes it, reports success to the caller still waiting for it, and is
    idle again with the rest of the queue. *)
Theorem worker_progress s bk b size c0 f0 a l :
  sys_inv s bk b size c0 f0 -> sy_ph s = PIdle -> sy_enq s = sy_fin s ++ a :: l ->
  exists s' r, run_acts [ADequeue; AExecute; AComplete; ALog] s = Next s' /\
    sys_inv s' bk b size c0 f0 /\ sy_ph s' = PIdle /\ sy_fin s' = sy_fin s ++ [a] /\
    sy_enq s' = sy_enq s /\ uw_reqs (sy_w s') !! a = Some r /\ rq_done r = true /\ rq_status r = 0.
Proof.
  intros I Hp He. cbn [run_acts].
  destruct (dequeue_next s bk b size c0 f0 I a l Hp He) as (s1 & -> & I1 & (i & rc & P1) & F1 & E1).
  destruct (execute_next s1 bk b size c0 f0 I1 a i rc P1) as (s2 & -> & I2 & (rc' & P2) & F2 & E2).
  destruct (complete_next s2 bk b size c0 f0 I2 a rc' P2) as (s3 & -> & I3 & P3 & F3 & E3).
  destruct (log_next s3 bk b size c0 f0 I3 a P3) as (s4 & r & -> & I4 & P4 & F4 & E4 & H);
    [rewrite F3; apply elem_of_app; right; left|].
  exists s4, r. split; [reflexivity|]. split; [exact I4|]. split; [exact P4|].
  split; [congruence|]. split; [congruence|exact H].
Qed.

(** ** What happens outside the discipline *)

(** C38: disabling the path while a request is queued is undefined behaviour.
    The worker validates the request again, which now fails and leaves its
    local [peer] uninitialised, and then reads [peer->seg_va] all the same. *)
Theorem disable_race_undefined s bk b size c0 f0 :
  sys_inv s bk b size c0 f0 -> sy_ph s = PIdle -> um_pending (uw_mgr (sy_w s)) <> 0 ->
  run_acts [ADisable; ADequeue] s = Ub.
Proof.
  intros I Hp Hn. pose proof (si_core _ _ _ _ _ _ I) as (bs & l & Hz & U & Ph & He).
  destruct U as [Ub W F Ui Um P (q & Hq & R) Q N].
  pose proof (ro_pending _ _ _ _ _ _ R) as Hpe. pose proof (ro_depth _ _ _ _ _ _ R) as Hd.
  destruct l as [|a l]; [unfold zlength in Hpe; cbn in Hpe; contradiction|].
  pose proof (ring_dequeue _ _ _ _ _ _ _ R) as [Hs _].
  destruct (Q a) as (req & i & Hr & _); [left|].
  cbn [run_acts step_fn ramdisk_urma_disable]. rewrite Ui. cbn [negb sy_ph sy_w sy_h]. rewrite Hp.
  unfold of_mem, worker_dequeue. cbn [uw_mgr with_mgr um_pending um_queue um_head set_enabled
    um_queue_depth uw_reqs um_tail um_inflight].
  destruct (Z.eqb_spec (um_pending (uw_mgr (sy_w s))) 0); [contradiction|].
  rewrite Hq, Hs. mstep. unfold umod. destruct (Z.eqb_spec (um_queue_depth (uw_mgr (sy_w s))) 0);
    [lia|]. mstep. rewrite Hr. mstep. reflexivity.
Qed.

(** A caller whose wait fails leaves a dangling pointer in the ring.  When
    [pthread_cond_timedwait] returns an error, the function returns while its
    stack request is still queued; the worker then reads it. *)
Theorem wait_error_undefined s bk b size c0 f0 a l e :
  sys_inv s bk b size c0 f0 -> sy_ph s = PIdle -> sy_enq s = sy_fin s ++ a :: l ->
  run_acts [AWaitError a e; ADequeue] s = Ub.
Proof.
  intros I Hp He. pose proof (si_core _ _ _ _ _ _ I) as (bs & l' & Hz & U & Ph & He').
  rewrite Hp in He'. cbn in He'. rewrite He' in He. apply app_inv_head in He as ->.
  destruct U as [Ub W F Ui Um P (q & Hq & R) Q N].
  pose proof (ro_pending _ _ _ _ _ _ R) as Hpe. pose proof (ro_depth _ _ _ _ _ _ R) as Hd.
  pose proof (ring_dequeue _ _ _ _ _ _ _ R) as [Hs _].
  destruct (Q a) as (req & i & Hr & Hdn & _); [left|].
  cbn [run_acts step_fn]. rewrite Hr, Hdn. cbn [sy_ph sy_w sy_h]. rewrite Hp.
  unfold of_mem, worker_dequeue. cbn [drop_frame uw_mgr uw_reqs].
  destruct (Z.eqb_spec (um_pending (uw_mgr (sy_w s))) 0).
  { unfold zlength in Hpe. cbn in Hpe. lia. }
  rewrite Hq, Hs. mstep. unfold umod. destruct (Z.eqb_spec (um_queue_depth (uw_mgr (sy_w s))) 0);
    [lia|]. mstep. rewrite lookup_delete_eq. reflexivity.
Qed.

(** the worker's log line races with the caller.  Between the completion
    and the log line the caller may see [done] and return; the log line then
    reads a request that no longer exists. *)
Theorem log_race_undefined s bk b size c0 f0 a :
  sys_inv s bk b size c0 f0 -> sy_ph s = PLog a ->
  run_acts [AReturn a; ALog] s = Ub.
Proof.
  intros I Hp. pose proof (si_core _ _ _ _ _ _ I) as (bs & l & _ & _ & Ph & _).
  unfold phase_ok in Ph. rewrite Hp in Ph. destruct Ph as (r & Hr & Hd).
  cbn [run_acts step_fn]. rewrite Hr, Hd. cbn [sy_ph sy_w sy_h]. rewrite Hp.
  unfold of_mem, worker_log. cbn [drop_frame uw_reqs]. rewrite lookup_delete_eq. reflexivity.
Qed.

(** ** A concrete system *)

Definition ex_sys : sys := mk_sys ex_world ex_urma_heap PIdle [] [].

Lemma ex_sys_inv : sys_inv ex_sys ex_backend 1 1024 0 0.
Proof.
  split; try reflexivity.
  - exists (replicate 1024 5), []. split; [reflexivity|]. split; [exact ex_urma_inv|].
    split; [exact Logic.I|reflexivity].
  - constructor.
  - intros a r Hr. cbn in Hr. rewrite lookup_empty in Hr. discriminate.
  - intros a r Ha. apply not_elem_of_nil in Ha. destruct Ha.
Qed.

Definition ex_sys_q : sys :=
  match step_fn (ASubmit ex_xfer 50) ex_sys with Next s => s | _ => ex_sys end.

Lemma ex_sys_q_inv : sys_inv ex_sys_q ex_backend 1 1024 0 0.
Proof.
  destruct (keeps_submit ex_sys ex_backend 1 1024 0 0 ex_sys_inv ex_xfer 50 ex_xfer_typed)
    as [E|(s' & E & I)].
  - exfalso. revert E. vm_compute. discriminate.
  - unfold ex_sys_q. rewrite E. exact I.
Qed.

Lemma urma_interleavings_safe_witness :
  sys_inv ex_sys_q ex_backend 1 1024 0 0 /\ step_fn ADequeue ex_sys_q <> Ub.
Proof.
  destruct (urma_interleavings_safe ex_sys ex_sys_q ex_backend 1 1024 0 0 ex_sys_inv)
    as (I & _ & H).
  - apply (reach_step ex_sys (ASubmit ex_xfer 50) ex_sys ex_sys_q (reach_here ex_sys) ex_xfer_typed).
    vm_compute. reflexivity.
  - split; [exact I|]. apply H. exact Logic.I.
Defined.

Lemma worker_progress_witness :
  exists s' r, run_acts [ADequeue; AExecute; AComplete; ALog] ex_sys_q = Next s' /\
    uw_reqs (sy_w s') !! 50 = Some r /\ rq_done r = true.
Proof.
  destruct (worker_progress ex_sys_q ex_backend 1 1024 0 0 50 [] ex_sys_q_inv)
    as (s' & r & E & _ & _ & _ & _ & Hr & Hd & _); [vm_compute; reflexivity|vm_compute; reflexivity|].
  exists s', r. auto.
Defined.

Lemma disable_race_undefined_witness : run_acts [ADisable; ADequeue] ex_sys_q = Ub.
Proof.
  apply (disable_race_undefined ex_sys_q ex_backend 1 1024 0 0 ex_sys_q_inv);
    vm_compute; [reflexivity|discriminate].
Defined.

Lemma wait_error_undefined_witness : run_acts [AWaitError 50 EINVAL; ADequeue] ex_sys_q = Ub.
Proof.
  apply (wait_error_undefined ex_sys_q ex_backend 1 1024 0 0 50 [] EINVAL ex_sys_q_inv);
    vm_compute; reflexivity.
Defined.

Definition ex_sys_log : sys :=
  match run_acts [ADequeue; AExecute; AComplete] ex_sys_q with Next s => s | _ => ex_sys end.

Lemma ex_sys_log_inv :
  sys_inv ex_sys_log ex_backend 1 1024 0 0 /\ sy_ph ex_sys_log = PLog 50.
Proof.
  unfold ex_sys_log. cbn [run_acts].
  destruct (dequeue_next _ _ _ _ _ _ ex_sys_q_inv 50 []) as (s1 & -> & I1 & (i & rc & P1) & _ & _);
    [vm_compute; reflexivity|vm_compute; reflexivity|].
  destruct (execute_next s1 _ _ _ _ _ I1 50 i rc P1) as (s2 & -> & I2 & (rc' & P2) & _ & _).
  destruct (complete_next s2 _ _ _ _ _ I2 50 rc' P2) as (s3 & -> & I3 & P3 & _ & _). auto.
Qed.

Lemma log_race_undefined_witness : run_acts [AReturn 50; ALog] ex_sys_log = Ub.
Proof.
  apply (log_race_undefined ex_sys_log ex_backend 1 1024 0 0 50 (proj1 ex_sys_log_inv)).
  exact (proj2 ex_sys_log_inv).
Defined.
