(* ===== verification/CtrlServer.v ===== *)
(** * The control server (userspace-nbd/src/ramdisk_ctrl_server.c)

    Requests on the control socket: decoding, dispatch to the URMA manager and
    the backend, responses, the loop over one client, and the start and stop of
    the listening socket and its thread. *)

From S2P Require Import Prelude.
From S2P Require Import Mem.
From S2P Require Import Bytes.
From S2P Require Import SockIO.
From S2P Require Import Backend.
From S2P Require Import CtrlProto.
From S2P Require Import UrmaMgr.
From S2P Require Import UrmaQueue.

(** ** Requests *)

Definition send_response (req : option ramdisk_ctrl_hdr) (status : Z) (payload : list Z)
    (payload_len : Z) (s : sock) : option (Z * sock) :=
  let resp := mk_resp
    (mk_hdr RAMDISK_CTRL_MAGIC RAMDISK_CTRL_VERSION
       (match req with Some h => ch_opcode h | None => 0 end)
       (u32 (resp_size - hdr_size + payload_len)) 0
       (match req with Some h => ch_request_id h | None => 0 end))
    status payload_len in
  '(rc, s) ← write_full (resp_to_bytes resp) s;
  if rc <? 0 then Some (rc, s) else
  if negb (payload_len =? 0) then write_full (take (Z.to_nat payload_len) payload) s
  else Some (0, s).

(** What the environment supplies to one request: the allocator's answer, the
    stack frame of a transfer, and what happens while a transfer waits. *)
Record ctrl_env : Type := mk_ctrl_env {
  cv_calloc_ok : bool;
  cv_frame : Z;
  cv_waits : list ((urma_world -> mem urma_world) * Z)
}.

(** Result, manager and socket; [None] while a transfer still waits. *)
Definition ctrl_ret : Type := option (Z * urma_world * sock).

(** Answer without a payload. *)
Definition answer (hdr : ramdisk_ctrl_hdr) (rc : Z) (w : urma_world) (s : sock) : mem ctrl_ret :=
  '(n, s) ← lift (send_response (Some hdr) rc [] 0 s); mret (Some (n, w, s)).

Definition put_mgr (w : urma_world) (m : option ramdisk_urma_mgr) : urma_world :=
  match m with Some m => mk_world m (uw_backend w) (uw_reqs w) | None => w end.

Definition handle_request (env : ctrl_env) (w : urma_world) (s : sock)
    (hdr : ramdisk_ctrl_hdr) (payload : list Z) : mem ctrl_ret :=
  let op := ch_opcode hdr in
  if op =? RAMDISK_CTRL_QUERY_STATUS then
    let status := mk_status (ramdisk_backend_size (uw_backend w))
                    (ramdisk_backend_block_size (uw_backend w)) 0 0 0 0 0 0 0 in
    let status := ramdisk_urma_fill_status (Some (uw_mgr w)) status in
    '(n, s) ← lift (send_response (Some hdr) 0 (status_to_bytes status) status_size s);
    mret (Some (n, w, s))
  else if op =? RAMDISK_CTRL_URMA_ENABLE then
    let '(rc, m) := ramdisk_urma_enable (Some (uw_mgr w)) in answer hdr rc (put_mgr w m) s
  else if op =? RAMDISK_CTRL_URMA_DISABLE then
    let '(rc, m) := ramdisk_urma_disable (Some (uw_mgr w)) in answer hdr rc (put_mgr w m) s
  else if op =? RAMDISK_CTRL_PEER_CONNECT then
    if negb (ch_payload_len hdr =? peer_info_size) then answer hdr (- EINVAL) w s else
    '(rc, m) ← ramdisk_urma_peer_connect (cv_calloc_ok env) (Some (uw_mgr w))
                 (Some (peer_info_of_bytes payload));
    answer hdr rc (put_mgr w m) s
  else if op =? RAMDISK_CTRL_PEER_DISCONNECT then
    if negb (ch_payload_len hdr =? disconnect_size) then answer hdr (- EINVAL) w s else
    '(rc, m) ← ramdisk_urma_peer_disconnect (Some (uw_mgr w))
                 (cd_peer_id (disconnect_of_bytes payload));
    answer hdr rc (put_mgr w m) s
  else if op =? RAMDISK_CTRL_URMA_TRANSFER then
    if negb (ch_payload_len hdr =? transfer_size) then answer hdr (- EINVAL) w s else
    r ← ramdisk_urma_transfer_sync (cv_waits env) (cv_frame env) (Some w)
          (Some (transfer_of_bytes payload));
    match r with
    | None => mret None
    | Some (rc, Some w) => answer hdr rc w s
    | Some (rc, None) => answer hdr rc w s
    end
  else answer hdr (- EOPNOTSUPP) w s.

(** The received bytes over the indeterminate contents of the payload array. *)
Definition payload_of (junk d : list Z) : list Z := d ++ drop (length d) junk.

(** One iteration: [inr] leaves the loop. *)
Definition serve_request (env : ctrl_env) (junk : list Z) (w : urma_world) (s : sock)
    : mem (option ((urma_world * sock) + (urma_world * sock))) :=
  '(n, hd, s) ← lift (read_full hdr_size s);
  if n =? 0 then mret (Some (inr (w, s))) else
  if n <? 0 then mret (Some (inr (w, s))) else
  let hdr := hdr_of_bytes hd in
  if negb (ch_magic hdr =? RAMDISK_CTRL_MAGIC) || negb (ch_version hdr =? RAMDISK_CTRL_VERSION)
     || (ch_payload_len hdr >? RAMDISK_CTRL_MAX_PAYLOAD) then
    '(_, s) ← lift (send_response (Some hdr) (- EINVAL) [] 0 s); mret (Some (inr (w, s)))
  else
  '(n, d, s) ← (if negb (ch_payload_len hdr =? 0)
                then lift (read_full (ch_payload_len hdr) s)
                else mret (0, [], s));
  if negb (ch_payload_len hdr =? 0) && (n <? 0) then mret (Some (inr (w, s))) else
  r ← handle_request env w s hdr (payload_of junk d);
  match r with
  | None => mret None
  | Some (rc, w, s) => mret (Some (if rc <? 0 then inr (w, s) else inl (w, s)))
  end.

(** The loop; [None] when a transfer still waits or the fuel is used up. *)
Fixpoint serve_client (fuel : nat) (env : nat -> ctrl_env) (junk : nat -> list Z) (i : nat)
    (w : urma_world) (s : sock) : mem (option (urma_world * sock)) :=
  match fuel with
  | O => mret None
  | S fuel' =>
      r ← serve_request (env i) (junk i) w s;
      match r with
      | None => mret None
      | Some (inr p) => mret (Some p)
      | Some (inl (w, s)) => serve_client fuel' env junk (S i) w s
      end
  end.

(** ** Start and stop *)

(** The kernel objects the server owns: open descriptors, socket files and
    running threads. *)
Record os_state : Type := mk_os {
  os_fds : gset Z;
  os_files : gset (list Z);
  os_threads : gset Z
}.

Record ramdisk_ctrl_server : Type := mk_server {
  sv_socket_path : list Z;
  sv_listen_fd : Z;
  sv_thread : Z;
  sv_initialized : bool;
  sv_running : bool
}.

Definition server_zero : ramdisk_ctrl_server := mk_server [] 0 0 false false.

(** What the system calls answer: [inl] a descriptor or [inr] an errno for
    [socket], an errno or 0 for the others, the new thread's identifier, and
    the value of [errno] when the function is entered. *)
Record start_env : Type := mk_start_env {
  se_socket : Z + Z;
  se_bind : Z;
  se_listen : Z;
  se_thread_rc : Z;
  se_thread : Z;
  se_errno : Z
}.

Definition SUN_PATH_SIZE : Z := 108.

(** Joining a thread that does not exist is undefined. *)
Definition ramdisk_ctrl_server_stop (server : option ramdisk_ctrl_server) (o : os_state)
    : option (option ramdisk_ctrl_server * os_state) :=
  match server with
  | None => Some (None, o)
  | Some sv =>
      if negb (sv_initialized sv) then Some (Some sv, o) else
      let o := mk_os (os_fds o ∖ {[sv_listen_fd sv]}) (os_files o) (os_threads o) in
      if bool_decide (sv_thread sv ∈ os_threads o) then
        Some (Some (mk_server (sv_socket_path sv) (sv_listen_fd sv) (sv_thread sv) false false),
              mk_os (os_fds o) (os_files o ∖ {[sv_socket_path sv]})
                (os_threads o ∖ {[sv_thread sv]}))
      else None
  end.

Definition ramdisk_ctrl_server_start (env : start_env) (server : option ramdisk_ctrl_server)
    (socket_path : option (list Z)) (has_backend has_urma : bool) (o : os_state)
    : option (Z * option ramdisk_ctrl_server * os_state) :=
  match server, socket_path with
  | Some _, Some path =>
      if negb has_backend || negb has_urma then Some (- EINVAL, server, o) else
      if zlength path >=? 256 then Some (- ENAMETOOLONG, Some server_zero, o) else
      match se_socket env with
      | inr e => Some (- e, Some (mk_server path (- 1) 0 false false), o)
      | inl fd =>
          let o1 := mk_os (os_fds o ∪ {[fd]}) (os_files o) (os_threads o) in
          let sv := mk_server path fd 0 false false in
          if zlength path >=? SUN_PATH_SIZE then Some (- se_errno env, Some sv, o1) else
          let o2 := mk_os (os_fds o1) (os_files o1 ∖ {[path]}) (os_threads o1) in
          if negb (se_bind env =? 0) then
            Some (- se_bind env, Some sv,
                  mk_os (os_fds o2 ∖ {[fd]}) (os_files o2) (os_threads o2))
          else
          let o3 := mk_os (os_fds o2) (os_files o2 ∪ {[path]}) (os_threads o2) in
          if negb (se_listen env =? 0) then
            Some (- se_listen env, Some sv,
                  mk_os (os_fds o3 ∖ {[fd]}) (os_files o3 ∖ {[path]}) (os_threads o3))
          else
          if negb (se_thread_rc env =? 0) then
            '(sv', o4) ← ramdisk_ctrl_server_stop (Some (mk_server path fd 0 true true)) o3;
            Some (- se_thread_rc env, sv', o4)
          else
            Some (0, Some (mk_server path fd (se_thread env) true true),
                  mk_os (os_fds o3) (os_files o3) (os_threads o3 ∪ {[se_thread env]}))
      end
  | _, _ => Some (- EINVAL, server, o)
  end.

(** The system calls give out new descriptors and threads, and report errors as
    positive numbers. *)
Definition start_env_ok (env : start_env) (o : os_state) : Prop :=
  (forall fd, se_socket env = inl fd -> (fd ∉ os_fds o) /\ 0 <= fd) /\
  (forall e, se_socket env = inr e -> 0 < e) /\
  0 <= se_bind env /\ 0 <= se_listen env /\ 0 <= se_thread_rc env /\
  se_thread env ∉ os_threads o.

Lemma set_add_del `{Countable A} (x : A) (X : gset A) : x ∉ X -> (X ∪ {[x]}) ∖ {[x]} = X.
Proof. set_solver. Qed.

Lemma set_del_fresh `{Countable A} (x : A) (X : gset A) : x ∉ X -> X ∖ {[x]} = X.
Proof. set_solver. Qed.

Lemma set_added `{Countable A} (x : A) (X : gset A) : x ∈ X ∪ {[x]}.
Proof. set_solver. Qed.

(** What a start does: everything, or nothing and an error. *)
Lemma ctrl_start_shape env sv path o :
  start_env_ok env o -> zlength path < SUN_PATH_SIZE -> path ∉ os_files o ->
  se_thread_rc env = 0 ->
  (exists rc sv', ramdisk_ctrl_server_start env (Some sv) (Some path) true true o
     = Some (rc, Some sv', o) /\ rc < 0 /\ sv_initialized sv' = false) \/
  (exists fd, se_socket env = inl fd /\
     ramdisk_ctrl_server_start env (Some sv) (Some path) true true o
     = Some (0, Some (mk_server path fd (se_thread env) true true),
             mk_os (os_fds o ∪ {[fd]}) (os_files o ∪ {[path]}) (os_threads o ∪ {[se_thread env]}))).
Proof.
  intros (E1 & E2 & E3 & E4 & _ & E6) Hp Hf Ht. unfold ramdisk_ctrl_server_start, SUN_PATH_SIZE in *.
  cbn [negb orb]. destruct (zlength path >=? 256) eqn:L1; [lia|].
  destruct (se_socket env) as [fd|e] eqn:Es.
  2: { left. pose proof (E2 e eq_refl). eexists _, _. split; [reflexivity|]. split; [lia|auto]. }
  destruct (E1 fd eq_refl) as [Hfd Hfd0].
  destruct (zlength path >=? 108) eqn:L2; [lia|]. cbn [os_fds os_files os_threads].
  pose proof (set_add_del fd _ Hfd) as S1. pose proof (set_add_del path _ Hf) as S3.
  rewrite (set_del_fresh path _ Hf). destruct (Z.eqb_spec (se_bind env) 0) as [_|Hb]; cbn [negb].
  2: { left. eexists _, _. rewrite S1. destruct o. split; [reflexivity|]. split; [lia|auto]. }
  destruct (Z.eqb_spec (se_listen env) 0) as [_|Hl]; cbn [negb].
  2: { left. eexists _, _. rewrite S1, S3. destruct o. split; [reflexivity|]. split; [lia|auto]. }
  rewrite Ht. cbn [Z.eqb negb]. right. exists fd. auto.
Qed.

(** What the start leaves of the kernel objects besides the server's own: a
    descriptor is lost when the path does not fit a socket address, and a file at
    the path is removed once it does. *)
Definition start_base (env : start_env) (path : list Z) (o : os_state) : os_state :=
  if zlength path >=? 256 then o else
  match se_socket env with
  | inr _ => o
  | inl fd =>
      if zlength path >=? SUN_PATH_SIZE
      then mk_os (os_fds o ∪ {[fd]}) (os_files o) (os_threads o)
      else mk_os (os_fds o) (os_files o ∖ {[path]}) (os_threads o)
  end.

(** Every path, when the thread can be created: no server, and success reported
    only for a path too long for an address; or a running server. *)
Lemma ctrl_start_cases env sv path o :
  start_env_ok env o -> 0 <= se_errno env -> se_thread_rc env = 0 ->
  (exists rc sv', ramdisk_ctrl_server_start env (Some sv) (Some path) true true o
     = Some (rc, Some sv', start_base env path o) /\ rc <= 0 /\
     sv_initialized sv' = false /\ sv_running sv' = false /\
     (rc = 0 -> exists fd, se_socket env = inl fd /\ SUN_PATH_SIZE <= zlength path < 256)) \/
  (exists fd, se_socket env = inl fd /\ zlength path < SUN_PATH_SIZE /\
     ramdisk_ctrl_server_start env (Some sv) (Some path) true true o
     = Some (0, Some (mk_server path fd (se_thread env) true true),
             mk_os (os_fds o ∪ {[fd]}) (os_files o ∖ {[path]} ∪ {[path]})
               (os_threads o ∪ {[se_thread env]}))).
Proof.
  intros (E1 & E2 & E3 & E4 & _ & E6) Ee Ht. unfold ramdisk_ctrl_server_start, start_base.
  unfold SUN_PATH_SIZE, ENAMETOOLONG in *. cbn [negb orb]. destruct (zlength path >=? 256) eqn:L1.
  { left. eexists _, _. split; [reflexivity|]. split_and!; auto; lia. }
  destruct (se_socket env) as [fd|e] eqn:Es.
  2: { left. pose proof (E2 e eq_refl). eexists _, _. split; [reflexivity|]. split_and!; auto; lia. }
  destruct (E1 fd eq_refl) as [Hfd Hfd0]. destruct (zlength path >=? 108) eqn:L2.
  { left. eexists _, _. split; [reflexivity|]. split_and!; auto; [lia|]. intros _. exists fd.
    split; [auto|lia]. }
  cbn [os_fds os_files os_threads]. pose proof (set_add_del fd _ Hfd) as S1.
  destruct (Z.eqb_spec (se_bind env) 0) as [_|Hb]; cbn [negb].
  2: { left. eexists _, _. rewrite S1. split; [reflexivity|]. split_and!; auto; lia. }
  destruct (Z.eqb_spec (se_listen env) 0) as [_|Hl]; cbn [negb].
  2: { left. eexists _, _. rewrite S1, (set_add_del path) by set_solver.
       split; [reflexivity|]. split_and!; auto; lia. }
  rewrite Ht. cbn [Z.eqb negb]. right. exists fd. split_and!; auto; lia.
Qed.

(** Stopping a running server removes exactly what it owns. *)
Lemma ctrl_stop_eq path fd t o :
  t ∈ os_threads o ->
  ramdisk_ctrl_server_stop (Some (mk_server path fd t true true)) o
  = Some (Some (mk_server path fd t false false),
          mk_os (os_fds o ∖ {[fd]}) (os_files o ∖ {[path]}) (os_threads o ∖ {[t]})).
Proof.
  intros Ht. unfold ramdisk_ctrl_server_stop. cbn [sv_initialized negb sv_thread os_threads].
  rewrite bool_decide_true by auto. reflexivity.
Qed.

(** the life of the control server.  With a path that fits a socket
    address and a thread that can be created: a successful start followed by a
    stop gives back the descriptor, the socket file and the thread, and a second
    stop does nothing; every refused start returns a negative error and leaves
    no descriptor, file or thread behind. *)
Theorem ctrl_server_start_stop env sv path o :
  start_env_ok env o -> zlength path < SUN_PATH_SIZE -> path ∉ os_files o ->
  se_thread_rc env = 0 ->
  exists rc sv' o',
    ramdisk_ctrl_server_start env (Some sv) (Some path) true true o = Some (rc, sv', o') /\
    (rc < 0 -> o' = o) /\
    (rc = 0 -> os_files o' = os_files o ∪ {[path]} /\
       exists sv2, ramdisk_ctrl_server_stop sv' o' = Some (Some sv2, o) /\
         ramdisk_ctrl_server_stop (Some sv2) o = Some (Some sv2, o)) /\
    rc <= 0.
Proof.
  intros Henv Hp Hf Ht. pose proof Henv as (E1 & _ & _ & _ & _ & E6).
  destruct (ctrl_start_shape env sv path o Henv Hp Hf Ht)
    as [(rc & sv' & E & Hrc & _)|(fd & Es & E)]; rewrite E.
  { eexists _, _, _. split; [reflexivity|]. split_and!; auto; lia. }
  eexists _, _, _. split; [reflexivity|]. split; [lia|]. split; [|lia]. intros _.
  split; [reflexivity|]. destruct (E1 fd Es) as [Hfd _].
  rewrite ctrl_stop_eq by apply set_added. cbn [os_fds os_files os_threads].
  rewrite (set_add_del _ _ Hfd), (set_add_del _ _ Hf), (set_add_del _ _ E6).
  eexists. split; [destruct o; reflexivity|reflexivity].
Qed.

Lemma ctrl_server_start_stop_witness :
  exists sv' o', ramdisk_ctrl_server_start (mk_start_env (inl 5) 0 0 0 9 0) (Some server_zero)
    (Some [47; 116]) true true (mk_os {[3]} ∅ ∅) = Some (0, sv', o') /\ os_files o' = {[ [47; 116] ]}.
Proof.
  destruct (ctrl_server_start_stop (mk_start_env (inl 5) 0 0 0 9 0) server_zero [47; 116]
    (mk_os {[3]} ∅ ∅)) as (rc & sv' & o' & E & _ & H0 & _).
  - split_and!; cbn; try lia; try set_solver; try discriminate.
    intros fd [= <-]. split; [set_solver|lia].
  - unfold SUN_PATH_SIZE, zlength; cbn; lia.
  - cbn. set_solver.
  - reflexivity.
  - assert (rc = 0) as -> by (vm_compute in E; congruence).
    destruct (H0 eq_refl) as [Hf _]. exists sv', o'. split; [exact E|]. rewrite Hf.
    vm_compute. reflexivity.
Defined.

(** A path of 108 to 255 bytes passes the server's own length test but not
    the socket address's, and start then returns [-errno] although no call has
    failed: when [errno] is 0 the caller is told that the server runs, while
    nothing listens and the descriptor is lost to [stop]. *)
Theorem ctrl_server_long_path env sv path o fd :
  SUN_PATH_SIZE <= zlength path < 256 -> se_socket env = inl fd -> se_errno env = 0 ->
  exists sv' o',
    ramdisk_ctrl_server_start env (Some sv) (Some path) true true o = Some (0, Some sv', o') /\
    sv_running sv' = false /\ sv_initialized sv' = false /\
    os_fds o' = os_fds o ∪ {[fd]} /\ os_files o' = os_files o /\ os_threads o' = os_threads o /\
    ramdisk_ctrl_server_stop (Some sv') o' = Some (Some sv', o').
Proof.
  intros Hp Es Ee. unfold ramdisk_ctrl_server_start, SUN_PATH_SIZE in *. cbn [negb orb].
  destruct (zlength path >=? 256) eqn:L1; [lia|]. rewrite Es.
  destruct (zlength path >=? 108) eqn:L2; [|lia]. rewrite Ee.
  eexists _, _. split; [reflexivity|]. auto 10.
Qed.

Lemma ctrl_server_long_path_witness :
  exists sv' o', ramdisk_ctrl_server_start (mk_start_env (inl 5) 0 0 0 9 0) (Some server_zero)
    (Some (replicate 120 97)) true true (mk_os ∅ ∅ ∅) = Some (0, Some sv', o') /\
    sv_running sv' = false.
Proof.
  destruct (ctrl_server_long_path (mk_start_env (inl 5) 0 0 0 9 0) server_zero (replicate 120 97)
    (mk_os ∅ ∅ ∅) 5) as (sv' & o' & E & Hr & _); [vm_compute; intuition congruence| reflexivity
    | reflexivity|]. exists sv', o'. auto.
Defined.

(** When the thread cannot be created, start calls stop, which joins a
    thread that was never made: undefined behaviour instead of the error. *)
Theorem ctrl_server_thread_failure env sv path o fd :
  zlength path < SUN_PATH_SIZE -> se_socket env = inl fd -> se_bind env = 0 ->
  se_listen env = 0 -> se_thread_rc env <> 0 -> 0 ∉ os_threads o ->
  ramdisk_ctrl_server_start env (Some sv) (Some path) true true o = None.
Proof.
  intros Hp Es Eb El Et Ht. unfold ramdisk_ctrl_server_start, SUN_PATH_SIZE in *. cbn [negb orb].
  destruct (zlength path >=? 256) eqn:L1; [lia|]. rewrite Es.
  destruct (zlength path >=? 108) eqn:L2; [lia|]. rewrite Eb, El. cbn [Z.eqb negb].
  destruct (Z.eqb_spec (se_thread_rc env) 0); [contradiction|]. cbn [negb].
  unfold ramdisk_ctrl_server_stop. cbn [sv_initialized negb sv_thread os_threads].
  rewrite bool_decide_false by auto. reflexivity.
Qed.

Lemma ctrl_server_thread_failure_witness :
  ramdisk_ctrl_server_start (mk_start_env (inl 5) 0 0 11 9 0) (Some server_zero)
    (Some [47; 116]) true true (mk_os ∅ ∅ ∅) = None.
Proof.
  apply (ctrl_server_thread_failure (mk_start_env (inl 5) 0 0 11 9 0) server_zero [47; 116]
    (mk_os ∅ ∅ ∅) 5); try reflexivity; [discriminate|set_solver].
Defined.

(** ** Reference: what a request does, without the socket *)

(** Result code, response payload and manager after the request. *)
Definition ctrl_op (env : ctrl_env) (w : urma_world) (op payload_len : Z) (payload : list Z)
    : mem (option (Z * list Z * urma_world)) :=
  if op =? RAMDISK_CTRL_QUERY_STATUS then
    mret (Some (0, status_to_bytes (ramdisk_urma_fill_status (Some (uw_mgr w))
                     (mk_status (ramdisk_backend_size (uw_backend w))
                        (ramdisk_backend_block_size (uw_backend w)) 0 0 0 0 0 0 0)), w))
  else if op =? RAMDISK_CTRL_URMA_ENABLE then
    let '(rc, m) := ramdisk_urma_enable (Some (uw_mgr w)) in mret (Some (rc, [], put_mgr w m))
  else if op =? RAMDISK_CTRL_URMA_DISABLE then
    let '(rc, m) := ramdisk_urma_disable (Some (uw_mgr w)) in mret (Some (rc, [], put_mgr w m))
  else if op =? RAMDISK_CTRL_PEER_CONNECT then
    if negb (payload_len =? peer_info_size) then mret (Some (- EINVAL, [], w)) else
    '(rc, m) ← ramdisk_urma_peer_connect (cv_calloc_ok env) (Some (uw_mgr w))
                 (Some (peer_info_of_bytes payload));
    mret (Some (rc, [], put_mgr w m))
  else if op =? RAMDISK_CTRL_PEER_DISCONNECT then
    if negb (payload_len =? disconnect_size) then mret (Some (- EINVAL, [], w)) else
    '(rc, m) ← ramdisk_urma_peer_disconnect (Some (uw_mgr w))
                 (cd_peer_id (disconnect_of_bytes payload));
    mret (Some (rc, [], put_mgr w m))
  else if op =? RAMDISK_CTRL_URMA_TRANSFER then
    if negb (payload_len =? transfer_size) then mret (Some (- EINVAL, [], w)) else
    r ← ramdisk_urma_transfer_sync (cv_waits env) (cv_frame env) (Some w)
          (Some (transfer_of_bytes payload));
    match r with
    | None => mret None
    | Some (rc, Some w) => mret (Some (rc, [], w))
    | Some (rc, None) => mret (Some (rc, [], w))
    end
  else mret (Some (- EOPNOTSUPP, [], w)).

(** The handler is the reference operation followed by the response. *)
Lemma handle_request_op env w s hdr payload h :
  handle_request env w s hdr payload h
  = match ctrl_op env w (ch_opcode hdr) (ch_payload_len hdr) payload h with
    | None => None
    | Some (None, h') => Some (None, h')
    | Some (Some (rc, data, w'), h') =>
        match send_response (Some hdr) rc data (zlength data) s with
        | None => None
        | Some (n, s') => Some (Some (n, w', s'), h')
        end
    end.
Proof.
  unfold handle_request, ctrl_op, answer.
  set (st := mk_status _ _ _ _ _ _ _ _ _).
  assert (Hs : zlength (status_to_bytes (ramdisk_urma_fill_status (Some (uw_mgr w)) st)) = status_size)
    by (unfold zlength; rewrite length_status; reflexivity).
  repeat match goal with
  | |- context [if ?c =? ?d then _ else _] => destruct (c =? d)
  | |- context [if negb (?c =? ?d) then _ else _] => destruct (c =? d); cbn [negb]
  end; mstep; rewrite ?Hs; unfold lift;
  try (destruct (ramdisk_urma_enable _)); try (destruct (ramdisk_urma_disable _)); mstep;
  try (destruct (ramdisk_urma_peer_connect _ _ _ _) as [[[? ?] ?]|]);
  try (destruct (ramdisk_urma_peer_disconnect _ _ _) as [[[? ?] ?]|]);
  try (destruct (ramdisk_urma_transfer_sync _ _ _ _ _) as [[[[? [?|]]|] ?]|]); mstep; auto;
  change (zlength []) with 0; try (destruct (send_response _ _ _ _ _) as [[? ?]|]); auto.
Qed.

Definition rc_ok (rc : Z) : Prop := - 200 <= rc <= 0.

Lemma xfer_spec_rc e sz bs lk x : rc_ok (xfer_spec e sz bs lk x).
Proof.
  unfold rc_ok, xfer_spec, EOPNOTSUPP, EINVAL, ERANGE, ENODEV.
  repeat case_if; try lia. destruct (lk _); [case_if|]; lia.
Qed.

Lemma connect_spec_rc ok e ps i : rc_ok (connect_spec ok e ps i).
Proof.
  unfold rc_ok, connect_spec, EOPNOTSUPP, EINVAL, ENOMEM, EEXIST, ENOSPC.
  repeat case_if; lia.
Qed.

(** Fields of byte strings are in range. *)
Lemma take_field_bound w (bs : list Z) n : Forall is_u8 bs -> n = 256 ^ Z.of_nat w ->
  0 <= le_val (take w bs) < n.
Proof.
  intros Hb ->. pose proof (le_val_bound (take w bs) (Forall_take _ _ _ Hb)) as H.
  assert (256 ^ Z.of_nat (length (take w bs)) <= 256 ^ Z.of_nat w);
    [apply Z.pow_le_mono_r; [lia|rewrite length_take; lia]|lia].
Qed.

Lemma transfer_of_bytes_typed bs : Forall is_u8 bs -> transfer_typed (transfer_of_bytes bs).
Proof.
  intros Hb. unfold transfer_of_bytes. cbn [fields_of_bytes].
  split_and!; cbn; apply take_field_bound; auto; repeat apply Forall_drop; auto.
Qed.

Lemma peer_info_of_bytes_typed bs :
  Forall is_u8 bs -> (24 <= length bs)%nat -> peer_info_typed (peer_info_of_bytes bs).
Proof.
  intros Hb Hl. unfold peer_info_of_bytes. cbn [fields_of_bytes].
  split_and!; cbn [ci_peer_id ci_eid ci_uasid ci_reserved0 ci_seg_va ci_seg_len ci_seg_token_id
    ci_jetty_id]; try (apply take_field_bound; auto; repeat apply Forall_drop; auto).
  - rewrite length_take, length_drop. lia.
  - apply Forall_take, Forall_drop. auto.
Qed.

(** An idle manager: nothing queued, nothing in flight. *)
Definition mgr_idle (w : urma_world) (bk : ramdisk_backend) (b size : Z) (h : heap) : Prop :=
  (exists bs, zlength bs = size /\ urma_inv w bk b bs h []) /\ um_inflight (uw_mgr w) = 0.

(** The environment of a request.  While a transfer waits, the worker handles it
    up to its log message, after any number of time-outs and spurious wake-ups; the
    caller's stack frame holds no other request. *)
Definition env_ok (env : ctrl_env) (w : urma_world) : Prop :=
  worker_waits (cv_waits env) /\ uw_reqs w !! cv_frame env = None.

Lemma put_mgr_inv w m bk b bs h :
  urma_inv (mk_world m (uw_backend w) (uw_reqs w)) bk b bs h [] ->
  urma_inv (put_mgr w (Some m)) bk b bs h [].
Proof. auto. Qed.

Lemma urma_inv_enabled v w bk b bs h :
  urma_inv w bk b bs h [] ->
  urma_inv (mk_world (set_enabled v (uw_mgr w)) (uw_backend w) (uw_reqs w)) bk b bs h [].
Proof.
  intros [Ub W F Ui Um P R Q N]. split; auto.
  intros a Ha. apply not_elem_of_nil in Ha. destruct Ha.
Qed.

(** Every request, whatever its opcode and payload, is handled without
    undefined behaviour and leaves an idle manager. *)
Lemma ctrl_op_ok env w op plen payload bk b size h :
  mgr_idle w bk b size h -> env_ok env w -> Forall is_u8 payload -> (24 <= length payload)%nat ->
  exists rc data w' h', ctrl_op env w op plen payload h = Some (Some (rc, data, w'), h') /\
    mgr_idle w' bk b size h' /\ uw_reqs w' = uw_reqs w /\ rc_ok rc /\
    (data = [] \/ op = RAMDISK_CTRL_QUERY_STATUS /\ length data = 48%nat).
Proof.
  intros [(bs & Hz & I) Hi] [Hw Hfr] Hb Hl. unfold ctrl_op.
  assert (Hid : mgr_idle w bk b size h) by (split; eauto).
  assert (Hsame : forall rc, rc_ok rc -> exists rc' data w' h',
    Some (Some (rc, [] : list Z, w), h) = Some (Some (rc', data, w'), h') /\
    mgr_idle w' bk b size h' /\ uw_reqs w' = uw_reqs w /\ rc_ok rc' /\
    (data = [] \/ op = RAMDISK_CTRL_QUERY_STATUS /\ length data = 48%nat)) by eauto 10.
  assert (Hein : rc_ok (- EINVAL)) by (unfold rc_ok, EINVAL; lia).
  assert (Hz0 : rc_ok 0) by (unfold rc_ok; lia).
  destruct (Z.eqb_spec op RAMDISK_CTRL_QUERY_STATUS) as [->|_].
  { eexists _, _, _, _. split; [reflexivity|]. split; [auto|]. split; [auto|].
    split; [auto|]. right. split; [auto|]. apply length_status. }
  destruct (op =? RAMDISK_CTRL_URMA_ENABLE).
  { cbn [ramdisk_urma_enable]. rewrite (ui_init _ _ _ _ _ _ I). cbn [negb].
    eexists _, _, _, _. split; [reflexivity|]. split_and!; auto. split; [|auto].
    exists bs. split; [auto|]. apply urma_inv_enabled; auto. }
  destruct (op =? RAMDISK_CTRL_URMA_DISABLE).
  { cbn [ramdisk_urma_disable]. rewrite (ui_init _ _ _ _ _ _ I). cbn [negb].
    eexists _, _, _, _. split; [reflexivity|]. split_and!; auto. split; [|auto].
    exists bs. split; [auto|]. apply urma_inv_enabled; auto. }
  destruct (op =? RAMDISK_CTRL_PEER_CONNECT).
  { destruct (plen =? peer_info_size); cbn [negb]; [|apply Hsame; auto]. mstep.
    destruct (peer_connect_full w bk b bs h [] (cv_calloc_ok env) _ I
      (peer_info_of_bytes_typed payload Hb Hl))
      as (rc & m' & h' & E & Hrc & I' & (C1 & _) & _). rewrite E. mstep.
    eexists _, _, _, _. split; [reflexivity|]. split; [|split; [reflexivity|]].
    - split; [|cbn; congruence]. eauto.
    - split; [rewrite Hrc; apply connect_spec_rc|auto]. }
  destruct (op =? RAMDISK_CTRL_PEER_DISCONNECT).
  { destruct (plen =? disconnect_size); cbn [negb]; [|apply Hsame; auto]. mstep.
    destruct (peer_disconnect_full w bk b bs h (cd_peer_id (disconnect_of_bytes payload)) I)
      as (H1 & H2 & H3). set (id := cd_peer_id _) in *.
    assert (Hput : put_mgr w (Some (uw_mgr w)) = w) by (destruct w; reflexivity).
    destruct (Z.eq_dec id 0) as [E0|E0].
    { rewrite (H1 E0). mstep. rewrite Hput. apply Hsame; auto. }
    destruct (peer_lookup (um_peers (uw_mgr w)) id) as [p|] eqn:El.
    2: { rewrite (H2 E0 eq_refl). mstep. rewrite Hput. apply Hsame. unfold rc_ok, ENOENT; lia. }
    destruct (H3 p eq_refl) as (m' & hb & hbs & _ & E & _ & (C1 & _) & I').
    rewrite E. mstep. eexists _, _, _, _. split; [reflexivity|].
    split; [|split; [reflexivity|auto]]. split; [|cbn; congruence]. eauto. }
  destruct (op =? RAMDISK_CTRL_URMA_TRANSFER).
  { destruct (plen =? transfer_size); cbn [negb]; [|apply Hsame; auto]. mstep.
    destruct (transfer_sync_full w bk b bs h _ (cv_frame env) I Hi
      (transfer_of_bytes_typed payload Hb) Hfr) as [H1 H2]. cbn zeta in *.
    set (r := xfer_spec _ _ _ _ _) in *. pose proof (xfer_spec_rc (um_enabled (uw_mgr w)) (zlength bs)
      (bk_block_size bk) (peer_lookup (um_peers (uw_mgr w))) (transfer_of_bytes payload)) as Hr.
    fold r in Hr. destruct (Z.eq_dec r 0) as [E0|E0].
    - destruct (H2 E0) as (p & hb & hbs & w' & _ & _ & E & I' & Hz' & Hrq & Hi' & _).
      rewrite (transfer_sync_waits _ _ _ _ _ _ _ Hw E). mstep. eexists _, _, _, _. split; [reflexivity|].
      split; [|split; [auto|auto]]. split; [|auto]. eexists. split; [|exact I']. congruence.
    - rewrite (H1 E0). mstep. apply Hsame. auto. }
  apply Hsame. unfold rc_ok, EOPNOTSUPP. lia.
Qed.

(** ** The loop on any input *)

Lemma send_response_any req rc payload n s :
  sock_ok s ->
  exists r s', send_response req rc payload n s = Some (r, s') /\ sock_ok s' /\ sk_in s' = sk_in s.
Proof.
  intros [Hr Hw]. unfold send_response. set (bytes := resp_to_bytes _).
  destruct (write_full_any bytes s Hw) as (r & t & s1 & E & _ & _ & Hi & Hrd & Hok & _).
  rewrite E. cbn. assert (Hs1 : sock_ok s1) by (split; [congruence|auto]).
  destruct (r <? 0); [eauto|]. destruct (n =? 0); cbn [negb]; [eauto|].
  destruct (write_full_any (take (Z.to_nat n) payload) s1 (proj2 Hs1))
    as (r2 & t2 & s2 & E2 & _ & _ & Hi2 & Hrd2 & Hok2 & _).
  exists r2, s2. split; [exact E2|]. split; [split; [rewrite Hrd2; apply Hs1|auto]|congruence].
Qed.

(** The response the server builds for a request. *)
Definition resp_for (hdr : ramdisk_ctrl_hdr) (rc : Z) (data : list Z) : ramdisk_ctrl_resp :=
  mk_resp (mk_hdr RAMDISK_CTRL_MAGIC RAMDISK_CTRL_VERSION (ch_opcode hdr)
             (u32 (resp_size - hdr_size + zlength data)) 0 (ch_request_id hdr))
    rc (zlength data).

Lemma send_response_ok hdr rc data s :
  no_fail (sk_wr s) ->
  exists sch, send_response (Some hdr) rc data (zlength data) s
    = Some (zlength data, mk_sock (sk_in s) (sk_rd s)
              (sk_out s ++ resp_to_bytes (resp_for hdr rc data) ++ data) sch) /\ no_fail sch.
Proof.
  intros Hw. unfold send_response. fold (resp_for hdr rc data).
  destruct (write_full_data (resp_to_bytes (resp_for hdr rc data)) s Hw) as (sch & -> & Hs).
  cbn [mbind option_bind]. destruct (Z.ltb_spec (zlength (resp_to_bytes (resp_for hdr rc data))) 0);
    [unfold zlength in *; lia|].
  destruct (Z.eqb_spec (zlength data) 0) as [E|E]; cbn [negb].
  - destruct data; [|unfold zlength in E; cbn in E; lia]. exists sch. rewrite app_nil_r. auto.
  - replace (Z.to_nat (zlength data)) with (length data) by (unfold zlength; lia).
    rewrite take_ge by lia.
    destruct (write_full_data data (mk_sock (sk_in s) (sk_rd s)
      (sk_out s ++ resp_to_bytes (resp_for hdr rc data)) sch)) as (sch2 & -> & Hs2); auto.
    exists sch2. cbn [sk_in sk_rd sk_out]. rewrite <- app_assoc. auto.
Qed.

Lemma payload_of_u8 junk d :
  Forall is_u8 junk -> Forall is_u8 d -> Forall is_u8 (payload_of junk d).
Proof. intros. apply Forall_app. auto using Forall_drop. Qed.

Lemma length_payload_of junk d :
  length junk = 4096%nat -> (length d <= 4096)%nat -> length (payload_of junk d) = 4096%nat.
Proof. intros. unfold payload_of. rewrite length_app, length_drop. lia. Qed.

Section AnyClient.
Context (bk : ramdisk_backend) (b size : Z).

(** One request of any bytes: an idle manager again, and input consumed if the
    loop goes on. *)
Lemma serve_request_safe env junk w s h :
  mgr_idle w bk b size h -> env_ok env w -> sock_ok s -> Forall is_u8 (sk_in s) ->
  Forall is_u8 junk -> length junk = 4096%nat ->
  exists r h', serve_request env junk w s h = Some (Some r, h') /\
    let '(w', s') := match r with inl p | inr p => p end in
    mgr_idle w' bk b size h' /\ uw_reqs w' = uw_reqs w /\ sock_ok s' /\ Forall is_u8 (sk_in s') /\
    match r with inl _ => (length (sk_in s') < length (sk_in s))%nat | inr _ => True end.
Proof.
  intros Hm He Hs Hu Hj Hjl. unfold serve_request.
  destruct (read_full_any hdr_size s (proj1 Hs)) as (n & hd & s1 & E1 & Hi1 & Hd1 & _ & Hw1 & Hok1 & Hn1);
    [unfold hdr_size; lia|].
  rewrite E1. mstep. assert (Hs1 : sock_ok s1) by (split; [auto|rewrite Hw1; apply Hs]).
  rewrite Hi1 in Hu. apply Forall_app in Hu as [Hu0 Hu1].
  destruct (Z.eqb_spec n 0); [exists (inr (w, s1)), h; split; [reflexivity|]; auto|].
  destruct (Z.ltb_spec n 0); [exists (inr (w, s1)), h; split; [reflexivity|]; auto|].
  assert (Hlen : (length (sk_in s1) + 24 <= length (sk_in s))%nat).
  { rewrite Hi1, length_app. unfold zlength, hdr_size in *. lia. }
  destruct (negb (ch_magic _ =? _) || _ || _) eqn:Eg.
  { destruct (send_response_any (Some (hdr_of_bytes hd)) (- EINVAL) [] 0 s1 Hs1)
      as (r & s2 & E2 & Hs2 & Hi2). mstep. rewrite E2. mstep.
    exists (inr (w, s2)), h. split; [reflexivity|]. rewrite Hi2. auto. }
  set (pl := ch_payload_len (hdr_of_bytes hd)) in *.
  assert (Hpl : pl <= 4096) by (apply orb_false_iff in Eg as [_ Eg];
    unfold RAMDISK_CTRL_MAX_PAYLOAD in Eg; lia).
  assert (Hpl0 : 0 <= pl).
  { unfold pl, hdr_of_bytes. cbn [fields_of_bytes ch_payload_len].
    apply (take_field_bound 4 _ (2 ^ 32)); auto. repeat apply Forall_drop. auto. }
  assert (Hread : exists n2 d s2,
    (if negb (pl =? 0) then lift (read_full pl s1) else mret (0, [], s1)) h = Some (n2, d, s2, h) /\
    sock_ok s2 /\ Forall is_u8 d /\ Forall is_u8 (sk_in s2) /\ (length d <= 4096)%nat /\
    (length (sk_in s2) <= length (sk_in s1))%nat).
  { destruct (Z.eqb_spec pl 0); cbn [negb].
    - exists 0, [], s1. split; [reflexivity|]. split_and!; auto; cbn; lia.
    - destruct (read_full_any pl s1 (proj1 Hs1)) as (n2 & d & s2 & E2 & Hi2 & Hd2 & _ & Hw2 & Hok2 & _);
        [lia|].
      rewrite E2. exists n2, d, s2. split; [reflexivity|].
      rewrite Hi2 in Hu1. apply Forall_app in Hu1 as [? ?].
      split_and!; auto; [split; [auto|rewrite Hw2; apply Hs1]|unfold zlength in Hd2; lia|].
      rewrite Hi2, length_app. lia. }
  destruct Hread as (n2 & d & s2 & E2 & Hs2 & Hd & Hu2 & Hdl & Hl2). mstep. rewrite E2. mstep.
  destruct (negb (pl =? 0) && (n2 <? 0)); [exists (inr (w, s2)), h; split; [reflexivity|]; auto|].
  mstep. rewrite handle_request_op.
  destruct (ctrl_op_ok env w (ch_opcode (hdr_of_bytes hd)) (ch_payload_len (hdr_of_bytes hd))
    (payload_of junk d) bk b size h) as (rc & data & w' & h' & E3 & Hm' & Hrq & _); auto.
  { apply payload_of_u8; auto. }
  { rewrite length_payload_of; auto. lia. }
  rewrite E3.
  destruct (send_response_any (Some (hdr_of_bytes hd)) rc data (zlength data) s2 Hs2)
    as (r & s3 & E4 & Hs3 & Hi3). rewrite E4. mstep.
  destruct (r <? 0).
  - exists (inr (w', s3)), h'. split; [reflexivity|]. rewrite Hi3. auto.
  - exists (inl (w', s3)), h'. split; [reflexivity|]. rewrite Hi3. split_and!; auto. lia.
Qed.

Lemma serve_client_any fuel : forall env junk i w s h,
  mgr_idle w bk b size h -> (forall k, env_ok (env k) w) -> sock_ok s -> Forall is_u8 (sk_in s) ->
  (forall k, Forall is_u8 (junk k) /\ length (junk k) = 4096%nat) ->
  (length (sk_in s) < fuel)%nat ->
  exists w' s' h', serve_client fuel env junk i w s h = Some (Some (w', s'), h') /\
    mgr_idle w' bk b size h' /\ uw_reqs w' = uw_reqs w.
Proof.
  induction fuel as [|fuel IH]; intros env junk i w s h Hm He Hs Hu Hj Hf; [lia|].
  cbn [serve_client]. mstep. destruct (Hj i) as [Hj1 Hj2].
  destruct (serve_request_safe (env i) (junk i) w s h Hm (He i) Hs Hu Hj1 Hj2)
    as (r & h' & E & Hr). rewrite E. mstep. destruct r as [[w' s']|[w' s']].
  - destruct Hr as (Hm' & Hrq & Hs' & Hu' & Hl).
    destruct (IH env junk (S i) w' s' h') as (w2 & s2 & h2 & E2 & Hm2 & Hrq2); auto; [|lia|].
    + intros k. destruct (He k) as [? ?]. split; auto. congruence.
    + exists w2, s2, h2. split_and!; auto. congruence.
  - destruct Hr as (Hm' & Hrq & _). eauto 10.
Qed.

End AnyClient.

(** the control server is safe against any client.  For arbitrary bytes on
    the socket, arbitrary schedules of short transfers, signals and errors, and
    arbitrary contents of the uninitialised payload array, the loop ends
    without undefined behaviour and leaves the manager in its invariant, idle,
    with no request left behind and a disk of the same size. *)
Theorem serve_client_safe fuel env junk w s h bk b size :
  mgr_idle w bk b size h -> (forall k, env_ok (env k) w) -> sock_ok s -> Forall is_u8 (sk_in s) ->
  (forall k, Forall is_u8 (junk k) /\ length (junk k) = 4096%nat) ->
  (length (sk_in s) < fuel)%nat ->
  exists w' s' h', serve_client fuel env junk 0 w s h = Some (Some (w', s'), h') /\
    mgr_idle w' bk b size h' /\ uw_reqs w' = uw_reqs w.
Proof. apply serve_client_any. Qed.

Lemma ex_mgr_idle : mgr_idle ex_world ex_backend 1 1024 ex_urma_heap.
Proof. split; [|reflexivity]. exists (replicate 1024 5). split; [reflexivity|exact ex_urma_inv]. Qed.

(** The wait of a transfer times out once before the worker gets to it. *)
Definition ex_ctrl_env : ctrl_env :=
  mk_ctrl_env true 50 [(mret, ETIMEDOUT); (run_worker 2, 0)].

Lemma ex_env_ok : env_ok ex_ctrl_env ex_world.
Proof.
  split; [|reflexivity]. exists [ETIMEDOUT], 0, []. split; [reflexivity|].
  split; [constructor; [right; reflexivity|constructor]|left; reflexivity].
Qed.

Lemma serve_client_safe_witness :
  exists w' s' h', serve_client 41 (fun _ => ex_ctrl_env) (fun _ => replicate 4096 1) 0 ex_world
    (mk_sock (replicate 40 84) [Intr; Chunk 7] [] [Fail EPIPE]) ex_urma_heap
  = Some (Some (w', s'), h').
Proof.
  destruct (serve_client_safe 41 (fun _ => ex_ctrl_env) (fun _ => replicate 4096 1) ex_world
    (mk_sock (replicate 40 84) [Intr; Chunk 7] [] [Fail EPIPE]) ex_urma_heap ex_backend 1 1024
    ex_mgr_idle) as (w' & s' & h' & E & _).
  - intros k. exact ex_env_ok.
  - split; repeat constructor; unfold EPIPE; lia.
  - apply Forall_replicate. unfold is_u8; lia.
  - intros k. split; [apply Forall_replicate; unfold is_u8; lia|reflexivity].
  - cbn; lia.
  - exists w', s', h'. exact E.
Defined.

(** a request whose payload is cut off at once is carried out with
    whatever the payload array held.  When the client closes right after a
    header, [read_full] returns 0, which is not treated as an error: a
    disconnect request removes the peer whose identifier happens to lie in
    uninitialised memory and answers success. *)
Theorem ctrl_payload_eof_uses_junk env junk w s h bk b bs p hdr :
  urma_inv w bk b bs h [] -> sock_quiet s -> hdr_typed hdr ->
  ch_magic hdr = RAMDISK_CTRL_MAGIC -> ch_version hdr = RAMDISK_CTRL_VERSION ->
  ch_opcode hdr = RAMDISK_CTRL_PEER_DISCONNECT -> ch_payload_len hdr = disconnect_size ->
  sk_in s = hdr_to_bytes hdr -> length junk = 4096%nat ->
  peer_lookup (um_peers (uw_mgr w)) (le_val (take 8 junk)) = Some p ->
  exists w' s' h', serve_request env junk w s h = Some (Some (inl (w', s')), h') /\
    peer_lookup (um_peers (uw_mgr w')) (le_val (take 8 junk)) = None /\
    sk_out s' = sk_out s ++ resp_to_bytes (mk_resp (mk_hdr RAMDISK_CTRL_MAGIC
      RAMDISK_CTRL_VERSION RAMDISK_CTRL_PEER_DISCONNECT 8 0 (ch_request_id hdr)) 0 0).
Proof.
  intros I Q T Hmg Hv Hop Hpl Hin Hj Hp. unfold serve_request.
  destruct (read_full_data hdr_size s) as (sch & E1 & Q1);
    [apply Q|unfold hdr_size; lia|rewrite Hin; unfold hdr_size, zlength; rewrite length_hdr; lia|].
  rewrite E1, Hin. change (Z.to_nat hdr_size) with 24%nat.
  rewrite take_ge, drop_ge by (rewrite length_hdr; lia). mstep.
  change (hdr_size =? 0) with false. change (hdr_size <? 0) with false. cbv iota.
  pose proof (hdr_roundtrip hdr [] T) as Eh. rewrite app_nil_r in Eh. rewrite Eh.
  rewrite Hmg, Hv, Hpl, !Z.eqb_refl.
  change (disconnect_size >? RAMDISK_CTRL_MAX_PAYLOAD) with false. cbn [negb orb].
  change (disconnect_size =? 0) with false. cbn [negb andb]. mstep.
  destruct (read_full_eof disconnect_size (mk_sock [] sch (sk_out s) (sk_wr s)))
    as (sch2 & E2 & Q2); auto; [unfold disconnect_size; lia|].
  rewrite E2. mstep. cbn [Z.ltb Z.compare]. mstep. rewrite handle_request_op, Hop, Hpl.
  unfold ctrl_op. cbn [Z.eqb RAMDISK_CTRL_PEER_DISCONNECT RAMDISK_CTRL_QUERY_STATUS
    RAMDISK_CTRL_URMA_ENABLE RAMDISK_CTRL_URMA_DISABLE RAMDISK_CTRL_PEER_CONNECT Pos.eqb].
  change (disconnect_size =? disconnect_size) with true. cbn [negb]. mstep.
  unfold disconnect_of_bytes, payload_of. cbn [cd_peer_id length app]. rewrite drop_0.
  destruct (peer_disconnect_full w bk b bs h (le_val (take 8 junk)) I) as (_ & _ & H3).
  destruct (H3 p Hp) as (m' & hb & hbs & _ & E & Hl & _). rewrite E. mstep.
  destruct (send_response_ok hdr 0 [] (mk_sock [] sch2 (sk_out s) (sk_wr s))) as (sch3 & E3 & _);
    [apply Q|]. cbn [sk_out sk_wr]. rewrite E3. mstep. cbn [zlength length Z.of_nat Z.ltb Z.compare].
  eexists _, _, _. split; [reflexivity|]. split; [exact Hl|].
  cbn [sk_out]. unfold resp_for. rewrite Hop, app_nil_r. reflexivity.
Qed.

Lemma ctrl_payload_eof_uses_junk_witness :
  exists w' s' h', serve_request ex_ctrl_env (7 :: replicate 4095 0) ex_world
    (mk_sock (hdr_to_bytes (mk_hdr RAMDISK_CTRL_MAGIC 1 5 8 0 1)) [] [] []) ex_urma_heap
  = Some (Some (inl (w', s')), h') /\ peer_lookup (um_peers (uw_mgr w')) 7 = None.
Proof.
  destruct (ctrl_payload_eof_uses_junk ex_ctrl_env (7 :: replicate 4095 0) ex_world
    (mk_sock (hdr_to_bytes (mk_hdr RAMDISK_CTRL_MAGIC 1 5 8 0 1)) [] [] []) ex_urma_heap
    ex_backend 1 (replicate 1024 5) ex_peer (mk_hdr RAMDISK_CTRL_MAGIC 1 5 8 0 1) ex_urma_inv)
    as (w' & s' & h' & E & Hl & _); try reflexivity.
  - split; constructor.
  - repeat constructor; vm_compute; intuition congruence.
  - exists w', s', h'. split; [exact E|exact Hl].
Defined.
