(* ===== verification/CtrlLoop.v ===== *)
(** * The accept loop of the control server (ramdisk_ctrl_server.c)

    [ctrl_server_main]: one client after the other, each on a descriptor that
    [accept] hands out. *)

From S2P Require Import Prelude.
From S2P Require Import Mem.
From S2P Require Import Backend.
From S2P Require Import SockIO.
From S2P Require Import CtrlProto.
From S2P Require Import UrmaMgr.
From S2P Require Import UrmaQueue.
From S2P Require Import CtrlServer.

(** A client: its descriptor and stream, what the requests meet, and what the
    uninitialised payload array holds. *)
Record client : Type := mk_client {
  cn_fd : Z;
  cn_sock : sock;
  cn_env : nat -> ctrl_env;
  cn_junk : nat -> list Z
}.

(** What [accept] answers. *)
Inductive accepted : Type :=
| AccErr (e : Z)
| AccConn (c : client).

(** The loop while [server->running] is seen set, one entry of [evs] each time;
    then it is seen cleared.  The manager, the streams of the clients served, and
    the open descriptors; [None] when a transfer still waits or the fuel for a
    client's requests is used up. *)
Fixpoint ctrl_server_main (fuel : nat) (evs : list accepted) (w : urma_world) (fds : gset Z)
    : mem (option (urma_world * list sock * gset Z)) :=
  match evs with
  | [] => mret (Some (w, [], fds))
  | AccErr _ :: evs' => ctrl_server_main fuel evs' w fds
  | AccConn c :: evs' =>
      let fds := fds ∪ {[cn_fd c]} in
      r ← serve_client fuel (cn_env c) (cn_junk c) 0 w (cn_sock c);
      match r with
      | None => mret None
      | Some (w, s) =>
          r ← ctrl_server_main fuel evs' w (fds ∖ {[cn_fd c]});
          match r with
          | None => mret None
          | Some (w, ss, fds) => mret (Some (w, s :: ss, fds))
          end
      end
  end.

(** The clients that were accepted. *)
Definition clients_of (evs : list accepted) : list client :=
  omap (fun a => match a with AccConn c => Some c | AccErr _ => None end) evs.

(** What is known of a client: a new descriptor, bytes on its stream, errors that
    are positive, stack frames that hold no queued request. *)
Record client_ok (c : client) (fuel : nat) (w : urma_world) (fds : gset Z) : Prop := {
  ck_fd : cn_fd c ∉ fds;
  ck_env : forall k, env_ok (cn_env c k) w;
  ck_sock : sock_ok (cn_sock c);
  ck_bytes : Forall is_u8 (sk_in (cn_sock c));
  ck_junk : forall k, Forall is_u8 (cn_junk c k) /\ length (cn_junk c k) = 4096%nat;
  ck_fuel : (length (sk_in (cn_sock c)) < fuel)%nat
}.

Definition accepted_ok (fuel : nat) (w : urma_world) (fds : gset Z) (a : accepted) : Prop :=
  match a with AccErr _ => True | AccConn c => client_ok c fuel w fds end.

Lemma client_ok_next c fuel w w' fds :
  uw_reqs w' = uw_reqs w -> client_ok c fuel w fds -> client_ok c fuel w' fds.
Proof.
  intros E [K1 K2 K3 K4 K5 K6]. split; auto. intros k. destruct (K2 k) as [? ?].
  split; [auto|congruence].
Qed.

Lemma ctrl_server_main_any fuel bk b size evs : forall w fds h,
  mgr_idle w bk b size h -> Forall (accepted_ok fuel w fds) evs ->
  exists w' ss h', ctrl_server_main fuel evs w fds h = Some (Some (w', ss, fds), h') /\
    mgr_idle w' bk b size h' /\ uw_reqs w' = uw_reqs w /\
    length ss = length (clients_of evs).
Proof.
  induction evs as [|a evs IH]; intros w fds h Hm Hok.
  { exists w, [], h. split; [reflexivity|]. auto. }
  apply Forall_cons in Hok as [Ha Hok]. destruct a as [e|c]; cbn [ctrl_server_main].
  { apply IH; auto. }
  destruct Ha as [K1 K2 K3 K4 K5 K6]. mstep.
  destruct (serve_client_any bk b size fuel (cn_env c) (cn_junk c) 0 w (cn_sock c) h)
    as (w1 & s1 & h1 & E1 & Hm1 & Hr1); auto.
  rewrite E1. mstep. rewrite set_add_del by auto.
  destruct (IH w1 fds h1 Hm1) as (w2 & ss & h2 & E2 & Hm2 & Hr2 & Hl).
  { eapply Forall_impl; [exact Hok|]. intros [e|c']; [auto|]. apply client_ok_next, Hr1. }
  rewrite E2. mstep. exists w2, (s1 :: ss), h2. split; [reflexivity|].
  cbn. split_and!; auto; congruence.
Qed.

(** C9.  The control server with the mock provider survives any sequence of
    clients.  Whatever [accept] answers and whatever bytes, partial transfers and
    errors the clients' sockets bring, one client after the other, the loop serves
    every accepted client, ends once it sees the stop, closes every descriptor it
    accepted, and leaves the manager in its invariant, idle, with the disk at its
    size.  The conditions: the manager uses the mock provider and is idle at the
    start, and this loop is the only caller of transfers ([mgr_idle]); while a
    transfer waits, the worker handles the request and writes its log message
    before the caller is seen to wake, after any number of time-outs and spurious
    wake-ups ([env_ok], [worker_waits]); [accept] returns new descriptors.  The
    schedule in which the caller returns between the completion and the log message
    is excluded: there the worker reads a stack frame that is gone. *)
Theorem ctrl_server_main_safe fuel evs w fds h bk b size :
  mgr_idle w bk b size h -> Forall (accepted_ok fuel w fds) evs ->
  exists w' ss h', ctrl_server_main fuel evs w fds h = Some (Some (w', ss, fds), h') /\
    mgr_idle w' bk b size h' /\ uw_reqs w' = uw_reqs w /\
    length ss = length (clients_of evs).
Proof. apply ctrl_server_main_any. Qed.

Definition ex_client : client :=
  mk_client 9 (mk_sock (replicate 40 84) [Intr; Chunk 7] [] [Fail EPIPE]) (fun _ => ex_ctrl_env)
    (fun _ => replicate 4096 1).

Lemma ctrl_server_main_safe_witness :
  exists w' ss h', ctrl_server_main 41 [AccErr EINTR; AccConn ex_client; AccConn ex_client] ex_world
      {[3]} ex_urma_heap = Some (Some (w', ss, {[3]}), h') /\ length ss = 2%nat.
Proof.
  destruct (ctrl_server_main_safe 41 [AccErr EINTR; AccConn ex_client; AccConn ex_client] ex_world
    {[3]} ex_urma_heap ex_backend 1 1024 ex_mgr_idle) as (w' & ss & h' & E & _ & _ & Hl).
  - assert (K : client_ok ex_client 41 ex_world {[3]}).
    { split; [set_solver| | | | |cbn; lia].
      - intros k. exact ex_env_ok.
      - split; repeat constructor; unfold EPIPE; lia.
      - apply Forall_replicate. unfold is_u8; lia.
      - intros k. split; [apply Forall_replicate; unfold is_u8; lia|reflexivity]. }
    constructor; [exact I|]. constructor; [exact K|]. constructor; [exact K|constructor].
  - exists w', ss, h'. split; [exact E|exact Hl].
Defined.
