(* ===== verification/CtrlClient.v ===== *)
(** * The control client library (userspace-nbd/src/ramdisk_ctrl_client.c)

    Connecting, one request and its response, the wrappers for each command,
    and the correspondence with the server: a call through the socket has the
    result of the operation it names. *)

From S2P Require Import Prelude.
From S2P Require Import Mem.
From S2P Require Import Bytes.
From S2P Require Import SockIO.
From S2P Require Import Backend.
From S2P Require Import CtrlProto.
From S2P Require Import UrmaMgr.
From S2P Require Import UrmaQueue.
From S2P Require Import CtrlServer.

(** What [socket] (a descriptor or an errno) and [connect] (0 or an errno)
    answer. *)
Record conn_env : Type := mk_conn_env {
  ne_socket : Z + Z;
  ne_connect : list Z -> Z
}.

(** The result and the open descriptors; the path is cut to the address. *)
Definition connect_sock (env : conn_env) (path : option (list Z)) (fds : gset Z) : Z * gset Z :=
  match path with
  | None => (- EINVAL, fds)
  | Some path =>
      match ne_socket env with
      | inr e => (- e, fds)
      | inl fd =>
          let fds1 := fds ∪ {[fd]} in
          let e := ne_connect env (take 107 path) in
          if negb (e =? 0) then (- e, fds1 ∖ {[fd]}) else (fd, fds1)
      end
  end.

(** What a transaction leaves behind: result, bytes received into the caller's
    buffer, the new [*resp_payload_len] if it was set, the stream and the open
    descriptors. *)
Record transact_ret : Type := mk_ret {
  tr_rc : Z;
  tr_data : list Z;
  tr_len : option Z;
  tr_sock : sock;
  tr_fds : gset Z
}.

(** [payload] is [None] for [NULL]; [resp] is the capacity of the caller's
    buffer, [None] when it passes no buffer; [s] is the connected stream. *)
Definition ramdisk_ctrl_transact (env : conn_env) (sock_path : option (list Z)) (opcode : Z)
    (payload : option (list Z)) (payload_len : Z) (resp : option Z) (request_id : Z)
    (s : sock) (fds : gset Z) : option transact_ret :=
  if negb (payload_len =? 0) && bool_decide (payload = None)
  then Some (mk_ret (- EINVAL) [] None s fds) else
  let '(fd, fds) := connect_sock env sock_path fds in
  if fd <? 0 then Some (mk_ret fd [] None s fds) else
  let out rc data len s := Some (mk_ret rc data len s (fds ∖ {[fd]})) in
  let hdr := mk_hdr RAMDISK_CTRL_MAGIC RAMDISK_CTRL_VERSION opcode payload_len 0 request_id in
  '(n, s) ← write_full (hdr_to_bytes hdr) s;
  if s32 n <? 0 then out (s32 n) [] None s else
  '(n, s) ← (if negb (payload_len =? 0)
             then write_full (take (Z.to_nat payload_len) (default [] payload)) s
             else Some (0, s));
  if negb (payload_len =? 0) && (s32 n <? 0) then out (s32 n) [] None s else
  '(n, d, s) ← client_read_full resp_size s;
  if s32 n <? 0 then out (s32 n) [] None s else
  let r := resp_of_bytes d in
  if negb (ch_magic (cr_hdr r) =? RAMDISK_CTRL_MAGIC)
     || negb (ch_version (cr_hdr r) =? RAMDISK_CTRL_VERSION)
  then out (- EPROTO) [] None s else
  if negb (cr_payload_len r =? 0) then
    match resp with
    | None => out (- ENOSPC) [] None s
    | Some cap =>
        if cap <? cr_payload_len r then out (- ENOSPC) [] None s else
        '(n, d, s) ← client_read_full (cr_payload_len r) s;
        if s32 n <? 0 then out (s32 n) d None s
        else out (cr_status r) d (Some (cr_payload_len r)) s
    end
  else out (cr_status r) [] None s.

(** ** The wrappers *)

(** The status the caller sees: the bytes received over a zeroed struct. *)
Definition ramdisk_ctrl_query_status (env : conn_env) (sock_path : option (list Z))
    (status : bool) (s : sock) (fds : gset Z) : option (Z * ramdisk_ctrl_status * transact_ret) :=
  if negb status then Some (- EINVAL, status_zero, mk_ret (- EINVAL) [] None s fds) else
  r ← ramdisk_ctrl_transact env sock_path RAMDISK_CTRL_QUERY_STATUS None 0 (Some status_size) 1 s fds;
  Some (tr_rc r,
        status_of_bytes (tr_data r ++ drop (length (tr_data r)) (replicate 48 0)), r).

Definition ramdisk_ctrl_enable_urma (env : conn_env) (sock_path : option (list Z)) (s : sock)
    (fds : gset Z) : option transact_ret :=
  ramdisk_ctrl_transact env sock_path RAMDISK_CTRL_URMA_ENABLE None 0 None 1 s fds.

Definition ramdisk_ctrl_disable_urma (env : conn_env) (sock_path : option (list Z)) (s : sock)
    (fds : gset Z) : option transact_ret :=
  ramdisk_ctrl_transact env sock_path RAMDISK_CTRL_URMA_DISABLE None 0 None 1 s fds.

Definition ramdisk_ctrl_peer_connect (env : conn_env) (sock_path : option (list Z))
    (peer : option ramdisk_ctrl_peer_connect_info) (s : sock) (fds : gset Z)
    : option transact_ret :=
  match peer with
  | None => Some (mk_ret (- EINVAL) [] None s fds)
  | Some p => ramdisk_ctrl_transact env sock_path RAMDISK_CTRL_PEER_CONNECT
                (Some (peer_info_to_bytes p)) peer_info_size None 1 s fds
  end.

Definition ramdisk_ctrl_peer_disconnect (env : conn_env) (sock_path : option (list Z))
    (peer_id : Z) (s : sock) (fds : gset Z) : option transact_ret :=
  ramdisk_ctrl_transact env sock_path RAMDISK_CTRL_PEER_DISCONNECT
    (Some (disconnect_to_bytes (mk_disconnect peer_id))) disconnect_size None 1 s fds.

Definition ramdisk_ctrl_urma_transfer (env : conn_env) (sock_path : option (list Z))
    (xfer : option ramdisk_ctrl_urma_transfer) (s : sock) (fds : gset Z) : option transact_ret :=
  match xfer with
  | None => Some (mk_ret (- EINVAL) [] None s fds)
  | Some x => ramdisk_ctrl_transact env sock_path RAMDISK_CTRL_URMA_TRANSFER
                (Some (transfer_to_bytes x)) transfer_size None (ct_request_id x) s fds
  end.

(** ** A request on the wire *)

Definition request_hdr (op len id : Z) : ramdisk_ctrl_hdr :=
  mk_hdr RAMDISK_CTRL_MAGIC RAMDISK_CTRL_VERSION op len 0 id.

Definition request_bytes (op : Z) (payload : list Z) (id : Z) : list Z :=
  hdr_to_bytes (request_hdr op (zlength payload) id) ++ payload.

Lemma request_hdr_typed op len id :
  is_u16 op -> is_u32 len -> is_u64 id -> hdr_typed (request_hdr op len id).
Proof.
  intros. unfold request_hdr. split_and!; cbn; auto; vm_compute; intuition congruence.
Qed.

(** The server's side of one request: the reference operation and its answer. *)
Lemma serve_request_op env junk w s h op payload id rc data w' h' rest :
  sock_quiet s -> sk_in s = request_bytes op payload id ++ rest ->
  is_u16 op -> is_u64 id -> zlength payload <= RAMDISK_CTRL_MAX_PAYLOAD ->
  ctrl_op env w op (zlength payload) (payload_of junk payload) h = Some (Some (rc, data, w'), h') ->
  exists s', serve_request env junk w s h = Some (Some (inl (w', s')), h') /\ sock_quiet s' /\
    sk_in s' = rest /\
    sk_out s' = sk_out s ++ resp_to_bytes (resp_for (request_hdr op (zlength payload) id) rc data)
                ++ data.
Proof.
  intros Q Hin Top Tid Hmax Eop. unfold serve_request, request_bytes in *.
  unfold RAMDISK_CTRL_MAX_PAYLOAD in Hmax. rewrite <- app_assoc in Hin.
  assert (Hp0 : 0 <= zlength payload) by (unfold zlength; lia).
  set (hdr := request_hdr op (zlength payload) id) in *.
  assert (T : hdr_typed hdr) by (apply request_hdr_typed; auto; unfold is_u32; lia).
  destruct (read_full_data hdr_size s) as (sch & E1 & Q1);
    [apply Q|unfold hdr_size; lia
    |rewrite Hin; unfold hdr_size, zlength; rewrite length_app, length_hdr; lia|].
  rewrite E1, Hin. change (Z.to_nat hdr_size) with 24%nat.
  rewrite take_app_length', drop_app_length' by (rewrite length_hdr; reflexivity). mstep.
  change (hdr_size =? 0) with false. change (hdr_size <? 0) with false. cbv iota.
  pose proof (hdr_roundtrip hdr [] T) as Eh. rewrite app_nil_r in Eh. rewrite Eh.
  cbn [ch_magic ch_version ch_payload_len hdr request_hdr]. rewrite !Z.eqb_refl. cbn [negb orb].
  destruct (zlength payload >? RAMDISK_CTRL_MAX_PAYLOAD) eqn:Eg;
    [unfold RAMDISK_CTRL_MAX_PAYLOAD in Eg; lia|].
  assert (Hread : exists n sch2,
    (if negb (zlength payload =? 0)
     then lift (read_full (zlength payload) (mk_sock (payload ++ rest) sch (sk_out s) (sk_wr s)))
     else mret (0, [], mk_sock (payload ++ rest) sch (sk_out s) (sk_wr s))) h
    = Some (n, payload, mk_sock rest sch2 (sk_out s) (sk_wr s), h) /\ no_fail sch2 /\ 0 <= n).
  { destruct (Z.eqb_spec (zlength payload) 0) as [E0|E0]; cbn [negb].
    - destruct payload; [|unfold zlength in E0; cbn in E0; lia]. exists 0, sch. split_and!; auto; lia.
    - destruct (read_full_data (zlength payload) (mk_sock (payload ++ rest) sch (sk_out s) (sk_wr s)))
        as (sch2 & E2 & Q2); auto; [cbn; unfold zlength; rewrite length_app; lia|].
      exists (zlength payload), sch2. rewrite E2. cbn [sk_in sk_out sk_wr].
      replace (Z.to_nat (zlength payload)) with (length payload) by (unfold zlength; lia).
      rewrite take_app_length, drop_app_length. split_and!; auto. }
  destruct Hread as (n & sch2 & E2 & Q2 & Hn). mstep. rewrite E2. mstep.
  destruct (Z.ltb_spec n 0); [lia|]. rewrite andb_false_r. mstep. rewrite handle_request_op.
  cbn [ch_opcode ch_payload_len hdr request_hdr]. rewrite Eop.
  destruct (send_response_ok hdr rc data (mk_sock rest sch2 (sk_out s) (sk_wr s))) as (sch3 & E3 & Q3);
    [apply Q|]. cbn [sk_in sk_rd sk_out] in E3. fold hdr. rewrite E3. mstep.
  destruct (Z.ltb_spec (zlength data) 0); [unfold zlength in *; lia|].
  eexists. split; [reflexivity|]. split; [split; auto|]. auto.
Qed.

(** A connection that succeeds. *)
Definition conn_ok (env : conn_env) (fd : Z) (fds : gset Z) : Prop :=
  ne_socket env = inl fd /\ 0 <= fd /\ (fd ∉ fds) /\ forall p, ne_connect env p = 0.

Lemma s32_small v : - 2 ^ 31 <= v < 2 ^ 31 -> s32 v = v.
Proof.
  intros Hv. rewrite <- (s32_u32 v Hv) at 2. unfold s32, u32, wrap.
  rewrite Z.mod_mod by lia. auto.
Qed.

(** The client's side: it sends exactly the request and returns what the
    response says. *)
Lemma transact_op env path op payload id resp c fds fd rc data rest :
  conn_ok env fd fds -> sock_quiet c -> is_u16 op -> is_u64 id ->
  zlength payload <= RAMDISK_CTRL_MAX_PAYLOAD -> - 2 ^ 31 <= rc < 2 ^ 31 ->
  zlength data < 2 ^ 31 -> (data = [] \/ exists cap, resp = Some cap /\ zlength data <= cap) ->
  sk_in c = (resp_to_bytes (resp_for (request_hdr op (zlength payload) id) rc data) ++ data) ++ rest ->
  exists c', ramdisk_ctrl_transact env (Some path) op (Some payload) (zlength payload) resp id c fds
    = Some (mk_ret rc data (if zlength data =? 0 then None else Some (zlength data)) c' fds) /\
    sk_out c' = sk_out c ++ request_bytes op payload id.
Proof.
  intros (Es & Hfd & Hnew & Ec) Q Top Tid Hmax Hrc Hdl Hcap Hin.
  unfold ramdisk_ctrl_transact. rewrite (bool_decide_false (Some payload = None)) by discriminate.
  rewrite andb_false_r. unfold connect_sock. rewrite Es, Ec. cbn [Z.eqb negb].
  destruct (Z.ltb_spec fd 0); [lia|]. rewrite (set_add_del fd fds Hnew).
  fold (request_hdr op (zlength payload) id). set (hdr := request_hdr op (zlength payload) id) in *.
  unfold RAMDISK_CTRL_MAX_PAYLOAD in Hmax.
  destruct (write_full_data (hdr_to_bytes hdr) c) as (w1 & -> & Q1); [apply Q|].
  cbn [mbind option_bind]. unfold zlength at 1. rewrite length_hdr.
  change (s32 (Z.of_nat 24)) with 24. cbn [Z.ltb Z.compare].
  assert (Hp : exists n w2,
    (if negb (zlength payload =? 0)
     then write_full (take (Z.to_nat (zlength payload)) (default [] (Some payload)))
            (mk_sock (sk_in c) (sk_rd c) (sk_out c ++ hdr_to_bytes hdr) w1)
     else Some (0, mk_sock (sk_in c) (sk_rd c) (sk_out c ++ hdr_to_bytes hdr) w1))
    = Some (n, mk_sock (sk_in c) (sk_rd c) (sk_out c ++ request_bytes op payload id) w2) /\
    s32 n = n /\ 0 <= n).
  { unfold request_bytes. fold hdr. destruct (Z.eqb_spec (zlength payload) 0) as [E0|E0]; cbn [negb].
    - destruct payload; [|unfold zlength in E0; cbn in E0; lia]. rewrite app_nil_r.
      exists 0, w1. split_and!; auto; lia.
    - replace (Z.to_nat (zlength payload)) with (length payload) by (unfold zlength; lia).
      change (default [] (Some payload)) with payload. rewrite take_ge by lia.
      destruct (write_full_data payload (mk_sock (sk_in c) (sk_rd c)
        (sk_out c ++ hdr_to_bytes hdr) w1)) as (w2 & E2 & Q2); auto.
      exists (zlength payload), w2. cbn [sk_in sk_rd sk_out] in E2. rewrite app_assoc.
      split; [exact E2|]. split; [apply s32_small; unfold zlength in *; lia|unfold zlength; lia]. }
  destruct Hp as (n & w2 & Ep & Hn1 & Hn2). rewrite Ep. cbn [mbind option_bind].
  rewrite Hn1. destruct (Z.ltb_spec n 0); [lia|]. rewrite andb_false_r.
  set (r := resp_for hdr rc data) in *.
  set (c1 := mk_sock (sk_in c) (sk_rd c) (sk_out c ++ request_bytes op payload id) w2).
  rewrite <- app_assoc in Hin.
  destruct (client_read_full_data resp_size c1) as (sch & -> & Q3);
    [apply Q|unfold resp_size; lia
    |cbn; rewrite Hin; unfold resp_size, zlength; rewrite length_app, length_resp; lia|].
  cbn [mbind option_bind c1 sk_in sk_out sk_wr]. rewrite Hin.
  change (Z.to_nat resp_size) with 32%nat. change (s32 resp_size) with 32. cbn [Z.ltb Z.compare].
  rewrite take_app_length', drop_app_length' by (rewrite length_resp; reflexivity).
  assert (Hz : 0 <= zlength data) by (unfold zlength; lia).
  pose proof (resp_roundtrip r []) as Er. rewrite app_nil_r in Er. rewrite Er.
  2: { apply (request_hdr_typed op (u32 (resp_size - hdr_size + zlength data)) id); auto.
       apply wrap_bound. lia. }
  2: { exact Hrc. }
  2: { unfold r. cbn. unfold is_u32. lia. }
  cbn [r resp_for cr_hdr ch_magic ch_version cr_payload_len cr_status]. rewrite !Z.eqb_refl.
  cbn [negb orb]. destruct (Z.eqb_spec (zlength data) 0) as [E0|E0]; cbn [negb].
  { destruct data; [|unfold zlength in E0; cbn in E0; lia]. eexists. split; reflexivity. }
  destruct Hcap as [->|(cap & -> & Hcap)]; [unfold zlength in E0; cbn in E0; lia|].
  destruct (Z.ltb_spec cap (zlength data)); [lia|].
  set (c2 := mk_sock (data ++ rest) sch (sk_out c ++ request_bytes op payload id) w2).
  destruct (client_read_full_data (zlength data) c2) as (sch3 & -> & _);
    [auto|lia|cbn; unfold zlength; rewrite length_app; lia|].
  cbn [mbind option_bind c2 sk_in sk_out sk_wr]. rewrite s32_small by lia.
  destruct (Z.ltb_spec (zlength data) 0); [lia|].
  replace (Z.to_nat (zlength data)) with (length data) by (unfold zlength; lia).
  rewrite take_app_length, drop_app_length. eexists. split; reflexivity.
Qed.

(** C20: a call through the control socket is the operation itself.  For every
    opcode and payload, and whatever short transfers and signals both ends see:
    when the reference operation on the manager gives a result, a payload and a
    new state, then the server, given the bytes the client library sends,
    reaches that state and answers, and the client library, given that answer,
    returns exactly that result and payload and closes its descriptor. *)
Theorem ctrl_rpc_transparent env junk w h op payload id rc data w' h' srv cenv path resp cli fds fd :
  is_u16 op -> is_u64 id -> zlength payload <= RAMDISK_CTRL_MAX_PAYLOAD ->
  ctrl_op env w op (zlength payload) (payload_of junk payload) h = Some (Some (rc, data, w'), h') ->
  - 2 ^ 31 <= rc < 2 ^ 31 -> zlength data < 2 ^ 31 ->
  (data = [] \/ exists cap, resp = Some cap /\ zlength data <= cap) ->
  sock_quiet srv -> sk_out srv = [] -> sock_quiet cli -> sk_out cli = [] -> conn_ok cenv fd fds ->
  sk_in srv = request_bytes op payload id ->
  exists srv', serve_request env junk w srv h = Some (Some (inl (w', srv')), h') /\
    (sk_in cli = sk_out srv' ->
     exists cli', ramdisk_ctrl_transact cenv (Some path) op (Some payload) (zlength payload) resp
                    id cli fds
       = Some (mk_ret rc data (if zlength data =? 0 then None else Some (zlength data)) cli' fds) /\
       sk_out cli' = sk_in srv).
Proof.
  intros Top Tid Hmax Eop Hrc Hdl Hcap Qs Hos Qc Hoc Hconn Hin.
  destruct (serve_request_op env junk w srv h op payload id rc data w' h' [] Qs)
    as (srv' & E & _ & _ & Ho); auto; [rewrite app_nil_r; exact Hin|].
  exists srv'. split; [exact E|]. intros Hic.
  destruct (transact_op cenv path op payload id resp cli fds fd rc data [] Hconn Qc)
    as (cli' & Ec & Hoc'); auto.
  - rewrite app_nil_r, Hic, Ho, Hos. reflexivity.
  - exists cli'. split; [exact Ec|]. rewrite Hoc', Hoc, Hin. reflexivity.
Qed.

(** The status a client reads is the manager's.  The struct that
    [ramdisk_ctrl_query_status] fills holds the disk's size and block size, the
    switch, the number of active peers and the queue and completion counters of
    the manager at the moment the server handled the request. *)
Theorem client_query_status env junk w h bk b size srv cenv path cli fds fd :
  mgr_idle w bk b size h ->
  status_typed (ramdisk_urma_fill_status (Some (uw_mgr w))
    (mk_status (bk_size bk) (bk_block_size bk) 0 0 0 0 0 0 0)) ->
  sock_quiet srv -> sk_out srv = [] -> sock_quiet cli -> sk_out cli = [] -> conn_ok cenv fd fds ->
  sk_in srv = request_bytes RAMDISK_CTRL_QUERY_STATUS [] 1 ->
  exists srv', serve_request env junk w srv h = Some (Some (inl (w, srv')), h) /\
    (sk_in cli = sk_out srv' ->
     exists r, ramdisk_ctrl_query_status cenv (Some path) true cli fds
       = Some (0, mk_status size (bk_block_size bk) (if um_enabled (uw_mgr w) then 1 else 0)
                    (count_active (um_peers (uw_mgr w)) 0) (um_queue_depth (uw_mgr w))
                    0 0 (um_completed (uw_mgr w)) (um_failed (uw_mgr w)), r) /\
       sk_out (tr_sock r) = sk_in srv).
Proof.
  intros [(bs & Hz & I) Hi] Ts Qs Hos Qc Hoc Hconn Hin.
  pose proof (ui_wf _ _ _ _ _ _ I) as W. pose proof (ui_init _ _ _ _ _ _ I) as Hini.
  destruct (ui_ring _ _ _ _ _ _ I) as (q & _ & R). pose proof (ro_pending _ _ _ _ _ _ R) as Hpe.
  unfold zlength in Hpe. cbn in Hpe.
  cbn [ramdisk_urma_fill_status] in Ts. rewrite Hini, Hi, Hpe in Ts. cbn [negb] in Ts.
  set (st := mk_status _ _ _ _ _ _ _ _ _) in Ts.
  cbn [cs_size cs_block_size cs_peer_count] in st.
  assert (Eop : ctrl_op env w RAMDISK_CTRL_QUERY_STATUS (zlength (@nil Z)) (payload_of junk []) h
                = Some (Some (0, status_to_bytes st, w), h)).
  { unfold ctrl_op. rewrite Z.eqb_refl. cbn [ramdisk_urma_fill_status]. rewrite Hini. cbn [negb].
    rewrite (ui_backend _ _ _ _ _ _ I). cbn [ramdisk_backend_size ramdisk_backend_block_size].
    rewrite (bw_init _ _ _ _ W), Hi, Hpe. reflexivity. }
  assert (Hst : zlength (status_to_bytes st) = 48) by (unfold zlength; rewrite length_status; auto).
  assert (Top : is_u16 RAMDISK_CTRL_QUERY_STATUS)
    by (unfold is_u16, RAMDISK_CTRL_QUERY_STATUS; lia).
  assert (T1 : is_u64 1) by int_lia.
  assert (Hmax : zlength (@nil Z) <= RAMDISK_CTRL_MAX_PAYLOAD)
    by (unfold zlength, RAMDISK_CTRL_MAX_PAYLOAD; cbn; lia).
  destruct (serve_request_op env junk w srv h RAMDISK_CTRL_QUERY_STATUS [] 1 0 (status_to_bytes st)
    w h [] Qs) as (srv' & E & _ & _ & Ho); auto; try (rewrite app_nil_r; exact Hin).
  exists srv'. split; [exact E|]. intros Hic.
  destruct (transact_op cenv path RAMDISK_CTRL_QUERY_STATUS [] 1 (Some status_size) cli fds fd 0
    (status_to_bytes st) [] Hconn Qc) as (cli' & Ec & Hoc'); auto; try (rewrite Hst; lia); try lia.
  { right. exists status_size. split; auto. rewrite Hst. unfold status_size. lia. }
  { rewrite app_nil_r, Hic, Ho, Hos. reflexivity. }
  unfold ramdisk_ctrl_query_status. cbn [negb].
  assert (Et : ramdisk_ctrl_transact cenv (Some path) RAMDISK_CTRL_QUERY_STATUS None 0
                 (Some status_size) 1 cli fds
               = ramdisk_ctrl_transact cenv (Some path) RAMDISK_CTRL_QUERY_STATUS (Some []) (zlength (@nil Z))
                 (Some status_size) 1 cli fds) by reflexivity.
  rewrite Et, Ec. cbn [mbind option_bind tr_rc tr_data].
  rewrite drop_ge by (rewrite length_status, length_replicate; lia).
  rewrite app_nil_r, status_roundtrip by exact Ts. eexists. split.
  - unfold st. rewrite <- (bw_size _ _ _ _ W), Hz. reflexivity.
  - cbn [tr_sock]. rewrite Hoc', Hoc, Hin. reflexivity.
Qed.

(** C25: a transfer end to end, on a daemon with the mock provider that is idle.
    A valid transfer requested through the client library returns 0 to the caller
    after exactly [length] bytes have been copied between the disk at
    [local_offset] and the START of the peer's segment, in the direction asked for:
    [remote_hbm_addr] is checked but otherwise without influence, since the worker
    overwrites it, so the bytes are not those of the requested remote range unless
    that range begins the segment.  An invalid one returns the reference error and
    changes nothing.  The two ends' streams are without errors, with any partial
    transfers; while the server waits, the worker handles the request up to its log
    message, after any number of time-outs and spurious wake-ups ([env_ok]). *)
Theorem client_transfer_end_to_end env junk w h bk b bs x srv cenv path cli fds fd :
  urma_inv w bk b bs h [] -> um_inflight (uw_mgr w) = 0 -> env_ok env w -> transfer_typed x ->
  sock_quiet srv -> sk_out srv = [] -> sock_quiet cli -> sk_out cli = [] -> conn_ok cenv fd fds ->
  sk_in srv = request_bytes RAMDISK_CTRL_URMA_TRANSFER (transfer_to_bytes x) (ct_request_id x) ->
  let r := xfer_spec (um_enabled (uw_mgr w)) (zlength bs) (bk_block_size bk)
             (peer_lookup (um_peers (uw_mgr w))) x in
  exists w' srv' h', serve_request env junk w srv h = Some (Some (inl (w', srv')), h') /\
    (r <> 0 -> w' = w /\ h' = h) /\
    (r = 0 -> exists p hb hbs, peer_lookup (um_peers (uw_mgr w)) (ct_peer_id x) = Some p /\
       peer_mem p b h hb hbs /\
       h' = copy_effect (ct_direction x) (ct_local_offset x) 0 (ct_length x) b hb bs hbs h /\
       uw_reqs w' = uw_reqs w) /\
    (sk_in cli = sk_out srv' ->
     exists ret, ramdisk_ctrl_urma_transfer cenv (Some path) (Some x) cli fds = Some ret /\
       tr_rc ret = r /\ sk_out (tr_sock ret) = sk_in srv /\ tr_fds ret = fds).
Proof.
  intros I Hi [Hw Hfr] Tx Qs Hos Qc Hoc Hconn Hin. cbn zeta. set (r := xfer_spec _ _ _ _ x).
  destruct (transfer_sync_full w bk b bs h x (cv_frame env) I Hi Tx Hfr) as [H1 H2].
  cbn zeta in *. fold r in H1, H2.
  assert (Hl : zlength (transfer_to_bytes x) = transfer_size)
    by (unfold zlength; rewrite length_transfer; auto).
  assert (Hr : rc_ok r) by apply xfer_spec_rc.
  assert (Hop : exists w' h',
    ctrl_op env w RAMDISK_CTRL_URMA_TRANSFER (zlength (transfer_to_bytes x))
      (payload_of junk (transfer_to_bytes x)) h = Some (Some (r, [], w'), h') /\
    (r <> 0 -> w' = w /\ h' = h) /\
    (r = 0 -> exists p hb hbs, peer_lookup (um_peers (uw_mgr w)) (ct_peer_id x) = Some p /\
       peer_mem p b h hb hbs /\
       h' = copy_effect (ct_direction x) (ct_local_offset x) 0 (ct_length x) b hb bs hbs h /\
       uw_reqs w' = uw_reqs w)).
  { unfold ctrl_op. cbn [Z.eqb RAMDISK_CTRL_PEER_DISCONNECT RAMDISK_CTRL_QUERY_STATUS
      RAMDISK_CTRL_URMA_ENABLE RAMDISK_CTRL_URMA_DISABLE RAMDISK_CTRL_PEER_CONNECT
      RAMDISK_CTRL_URMA_TRANSFER Pos.eqb].
    rewrite Hl, Z.eqb_refl. cbn [negb]. unfold payload_of. rewrite transfer_roundtrip by auto.
    mstep. destruct (Z.eq_dec r 0) as [E0|E0].
    - destruct (H2 E0) as (p & hb & hbs & w' & Hp & M & E & _ & _ & Hrq & _).
      rewrite (transfer_sync_waits _ _ _ _ _ _ _ Hw E). mstep. eexists _, _. rewrite E0. split; [reflexivity|].
      split; [intros; contradiction|]. intros _. eauto 10.
    - rewrite (H1 E0). mstep. eexists _, _. split; [reflexivity|]. split; [auto|].
      intros; contradiction. }
  destruct Hop as (w' & h' & Eop & Hbad & Hgood).
  unfold rc_ok in Hr. unfold transfer_typed in Tx.
  assert (Top : is_u16 RAMDISK_CTRL_URMA_TRANSFER) by (vm_compute; intuition congruence).
  assert (Tid : is_u64 (ct_request_id x)) by tauto.
  assert (Hmax : zlength (transfer_to_bytes x) <= RAMDISK_CTRL_MAX_PAYLOAD)
    by (rewrite Hl; vm_compute; discriminate).
  assert (Hrc : - 2 ^ 31 <= r < 2 ^ 31) by lia.
  assert (Hnil : zlength (@nil Z) < 2 ^ 31) by (vm_compute; reflexivity).
  destruct (serve_request_op env junk w srv h RAMDISK_CTRL_URMA_TRANSFER (transfer_to_bytes x)
    (ct_request_id x) r [] w' h' [] Qs) as (srv' & E & _ & _ & Ho); auto;
    try (rewrite app_nil_r; exact Hin).
  exists w', srv', h'. split; [exact E|]. split; [exact Hbad|]. split; [exact Hgood|]. intros Hic.
  destruct (transact_op cenv path RAMDISK_CTRL_URMA_TRANSFER (transfer_to_bytes x)
    (ct_request_id x) None cli fds fd r [] [] Hconn Qc Top Tid Hmax Hrc Hnil (or_introl eq_refl))
    as (cli' & Ec & Hoc').
  - rewrite Hic, Ho, Hos, !app_nil_r. reflexivity.
  - unfold ramdisk_ctrl_urma_transfer. rewrite Hl in Ec. rewrite Ec.
    eexists. split; [reflexivity|]. cbn [tr_rc tr_sock tr_fds].
    split; [reflexivity|]. split; [|reflexivity]. rewrite Hoc', Hoc, Hin. reflexivity.
Qed.

(** ** Concrete exchanges *)

Definition ex_conn : conn_env := mk_conn_env (inl 5) (fun _ => 0).

Lemma ex_conn_ok : conn_ok ex_conn 5 {[3]}.
Proof. split_and!; [reflexivity|lia|set_solver|reflexivity]. Qed.

Lemma ctrl_rpc_transparent_witness :
  let req := request_bytes RAMDISK_CTRL_URMA_DISABLE [] 1 in
  exists w' srv', serve_request ex_ctrl_env (replicate 4096 0) ex_world
                    (mk_sock req [Chunk 3] [] [Intr]) ex_urma_heap
                  = Some (Some (inl (w', srv')), ex_urma_heap) /\ um_enabled (uw_mgr w') = false.
Proof.
  intros req. destruct (ctrl_rpc_transparent ex_ctrl_env (replicate 4096 0) ex_world ex_urma_heap
    RAMDISK_CTRL_URMA_DISABLE [] 1 0 []
    (mk_world (set_enabled false ex_mgr) (Some ex_backend) ∅) ex_urma_heap
    (mk_sock req [Chunk 3] [] [Intr]) ex_conn [47] None (mk_sock [] [] [] []) {[3]} 5)
    as (srv' & E & _); try reflexivity; try exact ex_conn_ok;
    try (vm_compute; intuition congruence).
  - split; repeat constructor.
  - split; repeat constructor.
  - eexists _, srv'. split; [exact E|reflexivity].
Defined.

Lemma client_query_status_witness :
  exists srv', serve_request ex_ctrl_env (replicate 4096 0) ex_world
    (mk_sock (request_bytes RAMDISK_CTRL_QUERY_STATUS [] 1) [] [] []) ex_urma_heap
  = Some (Some (inl (ex_world, srv')), ex_urma_heap).
Proof.
  destruct (client_query_status ex_ctrl_env (replicate 4096 0) ex_world ex_urma_heap ex_backend 1
    1024 (mk_sock (request_bytes RAMDISK_CTRL_QUERY_STATUS [] 1) [] [] []) ex_conn [47]
    (mk_sock [] [] [] []) {[3]} 5 ex_mgr_idle) as (srv' & E & _); try reflexivity;
    try exact ex_conn_ok; [vm_compute; intuition congruence|split; constructor..|].
  exists srv'. exact E.
Defined.

Lemma client_transfer_end_to_end_witness :
  exists w' srv' h', serve_request ex_ctrl_env (replicate 4096 0) ex_world
    (mk_sock (request_bytes RAMDISK_CTRL_URMA_TRANSFER (transfer_to_bytes ex_xfer) 1) [] [] [])
    ex_urma_heap = Some (Some (inl (w', srv')), h').
Proof.
  destruct (client_transfer_end_to_end ex_ctrl_env (replicate 4096 0) ex_world ex_urma_heap ex_backend 1
    (replicate 1024 5) ex_xfer
    (mk_sock (request_bytes RAMDISK_CTRL_URMA_TRANSFER (transfer_to_bytes ex_xfer) 1) [] [] [])
    ex_conn [47] (mk_sock [] [] [] []) {[3]} 5 ex_urma_inv)
    as (w' & srv' & h' & E & _); try reflexivity; try exact ex_conn_ok; try exact ex_xfer_typed;
    try exact ex_env_ok; try (split; constructor).
  exists w', srv', h'. exact E.
Defined.
