(* ===== verification/Eid.v ===== *)
(** * EID texts

    The two parsers of 16-byte EIDs, [parse_eid_text] of ramdisk_urma.c and
    [ramdisk_ctrl_parse_eid] of ramdisk_ctrl_client.c, and the printer
    [format_eid] of the example client.  A text is the list of its character
    codes without the terminator. *)

From S2P Require Import Prelude.

(** The character codes of a constant. *)
Definition text_of (s : string) : list Z :=
  map (fun a => Z.of_nat (Ascii.nat_of_ascii a)) (String.list_ascii_of_string s).

Definition ch_colon : Z := 58.

Definition ch_dash : Z := 45.

Definition ch_dot : Z := 46.

(** The same function in both files. *)
Definition hex_value (c : Z) : Z :=
  if (c >=? 48) && (c <=? 57) then c - 48
  else if (c >=? 97) && (c <=? 102) then c - 97 + 10
  else if (c >=? 65) && (c <=? 70) then c - 65 + 10
  else - 1.

Definition isspace (c : Z) : bool := (c =? 32) || ((9 <=? c) && (c <=? 13)).

(** The loop of [parse_eid_text]: [nibbles], [high] and [raw]. *)
Fixpoint parse_eid_text_loop (text : list Z) (nibbles high : Z) (raw : list Z)
    : option (Z * Z * list Z) :=
  match text with
  | [] => Some (nibbles, high, raw)
  | c :: text' =>
      if (c =? ch_colon) || (c =? ch_dash) || isspace c
      then parse_eid_text_loop text' nibbles high raw
      else
        let v := hex_value c in
        if v <? 0 then None else
        if nibbles >=? 32 then None else
        if high <? 0 then parse_eid_text_loop text' (u32 (nibbles + 1)) v raw
        else parse_eid_text_loop text' (u32 (nibbles + 1)) (- 1)
               (<[Z.to_nat (nibbles / 2) := u8 (Z.lor (Z.shiftl high 4) v)]> raw)
  end.

(** The result and [*eid] afterwards. *)
Definition parse_eid_text (text : option (list Z)) (eid : option (list Z))
    : Z * option (list Z) :=
  match text, eid with
  | Some text, Some _ =>
      match parse_eid_text_loop text 0 (- 1) (replicate 16 0) with
      | None => (- EINVAL, eid)
      | Some (nibbles, high, raw) =>
          if negb (nibbles =? 32) || (high >=? 0) then (- EINVAL, eid) else (0, Some raw)
      end
  | _, _ => (- EINVAL, eid)
  end.

(** The loop of [ramdisk_ctrl_parse_eid]; the EID so far is kept on errors. *)
Fixpoint ctrl_parse_eid_loop (text : list Z) (high out : Z) (eid : list Z)
    : Z * Z * list Z + list Z :=
  match text with
  | [] => inl (high, out, eid)
  | c :: text' =>
      if (c =? ch_colon) || (c =? ch_dash) || (c =? ch_dot)
      then ctrl_parse_eid_loop text' high out eid
      else
        let v := hex_value c in
        if v <? 0 then inr eid else
        if high <? 0 then ctrl_parse_eid_loop text' v out eid
        else if out >=? 16 then inr eid
        else ctrl_parse_eid_loop text' (- 1) (u32 (out + 1))
               (<[Z.to_nat out := u8 (Z.lor (Z.shiftl high 4) v)]> eid)
  end.

Definition ramdisk_ctrl_parse_eid (text : option (list Z)) (eid : option (list Z))
    : Z * option (list Z) :=
  match text, eid with
  | Some text, Some _ =>
      match ctrl_parse_eid_loop text (- 1) 0 (replicate 16 0) with
      | inr e => (- EINVAL, Some e)
      | inl (high, out, e) => (if (high =? - 1) && (out =? 16) then 0 else - EINVAL, Some e)
      end
  | _, _ => (- EINVAL, eid)
  end.

Definition hex_digits : list Z :=
  [48; 49; 50; 51; 52; 53; 54; 55; 56; 57; 97; 98; 99; 100; 101; 102].

Definition hex_digit (v : Z) : Z := nth (Z.to_nat v) hex_digits 0.

Definition format_eid (eid : list Z) : list Z :=
  concat (map (fun b => [hex_digit (Z.shiftr b 4); hex_digit (Z.land b 0x0f)]) eid).

(** ** Reference: a text is its hex digits *)

(** The place of a character in a table. *)
Fixpoint index_of (c : Z) (table : list Z) : option Z :=
  match table with
  | [] => None
  | x :: table' => if c =? x then Some 0 else Z.succ <$> index_of c table'
  end.

(** The value of a hex digit is its place among the sixteen digits, in either
    case. *)
Definition digit_value (c : Z) : option Z :=
  match index_of c (text_of "0123456789abcdef") with
  | Some v => Some v
  | None => index_of c (text_of "0123456789ABCDEF")
  end.

(** Digits of a text after removing separators; [None] at any other character. *)
Fixpoint nibbles_of (sep : Z -> bool) (text : list Z) : option (list Z) :=
  match text with
  | [] => Some []
  | c :: text' =>
      if sep c then nibbles_of sep text'
      else d ← digit_value c; ds ← nibbles_of sep text'; Some (d :: ds)
  end.

Fixpoint pair_up (ds : list Z) : list Z :=
  match ds with
  | a :: b :: ds' => (16 * a + b) :: pair_up ds'
  | _ => []
  end.

(** The EID of a text: exactly 32 digits. *)
Definition eid_spec (sep : Z -> bool) (text : list Z) : option (list Z) :=
  ds ← nibbles_of sep text;
  if (length ds =? 32)%nat then Some (pair_up ds) else None.

(** The separators: colon, dash, space and the codes of tab, newline, vertical
    tab, form feed and carriage return; colon, dash and dot. *)
Definition daemon_sep (c : Z) : bool := existsb (Z.eqb c) (text_of ":- " ++ [9; 10; 11; 12; 13]).

Definition client_sep (c : Z) : bool := existsb (Z.eqb c) (text_of ":-.").

(** ** Lemmas *)

Lemma hex_value_range c : hex_value c = - 1 \/ 0 <= hex_value c < 16.
Proof. unfold hex_value. repeat case_if; lia. Qed.

Lemma index_of_out c table : Forall (fun x => x <> c) table -> index_of c table = None.
Proof.
  induction 1 as [|x table Hx _ IH]; [reflexivity|]. cbn. destruct (Z.eqb_spec c x); [congruence|].
  rewrite IH. reflexivity.
Qed.

(** The code's arithmetic on character codes computes the digit's value, and
    refuses exactly the other characters. *)
Lemma hex_value_digit c :
  digit_value c = if hex_value c <? 0 then None else Some (hex_value c).
Proof.
  destruct (decide (48 <= c < 103)) as [Hc|Hc].
  - assert (H : forall n, (n < 55)%nat -> digit_value (48 + Z.of_nat n)
      = if hex_value (48 + Z.of_nat n) <? 0 then None else Some (hex_value (48 + Z.of_nat n)))
      by (do 55 (destruct n as [|n]; [reflexivity|]); lia).
    specialize (H (Z.to_nat (c - 48)) ltac:(lia)).
    replace (48 + Z.of_nat (Z.to_nat (c - 48))) with c in H by lia. exact H.
  - unfold digit_value.
    let l := eval vm_compute in (text_of "0123456789abcdef") in
    change (text_of "0123456789abcdef") with l.
    let u := eval vm_compute in (text_of "0123456789ABCDEF") in
    change (text_of "0123456789ABCDEF") with u.
    rewrite !index_of_out by (repeat (constructor; [lia|]); constructor).
    unfold hex_value. repeat case_if; try lia; reflexivity.
Qed.

Lemma daemon_sep_code c : daemon_sep c = (c =? ch_colon) || (c =? ch_dash) || isspace c.
Proof.
  destruct (decide (9 <= c <= 13)) as [H|H].
  - assert (Hc : c = 9 \/ c = 10 \/ c = 11 \/ c = 12 \/ c = 13) by lia.
    destruct Hc as [-> |[-> |[-> |[-> | ->]]]]; reflexivity.
  - unfold daemon_sep, isspace, ch_colon, ch_dash. cbn -[Z.eqb Z.leb].
    replace (c =? 9) with false by lia. replace (c =? 10) with false by lia.
    replace (c =? 11) with false by lia. replace (c =? 12) with false by lia.
    replace (c =? 13) with false by lia. replace ((9 <=? c) && (c <=? 13)) with false by lia.
    rewrite !orb_false_r, orb_assoc. reflexivity.
Qed.

Lemma client_sep_code c : client_sep c = (c =? ch_colon) || (c =? ch_dash) || (c =? ch_dot).
Proof.
  unfold client_sep, ch_colon, ch_dash, ch_dot. cbn -[Z.eqb]. rewrite orb_false_r, orb_assoc.
  reflexivity.
Qed.

(** The digits as the code reads them. *)
Fixpoint code_nibbles (sep : Z -> bool) (text : list Z) : option (list Z) :=
  match text with
  | [] => Some []
  | c :: text' =>
      if sep c then code_nibbles sep text'
      else if hex_value c <? 0 then None
      else ds ← code_nibbles sep text'; Some (hex_value c :: ds)
  end.

Lemma nibbles_eq sep text : nibbles_of sep text = code_nibbles sep text.
Proof.
  induction text as [|c text IH]; [reflexivity|]. cbn [nibbles_of code_nibbles].
  rewrite IH, hex_value_digit.
  destruct (sep c), (hex_value c <? 0); reflexivity.
Qed.

Lemma nibble_byte a b : 0 <= a < 16 -> 0 <= b < 16 ->
  u8 (Z.lor (Z.shiftl a 4) b) = 16 * a + b.
Proof.
  intros Ha Hb. rewrite Z.shiftl_mul_pow2 by lia.
  assert (Hl : Z.land (a * 2 ^ 4) b = 0).
  { replace b with (Z.land (Z.ones 4) b).
    - rewrite Z.land_assoc, Z.land_ones, Z.mod_mul by lia. apply Z.land_0_l.
    - rewrite Z.land_comm, Z.land_ones by lia. apply Z.mod_small; lia. }
  pose proof (Z.add_lor_land (a * 2 ^ 4) b). unfold u8, wrap. rewrite Z.mod_small; lia.
Qed.

Lemma nibbles_range sep text ds :
  code_nibbles sep text = Some ds -> Forall (fun d => 0 <= d < 16) ds.
Proof.
  revert ds. induction text as [|c text IH]; cbn; intros ds E; [injection E as <-; constructor|].
  destruct (sep c); [auto|]. destruct (Z.ltb_spec (hex_value c) 0); [discriminate|].
  destruct (code_nibbles sep text) as [ds'|]; [|discriminate]. injection E as <-.
  constructor; auto. pose proof (hex_value_range c). lia.
Qed.

(** Writing the pairs of [ds] into [raw] from index [k]. *)
Definition write_pairs (k : Z) (ds raw : list Z) : list Z :=
  take (Z.to_nat k) raw ++ pair_up ds ++ drop (Z.to_nat k + length (pair_up ds)) raw.

Lemma length_pair_up_le n : forall ds, (length ds <= n)%nat -> length (pair_up ds) = Nat.div2 (length ds).
Proof.
  induction n as [|n IH]; intros ds Hn; [destruct ds; [reflexivity|cbn in Hn; lia]|].
  destruct ds as [|a [|b ds]]; [reflexivity..|]. cbn. rewrite IH; [auto|cbn in Hn; lia].
Qed.

Lemma length_pair_up ds : length (pair_up ds) = Nat.div2 (length ds).
Proof. apply (length_pair_up_le (length ds)). auto. Qed.

Lemma write_pairs_cons k a b ds raw :
  0 <= k < zlength raw ->
  write_pairs k (a :: b :: ds) raw = write_pairs (k + 1) ds (<[Z.to_nat k := 16 * a + b]> raw).
Proof.
  intros Hk. unfold write_pairs, zlength in *. cbn [pair_up length].
  replace (Z.to_nat (k + 1)) with (S (Z.to_nat k)) by lia.
  assert (Hlt : (Z.to_nat k < length raw)%nat) by lia.
  rewrite (take_S_r _ _ (16 * a + b)) by (apply list_lookup_insert_eq; auto).
  rewrite take_insert_ge by lia. rewrite <- app_assoc. cbn [app].
  rewrite drop_insert_lt by lia. do 4 f_equal. lia.
Qed.

(** The digit waiting for its partner after digits [ds]. *)
Definition waiting (ds : list Z) : Z :=
  if Nat.even (length ds) then - 1 else List.last ds 0.

Lemma waiting_cons2 a b ds : waiting (a :: b :: ds) = waiting ds.
Proof. unfold waiting. cbn [length Nat.even]. destruct ds; [reflexivity|]. reflexivity. Qed.

Lemma write_pairs_short k ds raw : (length ds <= 1)%nat -> write_pairs k ds raw = raw.
Proof.
  intros H. unfold write_pairs. destruct ds as [|a [|b ds]]; cbn in *; try lia;
    rewrite Nat.add_0_r; apply take_drop.
Qed.

Lemma text_loop_spec text : forall k pend raw,
  0 <= k -> (length pend <= 1)%nat -> Forall (fun d => 0 <= d < 16) pend ->
  2 * k + zlength pend <= 32 -> length raw = 16%nat ->
  parse_eid_text_loop text (2 * k + zlength pend) (waiting pend) raw
  = match code_nibbles daemon_sep text with
    | None => None
    | Some ds =>
        if 2 * k + zlength (pend ++ ds) <=? 32
        then Some (2 * k + zlength (pend ++ ds), waiting (pend ++ ds), write_pairs k (pend ++ ds) raw)
        else None
    end.
Proof.
  induction text as [|c text IH]; intros k pend raw Hk Hp Hr Hb Hl; cbn [parse_eid_text_loop code_nibbles].
  { rewrite app_nil_r. destruct (Z.leb_spec (2 * k + zlength pend) 32); [|lia].
    rewrite write_pairs_short by auto. auto. }
  rewrite daemon_sep_code.
  destruct ((c =? ch_colon) || (c =? ch_dash) || isspace c); [apply IH; auto|].
  destruct (Z.ltb_spec (hex_value c) 0) as [Hv|Hv]; [reflexivity|].
  pose proof (hex_value_range c) as Hrg.
  assert (Htoo : 2 * k + zlength pend >= 32 ->
    None = match (ds ← code_nibbles daemon_sep text; Some (hex_value c :: ds)) with
           | None => None
           | Some ds => if 2 * k + zlength (pend ++ ds) <=? 32
                        then Some (2 * k + zlength (pend ++ ds), waiting (pend ++ ds),
                                   write_pairs k (pend ++ ds) raw) else None end).
  { intros H. destruct (code_nibbles daemon_sep text) as [ds|]; [cbn|reflexivity].
    destruct (Z.leb_spec (2 * k + zlength (pend ++ hex_value c :: ds)) 32); [|auto].
    unfold zlength in *. rewrite length_app in *. cbn [length] in *. lia. }
  destruct (2 * k + zlength pend >=? 32) eqn:E32; [apply Htoo; lia|]. clear Htoo.
  unfold zlength in *. destruct pend as [|a [|]]; [| |cbn in Hp; lia]; cbn [length] in *.
  - change (waiting []) with (- 1). cbn [Z.ltb Z.compare].
    rewrite u32_small by int_lia.
    specialize (IH k [hex_value c] raw Hk). cbn [length app] in IH.
    replace (2 * k + Z.of_nat 0 + 1) with (2 * k + Z.of_nat 1) by lia.
    change (hex_value c) with (waiting [hex_value c]) at 1.
    rewrite IH; [|lia|repeat constructor; lia|lia|auto].
    destruct (code_nibbles daemon_sep text) as [ds|]; reflexivity.
  - apply Forall_cons in Hr as [Ha _]. change (waiting [a]) with a.
    destruct (Z.ltb_spec a 0); [lia|]. rewrite u32_small by int_lia.
    rewrite nibble_byte by lia.
    replace ((2 * k + Z.of_nat 1) / 2) with k
      by (apply Z.div_unique with 1; lia).
    specialize (IH (k + 1) [] (<[Z.to_nat k := 16 * a + hex_value c]> raw)).
    cbn [length app] in IH. change (waiting []) with (- 1) in IH.
    replace (2 * k + Z.of_nat 1 + 1) with (2 * (k + 1) + Z.of_nat 0) by lia.
    rewrite IH; [|lia|lia|constructor|lia|rewrite length_insert; auto].
    destruct (code_nibbles daemon_sep text) as [ds|]; [|reflexivity].
    cbn [mbind option_bind app length]. rewrite waiting_cons2.
    rewrite write_pairs_cons by (unfold zlength; lia).
    replace (2 * k + Z.of_nat (S (S (length ds)))) with (2 * (k + 1) + Z.of_nat (length ds)) by lia.
    reflexivity.
Qed.

Lemma client_loop_spec text : forall k pend eid,
  0 <= k <= 16 -> (length pend <= 1)%nat -> Forall (fun d => 0 <= d < 16) pend ->
  length eid = 16%nat ->
  exists e, ctrl_parse_eid_loop text (waiting pend) k eid
  = match code_nibbles client_sep text with
    | None => inr e
    | Some ds =>
        let n := k + Z.of_nat (Nat.div2 (length (pend ++ ds))) in
        if n <=? 16 then inl (waiting (pend ++ ds), n, write_pairs k (pend ++ ds) eid) else inr e
    end.
Proof.
  induction text as [|c text IH]; intros k pend eid Hk Hp Hr Hl; cbn [ctrl_parse_eid_loop code_nibbles].
  { exists eid. rewrite app_nil_r. destruct pend as [|a [|]]; [| |cbn in Hp; lia];
      cbn [length Nat.div2]; rewrite Z.add_0_r;
      (destruct (Z.leb_spec k 16); [|lia]); rewrite write_pairs_short by (cbn; lia); auto. }
  rewrite client_sep_code.
  destruct ((c =? ch_colon) || (c =? ch_dash) || (c =? ch_dot)); [apply IH; auto|].
  destruct (Z.ltb_spec (hex_value c) 0) as [Hv|Hv]; [eauto|].
  pose proof (hex_value_range c) as Hrg.
  destruct pend as [|a [|]]; [| |cbn in Hp; lia].
  - change (waiting []) with (- 1). cbn [Z.ltb Z.compare].
    destruct (IH k [hex_value c] eid) as [e E]; auto; [repeat constructor; lia|].
    change (hex_value c) with (waiting [hex_value c]) at 1. exists e. rewrite E.
    destruct (code_nibbles client_sep text) as [ds|]; reflexivity.
  - apply Forall_cons in Hr as [Ha _]. change (waiting [a]) with a.
    destruct (Z.ltb_spec a 0); [lia|]. destruct (k >=? 16) eqn:Ek.
    + exists eid. destruct (code_nibbles client_sep text) as [ds|]; [|reflexivity].
      cbn [mbind option_bind app length Nat.div2].
      destruct (Z.leb_spec (k + Z.of_nat (S (Nat.div2 (length ds)))) 16) as [H1|]; [|reflexivity].
      apply Z.geb_le in Ek. rewrite Nat2Z.inj_succ in H1. 
      pose proof (Nat2Z.is_nonneg (Nat.div2 (length ds))) as Hnn. clear - Ek H1 Hnn. lia.
    + rewrite u32_small by int_lia. rewrite nibble_byte by lia.
      destruct (IH (k + 1) [] (<[Z.to_nat k := 16 * a + hex_value c]> eid)) as [e E];
        [lia|cbn; lia|constructor|rewrite length_insert; auto|].
      change (waiting []) with (- 1) in E. exists e. rewrite E.
      destruct (code_nibbles client_sep text) as [ds|]; [|reflexivity].
      cbn [mbind option_bind app length Nat.div2]. rewrite waiting_cons2.
      rewrite write_pairs_cons by (unfold zlength; lia).
      replace (k + Z.of_nat (S (Nat.div2 (length ds)))) with (k + 1 + Z.of_nat (Nat.div2 (length ds)))
        by lia. reflexivity.
Qed.

Lemma write_pairs_all ds raw :
  length ds = 32%nat -> length raw = 16%nat -> write_pairs 0 ds raw = pair_up ds.
Proof.
  intros Hd Hr. unfold write_pairs. cbn [Z.to_nat Nat.add take].
  rewrite length_pair_up, Hd. rewrite drop_ge by (rewrite Hr; cbn; lia). apply app_nil_r.
Qed.

Lemma waiting_32 ds : length ds = 32%nat -> waiting ds = - 1.
Proof. intros H. unfold waiting. rewrite H. reflexivity. Qed.

Lemma last_range ds : Forall (fun d => 0 <= d < 16) ds -> 0 <= List.last ds 0 < 16.
Proof. induction 1 as [|d ds Hd _ IH]; [cbn; lia|]. destruct ds; [cbn; auto|exact IH]. Qed.

Lemma parsers_spec text e0 :
  parse_eid_text (Some text) (Some e0)
  = match eid_spec daemon_sep text with Some e => (0, Some e) | None => (- EINVAL, Some e0) end /\
  match eid_spec client_sep text with
  | Some e => ramdisk_ctrl_parse_eid (Some text) (Some e0) = (0, Some e)
  | None => fst (ramdisk_ctrl_parse_eid (Some text) (Some e0)) = - EINVAL
  end.
Proof.
  split.
  - unfold parse_eid_text, eid_spec. rewrite nibbles_eq.
    pose proof (text_loop_spec text 0 [] (replicate 16 0)) as E.
    change (2 * 0 + zlength []) with 0 in E. change (waiting []) with (- 1) in E.
    rewrite E; [|lia|cbn; lia|constructor|lia|reflexivity]. clear E. cbn [app].
    destruct (code_nibbles daemon_sep text) as [ds|]; [|reflexivity]. cbn [mbind option_bind].
    unfold zlength. rewrite Z.mul_0_r, Z.add_0_l.
    destruct (Nat.eqb_spec (length ds) 32) as [E|E].
    + rewrite E. cbn [Z.leb Z.of_nat Z.compare]. rewrite waiting_32, write_pairs_all by auto. reflexivity.
    + destruct (Z.leb_spec (Z.of_nat (length ds)) 32); [|reflexivity].
      destruct (Z.eqb_spec (Z.of_nat (length ds)) 32); [lia|]. reflexivity.
  - unfold ramdisk_ctrl_parse_eid, eid_spec. rewrite nibbles_eq.
    destruct (client_loop_spec text 0 [] (replicate 16 0)) as [e E];
      [lia|cbn; lia|constructor|reflexivity|].
    change (waiting []) with (- 1) in E. rewrite E. cbn [app].
    destruct (code_nibbles client_sep text) as [ds|] eqn:En; [|reflexivity]. cbn [mbind option_bind].
    cbn zeta. rewrite Z.add_0_l. destruct (Nat.eqb_spec (length ds) 32) as [E32|E32].
    + rewrite E32. change (Z.of_nat (Nat.div2 32)) with 16. cbn [Z.leb Z.compare].
      rewrite waiting_32, write_pairs_all by auto. reflexivity.
    + destruct (Z.of_nat (Nat.div2 (length ds)) <=? 16); [|reflexivity]. cbn [fst].
      destruct (Z.eqb_spec (waiting ds) (- 1)) as [Hw|]; [|reflexivity]. cbn [andb].
      destruct (Z.eqb_spec (Z.of_nat (Nat.div2 (length ds))) 16) as [Hd|]; [|reflexivity].
      exfalso. unfold waiting in Hw. pose proof (Nat.div2_odd (length ds)) as Hodd.
      rewrite <- Nat.negb_even in Hodd. destruct (Nat.even (length ds)); cbn in Hodd; [lia|].
      pose proof (last_range _ (nibbles_range _ _ _ En)). lia.
Qed.

(** C36: both EID parsers implement their grammar exactly.  For every text,
    [parse_eid_text] accepts it iff it is 32 hex digits with colons, dashes and
    white space between them, and [ramdisk_ctrl_parse_eid] iff it is 32 hex
    digits with colons, dashes and dots; the EID is the digits in pairs, the value
    of a digit being its place in 0123456789abcdef or 0123456789ABCDEF, which is
    how the reference reads it and not how the code does; the daemon's parser
    leaves its output untouched when it refuses a text. *)
Theorem eid_parsers_exact text e0 :
  parse_eid_text (Some text) (Some e0)
  = match eid_spec daemon_sep text with Some e => (0, Some e) | None => (- EINVAL, Some e0) end /\
  match eid_spec client_sep text with
  | Some e => ramdisk_ctrl_parse_eid (Some text) (Some e0) = (0, Some e)
  | None => fst (ramdisk_ctrl_parse_eid (Some text) (Some e0)) = - EINVAL
  end.
Proof. apply parsers_spec. Qed.

(** ** Printing *)

Lemma hex_digit_value v : 0 <= v < 16 -> hex_value (hex_digit v) = v /\
  daemon_sep (hex_digit v) = false /\ client_sep (hex_digit v) = false.
Proof.
  intros Hv.
  assert (H : forall n, (n < 16)%nat -> hex_value (hex_digit (Z.of_nat n)) = Z.of_nat n /\
    daemon_sep (hex_digit (Z.of_nat n)) = false /\ client_sep (hex_digit (Z.of_nat n)) = false)
    by (do 16 (destruct n as [|n]; [repeat split|]); lia).
  specialize (H (Z.to_nat v)). rewrite Z2Nat.id in H by lia. apply H. lia.
Qed.

Lemma format_nibbles sep eid :
  (forall v, 0 <= v < 16 -> sep (hex_digit v) = false) -> Forall is_u8 eid ->
  exists ds, nibbles_of sep (format_eid eid) = Some ds /\ length ds = (2 * length eid)%nat /\
    pair_up ds = eid.
Proof.
  intros Hs He. rewrite nibbles_eq. induction He as [|b eid Hb _ (ds & E & Hl & Hp)].
  { exists []. auto. }
  unfold is_u8 in Hb.
  assert (H1 : 0 <= Z.shiftr b 4 < 16).
  { rewrite Z.shiftr_div_pow2 by lia. split; [apply Z.div_pos; lia|apply Z.div_lt_upper_bound; lia]. }
  assert (H2 : Z.land b 0x0f = b mod 16) by (apply (Z.land_ones b 4); lia).
  assert (H3 : 0 <= Z.land b 0x0f < 16) by (rewrite H2; apply Z.mod_pos_bound; lia).
  exists (Z.shiftr b 4 :: Z.land b 0x0f :: ds).
  unfold format_eid in *. cbn [map concat app code_nibbles].
  rewrite !Hs by auto. destruct (hex_digit_value _ H1) as [-> _].
  destruct (hex_digit_value _ H3) as [-> _].
  destruct (Z.ltb_spec (Z.shiftr b 4) 0); [lia|].
  destruct (Z.ltb_spec (Z.land b 0x0f) 0); [lia|]. rewrite E. cbn [mbind option_bind].
  split; [reflexivity|]. split; [cbn; lia|]. cbn [pair_up]. rewrite Hp, H2. f_equal.
  rewrite Z.shiftr_div_pow2 by lia. change (2 ^ 4) with 16. pose proof (Z.div_mod b 16). lia.
Qed.

Lemma eid_read_back eid e0 :
  length eid = 16%nat -> Forall is_u8 eid ->
  parse_eid_text (Some (format_eid eid)) (Some e0) = (0, Some eid) /\
  ramdisk_ctrl_parse_eid (Some (format_eid eid)) (Some e0) = (0, Some eid).
Proof.
  intros Hl Hb. destruct (parsers_spec (format_eid eid) e0) as [E1 E2].
  destruct (format_nibbles daemon_sep eid) as (ds & Ed & Ld & Pd); auto;
    [intros; apply hex_digit_value; auto|].
  destruct (format_nibbles client_sep eid) as (dc & Ec & Lc & Pc); auto;
    [intros; apply hex_digit_value; auto|].
  unfold eid_spec in E1, E2. rewrite Ed in E1. rewrite Ec in E2. cbn [mbind option_bind] in *.
  rewrite Ld, Hl in E1. rewrite Lc, Hl in E2. cbn in E1, E2. rewrite Pd in E1. rewrite Pc in E2. auto.
Qed.

(** printing an EID and parsing the text gives the EID back, in the daemon
    and in the client library. *)
Theorem eid_roundtrip eid e0 :
  length eid = 16%nat -> Forall is_u8 eid ->
  parse_eid_text (Some (format_eid eid)) (Some e0) = (0, Some eid) /\
  ramdisk_ctrl_parse_eid (Some (format_eid eid)) (Some e0) = (0, Some eid).
Proof. apply eid_read_back. Qed.

Lemma eid_roundtrip_witness :
  parse_eid_text (Some (format_eid (replicate 16 0xa5))) (Some []) = (0, Some (replicate 16 0xa5)).
Proof.
  apply (eid_roundtrip (replicate 16 0xa5) []); [reflexivity|].
  apply Forall_replicate. unfold is_u8; lia.
Defined.
