(* ===== verification/NbdArgs.v ===== *)
(** * Command line of the NBD daemon (userspace-nbd/src/nbd_ramdisk.c)

    Sizes, mode names and [parse_args].  Texts are lists of character codes
    without the terminator; [getopt_long] is given by the options it yields. *)

From S2P Require Import Prelude.
From S2P Require Import Eid.

(** ** Numbers *)

Definition is_digit (c : Z) : bool := (48 <=? c) && (c <=? 57).

(** Longest prefix of decimal digits: its value and the rest. *)
Fixpoint scan_digits (text : list Z) (acc : Z) : Z * list Z :=
  match text with
  | c :: text' => if is_digit c then scan_digits text' (10 * acc + (c - 48)) else (acc, text)
  | [] => (acc, [])
  end.

Fixpoint skip_space (text : list Z) : list Z :=
  match text with
  | c :: text' => if isspace c then skip_space text' else text
  | [] => []
  end.

(** strtoull(text, &end, 10): the value and the text at [end].  Out of range
    gives ULLONG_MAX; without digits the value is 0 and [end] is [text]. *)
Definition strtoull10 (text : list Z) : Z * list Z :=
  let t := skip_space text in
  let '(neg, t) := match t with
                   | 45 :: t' => (true, t')
                   | 43 :: t' => (false, t')
                   | _ => (false, t)
                   end in
  match t with
  | c :: _ =>
      if is_digit c then
        let '(v, rest) := scan_digits t 0 in
        (if v >? UINT64_MAX then UINT64_MAX else if neg then u64 (- v) else v, rest)
      else (0, text)
  | [] => (0, text)
  end.

Definition parse_size (text : list Z) : Z :=
  let '(value, rest) := strtoull10 text in
  let mul :=
    match rest with
    | [] => Some 1
    | _ =>
        if bool_decide (rest = [75]) || bool_decide (rest = [107]) then Some 1024
        else if bool_decide (rest = [77]) || bool_decide (rest = [109]) then Some (1024 * 1024)
        else if bool_decide (rest = [71]) || bool_decide (rest = [103])
        then Some (1024 * 1024 * 1024)
        else None
    end in
  match mul with
  | None => 0
  | Some mul => if value >? UINT64_MAX / mul then 0 else u64 (value * mul)
  end.

(** ** Mode names *)

Definition parse_trans_mode (s : string) : Z :=
  if bool_decide (s = "rm"%string) then 0
  else if bool_decide (s = "rc"%string) then 1
  else if bool_decide (s = "um"%string) then 2
  else - 1.

Definition parse_tp_type (s : string) : Z :=
  if bool_decide (s = "rtp"%string) then 0
  else if bool_decide (s = "ctp"%string) then 1
  else if bool_decide (s = "utp"%string) then 2
  else - 1.

(** ** Options *)

(** The options of [struct daemon_ctx] that [parse_args] sets. *)
Record daemon_opts : Type := mk_opts {
  do_device : option (list Z);
  do_control_sock : list Z;
  do_size : Z;
  do_block_size : Z;
  do_enable_urma : bool;
  do_use_mock_urma : bool;
  do_urma_eid : option (list Z);
  do_eid_index : Z;
  do_urma_trans_mode : Z;
  do_urma_tp_type : Z;
  do_urma_token : Z;
  do_queue_depth : Z
}.

(** What [getopt_long] returns: the option and its argument; the value of
    [strtoul] on the argument where the source calls it. *)
Inductive opt_event : Type :=
| OptDevice (arg : list Z)
| OptSize (arg : list Z)
| OptBlockSize (v : Z)
| OptControlSock (arg : list Z)
| OptEnableUrma
| OptRealUrma
| OptUrmaEid (arg : list Z)
| OptEidIndex (v : Z)
| OptTransMode (arg : string)
| OptTpType (arg : string)
| OptUrmaToken (v : Z)
| OptQueueDepth (v : Z)
| OptHelp
| OptUnknown.

Definition default_control_sock : list Z :=
  map (fun a => Z.of_nat (Ascii.nat_of_ascii a))
      (String.list_ascii_of_string "/run/nbd-ramdisk/control.sock"%string).

(** The zeroed context with the defaults of [parse_args]. *)
Definition default_opts : daemon_opts :=
  mk_opts None default_control_sock 0 4096 false false None UINT32_MAX 0 1 0xACFE 32.

Definition apply_opt (o : opt_event) (c : daemon_opts) : option daemon_opts :=
  let '(mk_opts dev cs sz bs en mock eid idx tm tp tok qd) := c in
  match o with
  | OptDevice a => Some (mk_opts (Some a) cs sz bs en mock eid idx tm tp tok qd)
  | OptSize a => Some (mk_opts dev cs (parse_size a) bs en mock eid idx tm tp tok qd)
  | OptBlockSize v => Some (mk_opts dev cs sz (u32 v) en mock eid idx tm tp tok qd)
  | OptControlSock a => Some (mk_opts dev a sz bs en mock eid idx tm tp tok qd)
  | OptEnableUrma => Some (mk_opts dev cs sz bs true mock eid idx tm tp tok qd)
  | OptRealUrma => Some (mk_opts dev cs sz bs en false eid idx tm tp tok qd)
  | OptUrmaEid a => Some (mk_opts dev cs sz bs en mock (Some a) idx tm tp tok qd)
  | OptEidIndex v => Some (mk_opts dev cs sz bs en mock eid (u32 v) tm tp tok qd)
  | OptTransMode a =>
      let mode := parse_trans_mode a in
      if mode <? 0 then None
      else Some (mk_opts dev cs sz bs en mock eid idx (u32 mode) tp tok qd)
  | OptTpType a =>
      let type := parse_tp_type a in
      if type <? 0 then None
      else Some (mk_opts dev cs sz bs en mock eid idx tm (u32 type) tok qd)
  | OptUrmaToken v => Some (mk_opts dev cs sz bs en mock eid idx tm tp (u32 v) qd)
  | OptQueueDepth v => Some (mk_opts dev cs sz bs en mock eid idx tm tp tok (u32 v))
  | OptHelp | OptUnknown => None
  end.

Fixpoint parse_loop (os : list opt_event) (c : daemon_opts) : option daemon_opts :=
  match os with
  | [] => Some c
  | o :: os' => c ← apply_opt o c; parse_loop os' c
  end.

(** The result, and the context when it is 0. *)
Definition parse_args (os : list opt_event) : Z * option daemon_opts :=
  match parse_loop os default_opts with
  | None => (- EINVAL, None)
  | Some c =>
      match do_device c with
      | None => (- EINVAL, None)
      | Some _ => if do_size c =? 0 then (- EINVAL, None) else (0, Some c)
      end
  end.

(** ** Theorems *)

(** Value of a string of decimal digits. *)
Fixpoint dec_val (ds : list Z) (acc : Z) : Z :=
  match ds with [] => acc | d :: ds' => dec_val ds' (10 * acc + (d - 48)) end.

Lemma scan_digits_app ds rest acc :
  forallb is_digit ds = true -> (forall c r, rest = c :: r -> is_digit c = false) ->
  scan_digits (ds ++ rest) acc = (dec_val ds acc, rest).
Proof.
  revert acc. induction ds as [|d ds IH]; intros acc Hd Hr; cbn.
  - destruct rest as [|c r]; [reflexivity|]. cbn. rewrite (Hr c r eq_refl). reflexivity.
  - cbn in Hd. apply andb_true_iff in Hd as [-> Hd]. auto.
Qed.

Lemma strtoull10_digits ds rest :
  ds <> [] -> forallb is_digit ds = true -> (forall c r, rest = c :: r -> is_digit c = false) ->
  strtoull10 (ds ++ rest)
  = (if dec_val ds 0 >? UINT64_MAX then UINT64_MAX else dec_val ds 0, rest).
Proof.
  intros Hn Hd Hr. destruct ds as [|d ds]; [contradiction|].
  pose proof Hd as Hd'. cbn in Hd'. apply andb_true_iff in Hd' as [Hd0 _].
  assert (Hs : isspace d = false) by (unfold isspace, is_digit in *; lia).
  assert (Hr0 : 48 <= d <= 57) by (unfold is_digit in Hd0; lia).
  unfold strtoull10. cbn [app skip_space]. rewrite Hs.
  pose proof (scan_digits_app (d :: ds) rest 0 Hd Hr) as Hsc. cbn [app] in Hsc.
  assert (Hsign : forall A (a b c : A), match d with 45 => a | 43 => b | _ => c end = c).
  { intros A a b c. assert (d = 48 \/ d = 49 \/ d = 50 \/ d = 51 \/ d = 52 \/ d = 53 \/ d = 54
      \/ d = 55 \/ d = 56 \/ d = 57) as Hcase by lia.
    repeat destruct Hcase as [->|Hcase]; try reflexivity. subst. reflexivity. }
  rewrite Hsign. rewrite Hd0, Hsc. destruct (_ >? _); reflexivity.
Qed.

(** The multiplier of a suffix. *)
Definition suffix_mul (suf : list Z) : option Z :=
  if bool_decide (suf = []) then Some 1
  else if bool_decide (suf ∈ [[75]; [107]]) then Some (2 ^ 10)
  else if bool_decide (suf ∈ [[77]; [109]]) then Some (2 ^ 20)
  else if bool_decide (suf ∈ [[71]; [103]]) then Some (2 ^ 30)
  else None.

(** sizes on the command line.  A decimal number with an optional K, M or G
    suffix of either case is that number times the power of 1024, or 0 (which
    [parse_args] refuses) when the product does not fit in 64 bits; any other
    suffix gives 0.  A number that itself exceeds 64 bits is taken as
    2^64 - 1 when it has no suffix. *)
Theorem parse_size_exact ds suf :
  ds <> [] -> forallb is_digit ds = true -> (forall c r, suf = c :: r -> is_digit c = false) ->
  parse_size (ds ++ suf)
  = match suffix_mul suf with
    | None => 0
    | Some m => if dec_val ds 0 >? UINT64_MAX then (if m =? 1 then UINT64_MAX else 0)
                else if dec_val ds 0 * m <=? UINT64_MAX then dec_val ds 0 * m else 0
    end.
Proof.
  intros Hn Hd Hs. unfold parse_size. rewrite (strtoull10_digits ds suf Hn Hd Hs).
  assert (H0 : forall l acc, forallb is_digit l = true -> 0 <= acc -> 0 <= dec_val l acc).
  { induction l as [|d l IH]; intros acc Hl Ha; [exact Ha|]. cbn in *.
    apply andb_true_iff in Hl as [Hd0 Hl]. apply IH; auto. unfold is_digit in Hd0. lia. }
  specialize (H0 ds 0 Hd ltac:(lia)). set (v := dec_val ds 0) in *.
  assert (Hmul : forall m, 0 < m < 2 ^ 40 ->
    (if (if v >? UINT64_MAX then UINT64_MAX else v) >? UINT64_MAX / m then 0
     else u64 ((if v >? UINT64_MAX then UINT64_MAX else v) * m))
    = if v >? UINT64_MAX then (if m =? 1 then UINT64_MAX else 0)
      else if v * m <=? UINT64_MAX then v * m else 0).
  { intros m Hm. pose proof (Z.div_mod UINT64_MAX m) as Hdm.
    pose proof (Z.mod_pos_bound UINT64_MAX m) as Hmb.
    destruct (v >? UINT64_MAX) eqn:Ev.
    - destruct (Z.eqb_spec m 1) as [->|Hm1]; [reflexivity|].
      destruct (UINT64_MAX >? UINT64_MAX / m) eqn:E2; [reflexivity|].
      exfalso. assert (UINT64_MAX / m <= UINT64_MAX / 2)
        by (apply Z.div_le_compat_l; unfold UINT64_MAX; lia).
      assert (UINT64_MAX / 2 < UINT64_MAX) by (vm_compute; reflexivity). lia.
    - destruct (v >? UINT64_MAX / m) eqn:E2; destruct (Z.leb_spec (v * m) UINT64_MAX) as [H3|H3].
      + exfalso. assert (v <= UINT64_MAX / m); [|lia]. apply Z.div_le_lower_bound; lia.
      + reflexivity.
      + apply u64_small. split; [nia|unfold UINT64_MAX in H3; lia].
      + exfalso. assert (v <= UINT64_MAX / m) as H4 by lia.
        assert (m * v <= m * (UINT64_MAX / m)) by (apply Z.mul_le_mono_nonneg_l; lia). lia. }
  unfold suffix_mul. destruct suf as [|c r].
  { rewrite bool_decide_true by auto. apply Hmul. lia. }
  rewrite (bool_decide_false (c :: r = [])) by discriminate.
  assert (Hin : forall a b, bool_decide (c :: r ∈ [[a]; [b]])
                = bool_decide (c :: r = [a]) || bool_decide (c :: r = [b])).
  { intros a b. rewrite <- bool_decide_or. apply bool_decide_ext.
    rewrite !elem_of_cons, elem_of_nil. tauto. }
  rewrite !Hin.
  destruct (bool_decide (c :: r = [75]) || _); [apply (Hmul 1024); lia|].
  destruct (bool_decide (c :: r = [77]) || _); [apply (Hmul (1024 * 1024)); lia|].
  destruct (bool_decide (c :: r = [71]) || _); [apply (Hmul (1024 * 1024 * 1024)); lia|].
  reflexivity.
Qed.

Lemma parse_size_exact_witness : parse_size ([49; 50; 56] ++ [77]) = 128 * 2 ^ 20.
Proof.
  rewrite (parse_size_exact [49; 50; 56] [77]); [reflexivity|discriminate|reflexivity|].
  intros c r [= <- <-]. reflexivity.
Defined.

Lemma parse_loop_no_mock os : forall c c',
  do_use_mock_urma c = false -> parse_loop os c = Some c' -> do_use_mock_urma c' = false.
Proof.
  induction os as [|o os IH]; intros c c' Hc E; cbn in E; [congruence|].
  destruct (apply_opt o c) as [c1|] eqn:E1; [|discriminate]. apply (IH c1); auto.
  destruct c. cbn in Hc. subst. destruct o; cbn in E1; repeat case_if_in E1;
    try discriminate; injection E1 as <-; reflexivity.
Qed.

(** No command line selects the mock provider, although the usage text and
    the README describe it as the default that --real-urma replaces; and the
    defaults for the transport mode and TP type are rm and ctp where the usage
    text says rc and rtp. *)
Theorem daemon_never_mock os c :
  parse_args os = (0, Some c) ->
  do_use_mock_urma c = false /\
  do_urma_trans_mode default_opts = parse_trans_mode "rm" /\
  do_urma_tp_type default_opts = parse_tp_type "ctp".
Proof.
  unfold parse_args. destruct (parse_loop os default_opts) as [c1|] eqn:E; [|discriminate].
  destruct (do_device c1); [|discriminate]. destruct (do_size c1 =? 0); [discriminate|].
  intros [= <-]. split; [|split; reflexivity].
  apply (parse_loop_no_mock os default_opts); auto.
Qed.

Lemma daemon_never_mock_witness :
  exists c, parse_args [OptDevice [47; 100]; OptSize [49; 77]] = (0, Some c) /\
    do_use_mock_urma c = false.
Proof.
  eexists. split; [reflexivity|].
  apply (daemon_never_mock [OptDevice [47; 100]; OptSize [49; 77]]). reflexivity.
Defined.

(** ** What an accepted command line gives *)

Record opts_ok (c : daemon_opts) : Prop := mk_opts_ok {
  ok_size : is_u64 (do_size c);
  ok_block_size : is_u32 (do_block_size c);
  ok_mock : do_use_mock_urma c = false;
  ok_eid_index : is_u32 (do_eid_index c);
  ok_trans_mode : 0 <= do_urma_trans_mode c <= 2;
  ok_tp_type : 0 <= do_urma_tp_type c <= 2;
  ok_token : is_u32 (do_urma_token c);
  ok_queue_depth : is_u32 (do_queue_depth c)
}.

Lemma parse_size_u64 text : is_u64 (parse_size text).
Proof.
  unfold parse_size. destruct (strtoull10 text) as [v rest]. destruct (match rest with [] => _ | _ => _ end);
    [case_if; [int_lia|apply u64_bound]|int_lia].
Qed.

Lemma parse_trans_mode_range s : parse_trans_mode s <= 2.
Proof. unfold parse_trans_mode. repeat case_if; lia. Qed.

Lemma parse_tp_type_range s : parse_tp_type s <= 2.
Proof. unfold parse_tp_type. repeat case_if; lia. Qed.

Lemma default_opts_ok : opts_ok default_opts.
Proof. split; cbn; try int_lia; auto. Qed.

Lemma apply_opt_ok o c c' : opts_ok c -> apply_opt o c = Some c' -> opts_ok c'.
Proof.
  intros [H1 H2 H3 H4 H5 H6 H7 H8] E. destruct c as [dev cs sz bs en mock eid idx tm tp tok qd].
  cbn in *. pose proof u32_bound as B.
  destruct o; cbn in E; repeat case_if_in E; try discriminate; injection E as <-;
    split; cbn; auto; try apply parse_size_u64; try apply B.
  - pose proof (parse_trans_mode_range arg). rewrite u32_small by int_lia. lia.
  - pose proof (parse_tp_type_range arg). rewrite u32_small by int_lia. lia.
Qed.

Lemma parse_loop_ok os : forall c c', opts_ok c -> parse_loop os c = Some c' -> opts_ok c'.
Proof.
  induction os as [|o os IH]; intros c c' Hc E; cbn in E; [congruence|].
  destruct (apply_opt o c) as [c1|] eqn:E1; [|discriminate].
  apply (IH c1); [apply (apply_opt_ok o c); auto|auto].
Qed.

Lemma parse_args_ok os c :
  parse_args os = (0, Some c) -> opts_ok c /\ do_device c <> None /\ do_size c <> 0.
Proof.
  unfold parse_args. destruct (parse_loop os default_opts) as [c1|] eqn:E; [|discriminate].
  destruct (do_device c1) eqn:Ed; [|discriminate]. destruct (Z.eqb_spec (do_size c1) 0); [discriminate|].
  intros [= <-]. split; [apply (parse_loop_ok os default_opts); auto using default_opts_ok|].
  rewrite Ed. split; [discriminate|auto].
Qed.

Lemma parse_args_result os : (parse_args os = (- EINVAL, None)) \/ exists c, parse_args os = (0, Some c).
Proof.
  unfold parse_args. destruct (parse_loop os default_opts) as [c|]; [|auto].
  destruct (do_device c); [|auto]. case_if; eauto.
Qed.

(** C35.  The options of an accepted command line are well typed.  Whatever
    options [getopt_long] yields, with whatever numbers [strtoul] makes of their
    arguments, the result is -EINVAL or a context in which every field has its
    width, the mode and type codes are among the three known ones, a device and a
    non-zero size are given, and the mock provider is not selected. *)
Theorem parse_args_typed os :
  match parse_args os with
  | (rc, Some c) => rc = 0 /\ opts_ok c /\ do_device c <> None /\ 0 < do_size c
  | (rc, None) => rc = - EINVAL
  end.
Proof.
  destruct (parse_args_result os) as [E|[c E]]; rewrite E; [auto|].
  destruct (parse_args_ok os c E) as (Hok & Hd & Hs). pose proof (ok_size _ Hok).
  split_and!; auto; int_lia.
Qed.
