(* ===== verification/Numbers.v ===== *)
(** * Numbers as texts

    [strtoull] with the base chosen by a prefix, as ramdiskctl.c calls it, the
    printf conversions of 64-bit numbers, and that printed numbers are read back. *)

From S2P Require Import Prelude.
From S2P Require Import Eid.
From S2P Require Import NbdArgs.

(** ** Reading *)

(** Digits of a base up to 16. *)
Definition digit_of (base c : Z) : option Z :=
  let v := hex_value c in if (0 <=? v) && (v <? base) then Some v else None.

Fixpoint scan_base (base : Z) (text : list Z) (acc : Z) : Z :=
  match text with
  | [] => acc
  | c :: text' =>
      match digit_of base c with
      | Some v => scan_base base text' (base * acc + v)
      | None => acc
      end
  end.

(** strtoull(s, NULL, 0): white space, a sign, and a prefix that chooses the
    base; out of range gives ULLONG_MAX. *)
Definition parse_u64 (s : list Z) : Z :=
  let t := skip_space s in
  let '(neg, t) := match t with
                   | 45 :: t' => (true, t')
                   | 43 :: t' => (false, t')
                   | _ => (false, t)
                   end in
  let v := match t with
           | c0 :: rest =>
               if c0 =? 48 then
                 match rest with
                 | x :: c :: _ =>
                     if ((x =? 120) || (x =? 88)) && (0 <=? hex_value c)
                     then scan_base 16 (drop 1 rest) 0 else scan_base 8 t 0
                 | _ => scan_base 8 t 0
                 end
               else scan_base 10 t 0
           | [] => 0
           end in
  if v >? UINT64_MAX then UINT64_MAX else if neg then u64 (- v) else v.

(** ** Printing *)

(** The digits of a number, most significant first. *)
Fixpoint digits (base : Z) (fuel : nat) (v : Z) : list Z :=
  match fuel with
  | O => []
  | S fuel' => (if v <? base then [] else digits base fuel' (v / base)) ++ [hex_digit (v mod base)]
  end.

(** %llu, 0x%llx and 0%llo of a 64-bit number. *)
Definition dec_text (v : Z) : list Z := digits 10 64 v.

Definition hex_text (v : Z) : list Z := [48; 120] ++ digits 16 64 v.

Definition oct_text (v : Z) : list Z := [48] ++ digits 8 64 v.

Lemma digit_of_hex base v : 0 <= v < base -> base <= 16 -> digit_of base (hex_digit v) = Some v.
Proof.
  intros Hv Hb. unfold digit_of. destruct (hex_digit_value v ltac:(lia)) as [-> _].
  destruct (Z.leb_spec 0 v), (Z.ltb_spec v base); try lia. reflexivity.
Qed.

Lemma scan_app base l : forall r acc,
  Forall (fun c => is_Some (digit_of base c)) l ->
  scan_base base (l ++ r) acc = scan_base base r (scan_base base l acc).
Proof.
  induction l as [|c l IH]; intros r acc H; [reflexivity|]. inversion H as [|? ? [v Hv] Hl]; subst.
  cbn. rewrite Hv. auto.
Qed.

Lemma digits_ok base fuel : forall v,
  2 <= base <= 16 -> 0 <= v ->
  Forall (fun c => is_Some (digit_of base c)) (digits base fuel v).
Proof.
  induction fuel as [|fuel IH]; intros v Hb Hv; [constructor|]. cbn [digits].
  apply Forall_app. split.
  - destruct (v <? base); [constructor|]. apply IH; [auto|]. apply Z.div_pos; lia.
  - constructor; [|constructor]. rewrite digit_of_hex; [eauto| |lia]. apply Z.mod_pos_bound. lia.
Qed.

Lemma scan_digits_base base fuel : forall v,
  2 <= base <= 16 -> 0 <= v < base ^ Z.of_nat fuel -> (0 < fuel)%nat ->
  scan_base base (digits base fuel v) 0 = v.
Proof.
  induction fuel as [|fuel IH]; intros v Hb Hv Hf; [lia|].
  assert (Hm : 0 <= v mod base < base) by (apply Z.mod_pos_bound; lia).
  cbn [digits]. destruct (Z.ltb_spec v base) as [Hlt|Hge].
  - cbn [app scan_base]. rewrite digit_of_hex by lia. rewrite Z.mod_small by lia. lia.
  - assert (0 <= v / base) by (apply Z.div_pos; lia).
    rewrite scan_app by (apply digits_ok; auto).
    assert (Hd : v / base < base ^ Z.of_nat fuel).
    { apply Z.div_lt_upper_bound; [lia|]. rewrite Nat2Z.inj_succ, Z.pow_succ_r in Hv; lia. }
    destruct fuel as [|fuel]; [cbn in Hd; assert (1 <= v / base) by (apply Z.div_le_lower_bound; lia); lia|].
    rewrite IH by (auto; lia). cbn [scan_base]. rewrite digit_of_hex by lia.
    pose proof (Z.div_mod v base ltac:(lia)). lia.
Qed.

(** A positive number does not begin with a zero. *)
Lemma digits_head base fuel : forall v,
  2 <= base <= 16 -> 0 < v < base ^ Z.of_nat fuel ->
  exists d l, digits base fuel v = hex_digit d :: l /\ 0 < d < base.
Proof.
  induction fuel as [|fuel IH]; intros v Hb Hv; [cbn in Hv; lia|]. cbn [digits].
  destruct (Z.ltb_spec v base) as [Hlt|Hge].
  - exists v, []. rewrite Z.mod_small by lia. split; [reflexivity|lia].
  - destruct (IH (v / base)) as (d & l & -> & Hd); [auto| |].
    + split; [apply Z.div_str_pos; lia|]. apply Z.div_lt_upper_bound; [lia|].
      rewrite Nat2Z.inj_succ, Z.pow_succ_r in Hv; lia.
    + eexists d, _. split; [reflexivity|auto].
Qed.

(** There is always a digit. *)
Lemma digits_cons base fuel v :
  2 <= base <= 16 -> 0 <= v ->
  exists c l, digits base (S fuel) v = c :: l /\ (0 <=? hex_value c) = true.
Proof.
  intros Hb Hv. pose proof (digits_ok base (S fuel) v Hb Hv) as H.
  destruct (digits base (S fuel) v) as [|c l] eqn:E.
  - cbn in E. destruct (if v <? base then [] else _); discriminate.
  - exists c, l. split; [auto|]. apply Forall_cons in H as [[x Hx] _]. unfold digit_of in Hx.
    destruct (0 <=? hex_value c); [auto|discriminate].
Qed.

(** A text that begins with a decimal digit has neither space nor sign. *)
Lemma parse_u64_digit c t :
  48 <= c <= 57 ->
  parse_u64 (c :: t)
  = let v := if c =? 48 then
               match t with
               | x :: d :: _ =>
                   if ((x =? 120) || (x =? 88)) && (0 <=? hex_value d)
                   then scan_base 16 (drop 1 t) 0 else scan_base 8 (c :: t) 0
               | _ => scan_base 8 (c :: t) 0
               end
             else scan_base 10 (c :: t) 0 in
    if v >? UINT64_MAX then UINT64_MAX else v.
Proof.
  intros Hc. assert (c = 48 \/ c = 49 \/ c = 50 \/ c = 51 \/ c = 52 \/ c = 53 \/ c = 54
      \/ c = 55 \/ c = 56 \/ c = 57) as H by lia.
  repeat destruct H as [->|H]; try subst; reflexivity.
Qed.

Lemma not_above v : is_u64 v -> (if v >? UINT64_MAX then UINT64_MAX else v) = v.
Proof. intros Hv. destruct (v >? UINT64_MAX) eqn:E; [unfold UINT64_MAX in E; int_lia|reflexivity]. Qed.

Lemma hex_digit_dec d : 0 <= d < 10 -> hex_digit d = 48 + d.
Proof.
  intros Hd. assert (d = 0 \/ d = 1 \/ d = 2 \/ d = 3 \/ d = 4 \/ d = 5 \/ d = 6 \/ d = 7
    \/ d = 8 \/ d = 9) as H by lia. repeat destruct H as [->|H]; try subst; reflexivity.
Qed.

Lemma pow_above base v : 2 <= base -> is_u64 v -> 0 <= v < base ^ Z.of_nat 64.
Proof.
  intros Hb Hv. pose proof (Z.pow_le_mono_l 2 base (Z.of_nat 64) ltac:(lia)). cbn in H.
  change (Z.of_nat 64) with 64 in *. int_lia.
Qed.

Lemma parse_dec v : is_u64 v -> parse_u64 (dec_text v) = v.
Proof.
  intros Hv. pose proof (pow_above 10 v ltac:(lia) Hv) as Hp.
  destruct (Z.eq_dec v 0) as [->|Hn]; [reflexivity|].
  pose proof (scan_digits_base 10 64 v ltac:(lia) Hp ltac:(lia)) as Hs.
  unfold dec_text. destruct (digits_head 10 64 v) as (d & l & E & Hd); [lia|lia|].
  rewrite E in *. rewrite hex_digit_dec in * by lia. rewrite parse_u64_digit by lia.
  destruct (Z.eqb_spec (48 + d) 48); [lia|]. cbv zeta. rewrite Hs. apply not_above, Hv.
Qed.

Lemma parse_hex v : is_u64 v -> parse_u64 (hex_text v) = v.
Proof.
  intros Hv. pose proof (pow_above 16 v ltac:(lia) Hv) as Hp.
  pose proof (scan_digits_base 16 64 v ltac:(lia) Hp ltac:(lia)) as Hs.
  pose proof (digits_ok 16 64 v ltac:(lia) ltac:(int_lia)) as Hok.
  unfold hex_text. cbn [app]. rewrite parse_u64_digit by lia. cbn [Z.eqb Pos.eqb].
  destruct (digits 16 64 v) as [|c l] eqn:E; [cbn in Hs; rewrite <- Hs; reflexivity|].
  apply Forall_cons in Hok as [[x Hx] _]. unfold digit_of in Hx.
  destruct (0 <=? hex_value c); [|discriminate]. cbn [Z.eqb Pos.eqb orb andb drop]. cbv zeta.
  rewrite Hs. apply not_above, Hv.
Qed.

Lemma parse_oct v : is_u64 v -> parse_u64 (oct_text v) = v.
Proof.
  intros Hv. pose proof (pow_above 8 v ltac:(lia) Hv) as Hp.
  pose proof (scan_digits_base 8 64 v ltac:(lia) Hp ltac:(lia)) as Hs.
  pose proof (digits_ok 8 64 v ltac:(lia) ltac:(int_lia)) as Hok.
  unfold oct_text. cbn [app]. rewrite parse_u64_digit by lia. cbn [Z.eqb Pos.eqb].
  change (scan_base 8 (48 :: digits 8 64 v) 0) with (scan_base 8 (digits 8 64 v) 0). rewrite Hs.
  assert (Hx : forall x, is_Some (digit_of 8 x) -> (x =? 120) || (x =? 88) = false).
  { intros x [y Hy]. unfold digit_of in Hy. destruct (Z.eqb_spec x 120) as [->|]; [discriminate|].
    destruct (Z.eqb_spec x 88) as [->|]; [discriminate|]. reflexivity. }
  cbv zeta. destruct (digits 8 64 v) as [|x [|c l]]; [apply not_above, Hv|apply not_above, Hv|].
  apply Forall_cons in Hok as [H1 _]. rewrite (Hx x H1). cbn [andb]. apply not_above, Hv.
Qed.

(** ** Numbers inside a longer text *)

(** Reading stops at a character that is no digit. *)
Lemma scan_stop base l c r : forall acc,
  Forall (fun x => is_Some (digit_of base x)) l -> digit_of base c = None ->
  scan_base base (l ++ c :: r) acc = scan_base base l acc.
Proof. intros acc Hl Hc. rewrite scan_app by auto. cbn. rewrite Hc. reflexivity. Qed.

Lemma parse_hex_stop v c r :
  is_u64 v -> digit_of 16 c = None -> parse_u64 (hex_text v ++ c :: r) = v.
Proof.
  intros Hv Hc. pose proof (pow_above 16 v ltac:(lia) Hv) as Hp.
  pose proof (scan_digits_base 16 64 v ltac:(lia) Hp ltac:(lia)) as Hs.
  pose proof (digits_ok 16 64 v ltac:(lia) ltac:(int_lia)) as Hok.
  pose proof (scan_stop 16 (digits 16 64 v) c r 0 Hok Hc) as Hst. rewrite Hs in Hst.
  unfold hex_text. cbn [app]. rewrite parse_u64_digit by lia. cbn [Z.eqb Pos.eqb].
  destruct (digits_cons 16 63 v ltac:(lia) ltac:(int_lia)) as (x & l & E & Hx).
  rewrite E in *. cbn [app] in *. rewrite Hx. cbn [Z.eqb Pos.eqb orb andb drop]. cbv zeta.
  rewrite Hst. apply not_above, Hv.
Qed.

Lemma parse_dec_stop v c r :
  is_u64 v -> digit_of 10 c = None -> digit_of 8 c = None -> c <> 120 -> c <> 88 ->
  parse_u64 (dec_text v ++ c :: r) = v.
Proof.
  intros Hv Hc Hc8 Hx1 Hx2. pose proof (pow_above 10 v ltac:(lia) Hv) as Hp.
  destruct (Z.eq_dec v 0) as [->|Hn].
  { change (dec_text 0) with [48]. cbn [app]. rewrite parse_u64_digit by lia. cbn [Z.eqb Pos.eqb].
    cbv zeta. apply Z.eqb_neq in Hx1, Hx2. rewrite Hx1, Hx2. cbn [orb andb].
    change (scan_base 8 (48 :: c :: r) 0) with (scan_base 8 (c :: r) 0).
    cbn [scan_base]. rewrite Hc8. destruct r; reflexivity. }
  pose proof (scan_digits_base 10 64 v ltac:(lia) Hp ltac:(lia)) as Hs.
  pose proof (digits_ok 10 64 v ltac:(lia) ltac:(int_lia)) as Hok.
  pose proof (scan_stop 10 (digits 10 64 v) c r 0 Hok Hc) as Hst. rewrite Hs in Hst.
  unfold dec_text. destruct (digits_head 10 64 v) as (d & l & E & Hd); [lia|lia|].
  rewrite E in *. rewrite hex_digit_dec in * by lia. cbn [app] in *. rewrite parse_u64_digit by lia.
  destruct (Z.eqb_spec (48 + d) 48); [lia|]. cbv zeta. rewrite Hst. apply not_above, Hv.
Qed.

(** A sign before the number, as printed for negative values. *)
Lemma parse_neg_digit c t :
  48 <= c <= 57 -> parse_u64 (c :: t) < UINT64_MAX ->
  parse_u64 (45 :: c :: t) = u64 (- parse_u64 (c :: t)).
Proof.
  intros Hc. rewrite parse_u64_digit by auto. cbv zeta. unfold parse_u64.
  change (skip_space (45 :: c :: t)) with (45 :: c :: t). cbv beta iota zeta.
  set (v := if c =? 48 then _ else _). destruct (v >? UINT64_MAX); [lia|reflexivity].
Qed.

Lemma parse_neg_stop v c r :
  0 < v < UINT64_MAX -> digit_of 10 c = None -> digit_of 8 c = None -> c <> 120 -> c <> 88 ->
  parse_u64 (45 :: dec_text v ++ c :: r) = u64 (- v).
Proof.
  intros Hv Hc Hc8 Hx1 Hx2. assert (Hu : is_u64 v) by (unfold UINT64_MAX in Hv; int_lia).
  pose proof (parse_dec_stop v c r Hu Hc Hc8 Hx1 Hx2) as E.
  pose proof (pow_above 10 v ltac:(lia) Hu) as Hp.
  unfold dec_text in *. destruct (digits_head 10 64 v) as (d & l & Ed & Hd); [lia|lia|].
  rewrite Ed in *. rewrite hex_digit_dec in * by lia. cbn [app] in *.
  rewrite parse_neg_digit by (rewrite ?E; lia). rewrite E. reflexivity.
Qed.

Lemma length_digits base fuel v : (length (digits base fuel v) <= fuel)%nat.
Proof.
  revert v. induction fuel as [|fuel IH]; intros v; [cbn; lia|]. cbn [digits].
  rewrite length_app. destruct (v <? base); [cbn; lia|]. specialize (IH (v / base)). cbn. lia.
Qed.

(** How a number may be written. *)
Definition writes (text : list Z) (v : Z) : Prop :=
  text = dec_text v \/ text = hex_text v \/ text = oct_text v.

Lemma parse_written text v : writes text v -> is_u64 v -> parse_u64 text = v.
Proof.
  intros Hw Hv. destruct Hw as [-> |[-> | ->]]; [apply parse_dec|apply parse_hex|apply parse_oct]; auto.
Qed.
