(* ===== verification/Ledger.v ===== *)
(** * Ledgers of acquired objects

    A ledger lists what a program has acquired and not yet given back; giving
    back something that is not held is undefined ([None]).  The monad [led]
    threads a ledger through the calls into a library whose objects the code
    creates and deletes. *)

From S2P Require Import Prelude.

Section Remove.
Context {R : Type} `{EqDecision R}.

(** Remove the first occurrence. *)
Fixpoint remove_one (r : R) (l : list R) : option (list R) :=
  match l with
  | [] => None
  | x :: l' => if decide (x = r) then Some l' else (x ::.) <$> remove_one r l'
  end.

Lemma remove_one_here r l : remove_one r (r :: l) = Some l.
Proof. cbn. rewrite decide_True; auto. Qed.

Lemma remove_one_under r l1 l2 :
  r ∉ l1 -> remove_one r (l1 ++ r :: l2) = Some (l1 ++ l2).
Proof.
  induction l1 as [|x l1 IH]; intros Hn; [apply remove_one_here|].
  apply not_elem_of_cons in Hn as [Hx Hn]. cbn [app remove_one].
  rewrite decide_False by congruence. rewrite IH; auto.
Qed.

End Remove.

Definition led (R A : Type) : Type := list R -> option (A * list R).

#[export] Instance led_ret R : MRet (led R) := fun A a l => Some (a, l).

#[export] Instance led_bind R : MBind (led R) := fun A B f m l =>
  match m l with
  | Some (a, l') => f a l'
  | None => None
  end.

Definition gain {R} (r : R) : led R unit := fun l => Some (tt, r :: l).

Definition lose {R} `{EqDecision R} (r : R) : led R unit := fun l =>
  match remove_one r l with
  | Some l' => Some (tt, l')
  | None => None
  end.

Lemma led_bind_eq {R A B} (m : led R A) (f : A -> led R B) (l : list R) :
  (m ≫= f) l = match m l with Some (a, l') => f a l' | None => None end.
Proof. reflexivity. Qed.

Lemma led_ret_eq {R A} (a : A) (l : list R) : (mret a : led R A) l = Some (a, l).
Proof. reflexivity. Qed.

Lemma gain_eq {R} (r : R) l : gain r l = Some (tt, r :: l).
Proof. reflexivity. Qed.

Lemma lose_here {R} `{EqDecision R} (r : R) l : lose r (r :: l) = Some (tt, l).
Proof. unfold lose. rewrite remove_one_here. auto. Qed.

(** [lstep] exposes the next effect of a program on a ledger. *)
Ltac lstep :=
  repeat (progress (rewrite ?led_bind_eq, ?led_ret_eq, ?gain_eq, ?lose_here; cbn beta iota)).

(** Giving something back does not depend on the order of the ledger. *)
Lemma remove_one_perm {R} `{EqDecision R} (r : R) l k :
  l ≡ₚ r :: k -> exists k', remove_one r l = Some k' /\ k' ≡ₚ k.
Proof.
  revert k. induction l as [|x l IH]; intros k Hp.
  { apply Permutation_nil_cons in Hp. tauto. }
  cbn. destruct (decide (x = r)) as [->|Hne].
  - exists l. split; [auto|]. eapply Permutation_cons_inv; eauto.
  - assert (Hin : x ∈ k).
    { assert (Hx : x ∈ r :: k) by (rewrite <- Hp; left).
      apply elem_of_cons in Hx as [->|]; [congruence|auto]. }
    apply elem_of_Permutation in Hin as (k2 & Hk).
    destruct (IH k2) as (k' & E & Hk').
    { apply (Permutation_cons_inv (a := x)). rewrite Hp, Hk. apply perm_swap. }
    rewrite E. cbn. exists (x :: k'). split; [auto|]. rewrite Hk, Hk'. auto.
Qed.

Lemma lose_perm {R} `{EqDecision R} (r : R) l k :
  l ≡ₚ r :: k -> exists k', lose r l = Some (tt, k') /\ k' ≡ₚ k.
Proof.
  intros Hp. destruct (remove_one_perm r l k Hp) as (k' & E & Hk). exists k'.
  unfold lose. rewrite E. auto.
Qed.
