(* ===== verification/UrmaProvider.v ===== *)
(** * The real URMA provider (the [real_*] functions of ramdisk_urma.c)

    The part of the manager that is compiled with HAVE_URMA: choosing the
    endpoint, creating and deleting the objects of the vendor's library,
    importing a peer, posting a transfer and polling for its completion.  The
    library is the parameter [urma_lib]: what each of its calls returns for
    given arguments, [0] being [NULL].  The objects it hands out are kept in a
    ledger. *)

From S2P Require Import Prelude.
From S2P Require Import Mem.
From S2P Require Import Ledger.
From S2P Require Import Backend.
From S2P Require Import CtrlProto.
From S2P Require Import UrmaMgr.
From S2P Require Import Eid.

(** Objects of the library. *)
Inductive ures : Type :=
| UInit
| UEids (p : Z)
| UCtx (p : Z)
| UJfce (p : Z)
| UJfc (p : Z)
| UJfr (p : Z)
| UJetty (p : Z)
| USeg (p : Z)
| UImportSeg (p : Z)
| UImportJetty (p : Z).

#[export] Instance ures_eq_dec : EqDecision ures.
Proof. solve_decision. Defined.

(** The constants of the library the code uses; their values do not matter. *)
Inductive urma_opcode : Type := URMA_OPC_WRITE | URMA_OPC_READ.

Inductive urma_trans_mode : Type := URMA_TM_RM | URMA_TM_RC | URMA_TM_UM.

Inductive urma_tp_type : Type := URMA_RTP | URMA_CTP | URMA_UTP.

(** The arguments the code passes that matter for what it relies on. *)
Record urma_sge : Type := mk_usge {
  ug_addr : Z;
  ug_len : Z;
  ug_tseg : Z
}.

Record urma_jfs_wr : Type := mk_wr {
  wr_opcode : urma_opcode;
  wr_src : urma_sge;
  wr_dst : urma_sge;
  wr_tjetty : Z;
  wr_user_ctx : Z
}.

(** A remote segment and a remote jetty, as they are described to the library. *)
Record urma_seg : Type := mk_useg {
  us_eid : list Z;
  us_uasid : Z;
  us_va : Z;
  us_len : Z;
  us_token_id : Z
}.

Record urma_rjetty : Type := mk_rjetty {
  rj_eid : list Z;
  rj_uasid : Z;
  rj_id : Z;
  rj_tp_type : urma_tp_type;
  rj_order_type : Z;
  rj_share_tp : Z
}.

(** The library.  [ul_eid_list] is the list's address and its entries, each an
    index and the 16 bytes of an endpoint.  The objects are made from the
    context, then, for a completion queue, its depth and event channel; for a
    receive queue, its depth, completion queue and token; for a jetty, its depth,
    completion and receive queues; for a segment, its address, length and token.
    [ul_poll i] is the answer of the
    [i]-th poll: the count, the request it names and whether its status is
    URMA_CR_SUCCESS. *)
Record urma_lib : Type := mk_lib {
  ul_init_ok : bool;
  ul_device_by_eid : list Z -> Z;
  ul_query_ok : bool;
  ul_max_jfc_depth : Z;
  ul_eid_list : Z * list (Z * list Z);
  ul_create_context : Z -> Z;
  ul_create_jfce : Z -> Z;
  ul_create_jfc : Z -> Z -> Z -> Z;
  ul_create_jfr : Z -> Z -> Z -> Z -> Z;
  ul_create_jetty : Z -> Z -> Z -> Z -> Z;
  ul_register_seg : Z -> ptr -> Z -> Z -> Z;
  ul_import_seg : Z -> urma_seg -> Z -> Z;
  ul_import_jetty : Z -> urma_rjetty -> Z -> Z;
  ul_post_ok : Z -> urma_jfs_wr -> bool;
  ul_poll : nat -> Z * Z * bool
}.

(** The provider's fields of [struct ramdisk_urma_mgr]. *)
Record real_state : Type := mk_real {
  rs_initialized : bool;
  rs_ctx : Z;
  rs_jfce : Z;
  rs_jfc : Z;
  rs_jfr : Z;
  rs_jetty : Z;
  rs_token : Z;
  rs_local_tseg : Z
}.

Definition real_zero : real_state := mk_real false 0 0 0 0 0 0 0.

(** The provider's fields of [struct ramdisk_urma_peer]. *)
Record real_peer : Type := mk_rpeer {
  rp_remote_seg : urma_seg;
  rp_import_tseg : Z;
  rp_t_jetty : Z
}.

Definition seg_zero : urma_seg := mk_useg (replicate 16 0) 0 0 0 0.

Definition rpeer_zero : real_peer := mk_rpeer seg_zero 0 0.

(** ** Modes *)

Definition real_trans_mode (mode : Z) : urma_trans_mode :=
  if mode =? 1 then URMA_TM_RC else if mode =? 2 then URMA_TM_UM else URMA_TM_RM.

Definition real_tp_type (type : Z) : urma_tp_type :=
  if type =? 1 then URMA_CTP else if type =? 2 then URMA_UTP else URMA_RTP.

(** ** Choosing the endpoint *)

(** The loop over the entries: the selection so far, or the early return. *)
Fixpoint select_loop (requested : Z) (local_eid : option (list Z)) (l : list (Z * list Z))
    (selected : Z) : res Z :=
  match l with
  | [] => Ok selected
  | (idx, raw) :: l' =>
      if match local_eid with Some e => bool_decide (raw = e) | None => false end then
        if negb (requested =? UINT32_MAX) && negb (requested =? idx)
        then Err (- EINVAL) else Ok (s32 idx)
      else
        select_loop requested local_eid l'
          (if bool_decide (local_eid = None) && (idx =? requested) then s32 requested else selected)
  end.

Definition real_select_eid_index (lib : urma_lib) (requested : Z) (local_eid : option (list Z))
    : led ures Z :=
  let '(p, entries) := ul_eid_list lib in
  _ ← (if p =? 0 then mret tt else gain (UEids p));
  match p =? 0, entries with
  | true, _ | _, [] => mret (- ENODEV)
  | false, (idx0, _) :: _ =>
      match select_loop requested local_eid entries (- 1) with
      | Err rc => _ ← lose (UEids p); mret rc
      | Ok selected =>
          let selected := if (selected <? 0) && bool_decide (local_eid = None)
                             && (requested =? UINT32_MAX) then s32 idx0 else selected in
          _ ← lose (UEids p);
          mret (if selected <? 0 then - ENOENT else selected)
      end
  end.

(** ** The provider's objects *)

(** The labels of the error path, from the last to the first. *)
Definition fail_ctx (r : real_state) : led ures (Z * real_state) :=
  _ ← lose (UCtx (rs_ctx r));
  _ ← lose UInit;
  mret (- EIO, mk_real (rs_initialized r) 0 (rs_jfce r) (rs_jfc r) (rs_jfr r) (rs_jetty r)
                 (rs_token r) (rs_local_tseg r)).

Definition fail_jfce (r : real_state) : led ures (Z * real_state) :=
  _ ← lose (UJfce (rs_jfce r));
  fail_ctx (mk_real (rs_initialized r) (rs_ctx r) 0 (rs_jfc r) (rs_jfr r) (rs_jetty r)
              (rs_token r) (rs_local_tseg r)).

Definition fail_jfc (r : real_state) : led ures (Z * real_state) :=
  _ ← lose (UJfc (rs_jfc r));
  fail_jfce (mk_real (rs_initialized r) (rs_ctx r) (rs_jfce r) 0 (rs_jfr r) (rs_jetty r)
               (rs_token r) (rs_local_tseg r)).

Definition fail_jfr (r : real_state) : led ures (Z * real_state) :=
  _ ← lose (UJfr (rs_jfr r));
  fail_jfc (mk_real (rs_initialized r) (rs_ctx r) (rs_jfce r) (rs_jfc r) 0 (rs_jetty r)
              (rs_token r) (rs_local_tseg r)).

Definition fail_jetty (r : real_state) : led ures (Z * real_state) :=
  _ ← lose (UJetty (rs_jetty r));
  fail_jfr (mk_real (rs_initialized r) (rs_ctx r) (rs_jfce r) (rs_jfc r) (rs_jfr r) 0
              (rs_token r) (rs_local_tseg r)).

(** The depth of the completion queue. *)
Definition cq_depth (lib : urma_lib) (queue_depth : Z) : Z :=
  let depth := u32 (queue_depth * 2) in
  let depth := if depth <? 16 then 16 else depth in
  if negb (ul_max_jfc_depth lib =? 0) && (depth >? ul_max_jfc_depth lib)
  then ul_max_jfc_depth lib else depth.

(** From the creation of the context on. *)
Definition create_objects (lib : urma_lib) (mgr : ramdisk_urma_mgr)
    (backend : option ramdisk_backend) (eid_index : Z) (r : real_state)
    : led ures (Z * real_state) :=
  let ctx := ul_create_context lib (u32 eid_index) in
  if ctx =? 0 then
    _ ← lose UInit;
    mret (- EIO, mk_real (rs_initialized r) 0 (rs_jfce r) (rs_jfc r) (rs_jfr r) (rs_jetty r)
                   (rs_token r) (rs_local_tseg r))
  else
  _ ← gain (UCtx ctx);
  let token := um_local_token_value mgr in
  let jfce := ul_create_jfce lib ctx in
  if jfce =? 0
  then fail_ctx (mk_real (rs_initialized r) ctx 0 (rs_jfc r) (rs_jfr r) (rs_jetty r) token
                   (rs_local_tseg r)) else
  _ ← gain (UJfce jfce);
  let depth := cq_depth lib (um_queue_depth mgr) in
  let jfc := ul_create_jfc lib ctx depth jfce in
  if jfc =? 0
  then fail_jfce (mk_real (rs_initialized r) ctx jfce 0 (rs_jfr r) (rs_jetty r) token
                    (rs_local_tseg r)) else
  _ ← gain (UJfc jfc);
  let jfr := ul_create_jfr lib ctx depth jfc token in
  if jfr =? 0
  then fail_jfc (mk_real (rs_initialized r) ctx jfce jfc 0 (rs_jetty r) token (rs_local_tseg r)) else
  _ ← gain (UJfr jfr);
  let jetty := ul_create_jetty lib ctx depth jfc jfr in
  if jetty =? 0
  then fail_jfr (mk_real (rs_initialized r) ctx jfce jfc jfr 0 token (rs_local_tseg r)) else
  _ ← gain (UJetty jetty);
  let tseg := ul_register_seg lib ctx (ramdisk_backend_base backend)
                (ramdisk_backend_size backend) token in
  if tseg =? 0
  then fail_jetty (mk_real (rs_initialized r) ctx jfce jfc jfr jetty token 0) else
  _ ← gain (USeg tseg);
  mret (0, mk_real true ctx jfce jfc jfr jetty token tseg).

Definition real_init_provider (lib : urma_lib) (mgr : ramdisk_urma_mgr)
    (backend : option ramdisk_backend) (r : real_state) : led ures (Z * real_state) :=
  if negb (ul_init_ok lib) then mret (- EIO, r) else
  _ ← gain UInit;
  let refuse rc := (_ ← lose UInit; mret (rc, r)) in
  if bool_decide (um_urma_dev mgr = []) then refuse (- EINVAL) else
  match parse_eid_text (Some (um_urma_dev mgr)) (Some (replicate 16 0)) with
  | (0, Some local_eid) =>
      if ul_device_by_eid lib local_eid =? 0 then refuse (- ENODEV) else
      if negb (ul_query_ok lib) then refuse (- EIO) else
      eid_index ← real_select_eid_index lib (um_eid_index mgr) (Some local_eid);
      if eid_index <? 0 then refuse eid_index else
      create_objects lib mgr backend eid_index r
  | _ => refuse (- EINVAL)
  end.

Definition lose_if (p : Z) (r : ures) : led ures unit := if p =? 0 then mret tt else lose r.

Definition real_destroy_peer (p : real_peer) : led ures real_peer :=
  _ ← lose_if (rp_t_jetty p) (UImportJetty (rp_t_jetty p));
  _ ← lose_if (rp_import_tseg p) (UImportSeg (rp_import_tseg p));
  mret (mk_rpeer (rp_remote_seg p) 0 0).

Fixpoint real_destroy_peers (ps : list real_peer) : led ures (list real_peer) :=
  match ps with
  | [] => mret []
  | p :: ps' => p ← real_destroy_peer p; ps' ← real_destroy_peers ps'; mret (p :: ps')
  end.

(** The pointers are not cleared: only the flag is. *)
Definition real_destroy_provider (r : real_state) (ps : list real_peer)
    : led ures (real_state * list real_peer) :=
  if negb (rs_initialized r) then mret (r, ps) else
  ps ← real_destroy_peers ps;
  _ ← lose_if (rs_local_tseg r) (USeg (rs_local_tseg r));
  _ ← lose_if (rs_jetty r) (UJetty (rs_jetty r));
  _ ← lose_if (rs_jfr r) (UJfr (rs_jfr r));
  _ ← lose_if (rs_jfc r) (UJfc (rs_jfc r));
  _ ← lose_if (rs_jfce r) (UJfce (rs_jfce r));
  _ ← lose_if (rs_ctx r) (UCtx (rs_ctx r));
  _ ← lose UInit;
  mret (mk_real false (rs_ctx r) (rs_jfce r) (rs_jfc r) (rs_jfr r) (rs_jetty r) (rs_token r)
          (rs_local_tseg r), ps).

(** ** Peers *)

(** The segment a peer announced. *)
Definition seg_of_peer (peer : ramdisk_urma_peer) : urma_seg :=
  mk_useg (up_eid peer) (up_uasid peer) (up_seg_va peer) (up_seg_len peer) (up_seg_token_id peer).

Definition rjetty_of_peer (mgr : ramdisk_urma_mgr) (peer : ramdisk_urma_peer) : urma_rjetty :=
  mk_rjetty (up_eid peer) (up_uasid peer) (up_jetty_id peer) (real_tp_type (um_tp_type mgr))
    (if um_trans_mode mgr =? 3 then 1 else 0) (if um_trans_mode mgr =? 3 then 1 else 0).

Definition real_import_peer (lib : urma_lib) (mgr : ramdisk_urma_mgr) (r : real_state)
    (peer : ramdisk_urma_peer) (p : real_peer) : led ures (Z * real_peer) :=
  if negb (rs_initialized r) then mret (- ENODEV, p) else
  let tseg := ul_import_seg lib (rs_ctx r) (seg_of_peer peer) (rs_token r) in
  let p := mk_rpeer (seg_of_peer peer) tseg (rp_t_jetty p) in
  if tseg =? 0 then mret (- EIO, p) else
  _ ← gain (UImportSeg tseg);
  let tj := ul_import_jetty lib (rs_ctx r) (rjetty_of_peer mgr peer) (rs_token r) in
  let p := mk_rpeer (rp_remote_seg p) (rp_import_tseg p) tj in
  if tj =? 0 then (p ← real_destroy_peer p; mret (- EIO, p)) else
  _ ← gain (UImportJetty tj);
  mret (0, p).

(** ** Transfers *)

(** [n] polls left, [i] made since the start of the program; the result and
    the number of polls made by then. *)
Fixpoint poll_loop (lib : urma_lib) (request_id : Z) (n i : nat) : Z * nat :=
  match n with
  | O => (- ETIMEDOUT, i)
  | S n' =>
      let '(cnt, user_ctx, success) := ul_poll lib i in
      if cnt <? 0 then (- EIO, S i)
      else if cnt =? 0 then poll_loop lib request_id n' (S i)
      else if negb (user_ctx =? request_id) then poll_loop lib request_id n' (S i)
      else if negb success then (- EIO, S i)
      else (0, S i)
  end.

Definition POLL_LOOPS : nat := Z.to_nat 30000.

Definition real_poll_completion (lib : urma_lib) (request_id : Z) (i : nat) : Z * nat :=
  poll_loop lib request_id POLL_LOOPS i.

(** The result, the work request that was posted and the polls made.  [addr_of]
    is the numeric value of a pointer. *)
Definition execute_real_xfer (lib : urma_lib) (addr_of : ptr -> Z) (r : real_state)
    (backend : option ramdisk_backend) (req : ramdisk_urma_request) (peer : ramdisk_urma_peer)
    (p : real_peer) (i : nat) : Z * option urma_jfs_wr * nat :=
  let remote_off := u64 (rq_remote_hbm_addr req - up_seg_va peer) in
  if negb (rs_initialized r) || (rp_import_tseg p =? 0) || (rp_t_jetty p =? 0)
     || (rs_local_tseg r =? 0) then (- ENODEV, None, i) else
  let local_addr := u64 (addr_of (ramdisk_backend_base backend) + rq_local_offset req) in
  let remote_addr := u64 (us_va (rp_remote_seg p) + remote_off) in
  let local_sge := mk_usge local_addr (rq_length req) (rs_local_tseg r) in
  let remote_sge := mk_usge remote_addr (rq_length req) (rp_import_tseg p) in
  let out := rq_direction req =? RAMDISK_TO_HBM in
  let wr := mk_wr (if out then URMA_OPC_WRITE else URMA_OPC_READ)
              (if out then local_sge else remote_sge) (if out then remote_sge else local_sge)
              (rp_t_jetty p) (rq_request_id req) in
  if negb (ul_post_ok lib (rs_jetty r) wr) then (- EIO, Some wr, i)
  else let '(rc, i') := real_poll_completion lib (rq_request_id req) i in (rc, Some wr, i').

(** ** The endpoint is chosen exactly *)

(** The index of the first entry with the given endpoint. *)
Definition eid_lookup (e : list Z) (entries : list (Z * list Z)) : option Z :=
  fst <$> list_find (fun x => snd x = e) entries ≫= fun x => Some (snd x).

Definition select_spec (requested : Z) (e : list Z) (entries : list (Z * list Z)) : Z :=
  match eid_lookup e entries with
  | None => - ENOENT
  | Some idx =>
      if negb (requested =? UINT32_MAX) && negb (requested =? idx) then - EINVAL
      else if idx <? 2 ^ 31 then idx else - ENOENT
  end.

(** The indices of the library's list have 32 bits. *)
Definition eids_typed (lib : urma_lib) : Prop :=
  Forall (fun x => is_u32 (fst x)) (snd (ul_eid_list lib)).

(** What the selection leaves: a list that is not [NULL] and has no entry is not
    freed. *)
Definition eids_left (lib : urma_lib) : list ures :=
  match ul_eid_list lib with
  | (p, []) => if p =? 0 then [] else [UEids p]
  | _ => []
  end.

Lemma s32_index idx : is_u32 idx -> s32 idx = if idx <? 2 ^ 31 then idx else idx - 2 ^ 32.
Proof. intros H. unfold s32. rewrite wrap_small by int_lia. reflexivity. Qed.

Lemma eid_lookup_cons e idx raw l :
  eid_lookup e ((idx, raw) :: l) = if decide (raw = e) then Some idx else eid_lookup e l.
Proof.
  unfold eid_lookup. cbn [list_find]. destruct (decide (snd (idx, raw) = e)) as [E|E]; cbn in E.
  - rewrite decide_True by auto. reflexivity.
  - rewrite decide_False by auto. destruct (list_find _ l) as [[? ?]|]; reflexivity.
Qed.

Lemma select_loop_eq requested e l :
  Forall (fun x => is_u32 (fst x)) l ->
  select_loop requested (Some e) l (- 1)
  = match eid_lookup e l with
    | None => Ok (- 1)
    | Some idx => if negb (requested =? UINT32_MAX) && negb (requested =? idx)
                  then Err (- EINVAL) else Ok (s32 idx)
    end.
Proof.
  induction 1 as [|[idx raw] l Hx Hl IH]; [reflexivity|]. cbn [select_loop].
  rewrite eid_lookup_cons. destruct (decide (raw = e)).
  - rewrite bool_decide_true by auto. reflexivity.
  - rewrite bool_decide_false by auto. rewrite bool_decide_false by discriminate. exact IH.
Qed.

Lemma eid_lookup_u32 e l idx :
  Forall (fun x => is_u32 (fst x)) l -> eid_lookup e l = Some idx -> is_u32 idx.
Proof.
  induction 1 as [|[i raw] l Hx Hl IH]; [discriminate|].
  rewrite eid_lookup_cons. destruct (decide (raw = e)); [intros [= <-]; auto|auto].
Qed.

Lemma select_eq lib requested e l :
  eids_typed lib ->
  real_select_eid_index lib requested (Some e) l
  = Some (if (fst (ul_eid_list lib) =? 0) || bool_decide (snd (ul_eid_list lib) = []) then - ENODEV
          else select_spec requested e (snd (ul_eid_list lib)), eids_left lib ++ l).
Proof.
  unfold eids_typed, eids_left, real_select_eid_index. destruct (ul_eid_list lib) as [p entries].
  cbn [fst snd]. intros Hu. destruct (Z.eqb_spec p 0) as [->|Hp]; lstep;
    [destruct entries; reflexivity|].
  destruct entries as [|[idx0 raw0] en] eqn:Een; [reflexivity|].
  rewrite (bool_decide_false (_ :: _ = [])) by discriminate. cbn [orb app]. rewrite <- Een in *.
  rewrite select_loop_eq by auto. unfold select_spec.
  destruct (eid_lookup e entries) as [idx|] eqn:El.
  - destruct (negb _ && negb _) eqn:Er; lstep; [reflexivity|].
    pose proof (eid_lookup_u32 _ _ _ Hu El) as Hi. rewrite s32_index by auto.
    rewrite bool_decide_false by discriminate. rewrite andb_false_r. cbn [andb].
    destruct (idx <? 2 ^ 31) eqn:E31; [destruct (idx <? 0) eqn:?; [int_lia|reflexivity]|].
    destruct (idx - 2 ^ 32 <? 0) eqn:?; [reflexivity|int_lia].
  - rewrite bool_decide_false by discriminate. cbn [Z.ltb Z.compare andb]. lstep. reflexivity.
Qed.

(** The selection holds nothing afterwards but an empty list, and then it
    fails. *)
Lemma select_held lib requested e l :
  exists idx, real_select_eid_index lib requested e l = Some (idx, eids_left lib ++ l) /\
    (eids_left lib <> [] -> idx = - ENODEV).
Proof.
  unfold eids_left, real_select_eid_index. destruct (ul_eid_list lib) as [p entries].
  destruct (Z.eqb_spec p 0) as [->|Hp]; lstep; [exists (- ENODEV); destruct entries; auto|].
  destruct entries as [|[idx0 raw0] en]; lstep; [eauto|].
  destruct (select_loop _ _ _ _); lstep; eexists; (split; [reflexivity|congruence]).
Qed.

(** ** The objects balance *)

Definition provider_held (r : real_state) : list ures :=
  [USeg (rs_local_tseg r); UJetty (rs_jetty r); UJfr (rs_jfr r); UJfc (rs_jfc r);
   UJfce (rs_jfce r); UCtx (rs_ctx r); UInit].

Record provider_ok (r : real_state) : Prop := mk_provider_ok {
  po_init : rs_initialized r = true;
  po_ctx : rs_ctx r <> 0;
  po_jfce : rs_jfce r <> 0;
  po_jfc : rs_jfc r <> 0;
  po_jfr : rs_jfr r <> 0;
  po_jetty : rs_jetty r <> 0;
  po_tseg : rs_local_tseg r <> 0
}.

(** The outcome of the initialisation: everything, or nothing and an error. *)
Definition init_outcome (l : list ures) (o : option ((Z * real_state) * list ures)) : Prop :=
  exists rc r, (o = Some ((rc, r), l) /\ rc < 0 /\ rs_initialized r = false) \/
    (rc = 0 /\ o = Some ((rc, r), provider_held r ++ l) /\ provider_ok r).

Lemma outcome_error l rc r :
  rc < 0 -> rs_initialized r = false -> init_outcome l (Some ((rc, r), l)).
Proof. intros. exists rc, r. auto. Qed.

(** Each label gives back what is held when it is reached. *)
Lemma fail_ctx_ok r l :
  rs_initialized r = false -> init_outcome l (fail_ctx r (UCtx (rs_ctx r) :: UInit :: l)).
Proof. intros Hi. unfold fail_ctx. lstep. apply outcome_error; [unfold EIO; lia|exact Hi]. Qed.

Lemma fail_jfce_ok r l :
  rs_initialized r = false ->
  init_outcome l (fail_jfce r (UJfce (rs_jfce r) :: UCtx (rs_ctx r) :: UInit :: l)).
Proof. intros Hi. unfold fail_jfce. lstep. apply (fail_ctx_ok (mk_real _ _ _ _ _ _ _ _)), Hi. Qed.

Lemma fail_jfc_ok r l :
  rs_initialized r = false ->
  init_outcome l
    (fail_jfc r (UJfc (rs_jfc r) :: UJfce (rs_jfce r) :: UCtx (rs_ctx r) :: UInit :: l)).
Proof. intros Hi. unfold fail_jfc. lstep. apply (fail_jfce_ok (mk_real _ _ _ _ _ _ _ _)), Hi. Qed.

Lemma fail_jfr_ok r l :
  rs_initialized r = false ->
  init_outcome l (fail_jfr r (UJfr (rs_jfr r) :: UJfc (rs_jfc r) :: UJfce (rs_jfce r) ::
    UCtx (rs_ctx r) :: UInit :: l)).
Proof. intros Hi. unfold fail_jfr. lstep. apply (fail_jfc_ok (mk_real _ _ _ _ _ _ _ _)), Hi. Qed.

Lemma fail_jetty_ok r l :
  rs_initialized r = false ->
  init_outcome l (fail_jetty r (UJetty (rs_jetty r) :: UJfr (rs_jfr r) :: UJfc (rs_jfc r) ::
    UJfce (rs_jfce r) :: UCtx (rs_ctx r) :: UInit :: l)).
Proof. intros Hi. unfold fail_jetty. lstep. apply (fail_jfr_ok (mk_real _ _ _ _ _ _ _ _)), Hi. Qed.

Lemma create_objects_ok lib mgr backend eid r l :
  rs_initialized r = false -> init_outcome l (create_objects lib mgr backend eid r (UInit :: l)).
Proof.
  intros Hi. unfold create_objects. cbv zeta.
  generalize (cq_depth lib (um_queue_depth mgr)). intros depth.
  generalize (ul_create_context lib (u32 eid)). intros ctx.
  destruct (Z.eqb_spec ctx 0) as [_|H1]; lstep;
    [apply outcome_error; [unfold EIO; lia|exact Hi]|].
  generalize (ul_create_jfce lib ctx). intros jfce.
  destruct (Z.eqb_spec jfce 0) as [_|H2];
    [apply (fail_ctx_ok (mk_real _ _ _ _ _ _ _ _)), Hi|]; lstep.
  generalize (ul_create_jfc lib ctx depth jfce). intros jfc.
  destruct (Z.eqb_spec jfc 0) as [_|H3];
    [apply (fail_jfce_ok (mk_real _ _ _ _ _ _ _ _)), Hi|]; lstep.
  generalize (ul_create_jfr lib ctx depth jfc (um_local_token_value mgr)). intros jfr.
  destruct (Z.eqb_spec jfr 0) as [_|H4];
    [apply (fail_jfc_ok (mk_real _ _ _ _ _ _ _ _)), Hi|]; lstep.
  generalize (ul_create_jetty lib ctx depth jfc jfr). intros jetty.
  destruct (Z.eqb_spec jetty 0) as [_|H5];
    [apply (fail_jfr_ok (mk_real _ _ _ _ _ _ _ _)), Hi|]; lstep.
  generalize (ul_register_seg lib ctx (ramdisk_backend_base backend)
    (ramdisk_backend_size backend) (um_local_token_value mgr)). intros tseg.
  destruct (Z.eqb_spec tseg 0) as [_|H6];
    [apply (fail_jetty_ok (mk_real _ _ _ _ _ _ _ _)), Hi|]; lstep.
  exists 0, (mk_real true ctx jfce jfc jfr jetty (um_local_token_value mgr) tseg).
  right. split; [reflexivity|]. split; [reflexivity|]. split; auto.
Qed.

(** Whether the initialisation gets as far as the selection. *)
Definition select_reached (lib : urma_lib) (mgr : ramdisk_urma_mgr) : bool :=
  ul_init_ok lib && negb (bool_decide (um_urma_dev mgr = [])) &&
  match parse_eid_text (Some (um_urma_dev mgr)) (Some (replicate 16 0)) with
  | (0, Some e) => negb (ul_device_by_eid lib e =? 0) && ul_query_ok lib
  | _ => false
  end.

Definition init_left (lib : urma_lib) (mgr : ramdisk_urma_mgr) : list ures :=
  if select_reached lib mgr then eids_left lib else [].

Lemma lose_under {R} `{EqDecision R} (r : R) l1 l2 :
  r ∉ l1 -> lose r (l1 ++ r :: l2) = Some (tt, l1 ++ l2).
Proof. intros H. unfold lose. rewrite remove_one_under; auto. Qed.

Lemma eids_left_init lib : UInit ∉ eids_left lib.
Proof.
  unfold eids_left. destruct (ul_eid_list lib) as [p [|]]; [destruct (p =? 0)|]; set_solver.
Qed.

(** A refused initialisation keeps nothing but an empty list of endpoints; one
    that succeeds holds all its objects. *)
Lemma init_provider_ok lib mgr backend r l :
  rs_initialized r = false ->
  init_outcome (init_left lib mgr ++ l) (real_init_provider lib mgr backend r l) /\
  (init_left lib mgr <> [] ->
   exists r', real_init_provider lib mgr backend r l = Some ((- ENODEV, r'), init_left lib mgr ++ l)).
Proof.
  intros Hi. unfold real_init_provider, init_left, select_reached.
  assert (Her : forall rc, rc < 0 ->
    init_outcome l (Some ((rc, r), l)) /\
    (@nil ures <> [] -> exists r', Some ((rc, r), l) = Some ((- ENODEV, r'), [] ++ l))).
  { intros rc Hrc. split; [apply outcome_error; auto|congruence]. }
  destruct (ul_init_ok lib); cbn [negb andb]; [|apply Her; unfold EIO; lia]. lstep.
  destruct (bool_decide _); cbn [negb andb]; lstep; [apply Her; unfold EINVAL; lia|].
  destruct (parse_eid_text _ _) as [[|pc|pc] [e|]]; cbn [andb]; lstep;
    try (apply Her; unfold EINVAL; lia).
  destruct (_ =? 0); cbn [negb andb]; lstep; [apply Her; unfold ENODEV; lia|].
  destruct (ul_query_ok lib); cbn [negb andb]; lstep; [|apply Her; unfold EIO; lia].
  destruct (select_held lib (um_eid_index mgr) (Some e) (UInit :: l)) as (idx & -> & Hidx).
  destruct (Z.ltb_spec idx 0) as [Hn|Hn]; lstep.
  - rewrite lose_under by apply eids_left_init. split; [apply outcome_error; auto|].
    intros Hl. rewrite (Hidx Hl). eauto.
  - assert (Hnil : eids_left lib = []).
    { destruct (eids_left lib) eqn:E; [auto|]. unfold ENODEV in Hidx.
      specialize (Hidx ltac:(discriminate)). lia. }
    rewrite Hnil. cbn [app]. split; [apply create_objects_ok; auto|congruence].
Qed.

(** Peers. *)
Definition peer_held (p : real_peer) : list ures :=
  (if rp_t_jetty p =? 0 then [] else [UImportJetty (rp_t_jetty p)]) ++
  (if rp_import_tseg p =? 0 then [] else [UImportSeg (rp_import_tseg p)]).

Definition peers_held (ps : list real_peer) : list ures := concat (peer_held <$> ps).

(** Importing a peer into a zeroed struct: all or nothing. *)
Lemma import_peer_ok lib mgr r peer l :
  rs_initialized r = true ->
  exists rc p, real_import_peer lib mgr r peer rpeer_zero l = Some ((rc, p), peer_held p ++ l) /\
    rp_remote_seg p = seg_of_peer peer /\
    (rc = 0 /\ rp_import_tseg p <> 0 /\ rp_t_jetty p <> 0 \/ rc = - EIO /\ peer_held p = []).
Proof.
  intros Hi. unfold real_import_peer, real_destroy_peer, lose_if. rewrite Hi. cbn [negb]. cbv zeta.
  cbn [rp_import_tseg rp_t_jetty rp_remote_seg rpeer_zero].
  generalize (ul_import_seg lib (rs_ctx r) (seg_of_peer peer) (rs_token r)). intros ts.
  destruct (Z.eqb_spec ts 0) as [->|E1]; lstep;
    [exists (- EIO), (mk_rpeer (seg_of_peer peer) 0 0); auto|].
  generalize (ul_import_jetty lib (rs_ctx r) (rjetty_of_peer mgr peer) (rs_token r)). intros tj.
  apply Z.eqb_neq in E1 as E1'.
  destruct (Z.eqb_spec tj 0) as [->|E2]; cbn [Z.eqb]; lstep.
  - exists (- EIO), (mk_rpeer (seg_of_peer peer) 0 0). auto.
  - exists 0, (mk_rpeer (seg_of_peer peer) ts tj).
    unfold peer_held. cbn [rp_t_jetty rp_import_tseg rp_remote_seg].
    apply Z.eqb_neq in E2 as E2'. rewrite E1', E2'. split; [reflexivity|]. auto.
Qed.

(** Importing peers one after the other, keeping every struct. *)
Fixpoint import_all (lib : urma_lib) (mgr : ramdisk_urma_mgr) (r : real_state)
    (peers : list ramdisk_urma_peer) : led ures (list real_peer) :=
  match peers with
  | [] => mret []
  | peer :: peers' =>
      '(_, p) ← real_import_peer lib mgr r peer rpeer_zero;
      ps ← import_all lib mgr r peers';
      mret (p :: ps)
  end.

Lemma import_all_ok lib mgr r peers : forall l,
  rs_initialized r = true ->
  exists ps l', import_all lib mgr r peers l = Some (ps, l') /\ l' ≡ₚ peers_held ps ++ l.
Proof.
  induction peers as [|peer peers IH]; intros l Hi; [exists [], l; auto|].
  cbn [import_all]. destruct (import_peer_ok lib mgr r peer l Hi) as (rc & p & E & _).
  lstep. rewrite E. lstep. destruct (IH (peer_held p ++ l) Hi) as (ps & l' & E' & Hp).
  rewrite E'. lstep. eexists _, _. split; [reflexivity|]. rewrite Hp. unfold peers_held. cbn.
  rewrite !app_assoc. apply Permutation_app_tail, Permutation_app_comm.
Qed.

(** Giving back something that is on the ledger, or nothing for [NULL]. *)
Lemma lose_if_perm p r l k :
  l ≡ₚ (if p =? 0 then [] else [r]) ++ k -> exists k', lose_if p r l = Some (tt, k') /\ k' ≡ₚ k.
Proof.
  unfold lose_if. destruct (p =? 0); cbn [app]; intros Hp; [exists l; auto|].
  apply lose_perm; auto.
Qed.

Lemma destroy_peers_perm ps : forall l k,
  l ≡ₚ peers_held ps ++ k ->
  exists ps' k', real_destroy_peers ps l = Some (ps', k') /\ k' ≡ₚ k.
Proof.
  induction ps as [|p ps IH]; intros l k Hp; [exists [], l; auto|].
  cbn [real_destroy_peers]. unfold real_destroy_peer. lstep.
  unfold peers_held in Hp. cbn [fmap list_fmap concat] in Hp. unfold peer_held in Hp.
  rewrite <- !app_assoc in Hp.
  destruct (lose_if_perm _ _ _ _ Hp) as (l1 & E1 & H1). rewrite E1. lstep.
  destruct (lose_if_perm _ _ _ _ H1) as (l2 & E2 & H2). rewrite E2. lstep.
  destruct (IH l2 k H2) as (ps' & k' & E & Hk'). rewrite E. lstep. eauto.
Qed.

Lemma destroy_provider_perm r ps l k :
  provider_ok r -> l ≡ₚ peers_held ps ++ provider_held r ++ k ->
  exists r' ps' k', real_destroy_provider r ps l = Some ((r', ps'), k') /\ k' ≡ₚ k /\
    rs_initialized r' = false.
Proof.
  intros [P0 P1 P2 P3 P4 P5 P6] Hp. unfold real_destroy_provider. rewrite P0. cbn [negb]. lstep.
  destruct (destroy_peers_perm _ _ _ Hp) as (ps' & k0 & E & H). rewrite E. lstep. clear E Hp.
  unfold provider_held in H. cbn [app] in H. unfold lose_if.
  apply Z.eqb_neq in P1, P2, P3, P4, P5, P6. rewrite P1, P2, P3, P4, P5, P6.
  do 7 (let k' := fresh "k" in let E := fresh "E" in let Hk := fresh "Hk" in
        destruct (lose_perm _ _ _ H) as (k' & E & Hk); rewrite E; lstep; clear E H; rename Hk into H).
  eexists _, _, _. split; [reflexivity|]. split; [exact H|reflexivity].
Qed.

(** ** Polling *)

(** A poll that does not end the loop: nothing arrived, or the completion of
    another request. *)
Definition poll_skips (lib : urma_lib) (id : Z) (i : nat) : Prop :=
  let '(cnt, ctx, _) := ul_poll lib i in cnt = 0 \/ (0 < cnt /\ ctx <> id).

(** A poll that returns the successful completion of the request. *)
Definition poll_succeeds (lib : urma_lib) (id : Z) (i : nat) : Prop :=
  let '(cnt, ctx, success) := ul_poll lib i in 0 < cnt /\ ctx = id /\ success = true.

Lemma poll_loop_skips lib id n : forall i k,
  (forall j, (j < k)%nat -> poll_skips lib id (i + j)) -> (k <= n)%nat ->
  poll_loop lib id n i = poll_loop lib id (n - k) (i + k).
Proof.
  intros i k. revert n i. induction k as [|k IH]; intros n i Hs Hk; [f_equal; lia|].
  destruct n as [|n]; [lia|]. specialize (Hs 0%nat) as H0. rewrite Nat.add_0_r in H0.
  specialize (H0 ltac:(lia)). unfold poll_skips in H0. cbn [poll_loop Nat.sub].
  replace (i + S k)%nat with (S i + k)%nat by lia. rewrite <- IH; [|intros j Hj|lia].
  - destruct (ul_poll lib i) as [[cnt ctx] su].
    destruct (Z.ltb_spec cnt 0); [lia|]. destruct (Z.eqb_spec cnt 0); [auto|].
    destruct (Z.eqb_spec ctx id); [lia|]. auto.
  - replace (S i + j)%nat with (i + S j)%nat by lia. apply Hs. lia.
Qed.

Lemma poll_loop_zero lib id n : forall i i',
  poll_loop lib id n i = (0, i') ->
  exists k, (k < n)%nat /\ i' = S (i + k) /\ poll_succeeds lib id (i + k) /\
    forall j, (j < k)%nat -> poll_skips lib id (i + j).
Proof.
  induction n as [|n IH]; intros i i'; cbn [poll_loop]; [discriminate|].
  destruct (ul_poll lib i) as [[cnt ctx] su] eqn:Ep.
  assert (Hnext : poll_skips lib id i -> poll_loop lib id n (S i) = (0, i') ->
    exists k, (k < S n)%nat /\ i' = S (i + k) /\ poll_succeeds lib id (i + k) /\
      forall j, (j < k)%nat -> poll_skips lib id (i + j)).
  { intros Hs E. destruct (IH _ _ E) as (k & Hk & -> & Hsu & Hj). exists (S k).
    replace (i + S k)%nat with (S i + k)%nat by lia. split_and!; auto; [lia|].
    intros [|j] Hlt; [rewrite Nat.add_0_r; auto|].
    replace (i + S j)%nat with (S i + j)%nat by lia. apply Hj. lia. }
  unfold poll_skips in Hnext. rewrite Ep in Hnext.
  destruct (Z.ltb_spec cnt 0); [discriminate|].
  destruct (Z.eqb_spec cnt 0); [apply Hnext; auto|].
  destruct (Z.eqb_spec ctx id); cbn [negb]; [|apply Hnext; right; split; [lia|auto]].
  destruct su; cbn [negb]; [|discriminate]. intros [= <-]. exists 0%nat.
  rewrite Nat.add_0_r. unfold poll_succeeds. rewrite Ep. split_and!; auto; lia.
Qed.

(** The loop ends after at most [n] polls. *)
Lemma poll_loop_bound lib id n : forall i,
  (i <= snd (poll_loop lib id n i) <= i + n)%nat.
Proof.
  induction n as [|n IH]; intros i; cbn [poll_loop]; [cbn; lia|].
  destruct (ul_poll lib i) as [[cnt ctx] su]. specialize (IH (S i)).
  repeat case_if; cbn [snd]; lia.
Qed.

Lemma poll_bound lib id i : (snd (real_poll_completion lib id i) <= i + POLL_LOOPS)%nat.
Proof. apply poll_loop_bound. Qed.

(** The result is [0] exactly when a successful completion of the request
    arrives within the bound, after polls that do not end the loop. *)
Lemma poll_exact lib id i :
  fst (real_poll_completion lib id i) = 0 <->
  exists k, (k < POLL_LOOPS)%nat /\ poll_succeeds lib id (i + k) /\
    forall j, (j < k)%nat -> poll_skips lib id (i + j).
Proof.
  unfold real_poll_completion. generalize POLL_LOOPS. intros n. split.
  - destruct (poll_loop lib id n i) as [rc i'] eqn:E. cbn [fst]. intros ->.
    apply poll_loop_zero in E as (k & ? & _ & ? & ?). eauto.
  - intros (k & Hk & Hs & Hj). rewrite (poll_loop_skips lib id n i k) by (auto; lia).
    destruct (n - k)%nat as [|m] eqn:Em; [lia|]. cbn [poll_loop]. unfold poll_succeeds in Hs.
    destruct (ul_poll lib (i + k)) as [[cnt ctx] su]. destruct Hs as (Hc & -> & ->).
    destruct (Z.ltb_spec cnt 0); [lia|]. destruct (Z.eqb_spec cnt 0); [lia|].
    rewrite Z.eqb_refl. reflexivity.
Qed.
