(* ===== verification/UrmaReal.v ===== *)
(** * The manager built with HAVE_URMA (ramdisk_urma.c)

    The parts of the manager's operations that a build with HAVE_URMA adds when
    the mock provider is not chosen: initialisation with the real provider,
    peers that own imported objects, and destruction.  The other state of the
    manager is that of UrmaMgr; the objects of the library are in the ledger of
    UrmaProvider. *)

From S2P Require Import Prelude.
From S2P Require Import Mem.
From S2P Require Import Ledger.
From S2P Require Import Backend.
From S2P Require Import CtrlProto.
From S2P Require Import UrmaMgr.
From S2P Require Import UrmaQueue.
From S2P Require Import Eid.
From S2P Require Import UrmaProvider.

(** The manager, its provider and the provider's part of each slot. *)
Record real_mgr : Type := mk_rm {
  rm_mgr : ramdisk_urma_mgr;
  rm_real : real_state;
  rm_peers : list real_peer
}.

(** ** Destruction *)

(** The loop over the active peers; a slot without a mock frees [NULL]. *)
Fixpoint destroy_active (ps : list ramdisk_urma_peer) (rps : list real_peer)
    : led ures (list ramdisk_urma_peer * list real_peer) :=
  match ps, rps with
  | p :: ps', rp :: rps' =>
      '(p, rp) ← (if up_active p
                  then (rp ← real_destroy_peer rp; mret (with_peers_off p, rp))
                  else mret (p, rp));
      '(ps', rps') ← destroy_active ps' rps';
      mret (p :: ps', rp :: rps')
  | _, _ => mret (ps, rps)
  end.

(** [ramdisk_urma_mgr_destroy] with no request queued: the callers that queue
    requests are threads that were joined before, so the worker leaves its loop at
    once. *)
Definition real_mgr_destroy (s : real_mgr) : led ures real_mgr :=
  if negb (um_initialized (rm_mgr s)) then mret s else
  let m := if um_worker_started (rm_mgr s) then set_run false true (rm_mgr s) else rm_mgr s in
  '(ps, rps) ← destroy_active (um_peers m) (rm_peers s);
  '(r, rps) ← real_destroy_provider (rm_real s) rps;
  mret (mk_rm (set_final m ps) r rps).

(** ** Initialisation *)

(** The provider's part of a zeroed peer table. *)
Definition zeroed_peers : list real_peer :=
  replicate (Z.to_nat RAMDISK_URMA_MAX_PEERS) rpeer_zero.

(** [ramdisk_urma_mgr_init] in a build with HAVE_URMA, on a manager that is not
    [NULL].  Every early return but the first finds the manager zeroed. *)
Definition real_mgr_init (env : urma_init_env) (lib : urma_lib) (s : real_mgr)
    (backend : option ramdisk_backend) (config : option ramdisk_urma_config)
    : led ures (Z * real_mgr) :=
  match mgr_prepare env (Some (rm_mgr s)) backend config with
  | inl (rc, m) =>
      mret (rc, match m, backend with
                | Some m, Some bk => if bk_initialized bk then mk_rm m real_zero zeroed_peers else s
                | _, _ => s
                end)
  | inr m =>
      '(rc, r) ← (if negb (um_use_mock m) then real_init_provider lib m backend real_zero
                  else mret (0, real_zero));
      if negb (rc =? 0) then
        s ← real_mgr_destroy (mk_rm m r zeroed_peers);
        mret (rc, s)
      else if negb (ie_thread_rc env =? 0) then
        s ← real_mgr_destroy (mk_rm m r zeroed_peers);
        mret (- ie_thread_rc env, s)
      else mret (0, mk_rm (set_run true false m) r zeroed_peers)
  end.

(** ** Peers *)

Definition real_peer_connect (lib : urma_lib) (s : real_mgr)
    (info : option ramdisk_ctrl_peer_connect_info) : led ures (Z * real_mgr) :=
  let m := rm_mgr s in
  match info with
  | None => mret (- EINVAL, s)
  | Some info =>
      if negb (um_initialized m) then mret (- EINVAL, s) else
      if (ci_peer_id info =? 0) || (ci_seg_len info =? 0) then mret (- EINVAL, s) else
      let new_peer := peer_of_info info Null in
      '(rc, rp) ← real_import_peer lib m (rm_real s) new_peer rpeer_zero;
      if negb (rc =? 0) then mret (rc, s) else
      if negb (um_enabled m) then (_ ← real_destroy_peer rp; mret (- EOPNOTSUPP, s)) else
      match find_peer_locked m (ci_peer_id info) with
      | Some _ => _ ← real_destroy_peer rp; mret (- EEXIST, s)
      | None =>
          match find_free_from (um_peers m) 0 with
          | None => _ ← real_destroy_peer rp; mret (- ENOSPC, s)
          | Some i =>
              mret (0, mk_rm (set_peers (<[i := new_peer]> (um_peers m)) m) (rm_real s)
                         (<[i := rp]> (rm_peers s)))
          end
      end
  end.

Definition real_peer_disconnect (s : real_mgr) (peer_id : Z) : led ures (Z * real_mgr) :=
  let m := rm_mgr s in
  if negb (um_initialized m) || (peer_id =? 0) then mret (- EINVAL, s) else
  match find_peer_locked m peer_id with
  | None => mret (- ENOENT, s)
  | Some i =>
      let old := nth i (rm_peers s) rpeer_zero in
      _ ← real_destroy_peer old;
      mret (0, mk_rm (set_peers (<[i := peer_zero]> (um_peers m)) m) (rm_real s)
                 (<[i := rpeer_zero]> (rm_peers s)))
  end.

(** ** The worker *)

(** One request through [urma_worker_main] in a build with HAVE_URMA: it is taken
    from the ring, checked again and given the start of the peer's segment as its
    remote address; outside the lock, when the manager does not use the mock, it is
    posted and its completion polled for; then it is completed and logged.  Nothing
    is done when the ring is empty.  The result is the world afterwards, what was
    posted and the polls made. *)
Definition real_worker_step (lib : urma_lib) (addr_of : ptr -> Z) (r : real_state)
    (rps : list real_peer) (w : urma_world) (n : nat)
    : mem (option (urma_world * option urma_jfs_wr * nat)) :=
  d ← worker_dequeue w;
  match d with
  | DeqWait | DeqExit => mret None
  | DeqJob w a slot rc =>
      '(rc, w, posted, n) ←
        (if negb (rc =? 0) || um_use_mock (uw_mgr w) then
           '(rc, w) ← worker_execute w a slot rc;
           mret (rc, w, None, n)
         else
           req ← lift (uw_reqs w !! a);
           let '(rc, posted, n) :=
             execute_real_xfer lib addr_of r (uw_backend w) req
               (nth slot (um_peers (uw_mgr w)) peer_zero) (nth slot rps rpeer_zero) n in
           mret (rc, w, posted, n));
      w ← worker_complete w a rc;
      _ ← worker_log w a;
      mret (Some (w, posted, n))
  end.

(** ** Sessions *)

(** What the control path may ask of a running manager, in any order. *)
Inductive real_op : Type :=
| RConnect (info : option ramdisk_ctrl_peer_connect_info)
| RDisconnect (peer_id : Z)
| REnable
| RDisable.

Definition real_step (lib : urma_lib) (s : real_mgr) (op : real_op) : led ures (Z * real_mgr) :=
  match op with
  | RConnect info => real_peer_connect lib s info
  | RDisconnect id => real_peer_disconnect s id
  | REnable =>
      let '(rc, m) := ramdisk_urma_enable (Some (rm_mgr s)) in
      mret (rc, mk_rm (default (rm_mgr s) m) (rm_real s) (rm_peers s))
  | RDisable =>
      let '(rc, m) := ramdisk_urma_disable (Some (rm_mgr s)) in
      mret (rc, mk_rm (default (rm_mgr s) m) (rm_real s) (rm_peers s))
  end.

Fixpoint real_run (lib : urma_lib) (s : real_mgr) (ops : list real_op)
    : led ures (list Z * real_mgr) :=
  match ops with
  | [] => mret ([], s)
  | op :: ops' =>
      '(rc, s) ← real_step lib s op;
      '(rcs, s) ← real_run lib s ops';
      mret (rc :: rcs, s)
  end.

(** Start, a session if the start succeeded, and the end. *)
Definition real_life (env : urma_init_env) (lib : urma_lib) (s : real_mgr)
    (backend : option ramdisk_backend) (config : option ramdisk_urma_config) (ops : list real_op)
    : led ures (Z * list Z * real_mgr) :=
  '(rc, s) ← real_mgr_init env lib s backend config;
  if negb (rc =? 0) then mret (rc, [], s) else
  '(rcs, s) ← real_run lib s ops;
  s ← real_mgr_destroy s;
  mret (rc, rcs, s).

(** ** The invariant *)

(** A slot's imported objects: none when it is free; both, for the segment the
    peer announced, when it is active. *)
Definition slot_ok (p : ramdisk_urma_peer) (rp : real_peer) : Prop :=
  if up_active p
  then rp_import_tseg rp <> 0 /\ rp_t_jetty rp <> 0 /\ rp_remote_seg rp = seg_of_peer p
  else rp = rpeer_zero.

(** [k] is what was held before the manager. *)
Record real_inv (s : real_mgr) (l k : list ures) : Prop := mk_real_inv {
  ri_init : um_initialized (rm_mgr s) = true;
  ri_prov : provider_ok (rm_real s);
  ri_slots : Forall2 slot_ok (um_peers (rm_mgr s)) (rm_peers s);
  ri_held : l ≡ₚ peers_held (rm_peers s) ++ provider_held (rm_real s) ++ k
}.

(** Replacing a slot. *)
Lemma peers_held_insert rps i old rp :
  rps !! i = Some old ->
  peer_held old ++ peers_held (<[i := rp]> rps) ≡ₚ peer_held rp ++ peers_held rps.
Proof.
  revert i. induction rps as [|x rps IH]; intros [|i] Hi; try discriminate.
  - injection Hi as ->. unfold peers_held. cbn. rewrite !app_assoc.
    apply Permutation_app_tail, Permutation_app_comm.
  - specialize (IH i Hi). unfold peers_held in *. cbn [insert list_insert fmap list_fmap concat].
    rewrite !(Permutation_app_swap_app _ (peer_held x)). apply Permutation_app_head, IH.
Qed.

Lemma destroy_peer_perm rp l k :
  l ≡ₚ peer_held rp ++ k ->
  exists l', real_destroy_peer rp l = Some (mk_rpeer (rp_remote_seg rp) 0 0, l') /\ l' ≡ₚ k.
Proof.
  unfold real_destroy_peer, peer_held. rewrite <- app_assoc. intros Hp. lstep.
  destruct (lose_if_perm _ _ _ _ Hp) as (l1 & E1 & H1). rewrite E1. lstep.
  destruct (lose_if_perm _ _ _ _ H1) as (l2 & E2 & H2). rewrite E2. lstep. eauto.
Qed.

Lemma destroy_active_perm ps rps : forall l k,
  l ≡ₚ peers_held rps ++ k ->
  exists ps' rps' l', destroy_active ps rps l = Some ((ps', rps'), l') /\
    l' ≡ₚ peers_held rps' ++ k.
Proof.
  revert rps. induction ps as [|p ps IH]; intros [|rp rps] l k Hp;
    try (eexists _, _, _; split; [reflexivity|auto]; fail).
  cbn [destroy_active]. unfold peers_held in Hp. cbn [fmap list_fmap concat] in Hp.
  rewrite <- app_assoc in Hp. destruct (up_active p); lstep.
  - destruct (destroy_peer_perm _ _ _ Hp) as (l1 & E & H1). rewrite E. lstep.
    destruct (IH rps l1 k H1) as (ps' & rps' & l' & E' & H'). rewrite E'. lstep.
    eexists _, _, _. split; [reflexivity|]. exact H'.
  - rewrite (Permutation_app_swap_app (peer_held rp)) in Hp.
    destruct (IH rps l _ Hp) as (ps' & rps' & l' & E' & H'). rewrite E'. lstep.
    eexists _, _, _. split; [reflexivity|]. rewrite H'. unfold peers_held.
    cbn [fmap list_fmap concat]. rewrite <- app_assoc. apply Permutation_app_swap_app.
Qed.

Lemma real_mgr_destroy_ok s l k :
  real_inv s l k ->
  exists s' l', real_mgr_destroy s l = Some (s', l') /\ l' ≡ₚ k /\
    rs_initialized (rm_real s') = false /\ um_initialized (rm_mgr s') = false.
Proof.
  intros [I1 I2 I3 I4]. unfold real_mgr_destroy. rewrite I1. cbn [negb]. cbv zeta. lstep.
  set (m := if um_worker_started _ then _ else _).
  destruct (destroy_active_perm (um_peers m) _ _ _ I4) as (ps & rps & l1 & E & H1).
  rewrite E. lstep. destruct (destroy_provider_perm _ _ _ _ I2 H1) as (r & rps' & l2 & E2 & H2 & Hr).
  rewrite E2. lstep. eexists _, _. split; [reflexivity|]. auto.
Qed.

(** ** The invariant is kept *)

(** An import that is given up leaves the ledger as it was. *)
Lemma import_undone s l k rp rc :
  real_inv s l k ->
  exists l', (_ ← real_destroy_peer rp; (mret (rc, s) : led ures (Z * real_mgr)))
      (peer_held rp ++ l) = Some ((rc, s), l') /\
    real_inv s l' k.
Proof.
  intros [I1 I2 I3 I4]. rewrite led_bind_eq.
  destruct (destroy_peer_perm rp (peer_held rp ++ l) l) as (l' & E & Hl'); [auto|].
  rewrite E. exists l'. split; [reflexivity|]. split; auto. rewrite Hl'. auto.
Qed.

Lemma real_connect_inv lib s info l k :
  real_inv s l k ->
  exists rc s' l', real_peer_connect lib s info l = Some ((rc, s'), l') /\ real_inv s' l' k /\
    rm_real s' = rm_real s.
Proof.
  intros I. pose proof I as [I1 I2 I3 I4]. unfold real_peer_connect.
  destruct info as [info|]; [|eexists _, s, l; auto]. rewrite I1. cbn [negb].
  case_if; [eexists _, s, l; auto|]. lstep.
  destruct (import_peer_ok lib (rm_mgr s) (rm_real s) (peer_of_info info Null) l (po_init _ I2))
    as (rc & rp & E & Hseg & Hrc). rewrite E. lstep. clear E.
  destruct Hrc as [(-> & Ht & Hj)|[-> Hnil]]; cbn [Z.eqb negb Z.opp EIO];
    [|lstep; rewrite Hnil; eexists _, s, l; auto].
  destruct (um_enabled (rm_mgr s)); cbn [negb];
    [|destruct (import_undone s l k rp (- EOPNOTSUPP) I) as (l' & E & I'); eexists _, s, l'; split; [exact E|auto]].
  destruct (find_peer_locked (rm_mgr s) (ci_peer_id info));
    [destruct (import_undone s l k rp (- EEXIST) I) as (l' & E & I'); eexists _, s, l'; split; [exact E|auto]|].
  destruct (find_free_from (um_peers (rm_mgr s)) 0) as [i|] eqn:Ef;
    [|destruct (import_undone s l k rp (- ENOSPC) I) as (l' & E & I'); eexists _, s, l'; split; [exact E|auto]].
  apply find_free_Some in Ef as (j & p & -> & Hp & Ha). cbn [Nat.add]. lstep.
  destruct (Forall2_lookup_l _ _ _ _ _ I3 Hp) as (rp0 & Hrp0 & Hs0). unfold slot_ok in Hs0.
  rewrite Ha in Hs0. subst rp0.
  eexists _, _, _. split; [reflexivity|]. split; [|reflexivity]. split; auto.
  - apply Forall2_insert; auto. unfold slot_ok. cbn. auto.
  - cbn [rm_peers rm_real]. pose proof (peers_held_insert _ _ _ rp Hrp0) as Hh.
    cbn [app] in Hh. change (peer_held rpeer_zero) with (@nil ures) in Hh. cbn [app] in Hh.
    rewrite Hh, I4, <- app_assoc. auto.
Qed.

Lemma real_disconnect_inv s id l k :
  real_inv s l k ->
  exists rc s' l', real_peer_disconnect s id l = Some ((rc, s'), l') /\ real_inv s' l' k /\
    rm_real s' = rm_real s.
Proof.
  intros I. pose proof I as [I1 I2 I3 I4]. unfold real_peer_disconnect.
  case_if; [eexists _, s, l; auto|].
  destruct (find_peer_locked (rm_mgr s) id) as [i|] eqn:Ef; [|eexists _, s, l; auto].
  apply find_peer_Some in Ef as (j & p & -> & Hp & Ha & Hid). cbn [Nat.add]. lstep.
  destruct (Forall2_lookup_l _ _ _ _ _ I3 Hp) as (rp & Hrp & Hs). rewrite nth_lookup, Hrp. cbn.
  pose proof (peers_held_insert _ _ _ rpeer_zero Hrp) as Hh.
  change (peer_held rpeer_zero) with (@nil ures) in Hh. cbn [app] in Hh.
  rewrite <- Hh, <- app_assoc in I4.
  destruct (destroy_peer_perm _ _ _ I4) as (l' & E & Hl'). rewrite E. lstep.
  eexists _, _, _. split; [reflexivity|]. split; [|reflexivity]. split; auto.
  apply Forall2_insert; auto. reflexivity.
Qed.

Lemma real_step_inv lib s op l k :
  real_inv s l k ->
  exists rc s' l', real_step lib s op l = Some ((rc, s'), l') /\ real_inv s' l' k.
Proof.
  intros I. destruct op as [info|id| |]; cbn [real_step].
  - destruct (real_connect_inv lib s info l k I) as (rc & s' & l' & E & I' & _). eauto.
  - destruct (real_disconnect_inv s id l k I) as (rc & s' & l' & E & I' & _). eauto.
  - unfold ramdisk_urma_enable. pose proof I as [I1 I2 I3 I4]. rewrite I1. cbn [negb]. lstep.
    eexists _, _, _. split; [reflexivity|]. split; auto.
  - unfold ramdisk_urma_disable. pose proof I as [I1 I2 I3 I4]. rewrite I1. cbn [negb]. lstep.
    eexists _, _, _. split; [reflexivity|]. split; auto.
Qed.

Lemma real_run_inv lib ops : forall s l k,
  real_inv s l k ->
  exists rcs s' l', real_run lib s ops l = Some ((rcs, s'), l') /\ real_inv s' l' k.
Proof.
  induction ops as [|op ops IH]; intros s l k I; [exists [], s, l; auto|]. cbn [real_run]. lstep.
  destruct (real_step_inv lib s op l k I) as (rc & s1 & l1 & E1 & I1). rewrite E1. lstep.
  destruct (IH s1 l1 k I1) as (rcs & s2 & l2 & E2 & I2). rewrite E2. lstep. eauto.
Qed.

(** ** Nothing leaks, nothing is given back twice *)

Lemma held_zero n : peers_held (replicate n rpeer_zero) = [].
Proof. induction n; auto. Qed.

Lemma fresh_slots n : Forall2 slot_ok (replicate n peer_zero) (replicate n rpeer_zero).
Proof. induction n; constructor; auto. reflexivity. Qed.

(** What [mgr_prepare] returns: an error, or a filled-in manager. *)
Lemma mgr_prepare_cases env mgr backend config :
  (ie_mutex_rc env >= 0) ->
  match mgr_prepare env mgr backend config with
  | inl (rc, m) => rc < 0 /\ (m = mgr \/ m = Some mgr_zero)
  | inr m => exists qd, m = mgr_of_config config qd /\
      qd <= RAMDISK_URMA_MAX_QUEUE_DEPTH
  end.
Proof.
  intros He. unfold mgr_prepare, EINVAL, ENOMEM. destruct mgr, backend; try (split; [lia|auto]).
  repeat case_if; try (split; [lia|auto]; fail).
  eexists. split; [reflexivity|]. lia.
Qed.

(** Destroying a manager whose provider did not start gives nothing back. *)
Lemma destroy_not_started config qd r l :
  rs_initialized r = false ->
  real_mgr_destroy (mk_rm (mgr_of_config config qd) r zeroed_peers) l
  = Some (mk_rm (set_final (mgr_of_config config qd)
                  (replicate (Z.to_nat RAMDISK_URMA_MAX_PEERS) peer_zero)) r zeroed_peers, l).
Proof.
  intros Hr. unfold real_mgr_destroy.
  cbn [rm_mgr rm_peers rm_real mgr_of_config um_initialized um_worker_started negb].
  lstep. assert (E : forall n, destroy_active (replicate n peer_zero) (replicate n rpeer_zero) l
    = Some ((replicate n peer_zero, replicate n rpeer_zero), l)).
  { induction n as [|n IH]; [reflexivity|]. cbn. lstep. rewrite IH. reflexivity. }
  unfold zeroed_peers. change (um_peers _) with
    (replicate (Z.to_nat RAMDISK_URMA_MAX_PEERS) peer_zero). rewrite E. lstep.
  unfold real_destroy_provider. rewrite Hr. cbn [negb]. lstep. reflexivity.
Qed.

(** What a failed start leaves: the endpoint list, when the selection is reached
    and finds it without an entry. *)
Definition start_left (env : urma_init_env) (lib : urma_lib) (s : real_mgr)
    (backend : option ramdisk_backend) (c : ramdisk_urma_config) : list ures :=
  match mgr_prepare env (Some (rm_mgr s)) backend (Some c) with
  | inl _ => []
  | inr m => init_left lib m
  end.

(** Starting a manager with the real provider: all its objects, or nothing but
    what [start_left] names. *)
Lemma real_mgr_init_ok env lib s0 backend c l :
  uc_use_mock c = false -> 0 <= ie_mutex_rc env ->
  um_initialized (rm_mgr s0) = false ->
  exists rc s l', real_mgr_init env lib s0 backend (Some c) l = Some ((rc, s), l') /\
    (start_left env lib s0 backend c <> [] -> rc = - ENODEV) /\
    (rc <> 0 -> l' ≡ₚ start_left env lib s0 backend c ++ l /\ um_initialized (rm_mgr s) = false) /\
    (rc = 0 -> real_inv s l' l /\
       exists qd, rm_mgr s = set_run true false (mgr_of_config (Some c) qd) /\
         qd <= RAMDISK_URMA_MAX_QUEUE_DEPTH).
Proof.
  intros Hc Hm Hs0. unfold real_mgr_init, start_left.
  pose proof (mgr_prepare_cases env (Some (rm_mgr s0)) backend (Some c) ltac:(lia)) as Hp.
  destruct (mgr_prepare _ _ _ _) as [[rc m]|m].
  { destruct Hp as [Hrc Hmm]. lstep. eexists rc, _, l. split; [reflexivity|].
    split; [congruence|]. split; [|lia]. intros _. split; [auto|].
    destruct Hmm as [-> | ->], backend as [bk|]; try destruct (bk_initialized bk); auto. }
  destruct Hp as (qd & -> & Hq). cbn [mgr_of_config um_use_mock]. rewrite Hc. cbn [negb].
  fold (mgr_of_config (Some c) qd). lstep.
  destruct (init_provider_ok lib (mgr_of_config (Some c) qd) backend real_zero l eq_refl)
    as [(rc & r & [(E & Hrc & Hr)|(-> & E & P)]) Hx]; rewrite E in *; lstep.
  - destruct (Z.eqb_spec rc 0); [lia|]. cbn [negb]. lstep.
    rewrite (destroy_not_started (Some c) qd r _ Hr). lstep.
    eexists rc, _, _. split; [reflexivity|]. split; [|split; [auto|lia]].
    intros Hl. destruct (Hx Hl) as (r' & [= -> _]). reflexivity.
  - assert (Hnil : init_left lib (mgr_of_config (Some c) qd) = []).
    { destruct (init_left lib _) eqn:El; [auto|]. destruct Hx as (r' & [=]); discriminate. }
    rewrite Hnil in *. cbn [Z.eqb negb app].
    assert (I : forall b, real_inv
      (mk_rm (if b : bool then set_run true false (mgr_of_config (Some c) qd)
              else mgr_of_config (Some c) qd) r zeroed_peers) (provider_held r ++ l) l).
    { intros b. split; [destruct b; reflexivity|auto| |].
      - destruct b; apply fresh_slots.
      - unfold zeroed_peers. cbn [rm_peers rm_real]. rewrite held_zero. auto. }
    destruct (Z.eqb_spec (ie_thread_rc env) 0) as [->|Ht]; cbn [negb]; lstep.
    + eexists _, _, _. split; [reflexivity|]. split; [congruence|]. split; [lia|].
      intros _. split; [apply (I true)|eauto].
    + destruct (real_mgr_destroy_ok _ _ _ (I false)) as (s & l' & E' & Hl & _ & Hs).
      rewrite E'. lstep. exists (- ie_thread_rc env), s, l'. split; [auto|]. split; [congruence|].
      split; [auto|lia].
Qed.

(** It is nothing, or a list without an entry. *)
Lemma start_left_cases env lib s backend c :
  start_left env lib s backend c = [] \/
  exists p, p <> 0 /\ ul_eid_list lib = (p, []) /\ start_left env lib s backend c = [UEids p].
Proof.
  unfold start_left. destruct (mgr_prepare _ _ _ _) as [|m]; [auto|].
  unfold init_left. destruct (select_reached lib m); [|auto]. unfold eids_left.
  destruct (ul_eid_list lib) as [p [|]]; [|auto]. destruct (Z.eqb_spec p 0); [auto|]. right. eauto.
Qed.

(** C17.  Nothing of the vendor's library is given back twice, and what leaks is
    known exactly.  For a manager that was not initialised and a configuration
    with the real provider, whatever calls of the library, of the allocator and of
    thread creation fail, and whatever peers connect and disconnect and however
    transfers are enabled and disabled in between: the life of the manager runs
    without giving back anything it does not hold, ends uninitialised, and leaves
    the objects held before it and those of [start_left].  These are none, unless
    the start gets as far as the endpoint list and the library returns a list that
    is not [NULL] and has no entry; that list is never freed, and the start
    returns -ENODEV.  The calls that initialise mutexes return 0 or a positive
    error. *)
Theorem real_life_balanced env lib s0 backend c ops l :
  uc_use_mock c = false -> 0 <= ie_mutex_rc env ->
  um_initialized (rm_mgr s0) = false ->
  exists rc rcs s l', real_life env lib s0 backend (Some c) ops l = Some ((rc, rcs, s), l') /\
    l' ≡ₚ start_left env lib s0 backend c ++ l /\ um_initialized (rm_mgr s) = false /\
    (start_left env lib s0 backend c = [] \/
     rc = - ENODEV /\ exists p, p <> 0 /\ ul_eid_list lib = (p, []) /\
       start_left env lib s0 backend c = [UEids p]).
Proof.
  intros Hc Hm Hs0. unfold real_life. lstep.
  destruct (real_mgr_init_ok env lib s0 backend c l Hc Hm Hs0)
    as (rc & s & l1 & E & Hn & Hf & Hs).
  assert (Hleft : start_left env lib s0 backend c = [] \/
    rc = - ENODEV /\ exists p, p <> 0 /\ ul_eid_list lib = (p, []) /\
       start_left env lib s0 backend c = [UEids p]).
  { destruct (start_left_cases env lib s0 backend c) as [|(p & Hp & El & Es)]; [auto|].
    right. split; [apply Hn; rewrite Es; discriminate|eauto]. }
  rewrite E. lstep. destruct (Z.eqb_spec rc 0) as [->|Hrc]; cbn [negb]; lstep.
  - destruct (real_run_inv lib ops s l1 l (proj1 (Hs eq_refl))) as (rcs & s2 & l2 & E2 & I2).
    rewrite E2. lstep. destruct (real_mgr_destroy_ok _ _ _ I2) as (s3 & l3 & E3 & H3 & _ & Hu).
    rewrite E3. lstep. eexists _, _, _, _. split; [reflexivity|]. split; [|auto].
    destruct Hleft as [-> |[[=] _]]. exact H3.
  - destruct (Hf Hrc) as [Hl Hu]. eexists _, _, _, _. split; [reflexivity|]. auto.
Qed.

(** ** Transfers *)

(** Segment fields have 64 bits. *)
Definition peer_typed (p : ramdisk_urma_peer) : Prop :=
  is_u64 (up_seg_va p) /\ is_u64 (up_seg_len p).

Lemma validate_real_ok m bk b bs h x i :
  backend_wf bk b bs h -> Forall peer_typed (um_peers m) -> transfer_typed x ->
  validate_xfer_locked m (Some bk) (Some x) = (0, Some i) ->
  (ct_direction x = RAMDISK_TO_HBM \/ ct_direction x = HBM_TO_RAMDISK) /\
  0 < ct_length x /\ ct_local_offset x + ct_length x <= bk_size bk /\
  exists p, um_peers m !! i = Some p /\ up_active p = true /\ up_peer_id p = ct_peer_id x /\
    up_seg_va p <= ct_remote_hbm_addr x /\
    ct_remote_hbm_addr x + ct_length x <= up_seg_va p + up_seg_len p.
Proof.
  intros W P (T1 & T2 & T3 & T4 & T5 & T6). unfold validate_xfer_locked.
  case_if; [discriminate|]. destruct (Z.eqb_spec (ct_length x) 0); [discriminate|].
  destruct (negb _ && negb _) eqn:Ed; [discriminate|].
  rewrite (validate_range_eq _ _ _ _ _ _ W) by int_lia. unfold range_spec.
  destruct (Z.leb_spec (ct_local_offset x + ct_length x) (bk_size bk)); [|discriminate].
  cbn [negb Z.eqb]. case_if; [discriminate|]. unfold find_peer_locked.
  destruct (find_peer_from (um_peers m) (ct_peer_id x) 0) as [j|] eqn:Ef; [|discriminate].
  apply find_peer_Some in Ef as (j' & p & -> & Hp & Ha & Hid). cbn [Nat.add].
  rewrite (nth_lookup' _ _ _ Hp).
  destruct (Forall_lookup_1 _ _ _ _ P Hp) as [Pv Pl].
  destruct (Z.ltb_spec (ct_remote_hbm_addr x) (up_seg_va p)); [discriminate|].
  rewrite (u64_small (ct_remote_hbm_addr x - up_seg_va p)) by int_lia.
  destruct (ct_remote_hbm_addr x - up_seg_va p >? up_seg_len p) eqn:E1; cbn [orb]; [discriminate|].
  rewrite u64_small by int_lia. destruct (ct_length x >? _) eqn:E2; [discriminate|].
  intros [= <-]. split; [apply andb_false_iff in Ed; lia|]. split; [int_lia|]. split; [lia|].
  exists p. split_and!; auto; lia.
Qed.

(** The work request of a transfer over plain integers. *)
Definition xfer_wr (base : Z) (r : real_state) (rp : real_peer) (req : ramdisk_urma_request)
    : urma_jfs_wr :=
  let disk := mk_usge (base + rq_local_offset req) (rq_length req) (rs_local_tseg r) in
  let hbm := mk_usge (rq_remote_hbm_addr req) (rq_length req) (rp_import_tseg rp) in
  if rq_direction req =? RAMDISK_TO_HBM
  then mk_wr URMA_OPC_WRITE disk hbm (rp_t_jetty rp) (rq_request_id req)
  else mk_wr URMA_OPC_READ hbm disk (rp_t_jetty rp) (rq_request_id req).

(** A validated request is posted as it is, without wrap-around, whether its
    remote address is the client's or, as the worker rewrites it, the start of
    the segment. *)
Lemma real_xfer_posted lib addr_of s l k bk b bs h req i p rp a n :
  real_inv s l k -> backend_wf bk b bs h -> Forall peer_typed (um_peers (rm_mgr s)) ->
  transfer_typed (xfer_of_request req) ->
  validate_xfer_locked (rm_mgr s) (Some bk) (Some (xfer_of_request req)) = (0, Some i) ->
  um_peers (rm_mgr s) !! i = Some p -> rm_peers s !! i = Some rp ->
  0 <= addr_of (bk_base bk) -> addr_of (bk_base bk) + bk_size bk <= 2 ^ 64 ->
  a = rq_remote_hbm_addr req \/ a = up_seg_va p ->
  execute_real_xfer lib addr_of (rm_real s) (Some bk) (set_remote a req) p rp n
  = let wr := xfer_wr (addr_of (bk_base bk)) (rm_real s) rp (set_remote a req) in
    if ul_post_ok lib (rs_jetty (rm_real s)) wr
    then let '(rc, n') := real_poll_completion lib (rq_request_id req) n in (rc, Some wr, n')
    else (- EIO, Some wr, n).
Proof.
  intros [I1 I2 I3 I4] W P T V Hp Hrp Hb0 Hb1 Ha.
  destruct (validate_real_ok _ _ _ _ _ _ _ W P T V)
    as (_ & Hl0 & Hlen & p' & Hp' & Hact & _ & Hr1 & Hr2).
  rewrite Hp in Hp'. injection Hp' as <-.
  pose proof (Forall2_lookup_lr _ _ _ _ _ _ I3 Hp Hrp) as S0. unfold slot_ok in S0.
  rewrite Hact in S0. destruct S0 as (S1 & S2 & S3).
  destruct (Forall_lookup_1 _ _ _ _ P Hp) as [Pv Pl].
  destruct T as (T1 & T2 & T3 & T4 & T5 & T6). destruct req as [rid id off addr len dir st dn].
  cbn [xfer_of_request ct_length ct_local_offset ct_remote_hbm_addr ct_direction ct_request_id
    rq_length rq_local_offset rq_remote_hbm_addr rq_direction rq_request_id rq_peer_id] in *.
  unfold execute_real_xfer, set_remote, xfer_wr.
  cbn [rq_length rq_local_offset rq_remote_hbm_addr rq_direction rq_request_id].
  rewrite (po_init _ I2), S3. pose proof (po_tseg _ I2) as Ht.
  destruct (Z.eqb_spec (rp_import_tseg rp) 0); [lia|].
  destruct (Z.eqb_spec (rp_t_jetty rp) 0); [lia|].
  destruct (Z.eqb_spec (rs_local_tseg (rm_real s)) 0); [lia|]. cbn [negb orb].
  unfold ramdisk_backend_base. rewrite (bw_init _ _ _ _ W). cbn [us_va seg_of_peer].
  pose proof (bw_size_u64 _ _ _ _ W).
  rewrite (u64_small (addr_of (bk_base bk) + off)) by int_lia.
  rewrite (u64_small (a - up_seg_va p)) by int_lia. rewrite (u64_small (up_seg_va p + _)) by int_lia.
  replace (up_seg_va p + (a - up_seg_va p)) with a by lia.
  destruct (dir =? RAMDISK_TO_HBM); cbv zeta; destruct (ul_post_ok _ _ _); reflexivity.
Qed.

(** The remote side of a work request. *)
Definition wr_remote (wr : urma_jfs_wr) : urma_sge :=
  match wr_opcode wr with URMA_OPC_WRITE => wr_dst wr | URMA_OPC_READ => wr_src wr end.

(** C18.  A queued transfer through the worker with the real provider.  When the
    request at the head of the ring still validates, the worker takes it, posts
    one work request, polls, and reports the result to its caller.  The work
    request has the opcode of the direction, the client's disk range, which lies
    inside the disk, computed without wrap-around, and the client's length; its
    remote range starts at the beginning of the peer's segment, WHATEVER remote
    address the client gave and the check accepted, and lies inside the imported
    segment.  So the range that was checked is the one that is posted exactly when
    the client asked for the start of the segment.  The caller is told success
    exactly when the library takes the request and a successful completion of it
    arrives within 30000 polls that until then return nothing or other requests'
    completions; there are never more polls; the request is marked done and
    counted as completed or failed, and the disk's bytes are not touched by the
    program.  The disk is mapped below 2^64. *)
Theorem real_worker_exact lib addr_of w r rps l k bk b bs h q a req i p rp n :
  real_inv (mk_rm (uw_mgr w) r rps) l k ->
  um_use_mock (uw_mgr w) = false ->
  uw_backend w = Some bk -> backend_wf bk b bs h -> Forall peer_typed (um_peers (uw_mgr w)) ->
  um_pending (uw_mgr w) <> 0 -> um_queue_depth (uw_mgr w) <> 0 -> um_queue (uw_mgr w) = Some q ->
  q !! Z.to_nat (um_head (uw_mgr w)) = Some (Some a) -> uw_reqs w !! a = Some req ->
  transfer_typed (xfer_of_request req) ->
  validate_xfer_locked (uw_mgr w) (Some bk) (Some (xfer_of_request req)) = (0, Some i) ->
  um_peers (uw_mgr w) !! i = Some p -> rps !! i = Some rp ->
  0 <= addr_of (bk_base bk) -> addr_of (bk_base bk) + bk_size bk <= 2 ^ 64 ->
  exists w' wr n' rc,
    real_worker_step lib addr_of r rps w n h = Some (Some (w', Some wr, n'), h) /\
    wr = xfer_wr (addr_of (bk_base bk)) r rp (set_remote (up_seg_va p) req) /\
    (0 <= rq_local_offset req /\ rq_local_offset req + rq_length req <= bk_size bk) /\
    wr_remote wr = mk_usge (up_seg_va p) (rq_length req) (rp_import_tseg rp) /\
    rq_length req <= up_seg_len p /\
    (ug_addr (wr_remote wr) = rq_remote_hbm_addr req <-> rq_remote_hbm_addr req = up_seg_va p) /\
    (rc = 0 <-> ul_post_ok lib (rs_jetty r) wr = true /\
       exists j, (j < POLL_LOOPS)%nat /\ poll_succeeds lib (rq_request_id req) (n + j) /\
         forall j', (j' < j)%nat -> poll_skips lib (rq_request_id req) (n + j')) /\
    (n' <= n + POLL_LOOPS)%nat /\
    uw_reqs w' !! a = Some (set_done rc (set_remote (up_seg_va p) req)) /\
    (um_completed (uw_mgr w'), um_failed (uw_mgr w'))
    = (if rc =? 0 then (u64 (um_completed (uw_mgr w) + 1), um_failed (uw_mgr w))
       else (um_completed (uw_mgr w), u64 (um_failed (uw_mgr w) + 1))) /\
    um_pending (uw_mgr w') = u32 (um_pending (uw_mgr w) - 1).
Proof.
  intros I Hmock Hbk W P Hpe Hqd Hq Hslot Hr T V Hp Hrp Hb0 Hb1.
  set (wr := xfer_wr (addr_of (bk_base bk)) r rp (set_remote (up_seg_va p) req)).
  pose proof (real_xfer_posted lib addr_of _ l k bk b bs h req i p rp (up_seg_va p) n
    I W P T V Hp Hrp Hb0 Hb1 (or_intror eq_refl)) as X. cbn [rm_real] in X. fold wr in X.
  destruct (validate_real_ok _ _ _ _ _ _ _ W P T V)
    as (_ & Hl0 & Hlen & p' & Hp' & Hact & _ & Hr1 & Hr2).
  rewrite Hp in Hp'. injection Hp' as <-. destruct T as (T1 & T2 & T3 & T4 & T5 & T6).
  cbn in Hl0, Hlen, Hr1, Hr2, T3.
  pose proof (poll_exact lib (rq_request_id req) n) as Hx.
  pose proof (poll_bound lib (rq_request_id req) n) as Hn.
  assert (Hrem : wr_remote wr = mk_usge (up_seg_va p) (rq_length req) (rp_import_tseg rp)).
  { unfold wr, xfer_wr, wr_remote. cbn [set_remote rq_direction rq_length rq_remote_hbm_addr].
    destruct (rq_direction req =? RAMDISK_TO_HBM); reflexivity. }
  unfold real_worker_step, worker_dequeue.
  destruct (Z.eqb_spec (um_pending (uw_mgr w)) 0); [contradiction|]. rewrite Hq, Hslot. mstep.
  unfold umod. destruct (Z.eqb_spec (um_queue_depth (uw_mgr w)) 0); [contradiction|]. mstep.
  rewrite Hr. mstep. rewrite Hbk, validate_ring, V. mstep.
  cbn [um_peers set_ring uw_reqs uw_mgr uw_backend]. rewrite (nth_lookup' _ _ _ Hp).
  rewrite (nth_lookup rps), Hrp, lookup_insert_eq.
  cbn [Z.eqb negb orb set_ring um_use_mock default from_option id].
  rewrite Hmock. mstep. rewrite X. clear X.
  generalize dependent POLL_LOOPS. intros loops Hx Hn.
  destruct (real_poll_completion lib (rq_request_id req) n) as [rc n']. cbn [fst snd] in Hx, Hn.
  unfold worker_complete, worker_log. cbn [uw_reqs uw_mgr uw_backend set_counts set_ring].
  destruct (ul_post_ok lib (rs_jetty r) wr) eqn:Ep; cbv zeta beta iota; mstep; cbn [uw_reqs uw_mgr];
    rewrite lookup_insert_eq; mstep; cbn [uw_reqs uw_mgr]; rewrite lookup_insert_eq; mstep;
    eexists _, wr, _, _; (split; [reflexivity|]); rewrite Hrem; cbn [ug_addr uw_reqs uw_mgr].
  - split_and!; try reflexivity; try int_lia; [|apply lookup_insert_eq|].
    + rewrite Hx. split; [auto|intros [_ ?]; auto].
    + cbn. destruct (rc =? 0); reflexivity.
  - split_and!; try reflexivity; try int_lia; [|apply lookup_insert_eq|].
    + split; [unfold EIO; discriminate|intros [? _]; congruence].
    + reflexivity.
Qed.

(** ** A concrete library and manager *)

Definition ex_eid_text : list Z := replicate 32 48.

(** The endpoint is the second of the list; the first two polls return nothing
    and another request's completion. *)
Definition ex_lib : urma_lib :=
  mk_lib true (fun _ => 1) true 4096 (2, [(4, replicate 16 1); (5, replicate 16 0)])
    (fun _ => 3) (fun _ => 4) (fun _ _ _ => 5) (fun _ _ _ _ => 6) (fun _ _ _ _ => 7)
    (fun _ _ _ _ => 8) (fun _ _ _ => 9) (fun _ _ _ => 10) (fun _ _ => true)
    (fun i => match i with 0%nat => (0, 0, false) | 1%nat => (1, 99, true) | _ => (1, 1, true) end).

Definition ex_init_env : urma_init_env := mk_init_env true 0 0.

Definition ex_real_config : ramdisk_urma_config :=
  mk_urma_config true false 2 (Some ex_eid_text) UINT32_MAX 1 0 0.

Definition ex_rm_zero : real_mgr := mk_rm mgr_zero real_zero zeroed_peers.

Definition ex_info : ramdisk_ctrl_peer_connect_info :=
  mk_peer_info 7 (replicate 16 0) 0 0 0x100000 1024 11 22.

Definition ex_ops : list real_op :=
  [RConnect (Some ex_info); RConnect (Some ex_info); RDisconnect 7; RConnect (Some ex_info)].

(** Starting, connecting the same peer twice, disconnecting it and stopping. *)
Lemma real_life_balanced_witness :
  exists rc rcs s l',
    real_life ex_init_env ex_lib ex_rm_zero (Some ex_backend) (Some ex_real_config) ex_ops []
    = Some ((rc, rcs, s), l') /\ l' ≡ₚ [] /\ um_initialized (rm_mgr s) = false.
Proof.
  destruct (real_life_balanced ex_init_env ex_lib ex_rm_zero (Some ex_backend) ex_real_config
    ex_ops [] eq_refl ltac:(cbn; lia) eq_refl) as (rc & rcs & s & l' & E & Hl & Hu & _).
  exists rc, rcs, s, l'. split; [exact E|]. split; [exact Hl|exact Hu].
Defined.

Example real_life_results :
  (fun x => (fst (fst (fst x)), snd (fst (fst x)), snd x)) <$>
    real_life ex_init_env ex_lib ex_rm_zero (Some ex_backend) (Some ex_real_config) ex_ops []
  = Some (0, [0; - EEXIST; 0; 0], []).
Proof. vm_compute. reflexivity. Qed.

(** The manager of the examples above with its peer connected. *)
Definition ex_real_state : real_state := mk_real true 3 4 5 6 7 RAMDISK_URMA_DEFAULT_TOKEN 8.

Definition ex_rpeer : real_peer := mk_rpeer (seg_of_peer ex_peer) 9 10.

Definition ex_rm : real_mgr :=
  mk_rm ex_mgr ex_real_state (ex_rpeer :: replicate 31 rpeer_zero).

Lemma ex_real_inv : real_inv ex_rm (peers_held (rm_peers ex_rm) ++ provider_held ex_real_state) [].
Proof.
  split; [reflexivity|split; cbn; congruence| |rewrite app_nil_r; auto].
  constructor; [repeat split; discriminate|].
  apply (fresh_slots 31).
Qed.

Lemma ex_peers_typed : Forall peer_typed (um_peers ex_mgr).
Proof.
  constructor; [split; vm_compute; intuition congruence|].
  apply Forall_replicate. split; vm_compute; intuition congruence.
Qed.

Lemma ex_validated :
  validate_xfer_locked ex_mgr (Some ex_backend) (Some (xfer_of_request (request_of_xfer ex_xfer)))
  = (0, Some 0%nat).
Proof. vm_compute. reflexivity. Qed.

Lemma ex_polls :
  poll_succeeds ex_lib 1 2 /\ forall j, (j < 2)%nat -> poll_skips ex_lib 1 j.
Proof.
  split; [vm_compute; auto|]. intros [|[|j]] Hj; [vm_compute; auto| |lia].
  right. split; vm_compute; congruence.
Qed.

(** The request asks for an address inside the segment; what is posted starts at
    the segment's beginning. *)
Definition ex_real_world : urma_world :=
  mk_world (mk_mgr true true true false false [] UINT32_MAX 1 0 RAMDISK_URMA_DEFAULT_TOKEN 2
              (Some [Some 77; None]) 0 1 1 0 0 0 (ex_peer :: replicate 31 peer_zero)) (Some ex_backend)
    {[77 := request_of_xfer ex_xfer]}.

Lemma ex_real_world_inv :
  real_inv (mk_rm (uw_mgr ex_real_world) ex_real_state (rm_peers ex_rm))
    (peers_held (rm_peers ex_rm) ++ provider_held ex_real_state) [].
Proof. destruct ex_real_inv as [I1 I2 I3 I4]. split; auto. Qed.

Lemma real_worker_exact_witness :
  exists w' wr n', real_worker_step ex_lib (fun _ => 0x7000) ex_real_state (rm_peers ex_rm)
      ex_real_world 0 ex_urma_heap = Some (Some (w', Some wr, n'), ex_urma_heap) /\
    ug_addr (wr_remote wr) = 0x100000 /\
    (rq_status <$> uw_reqs w' !! 77) = Some 0.
Proof.
  destruct (real_worker_exact ex_lib (fun _ => 0x7000) ex_real_world ex_real_state (rm_peers ex_rm)
    (peers_held (rm_peers ex_rm) ++ provider_held ex_real_state) [] ex_backend 1
    (replicate 1024 5) ex_urma_heap [Some 77; None] 77 (request_of_xfer ex_xfer) 0 ex_peer ex_rpeer 0
    ex_real_world_inv eq_refl eq_refl ex_urma_backend ex_peers_typed ltac:(discriminate)
    ltac:(discriminate) eq_refl eq_refl eq_refl ex_xfer_typed ex_validated eq_refl eq_refl
    ltac:(cbn; lia) ltac:(cbn; lia))
    as (w' & wr & n' & rc & E & Hwr & _ & Hrem & _ & _ & Hrc & _ & Hreq & _).
  exists w', wr, n'. split; [exact E|]. rewrite Hrem, Hreq. split; [reflexivity|].
  assert (rc = 0) as ->; [|reflexivity]. apply Hrc. split; [reflexivity|]. exists 2%nat.
  split; [unfold POLL_LOOPS; lia|]. exact ex_polls.
Defined.
