(* ===== verification/Daemon.v ===== *)
(** * Life cycle of the NBD daemon (userspace-nbd/src/nbd_ramdisk.c)

    [setup_nbd], [cleanup], the signal handler and [main] of a build with
    HAVE_URMA, which compose the backend, the URMA manager, the control server and
    the NBD loop.  The state of the daemon's surroundings has four parts, each
    used by the components that own it: the memory, the ledger of the vendor's
    library, the kernel objects, and the NBD device. *)

From S2P Require Import Prelude.
From S2P Require Import Mem.
From S2P Require Import Ledger.
From S2P Require Import Backend.
From S2P Require Import SockIO.
From S2P Require Import CtrlProto.
From S2P Require Import NbdServer.
From S2P Require Import UrmaMgr.
From S2P Require Import CtrlServer.
From S2P Require Import NbdArgs.
From S2P Require Import UrmaProvider.
From S2P Require Import UrmaReal.

(** ** The surroundings *)

(** The NBD device: what was configured and the socket it is attached to. *)
Record nbd_dev : Type := mk_nbd_dev {
  nd_blksize : Z;
  nd_size : Z;
  nd_flags : Z;
  nd_sock : option Z
}.

Record dstate : Type := mk_ds {
  ds_heap : heap;
  ds_led : list ures;
  ds_os : os_state;
  ds_nbd : nbd_dev
}.

Definition dm (A : Type) : Type := dstate -> option (A * dstate).

#[export] Instance dm_ret : MRet dm := fun A a d => Some (a, d).

#[export] Instance dm_bind : MBind dm := fun A B f m d =>
  match m d with
  | Some (a, d') => f a d'
  | None => None
  end.

Definition stuck {A} : dm A := fun _ => None.

(** Operations of one part. *)
Definition on_mem {A} (m : mem A) : dm A := fun d =>
  match m (ds_heap d) with
  | Some (a, h) => Some (a, mk_ds h (ds_led d) (ds_os d) (ds_nbd d))
  | None => None
  end.

Definition on_led {A} (m : led ures A) : dm A := fun d =>
  match m (ds_led d) with
  | Some (a, l) => Some (a, mk_ds (ds_heap d) l (ds_os d) (ds_nbd d))
  | None => None
  end.

Definition on_os {A} (m : os_state -> option (A * os_state)) : dm A := fun d =>
  match m (ds_os d) with
  | Some (a, o) => Some (a, mk_ds (ds_heap d) (ds_led d) o (ds_nbd d))
  | None => None
  end.

Definition on_nbd (f : nbd_dev -> nbd_dev) : dm unit := fun d =>
  Some (tt, mk_ds (ds_heap d) (ds_led d) (ds_os d) (f (ds_nbd d))).

(** Descriptors and threads.  Closing a descriptor that is not open, or joining
    a thread that does not run, is undefined here: it must not happen. *)
Definition opened (fd : Z) : os_state -> option (unit * os_state) := fun o =>
  Some (tt, mk_os (os_fds o ∪ {[fd]}) (os_files o) (os_threads o)).

Definition close (fd : Z) : os_state -> option (unit * os_state) := fun o =>
  if bool_decide (fd ∈ os_fds o)
  then Some (tt, mk_os (os_fds o ∖ {[fd]}) (os_files o) (os_threads o)) else None.

Definition spawned (t : Z) : os_state -> option (unit * os_state) := fun o =>
  Some (tt, mk_os (os_fds o) (os_files o) (os_threads o ∪ {[t]})).

Definition pthread_join (t : Z) : os_state -> option (unit * os_state) := fun o =>
  if bool_decide (t ∈ os_threads o)
  then Some (tt, mk_os (os_fds o) (os_files o) (os_threads o ∖ {[t]})) else None.

(** The requests of the device the daemon makes. *)
Definition NBD_SET_BLKSIZE (v : Z) (n : nbd_dev) : nbd_dev :=
  mk_nbd_dev v (nd_size n) (nd_flags n) (nd_sock n).

Definition NBD_SET_SIZE (v : Z) (n : nbd_dev) : nbd_dev :=
  mk_nbd_dev (nd_blksize n) v (nd_flags n) (nd_sock n).

Definition NBD_SET_FLAGS (v : Z) (n : nbd_dev) : nbd_dev :=
  mk_nbd_dev (nd_blksize n) (nd_size n) v (nd_sock n).

Definition NBD_SET_SOCK (fd : Z) (n : nbd_dev) : nbd_dev :=
  mk_nbd_dev (nd_blksize n) (nd_size n) (nd_flags n) (Some fd).

Definition NBD_CLEAR_SOCK (n : nbd_dev) : nbd_dev :=
  mk_nbd_dev (nd_blksize n) (nd_size n) (nd_flags n) None.

Definition NBD_FLAG_SEND_FLUSH : Z := Z.shiftl 1 2.
Definition NBD_FLAG_SEND_TRIM : Z := Z.shiftl 1 5.

(** ** The daemon *)

Record daemon_ctx : Type := mk_ctx {
  dc_opts : daemon_opts;
  dc_nbd_fd : Z;
  dc_app_sock : Z;
  dc_kernel_sock : Z;
  dc_nbd_thread : Z;
  dc_nbd_thread_started : bool;
  dc_backend : ramdisk_backend;
  dc_urma : real_mgr;
  dc_ctrl : ramdisk_ctrl_server
}.

(** The zeroed context after [parse_args]. *)
Definition ctx_of_opts (c : daemon_opts) : daemon_ctx :=
  mk_ctx c (- 1) (- 1) (- 1) 0 false backend_zero (mk_rm mgr_zero real_zero zeroed_peers)
    server_zero.

(** What the calls of [setup_nbd] answer: a descriptor or an errno, 0 or an
    errno, and the new thread. *)
Record setup_env : Type := mk_setup_env {
  su_open : Z + Z;
  su_socketpair : (Z * Z) + Z;
  su_blksize : Z;
  su_size : Z;
  su_flags_ok : bool;
  su_sock : Z;
  su_thread_rc : Z;
  su_thread : Z
}.

Definition set_nbd_fd (fd : Z) (c : daemon_ctx) : daemon_ctx :=
  mk_ctx (dc_opts c) fd (dc_app_sock c) (dc_kernel_sock c) (dc_nbd_thread c)
    (dc_nbd_thread_started c) (dc_backend c) (dc_urma c) (dc_ctrl c).

Definition set_socks (app kernel : Z) (c : daemon_ctx) : daemon_ctx :=
  mk_ctx (dc_opts c) (dc_nbd_fd c) app kernel (dc_nbd_thread c)
    (dc_nbd_thread_started c) (dc_backend c) (dc_urma c) (dc_ctrl c).

Definition set_thread (t : Z) (c : daemon_ctx) : daemon_ctx :=
  mk_ctx (dc_opts c) (dc_nbd_fd c) (dc_app_sock c) (dc_kernel_sock c) t true (dc_backend c)
    (dc_urma c) (dc_ctrl c).

Definition set_parts (bk : ramdisk_backend) (u : real_mgr) (sv : ramdisk_ctrl_server)
    (c : daemon_ctx) : daemon_ctx :=
  mk_ctx (dc_opts c) (dc_nbd_fd c) (dc_app_sock c) (dc_kernel_sock c) (dc_nbd_thread c)
    (dc_nbd_thread_started c) bk u sv.

Definition setup_nbd (env : setup_env) (ctx : daemon_ctx) : dm (Z * daemon_ctx) :=
  match su_open env with
  | inr e => mret (- e, set_nbd_fd (- 1) ctx)
  | inl fd =>
      _ ← on_os (opened fd);
      let ctx := set_nbd_fd fd ctx in
      match su_socketpair env with
      | inr e => mret (- e, ctx)
      | inl (s0, s1) =>
          _ ← on_os (opened s0);
          _ ← on_os (opened s1);
          let ctx := set_socks s0 s1 ctx in
          if negb (su_blksize env =? 0) then mret (- su_blksize env, ctx) else
          _ ← on_nbd (NBD_SET_BLKSIZE (do_block_size (dc_opts ctx)));
          if negb (su_size env =? 0) then mret (- su_size env, ctx) else
          _ ← on_nbd (NBD_SET_SIZE (do_size (dc_opts ctx)));
          _ ← (if su_flags_ok env
               then on_nbd (NBD_SET_FLAGS (Z.lor NBD_FLAG_SEND_FLUSH NBD_FLAG_SEND_TRIM))
               else mret tt);
          if negb (su_sock env =? 0) then mret (- su_sock env, ctx) else
          _ ← on_nbd (NBD_SET_SOCK (dc_kernel_sock ctx));
          if negb (su_thread_rc env =? 0) then mret (- su_thread_rc env, ctx) else
          _ ← on_os (spawned (su_thread env));
          mret (0, set_thread (su_thread env) ctx)
      end
  end.

(** [NBD_DISCONNECT] makes the thread in [NBD_DO_IT] return; [NBD_CLEAR_QUE] has
    no effect on what is modelled. *)
Definition cleanup (ctx : daemon_ctx) : dm daemon_ctx :=
  ctx ← (if sv_initialized (dc_ctrl ctx) then
           sv ← on_os (ramdisk_ctrl_server_stop (Some (dc_ctrl ctx)));
           mret (set_parts (dc_backend ctx) (dc_urma ctx) (default (dc_ctrl ctx) sv) ctx)
         else mret ctx);
  _ ← (if dc_nbd_fd ctx >=? 0 then on_nbd NBD_CLEAR_SOCK else mret tt);
  _ ← (if dc_app_sock ctx >=? 0 then on_os (close (dc_app_sock ctx)) else mret tt);
  _ ← (if dc_kernel_sock ctx >=? 0 then on_os (close (dc_kernel_sock ctx)) else mret tt);
  _ ← (if dc_nbd_thread_started ctx then on_os (pthread_join (dc_nbd_thread ctx)) else mret tt);
  _ ← (if dc_nbd_fd ctx >=? 0 then on_os (close (dc_nbd_fd ctx)) else mret tt);
  u ← (if um_initialized (rm_mgr (dc_urma ctx)) then on_led (real_mgr_destroy (dc_urma ctx))
       else mret (dc_urma ctx));
  bk ← on_mem (ramdisk_backend_destroy (Some (dc_backend ctx)));
  mret (set_parts (default (dc_backend ctx) bk) u (dc_ctrl ctx) ctx).

(** Everything the daemon meets: the outcomes of its calls, the NBD stream and
    the times at which a signal has set [g_stop], and what the control clients
    ask of the manager while the control thread runs. *)
Record daemon_env : Type := mk_denv {
  de_create : create_env;
  de_init : urma_init_env;
  de_lib : urma_lib;
  de_start : start_env;
  de_setup : setup_env;
  de_nbd : nbd_env;
  de_stop : nat -> bool;
  de_sock : sock;
  de_ops : list real_op
}.

Definition config_of_opts (c : daemon_opts) : ramdisk_urma_config :=
  mk_urma_config (do_enable_urma c) (do_use_mock_urma c) (do_queue_depth c) (do_urma_eid c)
    (do_eid_index c) (do_urma_trans_mode c) (do_urma_tp_type c) (do_urma_token c).

(** [main] from the creation of the backend to the label [out]: the result code,
    the context and, when the device was served, its stream afterwards.  The
    control thread's work is placed where the thread starts, if the server runs; it
    uses no state of the steps that follow. *)
Definition daemon_body (fuel : nat) (env : daemon_env) (ctx : daemon_ctx)
    : dm (Z * daemon_ctx * option sock) :=
  let o := dc_opts ctx in
  '(rc, bk) ← on_mem (ramdisk_backend_create (de_create env) (Some (dc_backend ctx))
                        (do_size o) (do_block_size o));
  let bk := default backend_zero bk in
  let ctx := set_parts bk (dc_urma ctx) (dc_ctrl ctx) ctx in
  if negb (rc =? 0) then mret (rc, ctx, None) else
  '(rc, u) ← on_led (real_mgr_init (de_init env) (de_lib env) (dc_urma ctx) (Some bk)
                       (Some (config_of_opts o)));
  let ctx := set_parts bk u (dc_ctrl ctx) ctx in
  if negb (rc =? 0) then mret (rc, ctx, None) else
  '(rc, sv) ← on_os (fun os => '(rc, sv, os) ← ramdisk_ctrl_server_start (de_start env)
                                 (Some (dc_ctrl ctx)) (Some (do_control_sock o)) true true os;
                               Some ((rc, sv), os));
  let ctx := set_parts bk u (default server_zero sv) ctx in
  if negb (rc =? 0) then mret (rc, ctx, None) else
  '(_, u) ← (if sv_running (dc_ctrl ctx) then on_led (real_run (de_lib env) u (de_ops env))
             else mret ([], u));
  let ctx := set_parts bk u (dc_ctrl ctx) ctx in
  '(rc, ctx) ← setup_nbd (de_setup env) ctx;
  if negb (rc =? 0) then mret (rc, ctx, None) else
  r ← on_mem (serve_nbd fuel (de_nbd env) (de_stop env) (dc_backend ctx) (de_sock env));
  match r with
  | None => stuck
  | Some (bk, s) => mret (rc, set_parts bk (dc_urma ctx) (dc_ctrl ctx) ctx, Some s)
  end.

(** The exit status; [None] inside is the stream of a daemon that did not serve. *)
Definition daemon_main (fuel : nat) (env : daemon_env) (args : list opt_event)
    : dm (Z * option sock) :=
  match parse_args args with
  | (_, None) => mret (2, None)
  | (rc, Some c) =>
      if negb (rc =? 0) then mret (2, None) else
      '(rc, ctx, served) ← daemon_body fuel env (ctx_of_opts c);
      _ ← cleanup ctx;
      mret (if rc =? 0 then 0 else 1, served)
  end.

(** ** Stepping *)

Lemma dm_bind_eq {A B} (m : dm A) (f : A -> dm B) d :
  (m ≫= f) d = match m d with Some (a, d') => f a d' | None => None end.
Proof. reflexivity. Qed.

Lemma dm_ret_eq {A} (a : A) d : (mret a : dm A) d = Some (a, d).
Proof. reflexivity. Qed.

Ltac dstep := repeat (progress (rewrite ?dm_bind_eq, ?dm_ret_eq; cbn beta iota)).

(** ** Owned kernel objects *)

(** A descriptor field: nothing when it is negative. *)
Definition opt_fd (fd : Z) : list Z := if fd >=? 0 then [fd] else [].

Definition opt_thread (b : bool) (t : Z) : list Z := if b then [t] else [].

(** The descriptors, threads and files of the daemon, in the order in which
    [cleanup] gives them back. *)
Definition ctrl_fds (c : daemon_ctx) : list Z :=
  opt_thread (sv_initialized (dc_ctrl c)) (sv_listen_fd (dc_ctrl c)).

Definition owned_fds (c : daemon_ctx) : list Z :=
  ctrl_fds c ++ opt_fd (dc_app_sock c) ++ opt_fd (dc_kernel_sock c) ++ opt_fd (dc_nbd_fd c).

Definition owned_threads (c : daemon_ctx) : list Z :=
  opt_thread (sv_initialized (dc_ctrl c)) (sv_thread (dc_ctrl c)) ++
  opt_thread (dc_nbd_thread_started c) (dc_nbd_thread c).

Definition owned_files (c : daemon_ctx) : list (list Z) :=
  if sv_initialized (dc_ctrl c) then [sv_socket_path (dc_ctrl c)] else [].

(** [X] is [X0] with the new, distinct elements of [l]. *)
Definition grown `{Countable A} (X0 X : gset A) (l : list A) : Prop :=
  X = X0 ∪ list_to_set l /\ NoDup l /\ Forall (fun x => x ∉ X0) l.

Lemma grown_nil `{Countable A} (X : gset A) : grown X X [].
Proof. split; [set_solver|]. split; constructor. Qed.

Lemma grown_add `{Countable A} (X0 X : gset A) l l' x :
  grown X0 X l -> l' ≡ₚ x :: l -> x ∉ X0 -> x ∉ l -> grown X0 (X ∪ {[x]}) l'.
Proof.
  intros (-> & Hn & Hf) Hp H0 Hl. split; [rewrite Hp; set_solver|].
  rewrite Hp. split; [constructor; auto|constructor; auto].
Qed.

Lemma grown_head `{Countable A} (X0 X : gset A) x l :
  grown X0 X (x :: l) -> x ∈ X /\ grown X0 (X ∖ {[x]}) l.
Proof.
  intros (-> & Hn & Hf). apply NoDup_cons in Hn as [Hx Hn]. apply Forall_cons in Hf as [H0 Hf].
  split; [set_solver|]. split; [|auto]. set_solver.
Qed.

Lemma grown_done `{Countable A} (X0 X : gset A) : grown X0 X [] -> X = X0.
Proof. intros (-> & _). set_solver. Qed.

Record os_grown (o0 o : os_state) (fds threads : list Z) (files : list (list Z)) : Prop := {
  og_fds : grown (os_fds o0) (os_fds o) fds;
  og_threads : grown (os_threads o0) (os_threads o) threads;
  og_files : grown (os_files o0) (os_files o) files
}.

Lemma close_opt_ok fd l ts fs o0 d :
  os_grown o0 (ds_os d) (opt_fd fd ++ l) ts fs ->
  exists o, (if fd >=? 0 then on_os (close fd) else mret tt) d
    = Some (tt, mk_ds (ds_heap d) (ds_led d) o (ds_nbd d)) /\ os_grown o0 o l ts fs.
Proof.
  intros [G1 G2 G3]. unfold opt_fd in G1. destruct (fd >=? 0); cbn [app] in G1.
  - apply grown_head in G1 as [Hin G1]. unfold on_os, close. rewrite bool_decide_true by auto.
    eexists. split; [reflexivity|]. split; auto.
  - exists (ds_os d). destruct d. split; [reflexivity|]. split; auto.
Qed.

Lemma join_opt_ok b t fds l fs o0 d :
  os_grown o0 (ds_os d) fds (opt_thread b t ++ l) fs ->
  exists o, (if b then on_os (pthread_join t) else mret tt) d
    = Some (tt, mk_ds (ds_heap d) (ds_led d) o (ds_nbd d)) /\ os_grown o0 o fds l fs.
Proof.
  intros [G1 G2 G3]. unfold opt_thread in G2. destruct b; cbn [app] in G2.
  - apply grown_head in G2 as [Hin G2]. unfold on_os, pthread_join.
    rewrite bool_decide_true by auto. eexists. split; [reflexivity|]. split; auto.
  - exists (ds_os d). destruct d. split; [reflexivity|]. split; auto.
Qed.

(** ** What holds at the label [out] *)

(** The disk exists in a block the program did not have before, or not at all. *)
Definition disk_inv (h0 h : heap) (bk : ramdisk_backend) : Prop :=
  (bk_initialized bk = false /\ h_blocks h = h_blocks h0) \/
  (exists b bs, backend_wf bk b bs h /\ h_blocks h0 !! b = None /\
     forall x, x <> b -> h_blocks h !! x = h_blocks h0 !! x).

Definition urma_part (l0 l : list ures) (u : real_mgr) : Prop :=
  (um_initialized (rm_mgr u) = false /\ l ≡ₚ l0) \/ real_inv u l l0.

Definition ctrl_part (sv : ramdisk_ctrl_server) : Prop :=
  sv_initialized sv = true -> sv_running sv = true.

Record ctx_inv (d0 d : dstate) (c : daemon_ctx) : Prop := mk_ctx_inv {
  ci_disk : disk_inv (ds_heap d0) (ds_heap d) (dc_backend c);
  ci_urma : urma_part (ds_led d0) (ds_led d) (dc_urma c);
  ci_ctrl : ctrl_part (dc_ctrl c);
  ci_os : os_grown (ds_os d0) (ds_os d) (owned_fds c) (owned_threads c) (owned_files c);
  ci_nbd : nd_sock (ds_nbd d) <> None -> dc_nbd_fd c >= 0
}.

(** The surroundings are as they were: the same blocks of memory, objects of the
    library and kernel objects, and a device that is not attached. *)
Definition restored (d0 d : dstate) : Prop :=
  h_blocks (ds_heap d) = h_blocks (ds_heap d0) /\ ds_led d ≡ₚ ds_led d0 /\
  ds_os d = ds_os d0 /\ nd_sock (ds_nbd d) = None.

Lemma stop_ok o0 d c :
  ctrl_part (dc_ctrl c) ->
  os_grown o0 (ds_os d) (owned_fds c) (owned_threads c) (owned_files c) ->
  exists sv o,
    (if sv_initialized (dc_ctrl c) then
       sv ← on_os (ramdisk_ctrl_server_stop (Some (dc_ctrl c)));
       mret (set_parts (dc_backend c) (dc_urma c) (default (dc_ctrl c) sv) c)
     else mret c) d
    = Some (set_parts (dc_backend c) (dc_urma c) sv c,
            mk_ds (ds_heap d) (ds_led d) o (ds_nbd d)) /\
    os_grown o0 o (opt_fd (dc_app_sock c) ++ opt_fd (dc_kernel_sock c) ++ opt_fd (dc_nbd_fd c))
      (opt_thread (dc_nbd_thread_started c) (dc_nbd_thread c) ++ []) [].
Proof.
  unfold owned_fds, ctrl_fds, owned_threads, owned_files, opt_thread at 1 2, ctrl_part.
  intros Hr [G1 G2 G3]. rewrite app_nil_r.
  destruct c as [op nfd app ks nt ns bk u [path fd t ini run]]; cbn in *.
  destruct ini; cbn in *.
  - rewrite (Hr eq_refl). apply grown_head in G1 as [_ G1], G2 as [Ht G2], G3 as [_ G3].
    rewrite dm_bind_eq. unfold on_os. rewrite (ctrl_stop_eq path fd t _ Ht).
    eexists _, _. split; [reflexivity|]. split; auto.
  - exists (mk_server path fd t false run), (ds_os d). destruct d. split; [reflexivity|].
    split; auto.
Qed.

Lemma cleanup_restores d0 d c :
  ctx_inv d0 d c -> exists c' d', cleanup c d = Some (c', d') /\ restored d0 d'.
Proof.
  intros [I1 I2 I3 I4 I5]. unfold cleanup.
  destruct (stop_ok _ _ _ I3 I4) as (sv & o1 & E1 & G1). rewrite dm_bind_eq, E1. clear E1 I3 I4.
  destruct c as [op nfd app ks nt ns bk u sv0].
  cbn [set_parts dc_nbd_fd dc_app_sock dc_kernel_sock dc_nbd_thread dc_nbd_thread_started
    dc_backend dc_urma dc_ctrl dc_opts default] in *.
  set (n1 := if nfd >=? 0 then NBD_CLEAR_SOCK (ds_nbd d) else ds_nbd d).
  assert (Hn : nd_sock n1 = None).
  { unfold n1. destruct (nfd >=? 0) eqn:E; [reflexivity|].
    destruct (nd_sock (ds_nbd d)) eqn:En; [|auto]. exfalso. specialize (I5 ltac:(discriminate)). lia. }
  assert (E2 : (if nfd >=? 0 then on_nbd NBD_CLEAR_SOCK else mret tt)
    (mk_ds (ds_heap d) (ds_led d) o1 (ds_nbd d)) = Some (tt, mk_ds (ds_heap d) (ds_led d) o1 n1))
    by (unfold n1; destruct (nfd >=? 0); reflexivity).
  rewrite dm_bind_eq, E2. clear E2.
  destruct (close_opt_ok app _ _ _ _ (mk_ds (ds_heap d) (ds_led d) o1 n1) G1) as (o2 & E2 & G2).
  rewrite dm_bind_eq, E2. clear E2 G1. cbn [ds_heap ds_led ds_nbd].
  destruct (close_opt_ok ks _ _ _ _ (mk_ds (ds_heap d) (ds_led d) o2 n1) G2) as (o3 & E3 & G3).
  rewrite dm_bind_eq, E3. clear E3 G2. cbn [ds_heap ds_led ds_nbd].
  destruct (join_opt_ok _ _ _ _ _ _ (mk_ds (ds_heap d) (ds_led d) o3 n1) G3) as (o4 & E4 & G4).
  rewrite dm_bind_eq, E4. clear E4 G3. cbn [ds_heap ds_led ds_nbd].
  rewrite <- (app_nil_r (opt_fd nfd)) in G4.
  destruct (close_opt_ok nfd _ _ _ _ (mk_ds (ds_heap d) (ds_led d) o4 n1) G4) as (o5 & E5 & G5).
  rewrite dm_bind_eq, E5. clear E5 G4. cbn [ds_heap ds_led ds_nbd].
  assert (Ho : o5 = ds_os d0).
  { destruct G5 as [A1 A2 A3], o5, (ds_os d0). cbn in *.
    f_equal; apply grown_done; auto. }
  assert (Hu : exists u' l', (if um_initialized (rm_mgr u) then on_led (real_mgr_destroy u)
    else mret u) (mk_ds (ds_heap d) (ds_led d) o5 n1) = Some (u', mk_ds (ds_heap d) l' o5 n1) /\
    l' ≡ₚ ds_led d0).
  { destruct I2 as [[Hi Hl]|I2]; [rewrite Hi; eauto|]. rewrite (ri_init _ _ _ I2).
    destruct (real_mgr_destroy_ok _ _ _ I2) as (u' & l' & E & Hl & _). unfold on_led.
    cbn [ds_led]. rewrite E. eauto. }
  destruct Hu as (u' & l' & Eu & Hl). rewrite dm_bind_eq, Eu, dm_bind_eq. unfold on_mem.
  cbn [ds_heap ds_led ds_os ds_nbd].
  destruct I1 as [[Hi Hh]|(b & bs & W & Hb & Hx)].
  - unfold ramdisk_backend_destroy. rewrite Hi. cbn [negb]. mstep. dstep.
    eexists _, _. split; [reflexivity|]. split_and!; auto.
  - rewrite (backend_destroyed _ _ _ _ W). dstep. eexists _, _. split; [reflexivity|].
    split_and!; auto. cbn. apply map_eq. intros x. destruct (Z.eq_dec x b) as [->|Hne].
    + rewrite lookup_delete_eq. auto.
    + rewrite lookup_delete_ne by auto. auto.
Qed.

(** ** Setting up the device *)

(** The descriptors that calls of [setup_nbd] hand out. *)
Definition pair_fds (env : setup_env) : list Z :=
  match su_socketpair env with inl (a, b) => [a; b] | inr _ => [] end.

Definition open_fds (env : setup_env) : list Z :=
  match su_open env with inl fd => [fd] | inr _ => [] end.

(** They are new, threads too, and errors are positive. *)
Record setup_ok (env : setup_env) (o0 : os_state) (fds threads : list Z) : Prop := {
  so_fds : NoDup (fds ++ pair_fds env ++ open_fds env);
  so_new : Forall (fun fd => 0 <= fd /\ fd ∉ os_fds o0) (pair_fds env ++ open_fds env);
  so_thread : (su_thread env ∉ os_threads o0) /\ (su_thread env ∉ threads);
  so_open : forall e, su_open env = inr e -> 0 < e;
  so_pair : forall e, su_socketpair env = inr e -> 0 < e;
  so_rcs : 0 <= su_blksize env /\ 0 <= su_size env /\ 0 <= su_sock env /\ 0 <= su_thread_rc env
}.

(** The parts a device setup does not touch. *)
Definition same_parts (c c' : daemon_ctx) : Prop :=
  dc_backend c' = dc_backend c /\ dc_urma c' = dc_urma c /\ dc_ctrl c' = dc_ctrl c.

(** Before the setup. *)
Definition no_device (c : daemon_ctx) : Prop :=
  dc_nbd_fd c = - 1 /\ dc_app_sock c = - 1 /\ dc_kernel_sock c = - 1 /\
  dc_nbd_thread_started c = false.

(** The device is configured for the disk and attached to the kernel's end of
    the socket pair. *)
Definition attached (c : daemon_ctx) (n : nbd_dev) : Prop :=
  nd_blksize n = do_block_size (dc_opts c) /\ nd_size n = do_size (dc_opts c) /\
  nd_sock n = Some (dc_kernel_sock c).

Lemma opt_fd_pos fd : 0 <= fd -> opt_fd fd = [fd].
Proof. intros H. unfold opt_fd. destruct (fd >=? 0) eqn:E; [auto|lia]. Qed.

(** Adding the device's descriptors to those of the control server. *)
Lemma grown_open (X0 X : gset Z) cf ab fd :
  grown X0 X cf -> NoDup (cf ++ ab ++ [fd]) -> fd ∉ X0 ->
  grown X0 (X ∪ {[fd]}) (cf ++ [fd]).
Proof.
  intros G Hn H0. apply (grown_add _ _ cf); [auto|apply Permutation_app_comm|auto|].
  intros Hin. apply NoDup_app in Hn as (_ & Hn & _). apply (Hn fd Hin). set_solver.
Qed.

Lemma grown_pair (X0 X : gset Z) cf a b fd :
  grown X0 X (cf ++ [fd]) -> NoDup (cf ++ [a; b; fd]) -> a ∉ X0 -> b ∉ X0 ->
  grown X0 (X ∪ {[a]} ∪ {[b]}) (cf ++ [a; b; fd]).
Proof.
  intros (-> & _ & Hf) Hn Ha Hb. apply Forall_app in Hf as [Hf1 Hf2].
  split; [rewrite !list_to_set_app_L; set_solver|]. split; [auto|].
  apply Forall_app. split; [auto|]. repeat constructor; auto. inversion Hf2; auto.
Qed.

Lemma setup_nbd_ok env o0 c d :
  setup_ok env o0 (owned_fds c) (owned_threads c) -> no_device c ->
  os_grown o0 (ds_os d) (owned_fds c) (owned_threads c) (owned_files c) ->
  nd_sock (ds_nbd d) = None ->
  exists rc c' o n,
    setup_nbd env c d = Some ((rc, c'), mk_ds (ds_heap d) (ds_led d) o n) /\
    os_grown o0 o (owned_fds c') (owned_threads c') (owned_files c') /\
    same_parts c c' /\ rc <= 0 /\ (nd_sock n <> None -> dc_nbd_fd c' >= 0) /\
    (rc = 0 -> attached c' n).
Proof.
  intros [S1 S2 [S3 S3'] S4 S5 (S6 & S7 & S8 & S9)] (N1 & N2 & N3 & N4) [G1 G2 G3] Hn.
  destruct c as [op nfd app ks nt ns bk u sv]. cbn in N1, N2, N3, N4. subst nfd app ks ns. destruct d as [h l o n].
  unfold owned_fds, owned_threads, owned_files, ctrl_fds, pair_fds, open_fds in *. cbn in *.
  rewrite app_nil_r in *.
  set (cf := opt_thread (sv_initialized sv) (sv_listen_fd sv)) in *.
  set (ct := opt_thread (sv_initialized sv) (sv_thread sv)) in *.
  unfold setup_nbd. destruct (su_open env) as [fd|e] eqn:Eo.
  2: { eexists _, _, _, _. split; [reflexivity|]. cbn. rewrite !app_nil_r.
       pose proof (S4 e eq_refl). split_and!; [split; auto|split; auto|lia|congruence|intros; exfalso; lia]. }
  assert (Hfd : 0 <= fd /\ fd ∉ os_fds o0)
    by (apply Forall_app in S2 as [_ S2]; inversion S2; auto).
  pose proof (grown_open _ _ _ _ _ G1 S1 (proj2 Hfd)) as Gfd.
  destruct (su_socketpair env) as [[a b]|e] eqn:Ep.
  2: { eexists _, _, _, _. split; [reflexivity|]. cbn.
       rewrite (opt_fd_pos fd) by tauto. rewrite !app_nil_r. pose proof (S5 e eq_refl).
       split_and!; [split; auto|split; auto|lia|congruence|intros; exfalso; lia]. }
  cbn in S1, S2. apply Forall_cons in S2 as [[Ha Ha'] S2]. apply Forall_cons in S2 as [[Hb Hb'] _].
  pose proof (grown_pair _ _ _ _ _ _ Gfd S1 Ha' Hb') as Gs.
  pose proof (grown_add _ _ _ (ct ++ [su_thread env]) _ G2 (Permutation_app_comm _ _) S3 S3') as Gt.
  assert (Hfds : cf ++ opt_fd a ++ opt_fd b ++ opt_fd fd = cf ++ [a; b; fd])
    by (rewrite !opt_fd_pos by tauto; reflexivity).
  assert (Hfail : forall rc n', rc < 0 -> (nd_sock n' <> None -> fd >= 0) ->
    exists rc' c' o' n'', Some ((rc, set_socks a b (set_nbd_fd fd
        (mk_ctx op (- 1) (- 1) (- 1) nt false bk u sv))),
        mk_ds h l (mk_os (os_fds o ∪ {[fd]} ∪ {[a]} ∪ {[b]}) (os_files o) (os_threads o)) n')
      = Some ((rc', c'), mk_ds h l o' n'') /\
      os_grown o0 o' (owned_fds c') (owned_threads c') (owned_files c') /\
      same_parts (mk_ctx op (- 1) (- 1) (- 1) nt false bk u sv) c' /\ rc' <= 0 /\
      (nd_sock n'' <> None -> dc_nbd_fd c' >= 0) /\ (rc' = 0 -> attached c' n'')).
  { intros rc n' Hrc Hn'. eexists _, _, _, _. split; [reflexivity|].
    unfold owned_fds, owned_threads, owned_files, ctrl_fds. cbn. fold cf ct. rewrite Hfds, app_nil_r.
    split_and!; [split; auto|split; auto|lia|auto|intros; exfalso; lia]. }
  dstep. unfold on_os, opened. cbn [ds_heap ds_led ds_os ds_nbd os_fds os_files os_threads].
  destruct (Z.eqb_spec (su_blksize env) 0); cbn [negb]; [|apply Hfail; [lia|cbn; intros; lia]].
  dstep. cbn. destruct (Z.eqb_spec (su_size env) 0); cbn [negb]; [|apply Hfail; [lia|cbn; intros; lia]].
  dstep. cbn. destruct (su_flags_ok env); dstep; cbn;
    (destruct (Z.eqb_spec (su_sock env) 0); cbn [negb]; [|apply Hfail; [lia|cbn; intros; lia]]);
    dstep; cbn;
    (destruct (Z.eqb_spec (su_thread_rc env) 0); cbn [negb];
       [|apply Hfail; [lia|cbn; intros; lia]]);
    dstep; eexists _, _, _, _; (split; [reflexivity|]);
    unfold owned_fds, owned_threads, owned_files, ctrl_fds; cbn; fold cf ct; rewrite Hfds;
    (split_and!; [split; auto|split; auto|lia|lia|split; auto]).
Qed.

(** ** The whole run *)

(** Before the run the device is not attached; calls hand out new blocks,
    descriptors and threads and report positive errors.  Two cases in which the
    code has undefined behaviour are excluded: the control thread cannot be
    created, and the stream holds a WRITE for which there is no memory. *)
Record denv_ok (env : daemon_env) (d0 : dstate) : Prop := {
  dk_fresh : heap_fresh (ds_heap d0);
  dk_nbd : nd_sock (ds_nbd d0) = None;
  dk_mutex : 0 <= ce_mutex_rc (de_create env) /\ 0 <= ie_mutex_rc (de_init env);
  dk_start : start_env_ok (de_start env) (ds_os d0) /\ 0 <= se_errno (de_start env);
  dk_setup : forall fd, se_socket (de_start env) = inl fd ->
    setup_ok (de_setup env) (ds_os d0) [fd] [se_thread (de_start env)];
  dk_sock : sock_ok (de_sock env);
  dk_thread : se_thread_rc (de_start env) = 0;
  dk_memory : ~ starved_write (de_nbd env) (sk_in (de_sock env))
}.

(** What the surroundings become when the run gives back everything it knows of:
    they are unchanged, or hold an endpoint list that the library returned without
    an entry, or hold the descriptor of a control socket whose path does not fit
    an address, or lack a file that was at the control socket's path. *)
Inductive daemon_left (env : daemon_env) (path : list Z) (d0 : dstate) : dstate -> Prop :=
| left_nothing : daemon_left env path d0 d0
| left_eid_list p :
    p <> 0 -> ul_eid_list (de_lib env) = (p, []) ->
    daemon_left env path d0
      (mk_ds (ds_heap d0) (UEids p :: ds_led d0) (ds_os d0) (ds_nbd d0))
| left_descriptor fd :
    SUN_PATH_SIZE <= zlength path < 256 -> se_socket (de_start env) = inl fd ->
    daemon_left env path d0
      (mk_ds (ds_heap d0) (ds_led d0)
         (mk_os (os_fds (ds_os d0) ∪ {[fd]}) (os_files (ds_os d0)) (os_threads (ds_os d0)))
         (ds_nbd d0))
| left_unlinked :
    zlength path < SUN_PATH_SIZE -> path ∈ os_files (ds_os d0) ->
    daemon_left env path d0
      (mk_ds (ds_heap d0) (ds_led d0)
         (mk_os (os_fds (ds_os d0)) (os_files (ds_os d0) ∖ {[path]}) (os_threads (ds_os d0)))
         (ds_nbd d0)).

(** The kernel objects that the control server's start leaves. *)
Lemma start_base_left env path h l o n :
  daemon_left env path (mk_ds h l o n) (mk_ds h l (start_base (de_start env) path o) n).
Proof.
  unfold start_base. destruct (zlength path >=? 256) eqn:L1; [constructor|].
  destruct (se_socket (de_start env)) as [fd|e] eqn:Es; [|constructor].
  destruct (zlength path >=? SUN_PATH_SIZE) eqn:L2; [constructor; auto; lia|].
  destruct (decide (path ∈ os_files o)) as [Hin|Hin].
  - apply (left_unlinked env path (mk_ds h l o n)); [lia|exact Hin].
  - rewrite set_del_fresh by auto. destruct o. constructor.
Qed.

(** The device's descriptors and threads are new beside those of the start. *)
Lemma setup_ok_base env o o' fds ts fds' ts' :
  setup_ok env o fds ts -> os_threads o' = os_threads o ->
  (forall x, x ∈ os_fds o' -> x ∈ os_fds o \/ x ∈ fds) ->
  fds' `sublist_of` fds -> ts' `sublist_of` ts -> setup_ok env o' fds' ts'.
Proof.
  intros [S1 S2 [S3 S3'] S4 S5 S6] Ht Hf Lf Lt. split; auto.
  - eapply sublist_NoDup; [exact S1|]. apply sublist_app; auto.
  - apply Forall_forall. intros x Hx. pose proof (proj1 (Forall_forall _ _) S2 x Hx) as [H0 Hn].
    split; [auto|]. intros Hin. destruct (Hf x Hin) as [|Hin']; [auto|].
    apply NoDup_app in S1 as (_ & Hd & _). apply (Hd x Hin' Hx).
  - rewrite Ht. split; [auto|]. intros Hin. apply S3'. eapply elem_of_submseteq; [exact Hin|].
    apply sublist_submseteq, Lt.
Qed.

(** The NBD loop ran on a zeroed disk of the size that was asked for. *)
Definition served_disk (fuel : nat) (env : daemon_env) (c : daemon_opts) (s' : sock) : Prop :=
  exists bk b h1 h2,
    backend_wf bk b (replicate (Z.to_nat (do_size c)) 0) h1 /\
    bk_size bk = do_size c /\ bk_block_size bk = do_block_size c /\
    serve_nbd fuel (de_nbd env) (de_stop env) bk (de_sock env) h1 = Some (Some (bk, s'), h2).

Lemma fresh_next h : heap_fresh h -> h_blocks h !! h_next h = None.
Proof.
  intros F. destruct (h_blocks h !! h_next h) as [bs|] eqn:E; [|auto].
  pose proof (F _ _ E). lia.
Qed.

Lemma disk_created h0 h bk b bs :
  backend_wf bk b bs h -> b = h_next h0 -> heap_fresh h0 ->
  (forall x, x <> b -> h_blocks h !! x = h_blocks h0 !! x) -> disk_inv h0 h bk.
Proof.
  intros W -> F Hx. right. exists (h_next h0), bs. split; [auto|]. split; [|auto].
  apply fresh_next. auto.
Qed.

Lemma os_unowned o : os_grown o o [] [] [].
Proof. split; apply grown_nil. Qed.

(** From the setup of the device on, with the control server in either state. *)
Lemma daemon_serve_ok fuel env c d0 base d ctx bk u2 l2 :
  denv_ok env d0 -> (length (sk_in (de_sock env)) < fuel)%nat ->
  d = mk_ds (ds_heap d) l2 (ds_os d) (ds_nbd d0) ->
  ds_heap base = ds_heap d0 -> ds_nbd base = ds_nbd d0 ->
  backend_wf bk (h_next (ds_heap d0)) (replicate (Z.to_nat (do_size c)) 0) (ds_heap d) ->
  (forall x, x <> h_next (ds_heap d0) -> h_blocks (ds_heap d) !! x = h_blocks (ds_heap d0) !! x) ->
  h_next (ds_heap d) = h_next (ds_heap d0) + 1 ->
  bk_size bk = do_size c -> bk_block_size bk = do_block_size c ->
  dc_backend ctx = bk -> dc_urma ctx = u2 -> ctrl_part (dc_ctrl ctx) -> no_device ctx ->
  real_inv u2 l2 (ds_led base) ->
  setup_ok (de_setup env) (ds_os base) (owned_fds ctx) (owned_threads ctx) ->
  os_grown (ds_os base) (ds_os d) (owned_fds ctx) (owned_threads ctx) (owned_files ctx) ->
  exists rc ctx' served d',
    ('(rc, ctx) ← setup_nbd (de_setup env) ctx;
     if negb (rc =? 0) then mret (rc, ctx, None) else
     r ← on_mem (serve_nbd fuel (de_nbd env) (de_stop env) (dc_backend ctx) (de_sock env));
     match r with
     | None => stuck
     | Some (bk, s) => mret (rc, set_parts bk (dc_urma ctx) (dc_ctrl ctx) ctx, Some s)
     end) d = Some ((rc, ctx', served), d') /\ ctx_inv base d' ctx' /\
    (rc = 0 <-> served <> None) /\ (forall s', served = Some s' -> served_disk fuel env c s').
Proof.
  intros K Hfuel Hd Hb1 Hb2 W Hx Hnx Hbs Hbbs Hbk Hu Hcp Hnd I2 Hsu G. rewrite dm_bind_eq.
  pose proof (dk_fresh _ _ K) as K1. pose proof (dk_nbd _ _ K) as K2.
  destruct d as [h1 l1 o1 n1], base as [h0 lb ob nb], d0 as [hz lz oz nz]. cbn in *.
  injection Hd as <- <-. subst h0 nb.
  assert (D1 : disk_inv hz h1 bk) by (eapply disk_created; eauto).
  destruct (setup_nbd_ok (de_setup env) ob ctx (mk_ds h1 l1 o1 n1) Hsu Hnd G K2)
    as (rc & ctx' & o2 & n2 & -> & G2 & (P1 & P2 & P3) & Hrc & Hn2 & _).
  assert (J : forall bk' h', disk_inv hz h' bk' ->
    ctx_inv (mk_ds hz lb ob n1) (mk_ds h' l1 o2 n2) (set_parts bk' (dc_urma ctx') (dc_ctrl ctx') ctx')).
  { intros bk' h' D. split; cbn; [auto|rewrite P2, Hu; right; auto|rewrite P3; exact Hcp| |auto].
    exact G2. }
  destruct (Z.eqb_spec rc 0) as [->|Hrc0]; cbn [negb].
  2: { dstep. eexists _, _, _, _. split; [reflexivity|].
       split; [|split; [split; [lia|contradiction]|discriminate]].
       specialize (J bk h1 D1). destruct ctx'. cbn in *. subst. exact J. }
  rewrite dm_bind_eq. unfold on_mem. cbn [ds_heap ds_led ds_os ds_nbd]. rewrite P1, Hbk.
  destruct (serve_nbd_total (de_nbd env) (de_stop env) fuel bk (h_next hz) _ h1 (de_sock env) W)
    as [Hst|(s' & h2 & bs2 & E & W2 & _ & Hx2)]; [|apply (dk_sock _ _ K)|auto| |].
  { intros b' bs' Hb'. destruct (Z.eq_dec b' (h_next hz)) as [->|Hne]; [lia|].
    rewrite Hx in Hb' by auto. pose proof (K1 _ _ Hb'). lia. }
  { destruct (dk_memory _ _ K Hst). }
  rewrite E. dstep. eexists _, _, _, _. split; [reflexivity|].
  split; [|split; [split; [discriminate|auto]|]].
  - apply J. eapply disk_created; eauto. intros x Hne. rewrite Hx2, Hx; auto.
  - intros s [= <-]. exists bk, (h_next hz), h1, h2. auto.
Qed.

Lemma daemon_body_ok fuel env c d0 :
  denv_ok env d0 -> is_u64 (do_size c) -> do_use_mock_urma c = false ->
  (length (sk_in (de_sock env)) < fuel)%nat ->
  exists rc ctx served d base,
    daemon_body fuel env (ctx_of_opts c) d0 = Some ((rc, ctx, served), d) /\
    daemon_left env (do_control_sock c) d0 base /\ ctx_inv base d ctx /\
    (rc = 0 <-> served <> None) /\ (forall s', served = Some s' -> served_disk fuel env c s').
Proof.
  intros K Hsz Hmock Hfuel. pose proof K as [K1 K2 [K4 K5] [K6 K6'] K10 K12 K7 K11].
  destruct d0 as [h0 l0 o0 n0]. cbn in K1, K2, K6, K10. unfold daemon_body.
  cbn [ctx_of_opts dc_opts dc_backend dc_urma dc_ctrl]. rewrite dm_bind_eq. unfold on_mem at 1.
  cbn [ds_heap ds_led ds_os ds_nbd].
  destruct (backend_create_cases (de_create env) (do_size c) (do_block_size c) backend_zero h0 Hsz K4)
    as [(rc & Hrc & ->)|(bk & h1 & -> & W & Hbs & Hbbs & Hnx & Hx)].
  { destruct (Z.eqb_spec rc 0); [lia|]. cbn [negb from_option]. dstep.
    eexists _, _, _, _, _. split; [reflexivity|]. split; [apply left_nothing|].
    split; [|split; [split; [lia|contradiction]|discriminate]].
    split; cbn; [left; auto|left; auto|intros [=]|apply os_unowned|congruence]. }
  cbn [Z.eqb negb from_option]. rewrite dm_bind_eq. unfold on_led at 1.
  cbn [ds_heap ds_led ds_os ds_nbd set_parts dc_urma dc_ctrl dc_backend id].
  assert (D1 : disk_inv h0 h1 bk) by (eapply disk_created; eauto).
  set (s0 := mk_rm mgr_zero real_zero zeroed_peers).
  destruct (real_mgr_init_ok (de_init env) (de_lib env) s0 (Some bk) (config_of_opts c) l0
    Hmock K5 eq_refl) as (rc & u & l1 & -> & _ & Hf & Hs).
  destruct (Z.eqb_spec rc 0) as [->|Hrc]; cbn [negb].
  2: { dstep. destruct (Hf Hrc) as [Hl Hu].
       eexists _, _, _, _, (mk_ds h0 (start_left (de_init env) (de_lib env) s0 (Some bk)
         (config_of_opts c) ++ l0) o0 n0). split; [reflexivity|].
       split; [|split; [|split; [split; [lia|contradiction]|discriminate]]].
       - destruct (start_left_cases (de_init env) (de_lib env) s0 (Some bk) (config_of_opts c))
           as [-> |(p & Hp & El & ->)]; [apply left_nothing|].
         apply (left_eid_list env _ (mk_ds h0 l0 o0 n0) p Hp El).
       - split; cbn; [auto|left; auto|intros [=]|apply os_unowned|congruence]. }
  destruct (Hs eq_refl) as [I1 _]. rewrite dm_bind_eq. unfold on_os at 1.
  cbn [ds_heap ds_led ds_os ds_nbd]. set (base := start_base (de_start env) (do_control_sock c) o0).
  pose proof (start_base_left env (do_control_sock c) h0 l0 o0 n0) as Hleft. fold base in Hleft.
  destruct K6 as (A1 & A2 & A3 & A4 & A5 & A6).
  destruct (ctrl_start_cases (de_start env) server_zero (do_control_sock c) o0
    ltac:(split_and!; auto) K6' K7)
    as [(rc & sv & -> & Hrc & Hsv & Hrun & Hlong)|(fd & Es & Hlen & ->)];
    cbn [mbind option_bind from_option].
  - fold base. destruct (Z.eqb_spec rc 0) as [->|Hrc0]; cbn [negb].
    + cbn [set_parts dc_ctrl default from_option id]. rewrite Hrun. dstep.
      destruct (Hlong eq_refl) as (fd & Es & Hlen).
      edestruct (daemon_serve_ok fuel env c (mk_ds h0 l0 o0 n0) (mk_ds h0 l0 base n0)
        (mk_ds h1 l1 base n0) (mk_ctx c (- 1) (- 1) (- 1) 0 false bk u sv) bk u l1 K Hfuel)
        as (rc & ctx' & served & d' & E & X); try reflexivity; auto; cbn.
      * intros ?. congruence.
      * split_and!; reflexivity.
      * unfold owned_fds, ctrl_fds, owned_threads. cbn. rewrite Hsv. cbn.
        apply (setup_ok_base _ o0 _ [fd] [se_thread (de_start env)]); auto;
          try apply sublist_nil_l; unfold base, start_base; rewrite Es; repeat case_if; auto;
          cbn; intros; set_solver.
      * unfold owned_fds, ctrl_fds, owned_threads, owned_files. cbn. rewrite Hsv. apply os_unowned.
      * eexists _, _, _, _, _. split; [exact E|]. split; [exact Hleft|exact X].
    + dstep. eexists _, _, _, _, _. split; [reflexivity|]. split; [exact Hleft|].
      split; [|split; [split; [lia|contradiction]|discriminate]].
      split; cbn; [auto|right; auto|unfold ctrl_part; cbn; congruence| |congruence].
      unfold owned_fds, ctrl_fds, owned_threads, owned_files. cbn. rewrite Hsv. apply os_unowned.
  - cbn [Z.eqb negb set_parts dc_ctrl default from_option id sv_running]. rewrite dm_bind_eq.
    unfold on_led at 1. cbn [ds_heap ds_led ds_os ds_nbd].
    destruct (real_run_inv (de_lib env) (de_ops env) u l1 l0 I1) as (rcs & u2 & l2 & -> & I2).
    destruct (A1 fd Es) as [Hfd Hfd0]. unfold SUN_PATH_SIZE in Hlen.
    assert (Eb : base = mk_os (os_fds o0) (os_files o0 ∖ {[do_control_sock c]}) (os_threads o0)).
    { unfold base, start_base, SUN_PATH_SIZE. rewrite Es. repeat case_if; auto; lia. }
    edestruct (daemon_serve_ok fuel env c (mk_ds h0 l0 o0 n0) (mk_ds h0 l0 base n0)
      (mk_ds h1 l2 (mk_os (os_fds o0 ∪ {[fd]}) (os_files o0 ∖ {[do_control_sock c]} ∪
         {[do_control_sock c]}) (os_threads o0 ∪ {[se_thread (de_start env)]})) n0)
      (mk_ctx c (- 1) (- 1) (- 1) 0 false bk u2
         (mk_server (do_control_sock c) fd (se_thread (de_start env)) true true))
      bk u2 l2 K Hfuel) as (rc & ctx' & served & d' & E & X); try reflexivity; auto; cbn.
    + intros _. reflexivity.
    + split_and!; reflexivity.
    + unfold owned_fds, ctrl_fds, owned_threads. cbn. rewrite Eb.
      apply (setup_ok_base _ o0 _ [fd] [se_thread (de_start env)]); auto.
    + rewrite Eb. split; cbn; (apply (grown_add _ _ []); [apply grown_nil|auto| |apply not_elem_of_nil]);
        auto. set_solver.
    + eexists _, _, _, _, _. split; [exact E|]. split; [exact Hleft|exact X].
Qed.


(** ** A concrete run *)

Definition ex_args : list opt_event :=
  [OptDevice [47; 100]; OptSize [49; 75]; OptBlockSize 512; OptEnableUrma; OptUrmaEid ex_eid_text].

Definition ex_denv : daemon_env :=
  mk_denv (mk_create_env 0 true 7) ex_init_env ex_lib (mk_start_env (inl 5) 0 0 0 9 0)
    (mk_setup_env (inl 6) (inl (7, 8)) 0 0 true 0 0 10) (mk_nbd_env (fun _ => true) 3)
    (fun _ => false) (mk_sock [] [] [] []) ex_ops.

Definition ex_dstate : dstate :=
  mk_ds (mkHeap 1 ∅) [] (mk_os {[0]} ∅ {[1]}) (mk_nbd_dev 0 0 0 None).

Lemma ex_denv_ok : denv_ok ex_denv ex_dstate.
Proof.
  split; cbn [ds_heap ds_nbd ds_os de_lib de_create de_init de_start de_setup de_nbd de_sock ex_denv
    ex_dstate nd_sock ce_mutex_rc ie_mutex_rc se_thread_rc se_socket se_thread se_bind se_listen
    se_errno ex_init_env]; auto.
  - intros b bs. cbn. rewrite lookup_empty. discriminate.
  - lia.
  - split; [|lia]. split_and!; cbn; try lia; [|discriminate|set_solver].
    intros fd [= <-]. split; [set_solver|lia].
  - intros fd [= <-]. split; cbn; try discriminate; try lia.
    + repeat (constructor; [set_solver|]). constructor.
    + repeat constructor; try lia; set_solver.
    + split; set_solver.
  - split; constructor.
  - intros (pre & hdr & rest & E & Hl & _). destruct pre; [|discriminate].
    destruct hdr; [|discriminate]. discriminate Hl.
Qed.


Example daemon_serves :
  (fun x => fst (fst x)) <$> daemon_main 1 ex_denv ex_args ex_dstate = Some 0.
Proof. vm_compute. reflexivity. Qed.
