(* ===== verification/RamdiskCtl.v ===== *)
(** * The command-line client (userspace-nbd/src/ramdiskctl.c)

    The commands and their arguments, and the exit status;
    with it [ramdisk_ctrl_parse_peer_connect] of the client library, and the
    safety of a transaction against any server. *)

From S2P Require Import Prelude.
From S2P Require Import Bytes.
From S2P Require Import SockIO.
From S2P Require Import CtrlProto.
From S2P Require Import CtrlServer.
From S2P Require Import CtrlClient.
From S2P Require Import Eid.
From S2P Require Import NbdArgs.
From S2P Require Import Numbers.

(** ** A transaction with any server *)

(** The kernel's error numbers are small positive numbers. *)
Definition errnos_ok (sch : list io_event) : Prop :=
  Forall (fun e => match e with Fail e => 0 < e < 4096 | _ => True end) sch.

Lemma errnos_sched_ok sch : errnos_ok sch -> sched_ok sch.
Proof. intros H. eapply Forall_impl; [exact H|]. intros []; cbn; lia. Qed.

Lemma write_loop_errno fuel : forall done d s r s',
  errnos_ok (sk_wr s) -> 0 <= done -> write_loop fuel done d s = Some (r, s') ->
  - 4096 < r /\ errnos_ok (sk_wr s').
Proof.
  induction fuel as [|fuel IH]; intros done d s r s' He Hd E; destruct d as [|x d];
    cbn [write_loop] in E; try discriminate; try (injection E as <- <-; split; [lia|auto]; fail).
  unfold sys_write in E. destruct (sk_wr s) as [|[k| |e] sch] eqn:Es.
  - apply IH in E; [auto|exact He|unfold zlength; lia].
  - apply IH in E; [auto|cbn; inversion He; auto|unfold zlength; lia].
  - rewrite Z.eqb_refl in E. apply IH in E; [auto|cbn; inversion He; auto|auto].
  - apply Forall_cons in He as [He1 He2].
    destruct (e =? EINTR); [apply IH in E; auto|]. injection E as <- <-. cbn. split; [lia|auto].
Qed.

Lemma s32_neg r : - 4096 < r < 0 -> s32 r < 0.
Proof. intros H. rewrite s32_small by lia. lia. Qed.

(** A write either fails visibly or has sent everything. *)
Lemma client_write d s :
  errnos_ok (sk_wr s) ->
  exists r t s', write_full d s = Some (r, s') /\ sk_out s' = sk_out s ++ t /\ (t `prefix_of` d) /\
    sk_rd s' = sk_rd s /\ errnos_ok (sk_wr s') /\ (s32 r < 0 \/ t = d).
Proof.
  intros He. destruct (write_full_any d s (errnos_sched_ok _ He))
    as (r & t & s' & E & O & P & _ & R & _ & D). exists r, t, s'.
  destruct (write_loop_errno _ _ _ _ _ _ He (Z.le_refl 0) E) as [Hr He'].
  split_and!; auto. destruct D as [D|[-> _]]; [left; apply s32_neg; lia|auto].
Qed.

Lemma client_read len s :
  sched_ok (sk_rd s) ->
  exists r t s', client_read_full len s = Some (r, t, s') /\ zlength t <= Z.max 0 len /\
    sk_out s' = sk_out s /\ sched_ok (sk_rd s').
Proof.
  intros Hs. destruct (Z.leb_spec len 0) as [Hl|Hl].
  - exists 0, [], s. split_and!; auto; [|unfold zlength; cbn; lia].
    unfold client_read_full. destruct (read_fuel len s); cbn [read_loop];
      (destruct (Z.leb_spec len 0); [reflexivity|lia]).
  - destruct (read_loop_any (read_fuel len s) (- EPIPE) len [] s)
      as (r & t & s' & E & _ & Ht & Ho & _ & Hs' & _); auto; [|lia|unfold EPIPE; lia|].
    + unfold read_fuel, read_cost; lia.
    + exists r, t, s'. split_and!; auto. lia.
Qed.

(** What [socket] and [connect] answer: a new descriptor or a positive errno. *)
Definition conn_env_ok (env : conn_env) (fds : gset Z) : Prop :=
  (forall fd, ne_socket env = inl fd -> (fd ∉ fds) /\ 0 <= fd) /\
  (forall e, ne_socket env = inr e -> 0 < e) /\ forall p, 0 <= ne_connect env p.

(** A transaction ends; it closes its descriptor, has sent a prefix of its
    request, and has received no more than the caller's buffer holds. *)
Definition transact_ok (s : sock) (fds : gset Z) (req : list Z) (cap : Z)
    (o : option transact_ret) : Prop :=
  exists r t, o = Some r /\ tr_fds r = fds /\ sk_out (tr_sock r) = sk_out s ++ t /\
    (t `prefix_of` req) /\ zlength (tr_data r) <= cap.

Lemma transact_ok_end s s' fds fd req cap rc data len t :
  fd ∉ fds -> sk_out s' = sk_out s ++ t -> t `prefix_of` req -> zlength data <= cap ->
  transact_ok s fds req cap (Some (mk_ret rc data len s' ((fds ∪ {[fd]}) ∖ {[fd]}))).
Proof. intros Hf Ho Hp Hd. eexists _, t. rewrite set_add_del by auto. auto. Qed.

Lemma client_transact_any env path op payload len resp id s fds :
  conn_env_ok env fds -> sched_ok (sk_rd s) -> errnos_ok (sk_wr s) -> 0 <= default 0 resp ->
  transact_ok s fds (hdr_to_bytes (request_hdr op len id) ++
                     (if len =? 0 then [] else take (Z.to_nat len) (default [] payload)))
    (default 0 resp) (ramdisk_ctrl_transact env path op payload len resp id s fds).
Proof.
  intros (C1 & C2 & C3) Hrd Hwr Hcap. unfold ramdisk_ctrl_transact.
  set (req := hdr_to_bytes _ ++ _). set (cap := default 0 resp) in *.
  assert (Hnil : zlength (@nil Z) <= cap) by exact Hcap.
  assert (H0 : forall rc, transact_ok s fds req cap (Some (mk_ret rc [] None s fds))).
  { intros rc. eexists _, []. rewrite app_nil_r. split_and!; auto using prefix_nil. }
  case_if; [apply H0|]. unfold connect_sock.
  destruct path as [path|]; [|unfold EINVAL; cbn [Z.ltb Z.compare Z.opp]; apply H0].
  destruct (ne_socket env) as [fd|e] eqn:Es.
  2: { pose proof (C2 e eq_refl). destruct (Z.ltb_spec (- e) 0); [apply H0|lia]. }
  destruct (C1 fd eq_refl) as [Hfd Hfd0]. pose proof (C3 (take 107 path)) as Hc.
  destruct (Z.eqb_spec (ne_connect env (take 107 path)) 0) as [_|Hne]; cbn [negb].
  2: { destruct (Z.ltb_spec (- ne_connect env (take 107 path)) 0); [|lia].
       rewrite set_add_del by auto. apply H0. }
  destruct (Z.ltb_spec fd 0); [lia|].
  assert (Hend : forall rc data n s' t, sk_out s' = sk_out s ++ t -> t `prefix_of` req ->
    zlength data <= cap -> transact_ok s fds req cap
      (Some (mk_ret rc data n s' ((fds ∪ {[fd]}) ∖ {[fd]}))))
    by (intros; eapply transact_ok_end; eauto).
  destruct (client_write (hdr_to_bytes (request_hdr op len id)) s Hwr)
    as (r1 & t1 & s1 & E1 & O1 & P1 & R1 & W1 & D1).
  unfold request_hdr in E1. rewrite E1. cbn [mbind option_bind].
  assert (Pr : t1 `prefix_of` req) by (unfold req; etrans; [exact P1|apply prefix_app_r; auto]).
  destruct (Z.ltb_spec (s32 r1) 0) as [_|Hr1]; [apply (Hend _ _ _ _ t1); auto|].
  destruct D1 as [D1|D1]; [lia|].
  assert (Hpay : exists r2 t2 s2,
    (if negb (len =? 0) then write_full (take (Z.to_nat len) (default [] payload)) s1
     else Some (0, s1)) = Some (r2, s2) /\ sk_out s2 = sk_out s ++ t2 /\ (t2 `prefix_of` req) /\
    sk_rd s2 = sk_rd s).
  { destruct (Z.eqb_spec len 0) as [_|_]; cbn [negb].
    - exists 0, t1, s1. auto.
    - destruct (client_write (take (Z.to_nat len) (default [] payload)) s1 W1)
        as (r2 & t2 & s2 & E2 & O2 & P2 & R2 & _ & _).
      exists r2, (t1 ++ t2), s2. rewrite O2, O1, app_assoc. split_and!; auto; [|congruence].
      unfold req. rewrite D1. apply prefix_app. auto. }
  destruct Hpay as (r2 & t2 & s2 & -> & O2 & P2 & R2). cbn [mbind option_bind].
  case_if; [apply (Hend _ _ _ _ t2); auto|].
  destruct (client_read resp_size s2) as (r3 & t3 & s3 & -> & _ & O3 & R3); [rewrite R2; auto|].
  cbn [mbind option_bind]. rewrite <- O3 in O2.
  case_if; [apply (Hend _ _ _ _ t2); auto|]. case_if; [apply (Hend _ _ _ _ t2); auto|].
  case_if; [|apply (Hend _ _ _ _ t2); auto].
  destruct resp as [cp|]; [|apply (Hend _ _ _ _ t2); auto]. cbn in cap.
  destruct (Z.ltb_spec cp (cr_payload_len (resp_of_bytes t3))); [apply (Hend _ _ _ _ t2); auto|].
  destruct (client_read (cr_payload_len (resp_of_bytes t3)) s3 R3)
    as (r4 & t4 & s4 & -> & L4 & O4 & _). cbn [mbind option_bind]. rewrite <- O4 in O2.
  assert (zlength t4 <= cap) by (unfold cap in *; lia).
  case_if; apply (Hend _ _ _ _ t2); auto.
Qed.

(** C30.  The client library is safe against any server.  For arbitrary bytes and
    schedules of short transfers, signals and errors on the socket, a transaction
    ends, closes the descriptor it opened, has sent a prefix of exactly its request,
    and never receives more bytes than the caller's buffer holds. *)
Theorem client_transact_safe env path op payload len resp id s fds :
  conn_env_ok env fds -> sched_ok (sk_rd s) -> errnos_ok (sk_wr s) -> 0 <= default 0 resp ->
  exists r t,
    ramdisk_ctrl_transact env path op payload len resp id s fds = Some r /\ tr_fds r = fds /\
    sk_out (tr_sock r) = sk_out s ++ t /\
    (t `prefix_of` hdr_to_bytes (request_hdr op len id) ++
      (if len =? 0 then [] else take (Z.to_nat len) (default [] payload))) /\
    zlength (tr_data r) <= default 0 resp.
Proof. apply client_transact_any. Qed.

Lemma client_transact_safe_witness :
  exists r t, ramdisk_ctrl_transact ex_conn (Some [47; 116]) RAMDISK_CTRL_QUERY_STATUS None 0 (Some 48)
    1 (mk_sock (replicate 40 84) [Intr; Chunk 7; Fail 5] [] [Chunk 3]) {[3]} = Some r /\
    sk_out (tr_sock r) = t.
Proof.
  destruct (client_transact_safe ex_conn (Some [47; 116]) RAMDISK_CTRL_QUERY_STATUS None 0 (Some 48) 1
    (mk_sock (replicate 40 84) [Intr; Chunk 7; Fail 5] [] [Chunk 3]) {[3]}) as (r & t & E & _ & O & _).
  - split_and!; cbn; [|discriminate|intros; lia]. intros fd [= <-]. split; [set_solver|lia].
  - repeat constructor; lia.
  - repeat constructor.
  - cbn. lia.
  - exists r, t. split; [exact E|exact O].
Defined.

(** ** The program *)

(** The exit status, the status that was printed, the stream and the open
    descriptors. *)
Record ctl_ret : Type := mk_ctl {
  cl_exit : Z;
  cl_status : option ramdisk_ctrl_status;
  cl_sock : sock;
  cl_fds : gset Z
}.

Definition exit_of (r : option transact_ret) : option ctl_ret :=
  r ← r; Some (mk_ctl (if tr_rc r =? 0 then 0 else 1) None (tr_sock r) (tr_fds r)).

(** The commands, from [argv[arg]] on. *)
Definition ctl_command (env : conn_env) (path : list Z) (args : list (list Z)) (s : sock)
    (fds : gset Z) : option ctl_ret :=
  let usage := Some (mk_ctl 2 None s fds) in
  match args with
  | [] => usage
  | cmd :: rest =>
      if bool_decide (cmd = text_of "status") then
        '(rc, st, r) ← ramdisk_ctrl_query_status env (Some path) true s fds;
        Some (mk_ctl (if rc =? 0 then 0 else 1) (if rc =? 0 then Some st else None)
                (tr_sock r) (tr_fds r))
      else if bool_decide (cmd = text_of "enable") then
        exit_of (ramdisk_ctrl_enable_urma env (Some path) s fds)
      else if bool_decide (cmd = text_of "disable") then
        exit_of (ramdisk_ctrl_disable_urma env (Some path) s fds)
      else
      match rest with
      | [a1; a2; a3; a4; a5; a6; a7] =>
          if bool_decide (cmd = text_of "peer-connect") then
            match ramdisk_ctrl_parse_eid (Some a2) (Some (replicate 16 0)) with
            | (rc, Some eid) =>
                if negb (rc =? 0) then usage else
                exit_of (ramdisk_ctrl_peer_connect env (Some path)
                  (Some (mk_peer_info (parse_u64 a1) eid (u32 (parse_u64 a3)) 0 (parse_u64 a4)
                           (parse_u64 a5) (u32 (parse_u64 a6)) (u32 (parse_u64 a7)))) s fds)
            | (_, None) => usage
            end
          else usage
      | [a1] =>
          if bool_decide (cmd = text_of "peer-disconnect") then
            exit_of (ramdisk_ctrl_peer_disconnect env (Some path) (parse_u64 a1) s fds)
          else usage
      | [a1; a2; a3; a4; a5; a6] =>
          if bool_decide (cmd = text_of "transfer") then
            let xfer dir := mk_transfer (parse_u64 a1) (parse_u64 a2) (parse_u64 a3) (parse_u64 a4)
                              (u32 (parse_u64 a5)) dir in
            if bool_decide (a6 = text_of "to-hbm") then
              exit_of (ramdisk_ctrl_urma_transfer env (Some path) (Some (xfer RAMDISK_TO_HBM)) s fds)
            else if bool_decide (a6 = text_of "from-hbm") then
              exit_of (ramdisk_ctrl_urma_transfer env (Some path) (Some (xfer HBM_TO_RAMDISK)) s fds)
            else usage
          else usage
      | _ => usage
      end
  end.

Definition ctl_main (env : conn_env) (argv : list (list Z)) (s : sock) (fds : gset Z)
    : option ctl_ret :=
  match argv with
  | _ :: opt :: path :: _ :: _ =>
      if bool_decide (opt = text_of "--sock")
      then ctl_command env path (drop 3 argv) s fds
      else ctl_command env default_control_sock (drop 1 argv) s fds
  | _ => ctl_command env default_control_sock (drop 1 argv) s fds
  end.

(** ** The program is safe *)

(** A command ended: its status is 0 or 1 and its descriptor is closed. *)
Definition ctl_done (fds : gset Z) (o : option ctl_ret) : Prop :=
  exists r, o = Some r /\ cl_fds r = fds /\ (cl_exit r = 0 \/ cl_exit r = 1).

Lemma exit_done s fds req cap o : transact_ok s fds req cap o -> ctl_done fds (exit_of o).
Proof.
  intros (r & t & -> & Hf & _). eexists. split; [reflexivity|]. cbn.
  split; [auto|]. destruct (tr_rc r =? 0); auto.
Qed.

(** The command line was refused: nothing was done. *)
Definition ctl_refused (s : sock) (fds : gset Z) (o : option ctl_ret) : Prop :=
  o = Some (mk_ctl 2 None s fds).

Section AnyServer.
Context (env : conn_env) (s : sock) (fds : gset Z).
Hypotheses (Henv : conn_env_ok env fds) (Hrd : sched_ok (sk_rd s)) (Hwr : errnos_ok (sk_wr s)).

Lemma wrapper_done path op payload len id :
  ctl_done fds (exit_of (ramdisk_ctrl_transact env path op payload len None id s fds)).
Proof. eapply exit_done, client_transact_any; auto. cbn. lia. Qed.

Lemma ctl_command_any path args :
  ctl_refused s fds (ctl_command env path args s fds) \/
  ctl_done fds (ctl_command env path args s fds).
Proof.
  unfold ctl_command. destruct args as [|cmd rest]; [left; reflexivity|].
  case_if.
  { right. unfold ramdisk_ctrl_query_status. cbn [negb].
    destruct (client_transact_any env (Some path) RAMDISK_CTRL_QUERY_STATUS None 0 (Some status_size) 1 s
      fds Henv Hrd Hwr ltac:(vm_compute; congruence)) as (r & t & -> & Hf & _).
    cbn [mbind option_bind]. eexists. split; [reflexivity|]. cbn.
    split; [auto|]. destruct (tr_rc r =? 0); auto. }
  case_if; [right; apply wrapper_done|]. case_if; [right; apply wrapper_done|].
  destruct rest as [|a1 [|a2 [|a3 [|a4 [|a5 [|a6 [|a7 [|]]]]]]]]; try (left; reflexivity).
  - case_if; [right; apply wrapper_done|left; reflexivity].
  - case_if; [|left; reflexivity]. case_if; [right; apply wrapper_done|].
    case_if; [right; apply wrapper_done|left; reflexivity].
  - case_if; [|left; reflexivity].
    destruct (ramdisk_ctrl_parse_eid _ _) as [rc [e|]]; [|left; reflexivity].
    case_if; [left; reflexivity|right; apply wrapper_done].
Qed.

End AnyServer.

(** The command-line client ends in order.  For every command line and every
    server, whatever short transfers, signals and errors the socket sees, the
    program ends with status 0, 1 or 2 and every descriptor it opened closed; with
    status 2 it has printed nothing and neither opened nor sent anything. *)
Theorem ctl_main_safe env argv s fds :
  conn_env_ok env fds -> sched_ok (sk_rd s) -> errnos_ok (sk_wr s) ->
  exists r, ctl_main env argv s fds = Some r /\ cl_fds r = fds /\
    (cl_exit r = 0 \/ cl_exit r = 1 \/ cl_exit r = 2) /\
    (cl_exit r = 2 -> cl_sock r = s /\ cl_status r = None).
Proof.
  intros He Hr Hw.
  assert (H : exists path args, ctl_main env argv s fds = ctl_command env path args s fds).
  { unfold ctl_main. destruct argv as [|a0 [|a1 [|a2 [|a3 l]]]]; try (eexists _, _; reflexivity).
    case_if; eexists _, _; reflexivity. }
  destruct H as (path & args & ->).
  destruct (ctl_command_any env s fds He Hr Hw path args) as [-> |(r & -> & Hf & Hx)].
  - eexists. split; [reflexivity|]. cbn. auto 10.
  - exists r. split; [auto|]. split; [auto|]. split; [tauto|]. lia.
Qed.

(** ** Arguments are read as they are printed *)

Definition direction_text (dir : Z) : list Z :=
  if dir =? RAMDISK_TO_HBM then text_of "to-hbm" else text_of "from-hbm".

(** The calls a command line stands for. *)
Definition option_path (o : option (list Z)) : list (list Z) :=
  match o with Some p => [text_of "--sock"; p] | None => [] end.

Lemma ctl_main_command env prog o cmd rest s fds :
  o = None -> cmd <> text_of "--sock" ->
  ctl_main env (prog :: option_path o ++ cmd :: rest) s fds
  = ctl_command env default_control_sock (cmd :: rest) s fds.
Proof.
  intros -> Hc. cbn [option_path app]. unfold ctl_main. destruct rest as [|a [|b l]]; try reflexivity.
  rewrite bool_decide_false by auto. reflexivity.
Qed.

Lemma ctl_main_path env prog o cmd rest s fds :
  cmd <> text_of "--sock" ->
  ctl_main env (prog :: option_path o ++ cmd :: rest) s fds
  = ctl_command env (default default_control_sock o) (cmd :: rest) s fds.
Proof.
  intros Hc. destruct o as [p|]; [|apply ctl_main_command; auto].
  cbn [option_path app]. unfold ctl_main. rewrite bool_decide_true by auto. reflexivity.
Qed.

(** The six commands. *)
Inductive ctl_cmd : Type :=
| CmdStatus
| CmdEnable
| CmdDisable
| CmdConnect (p : ramdisk_ctrl_peer_connect_info)
| CmdDisconnect (peer_id : Z)
| CmdTransfer (x : CtrlProto.ramdisk_ctrl_urma_transfer).

(** How a command may be written: numbers in decimal, hexadecimal or octal, an
    EID in the printed form; the first three ignore further arguments. *)
Inductive spells : ctl_cmd -> list (list Z) -> Prop :=
| spells_status rest : spells CmdStatus (text_of "status" :: rest)
| spells_enable rest : spells CmdEnable (text_of "enable" :: rest)
| spells_disable rest : spells CmdDisable (text_of "disable" :: rest)
| spells_connect p u1 u3 u4 u5 u6 u7 :
    peer_info_typed p -> ci_reserved0 p = 0 ->
    writes u1 (ci_peer_id p) -> writes u3 (ci_uasid p) -> writes u4 (ci_seg_va p) ->
    writes u5 (ci_seg_len p) -> writes u6 (ci_seg_token_id p) -> writes u7 (ci_jetty_id p) ->
    spells (CmdConnect p) [text_of "peer-connect"; u1; format_eid (ci_eid p); u3; u4; u5; u6; u7]
| spells_disconnect id t :
    is_u64 id -> writes t id -> spells (CmdDisconnect id) [text_of "peer-disconnect"; t]
| spells_transfer x t1 t2 t3 t4 t5 :
    transfer_typed x -> (ct_direction x = RAMDISK_TO_HBM \/ ct_direction x = HBM_TO_RAMDISK) ->
    writes t1 (ct_peer_id x) -> writes t2 (ct_request_id x) -> writes t3 (ct_local_offset x) ->
    writes t4 (ct_remote_hbm_addr x) -> writes t5 (ct_length x) ->
    spells (CmdTransfer x) [text_of "transfer"; t1; t2; t3; t4; t5; direction_text (ct_direction x)].

(** The call of the client library a command stands for, and the exit status. *)
Definition ctl_call (env : conn_env) (path : list Z) (cmd : ctl_cmd) (s : sock) (fds : gset Z)
    : option ctl_ret :=
  match cmd with
  | CmdStatus =>
      '(rc, st, r) ← ramdisk_ctrl_query_status env (Some path) true s fds;
      Some (if rc =? 0 then mk_ctl 0 (Some st) (tr_sock r) (tr_fds r)
            else mk_ctl 1 None (tr_sock r) (tr_fds r))
  | CmdEnable => exit_of (ramdisk_ctrl_enable_urma env (Some path) s fds)
  | CmdDisable => exit_of (ramdisk_ctrl_disable_urma env (Some path) s fds)
  | CmdConnect p => exit_of (ramdisk_ctrl_peer_connect env (Some path) (Some p) s fds)
  | CmdDisconnect id => exit_of (ramdisk_ctrl_peer_disconnect env (Some path) id s fds)
  | CmdTransfer x => exit_of (ramdisk_ctrl_urma_transfer env (Some path) (Some x) s fds)
  end.

#[local] Hint Resolve u32_u64 : core.

Lemma ctl_connect_reads env path p u1 u3 u4 u5 u6 u7 s fds :
  peer_info_typed p -> ci_reserved0 p = 0 ->
  writes u1 (ci_peer_id p) -> writes u3 (ci_uasid p) -> writes u4 (ci_seg_va p) ->
  writes u5 (ci_seg_len p) -> writes u6 (ci_seg_token_id p) -> writes u7 (ci_jetty_id p) ->
  ctl_command env path [text_of "peer-connect"; u1; format_eid (ci_eid p); u3; u4; u5; u6; u7] s fds
  = exit_of (ramdisk_ctrl_peer_connect env (Some path) (Some p) s fds).
Proof.
  intros (P1 & PL & PB & P2 & _ & P4 & P5 & P6 & P7) Hr V1 V3 V4 V5 V6 V7. unfold ctl_command.
  rewrite !(bool_decide_false (text_of "peer-connect" = _)) by discriminate.
  rewrite (bool_decide_true (text_of "peer-connect" = _)) by reflexivity.
  rewrite !(parse_written _ _ V1), !(parse_written _ _ V3), !(parse_written _ _ V4),
    !(parse_written _ _ V5), !(parse_written _ _ V6), !(parse_written _ _ V7) by auto.
  rewrite !u32_small by int_lia.
  destruct (eid_read_back (ci_eid p) (replicate 16 0) PL PB) as [_ ->]. cbn [Z.eqb negb].
  destruct p. cbn in *. subst. reflexivity.
Qed.

Lemma ctl_transfer_reads env path x t1 t2 t3 t4 t5 s fds :
  transfer_typed x -> (ct_direction x = RAMDISK_TO_HBM \/ ct_direction x = HBM_TO_RAMDISK) ->
  writes t1 (ct_peer_id x) -> writes t2 (ct_request_id x) -> writes t3 (ct_local_offset x) ->
  writes t4 (ct_remote_hbm_addr x) -> writes t5 (ct_length x) ->
  ctl_command env path [text_of "transfer"; t1; t2; t3; t4; t5; direction_text (ct_direction x)] s fds
  = exit_of (ramdisk_ctrl_urma_transfer env (Some path) (Some x) s fds).
Proof.
  intros (T1 & T2 & T3 & T4 & T5 & _) Hd W1 W2 W3 W4 W5. unfold ctl_command.
  rewrite !(bool_decide_false (text_of "transfer" = _)) by discriminate.
  rewrite (bool_decide_true (text_of "transfer" = _)) by reflexivity.
  rewrite !(parse_written _ _ W1), !(parse_written _ _ W2), !(parse_written _ _ W3),
    !(parse_written _ _ W4), !(parse_written _ _ W5) by auto.
  rewrite !(u32_small (ct_length x)) by int_lia. unfold direction_text. destruct x as [a b c d e dir].
  cbn in Hd. destruct Hd as [-> | ->]; reflexivity.
Qed.

(** C31.  The command line reaches the daemon unchanged, for each of the six
    commands, with or without --sock.  Numbers may be written in decimal,
    hexadecimal or octal and an EID in the printed form: a peer, a peer id and a
    transfer, whatever their fields, are read back exactly and handed to the call
    of the client library that the command names; status, enable and disable call
    theirs; the exit status is 0 exactly when the library returns 0, and then, for
    status, the answer is what is printed. *)
Theorem ctl_roundtrip env prog o cmd args s fds :
  spells cmd args ->
  ctl_main env (prog :: option_path o ++ args) s fds
  = ctl_call env (default default_control_sock o) cmd s fds.
Proof.
  intros [rest|rest|rest|p u1 u3 u4 u5 u6 u7 Tp Hr V1 V3 V4 V5 V6 V7|id t Hid Hw|
          x t1 t2 t3 t4 t5 Tx Hd W1 W2 W3 W4 W5]; rewrite ctl_main_path by discriminate;
    cbn [ctl_call].
  - unfold ctl_command. rewrite bool_decide_true by auto.
    destruct (ramdisk_ctrl_query_status _ _ _ _ _) as [[[rc st] r]|]; [|reflexivity].
    cbn [mbind option_bind]. destruct (rc =? 0); reflexivity.
  - reflexivity.
  - reflexivity.
  - apply ctl_connect_reads; auto.
  - unfold ctl_command. rewrite !(bool_decide_false (text_of "peer-disconnect" = _)) by discriminate.
    rewrite (bool_decide_true (text_of "peer-disconnect" = _)) by reflexivity.
    rewrite (parse_written _ _ Hw) by auto. reflexivity.
  - apply ctl_transfer_reads; auto.
Qed.

Definition ex_peer_info : ramdisk_ctrl_peer_connect_info :=
  mk_peer_info 7 (replicate 16 10) 3 0 0x100000 1024 11 22.

Definition ex_transfer : CtrlProto.ramdisk_ctrl_urma_transfer :=
  mk_transfer 7 1 512 0x100200 512 RAMDISK_TO_HBM.

Lemma ex_transfer_typed : transfer_typed ex_transfer.
Proof. split_and!; vm_compute; intuition congruence. Qed.

Lemma ex_peer_info_typed : peer_info_typed ex_peer_info.
Proof.
  split_and!; try reflexivity; try (vm_compute; intuition congruence).
  apply Forall_replicate. unfold is_u8. lia.
Qed.

Lemma ctl_roundtrip_witness :
  ctl_main ex_conn ([99] :: option_path None ++ [text_of "transfer"; dec_text (ct_peer_id ex_transfer);
      dec_text (ct_request_id ex_transfer); dec_text (ct_local_offset ex_transfer);
      hex_text (ct_remote_hbm_addr ex_transfer); oct_text (ct_length ex_transfer);
      direction_text (ct_direction ex_transfer)]) (mk_sock [] [] [] []) {[3]}
  = ctl_call ex_conn (default default_control_sock None) (CmdTransfer ex_transfer)
      (mk_sock [] [] [] []) {[3]} /\
  ctl_main ex_conn ([99] :: option_path (Some [47]) ++ [text_of "peer-disconnect"; hex_text 18])
    (mk_sock [] [] [] []) {[3]}
  = ctl_call ex_conn (default default_control_sock (Some [47])) (CmdDisconnect 18)
      (mk_sock [] [] [] []) {[3]} /\
  ctl_main ex_conn ([99] :: option_path None ++ [text_of "peer-connect";
      dec_text (ci_peer_id ex_peer_info); format_eid (ci_eid ex_peer_info);
      dec_text (ci_uasid ex_peer_info); hex_text (ci_seg_va ex_peer_info);
      hex_text (ci_seg_len ex_peer_info); dec_text (ci_seg_token_id ex_peer_info);
      dec_text (ci_jetty_id ex_peer_info)]) (mk_sock [] [] [] []) {[3]}
  = ctl_call ex_conn (default default_control_sock None) (CmdConnect ex_peer_info)
      (mk_sock [] [] [] []) {[3]}.
Proof.
  split_and!; apply ctl_roundtrip.
  - exact (spells_transfer ex_transfer _ _ _ _ _ ex_transfer_typed (or_introl eq_refl)
      (or_introl eq_refl) (or_introl eq_refl) (or_introl eq_refl)
      (or_intror (or_introl eq_refl)) (or_intror (or_intror eq_refl))).
  - apply spells_disconnect; [int_lia|]. right. left. reflexivity.
  - exact (spells_connect ex_peer_info _ _ _ _ _ _ ex_peer_info_typed eq_refl (or_introl eq_refl)
      (or_introl eq_refl) (or_intror (or_introl eq_refl)) (or_intror (or_introl eq_refl))
      (or_introl eq_refl) (or_introl eq_refl)).
Defined.

Lemma ctl_main_safe_witness :
  exists r, ctl_main ex_conn [[99]; text_of "frobnicate"] (mk_sock [] [] [] []) {[3]} = Some r /\
    cl_fds r = {[3]}.
Proof.
  destruct (ctl_main_safe ex_conn [[99]; text_of "frobnicate"] (mk_sock [] [] [] []) {[3]})
    as (r & E & Hf & _).
  - split_and!; cbn; [|discriminate|intros; lia]. intros fd [= <-]. split; [set_solver|lia].
  - constructor.
  - constructor.
  - eauto.
Defined.

(** ** Peers described by the vendor's structures *)

(** The layout of [urma_seg_t] and of [struct RsJettyKeyInfo], which contain
    types of the vendor's headers: the offset of each field read. *)
Record vendor_layout : Type := mk_layout {
  vl_seg_eid : nat;
  vl_seg_va : nat;
  vl_seg_len : nat;
  vl_seg_token : nat;
  vl_jetty_id : nat
}.

(** [n] bytes at an offset; reading past the end of the buffer is undefined. *)
Definition field_at (off n : nat) (bs : list Z) : option (list Z) :=
  if (off + n <=? length bs)%nat then Some (take n (drop off bs)) else None.

(** [None] is undefined behaviour: only the lengths' being zero is checked. *)
Definition ramdisk_ctrl_parse_peer_connect (vl : vendor_layout) (env : conn_env)
    (sock_path : option (list Z)) (peer_id : Z) (jetty_info : option (list Z)) (jetty_info_len : Z)
    (seg_info : option (list Z)) (seg_info_len : Z) (s : sock) (fds : gset Z)
    : option transact_ret :=
  match jetty_info, seg_info with
  | Some jetty, Some seg =>
      if (jetty_info_len =? 0) || (seg_info_len =? 0)
      then Some (mk_ret (- EINVAL) [] None s fds) else
      eid ← field_at (vl_seg_eid vl) 16 seg;
      va ← field_at (vl_seg_va vl) 8 seg;
      len ← field_at (vl_seg_len vl) 8 seg;
      token ← field_at (vl_seg_token vl) 4 seg;
      jid ← field_at (vl_jetty_id vl) 4 jetty;
      ramdisk_ctrl_transact env sock_path RAMDISK_CTRL_PEER_CONNECT
        (Some (peer_info_to_bytes (mk_peer_info peer_id eid 0 0 (le_val va) (le_val len)
                 (le_val token) (le_val jid)))) peer_info_size None 1 s fds
  | _, _ => Some (mk_ret (- EINVAL) [] None s fds)
  end.

(** The end of the structures' parts that are read. *)
Definition seg_extent (vl : vendor_layout) : nat :=
  Nat.max (Nat.max (vl_seg_eid vl + 16) (vl_seg_va vl + 8))
    (Nat.max (vl_seg_len vl + 8) (vl_seg_token vl + 4)).

Lemma field_at_ok off n bs : (off + n <= length bs)%nat -> is_Some (field_at off n bs).
Proof. intros H. unfold field_at. destruct (Nat.leb_spec (off + n) (length bs)); [eauto|lia]. Qed.

Lemma field_at_short off n bs : (length bs < off + n)%nat -> field_at off n bs = None.
Proof. intros H. unfold field_at. destruct (Nat.leb_spec (off + n) (length bs)); [lia|auto]. Qed.

(** C40.  The lengths of the peer's descriptions are not checked.  With non-zero
    lengths the call is free of undefined behaviour exactly when both buffers really
    reach to the end of the fields that are read; the lengths the caller passes play
    no part, so a description that is too short, with its length stated truthfully,
    is read past its end. *)
Theorem parse_peer_connect_bounds vl env path id jetty jlen seg slen s fds :
  conn_env_ok env fds -> sched_ok (sk_rd s) -> errnos_ok (sk_wr s) -> jlen <> 0 -> slen <> 0 ->
  is_Some (ramdisk_ctrl_parse_peer_connect vl env path id (Some jetty) jlen (Some seg) slen s fds)
  <-> (seg_extent vl <= length seg)%nat /\ (vl_jetty_id vl + 4 <= length jetty)%nat.
Proof.
  intros He Hr Hw Hj Hs. unfold ramdisk_ctrl_parse_peer_connect, seg_extent.
  destruct (Z.eqb_spec jlen 0); [lia|]. destruct (Z.eqb_spec slen 0); [lia|]. cbn [orb]. split.
  - intros H. assert (Hle : forall off n bs, field_at off n bs <> None -> (off + n <= length bs)%nat).
    { intros off k bs Hne. destruct (Nat.le_gt_cases (off + k) (length bs)); [auto|].
      rewrite field_at_short in Hne by auto. congruence. }
    destruct (field_at (vl_seg_eid vl) 16 seg) eqn:E1; [|destruct H; discriminate].
    destruct (field_at (vl_seg_va vl) 8 seg) eqn:E2; [|destruct H; discriminate].
    destruct (field_at (vl_seg_len vl) 8 seg) eqn:E3; [|destruct H; discriminate].
    destruct (field_at (vl_seg_token vl) 4 seg) eqn:E4; [|destruct H; discriminate].
    destruct (field_at (vl_jetty_id vl) 4 jetty) eqn:E5; [|destruct H; discriminate].
    pose proof (Hle _ _ _ ltac:(rewrite E1; discriminate)).
    pose proof (Hle _ _ _ ltac:(rewrite E2; discriminate)).
    pose proof (Hle _ _ _ ltac:(rewrite E3; discriminate)).
    pose proof (Hle _ _ _ ltac:(rewrite E4; discriminate)).
    pose proof (Hle _ _ _ ltac:(rewrite E5; discriminate)). lia.
  - intros [H1 H2].
    destruct (field_at_ok (vl_seg_eid vl) 16 seg) as [eid ->]; [lia|].
    destruct (field_at_ok (vl_seg_va vl) 8 seg) as [va ->]; [lia|].
    destruct (field_at_ok (vl_seg_len vl) 8 seg) as [len ->]; [lia|].
    destruct (field_at_ok (vl_seg_token vl) 4 seg) as [tok ->]; [lia|].
    destruct (field_at_ok (vl_jetty_id vl) 4 jetty) as [jid ->]; [lia|]. cbn [mbind option_bind].
    edestruct client_transact_any as (r & t & -> & _); eauto; cbn; lia.
Qed.

Lemma parse_peer_connect_bounds_witness :
  ~ is_Some (ramdisk_ctrl_parse_peer_connect (mk_layout 0 24 32 44 20) ex_conn (Some [47]) 7
      (Some [1]) 1 (Some (replicate 48 0)) 48 (mk_sock [] [] [] []) {[3]}).
Proof.
  intros H. apply (parse_peer_connect_bounds (mk_layout 0 24 32 44 20) ex_conn (Some [47]) 7 [1] 1
    (replicate 48 0) 48 (mk_sock [] [] [] []) {[3]}) in H; [cbn in H; lia| | | |lia|lia].
  - split_and!; cbn; [|discriminate|intros; lia]. intros fd [= <-]. split; [set_solver|lia].
  - constructor.
  - constructor.
Defined.
