(* ===== verification/KernelBlk.v ===== *)
(** * The block layer's side of the two kernel drivers

    What kernel/rdma_blkdev.c and kernel-urma/urma_blkdev.c share: the request
    handed over by blk-mq, the bookkeeping of kernel resources, and the
    interface [BlkDriver] of a driver that serves requests from one memory
    region.  The theorems about the request path are proved against the
    interface; both drivers are instances of it. *)

From S2P Require Import Prelude.
From S2P Require Import Mem.
From S2P Require Import Ledger.

(** ** Requests *)

Inductive blk_status_t : Type :=
| BLK_STS_OK
| BLK_STS_IOERR.

(** A segment: the mapped address of its page plus [bv_offset], and its length. *)
Record bio_vec : Type := mk_bvec {
  bv_addr : ptr;
  bv_len : Z
}.

(** A request: [blk_rq_pos] in units of 512 bytes, the direction, the segments
    in order and [blk_rq_bytes]. *)
Record request : Type := mk_rq {
  blk_rq_pos : Z;
  rq_is_write : bool;
  rq_segments : list bio_vec;
  blk_rq_bytes : Z
}.

(** The unit of [sector_t] and of [set_capacity]. *)
Definition SECTOR_SIZE : Z := 512.

(** What serving a request tells the block layer: the value [queue_rq] returns
    and the statuses passed to [blk_mq_end_request], in order. *)
Definition rq_result : Type := blk_status_t * list blk_status_t.

(** ** The interface of a driver *)

Class BlkDriver (D : Type) := {
  bd_addr : D -> ptr;
  bd_size : D -> Z;
  bd_queue_rq : Z -> D -> request -> mem rq_result
}.

(** The segment loop, from the address of the next byte of the region. *)
Fixpoint rq_copy (write : bool) (base_addr : ptr) (segs : list bio_vec) : mem unit :=
  match segs with
  | [] => mret tt
  | bvec :: segs' =>
      _ ← (if write then memcpy base_addr (bv_addr bvec) (bv_len bvec)
           else memcpy (bv_addr bvec) base_addr (bv_len bvec));
      rq_copy write (padd base_addr (bv_len bvec)) segs'
  end.

(** What a driver promises: the range check on 64-bit arithmetic, one ending
    and the data moved at [sector * logical_block_size]. *)
Class BlkLaws (D : Type) `{BlkDriver D} : Prop := {
  bd_reject : forall lbs d rq h,
    u64 (u64 (blk_rq_pos rq * lbs) + blk_rq_bytes rq) > bd_size d ->
    bd_queue_rq lbs d rq h = Some ((BLK_STS_IOERR, [BLK_STS_IOERR]), h);
  bd_accept : forall lbs d rq h h',
    u64 (u64 (blk_rq_pos rq * lbs) + blk_rq_bytes rq) <= bd_size d ->
    rq_copy (rq_is_write rq) (padd (bd_addr d) (u64 (blk_rq_pos rq * lbs)))
      (rq_segments rq) h = Some (tt, h') ->
    bd_queue_rq lbs d rq h = Some ((BLK_STS_OK, [BLK_STS_OK]), h')
}.

(** ** Segments in memory *)

Definition seg_ok (b : Z) (h : heap) (v : bio_vec) : Prop :=
  exists vb o bs, bv_addr v = Ptr vb o /\ vb <> b /\ h_blocks h !! vb = Some bs /\
    0 <= o /\ 0 <= bv_len v /\ o + bv_len v <= zlength bs.

(** Two segments share no byte. *)
Definition seg_disj (v w : bio_vec) : Prop :=
  match bv_addr v, bv_addr w with
  | Ptr vb o, Ptr wb p => vb <> wb \/ o + bv_len v <= p \/ p + bv_len w <= o
  | _, _ => True
  end.

Fixpoint segs_disj (segs : list bio_vec) : Prop :=
  match segs with
  | [] => True
  | v :: segs' => Forall (seg_disj v) segs' /\ segs_disj segs'
  end.

(** The bytes in the segments of a request, in order. *)
Fixpoint gather (segs : list bio_vec) (h : heap) : list Z :=
  match segs with
  | [] => []
  | v :: segs' => default [] (load (bv_addr v) (bv_len v) h) ++ gather segs' h
  end.

Fixpoint segs_len (segs : list bio_vec) : Z :=
  match segs with [] => 0 | v :: segs' => bv_len v + segs_len segs' end.

(** The region of a driver: block [b], contents [bs]. *)
Record region_wf `{BlkDriver D} (d : D) (b : Z) (bs : list Z) (h : heap) : Prop := mk_region_wf {
  rg_addr : bd_addr d = Ptr b 0;
  rg_block : h_blocks h !! b = Some bs;
  rg_size : zlength bs = bd_size d;
  rg_u64 : is_u64 (bd_size d)
}.

(** A request as the block layer forms it: whole sectors within the capacity
    the driver announced ([ramdisk_size / logical_block_size]), segments that
    hold exactly its bytes, outside the region and without overlap. *)
Record admitted `{BlkDriver D} (lbs : Z) (d : D) (b : Z) (h : heap) (rq : request) : Prop :=
  mk_admitted {
  ad_pos : 0 <= blk_rq_pos rq;
  ad_bytes : is_u32 (blk_rq_bytes rq);
  ad_whole : blk_rq_bytes rq mod SECTOR_SIZE = 0;
  ad_capacity : blk_rq_pos rq + blk_rq_bytes rq / SECTOR_SIZE <= bd_size d / lbs;
  ad_len : segs_len (rq_segments rq) = blk_rq_bytes rq;
  ad_segs : Forall (seg_ok b h) (rq_segments rq);
  ad_disj : segs_disj (rq_segments rq)
}.

(** ** The segment loop *)

Lemma seg_ok_frame b h v bs' : seg_ok b h v -> seg_ok b (hset b bs' h) v.
Proof.
  intros (vb & o & bs & E & Hn & Hb & Ho). exists vb, o, bs.
  rewrite hset_lookup_ne by auto. auto.
Qed.

Lemma load_frame b h v bs' :
  seg_ok b h v -> load (bv_addr v) (bv_len v) (hset b bs' h) = load (bv_addr v) (bv_len v) h.
Proof.
  intros (vb & o & bs & E & Hn & Hb & Ho). rewrite E. cbn [load].
  rewrite hset_lookup_ne by auto. auto.
Qed.

Lemma gather_frame b h segs bs' :
  Forall (seg_ok b h) segs -> gather segs (hset b bs' h) = gather segs h.
Proof.
  induction 1 as [|v segs Hv Hs IH]; cbn; auto. rewrite load_frame by auto. congruence.
Qed.

Lemma gather_len b h segs : Forall (seg_ok b h) segs -> zlength (gather segs h) = segs_len segs.
Proof.
  induction 1 as [|v segs (vb & o & bs & E & Hn & Hb & Ho1 & Ho2 & Ho3) Hs IH]; [reflexivity|].
  cbn [gather segs_len]. rewrite zlength_app, IH, E. erewrite load_ok by eauto.
  cbn [from_option id]. rewrite zlength_slice by lia. auto.
Qed.

Lemma segs_len_nonneg b h segs : Forall (seg_ok b h) segs -> 0 <= segs_len segs.
Proof.
  intros Hs. rewrite <- (gather_len b h segs Hs). apply zlength_nonneg.
Qed.

Lemma rq_copy_write b segs : forall h bs off,
  h_blocks h !! b = Some bs -> Forall (seg_ok b h) segs ->
  0 <= off -> off + segs_len segs <= zlength bs ->
  rq_copy true (Ptr b off) segs h = Some (tt, hset b (splice off (gather segs h) bs) h).
Proof.
  induction segs as [|v segs IH]; intros h bs off Hb Hs Ho Hl.
  { cbn. rewrite splice_nil, hset_id by auto. auto. }
  apply Forall_cons in Hs as [Hv Hs]. pose proof (segs_len_nonneg _ _ _ Hs).
  pose proof Hv as (vb & o & vs & E & Hn & Hvb & Ho1 & Ho2 & Ho3).
  cbn [rq_copy segs_len gather] in *. mstep. rewrite E.
  erewrite memcpy_ok by (eauto; lia). cbn [padd].
  assert (Hz : zlength (slice o (bv_len v) vs) = bv_len v) by (apply zlength_slice; lia).
  erewrite IH; [|apply hset_lookup|eapply Forall_impl; eauto using seg_ok_frame|lia|
    rewrite zlength_splice by lia; lia].
  rewrite hset_hset, gather_frame by auto. erewrite load_ok by eauto. cbn [from_option id].
  rewrite splice_app; rewrite ?Hz; auto. rewrite (gather_len b h segs Hs). lia.
Qed.

(** A segment disjoint from the one just written keeps its bytes. *)
Lemma seg_ok_other b h v w d :
  seg_ok b h v -> seg_ok b h w -> zlength d = bv_len v ->
  exists h', store (bv_addr v) d h = Some h' /\ seg_ok b h' w /\
    h_blocks h' !! b = h_blocks h !! b /\
    (seg_disj v w -> load (bv_addr w) (bv_len w) h' = load (bv_addr w) (bv_len w) h).
Proof.
  intros (vb & o & vs & E & Hn & Hvb & Ho1 & Ho2 & Ho3)
    (wb & p & ws & Ew & Hnw & Hwb & Hp1 & Hp2 & Hp3) Hd.
  rewrite E. erewrite store_ok by (eauto; lia). eexists. split; [reflexivity|].
  destruct (decide (vb = wb)) as [->|Hne].
  - assert (ws = vs) as -> by congruence. split_and!.
    + exists wb, p, (splice o d vs). rewrite hset_lookup, zlength_splice by lia. split_and!; auto.
    + apply hset_lookup_ne; auto.
    + unfold seg_disj. rewrite E, Ew. intros Hdj. cbn [load].
      rewrite hset_lookup, Hwb. cbn. unfold in_block. rewrite zlength_splice by lia.
      rewrite slice_splice_disjoint by lia. auto.
  - split_and!.
    + exists wb, p, ws. rewrite hset_lookup_ne by auto. split_and!; auto.
    + apply hset_lookup_ne; auto.
    + intros _. rewrite Ew. cbn [load]. rewrite hset_lookup_ne by auto. auto.
Qed.

Lemma store_other_segs b h v d segs h' :
  seg_ok b h v -> zlength d = bv_len v -> store (bv_addr v) d h = Some h' ->
  Forall (seg_ok b h) segs -> Forall (seg_ok b h') segs.
Proof.
  intros Hv Hd E Hs. eapply Forall_impl; [exact Hs|]. intros w Hw.
  destruct (seg_ok_other _ _ _ w d Hv Hw Hd) as (h'' & E' & ? & _). congruence.
Qed.

Lemma store_gather b h v d segs h' :
  seg_ok b h v -> zlength d = bv_len v -> store (bv_addr v) d h = Some h' ->
  Forall (seg_ok b h) segs -> Forall (seg_disj v) segs -> gather segs h' = gather segs h.
Proof.
  intros Hv Hd E Hs Hj. induction segs as [|w segs IH]; auto.
  apply Forall_cons in Hs as [Hw Hs]. apply Forall_cons in Hj as [Hj1 Hj2].
  destruct (seg_ok_other _ _ _ w d Hv Hw Hd) as (h'' & E' & _ & _ & Hl).
  assert (h'' = h') as -> by congruence. cbn [gather]. rewrite Hl, IH; auto.
Qed.

(** A read leaves the region alone, touches nothing but its segments, and they
    hold the bytes of the region afterwards. *)
Lemma rq_copy_read_frame b segs : forall h bs off,
  h_blocks h !! b = Some bs -> Forall (seg_ok b h) segs -> 0 <= off ->
  off + segs_len segs <= zlength bs ->
  exists h', rq_copy false (Ptr b off) segs h = Some (tt, h') /\
    h_blocks h' !! b = Some bs /\
    (forall w, seg_ok b h w -> Forall (fun v => seg_disj v w) segs ->
       seg_ok b h' w /\ load (bv_addr w) (bv_len w) h' = load (bv_addr w) (bv_len w) h).
Proof.
  induction segs as [|v segs IH]; intros h bs off Hb Hs Ho Hl.
  { exists h. auto. }
  apply Forall_cons in Hs as [Hv Hs]. pose proof (segs_len_nonneg _ _ _ Hs).
  cbn [rq_copy segs_len] in *. mstep. unfold memcpy.
  pose proof Hv as (_ & _ & _ & _ & _ & _ & _ & Hv2 & _).
  erewrite load_ok by (eauto; lia).
  assert (Hd : zlength (slice off (bv_len v) bs) = bv_len v) by (apply zlength_slice; lia).
  destruct (seg_ok_other _ _ _ v _ Hv Hv Hd) as (h1 & E1 & Hv1 & Hb1 & _). rewrite E1.
  cbn [padd]. rewrite Hb in Hb1.
  destruct (IH h1 bs (off + bv_len v) Hb1) as (h' & E & Hb' & Hk);
    [exact (store_other_segs _ _ _ _ _ _ Hv Hd E1 Hs)|lia|lia|].
  exists h'. split; [auto|]. split; [auto|]. intros w Hw Hj.
  apply Forall_cons in Hj as [Hj1 Hj2].
  destruct (seg_ok_other _ _ _ w _ Hv Hw Hd) as (h1' & E1' & Hw1 & _ & Hl1).
  assert (h1' = h1) as -> by congruence.
  destruct (Hk w Hw1 Hj2) as [? Hl2]. split; auto. rewrite Hl2; auto.
Qed.

Lemma seg_load_store b h v d h' :
  seg_ok b h v -> zlength d = bv_len v -> store (bv_addr v) d h = Some h' ->
  load (bv_addr v) (bv_len v) h' = Some d.
Proof.
  intros (vb & o & vs & E & Hn & Hvb & Ho1 & Ho2 & Ho3) Hd. rewrite E.
  erewrite store_ok by (eauto; lia). intros [= <-].
  erewrite load_ok; [|apply hset_lookup|lia|lia|rewrite zlength_splice; lia].
  rewrite slice_splice_eq by lia. auto.
Qed.

Lemma seg_disj_sym v w : seg_disj v w -> seg_disj w v.
Proof. unfold seg_disj. destruct (bv_addr v), (bv_addr w); auto; lia. Qed.

Lemma rq_copy_read b segs : forall h bs off,
  h_blocks h !! b = Some bs -> Forall (seg_ok b h) segs -> segs_disj segs -> 0 <= off ->
  off + segs_len segs <= zlength bs ->
  exists h', rq_copy false (Ptr b off) segs h = Some (tt, h') /\
    h_blocks h' !! b = Some bs /\ gather segs h' = slice off (segs_len segs) bs.
Proof.
  induction segs as [|v segs IH]; intros h bs off Hb Hs Hj Ho Hl.
  { exists h. cbn. rewrite slice_nil. auto. }
  apply Forall_cons in Hs as [Hv Hs]. destruct Hj as [Hj1 Hj2].
  pose proof (segs_len_nonneg _ _ _ Hs). cbn [rq_copy segs_len gather] in *. mstep. unfold memcpy.
  pose proof Hv as (_ & _ & _ & _ & _ & _ & _ & Hv2 & _).
  erewrite load_ok by (eauto; lia).
  assert (Hd : zlength (slice off (bv_len v) bs) = bv_len v) by (apply zlength_slice; lia).
  destruct (seg_ok_other _ _ _ v _ Hv Hv Hd) as (h1 & E1 & Hv1 & Hb1 & _). rewrite E1.
  cbn [padd]. rewrite Hb in Hb1.
  assert (Hs1 : Forall (seg_ok b h1) segs) by exact (store_other_segs _ _ _ _ _ _ Hv Hd E1 Hs).
  destruct (IH h1 bs (off + bv_len v) Hb1 Hs1 Hj2) as (h' & E & Hb' & Hg); [lia|lia|].
  destruct (rq_copy_read_frame b segs h1 bs (off + bv_len v) Hb1 Hs1) as (h2 & E2 & _ & Hk);
    [lia|lia|]. assert (h2 = h') as -> by congruence.
  exists h'. split; [auto|]. split; [auto|]. rewrite Hg, slice_app by lia. f_equal.
  destruct (Hk v Hv1) as [_ Hkv]; [exact (Forall_impl _ _ _ Hj1 (fun w => seg_disj_sym v w))|].
  rewrite Hkv, (seg_load_store _ _ _ _ _ Hv Hd E1). reflexivity.
Qed.

(** ** Serving admitted requests *)

Section Driver.
Context {D : Type} `{BlkDriver D, !BlkLaws D}.
Context (lbs : Z) (d : D) (b : Z) (bs : list Z) (h : heap) (Hlbs : SECTOR_SIZE <= lbs).
Context (W : region_wf d b bs h).

(** An admitted request lies within the region, whatever the block size. *)
Lemma admitted_range rq : admitted lbs d b h rq ->
  0 <= blk_rq_pos rq * lbs /\ 0 <= blk_rq_bytes rq /\
  blk_rq_pos rq * lbs + blk_rq_bytes rq <= bd_size d.
Proof.
  intros [Hp Hb Hw Hc _ _ _]. unfold SECTOR_SIZE in *. split_and!; [nia|int_lia|].
  pose proof (Z.div_mod (blk_rq_bytes rq) 512) as E1.
  pose proof (Z.mul_div_le (bd_size d) lbs).
  assert (blk_rq_bytes rq / 512 * 512 <= blk_rq_bytes rq / 512 * lbs)
    by (apply Z.mul_le_mono_nonneg_l; [apply Z.div_pos; int_lia|lia]).
  assert ((blk_rq_pos rq + blk_rq_bytes rq / 512) * lbs <= bd_size d / lbs * lbs)
    by (apply Z.mul_le_mono_nonneg_r; lia). lia.
Qed.

Lemma admitted_check rq : admitted lbs d b h rq ->
  u64 (blk_rq_pos rq * lbs) = blk_rq_pos rq * lbs /\
  u64 (u64 (blk_rq_pos rq * lbs) + blk_rq_bytes rq) <= bd_size d.
Proof.
  intros A. pose proof (admitted_range _ A) as (R1 & R2 & R3). pose proof (rg_u64 _ _ _ _ W).
  rewrite !u64_small; rewrite ?u64_small; int_lia.
Qed.

Lemma admitted_write rq : admitted lbs d b h rq -> rq_is_write rq = true ->
  bd_queue_rq lbs d rq h = Some ((BLK_STS_OK, [BLK_STS_OK]),
    hset b (splice (blk_rq_pos rq * lbs) (gather (rq_segments rq) h) bs) h).
Proof.
  intros A Ew. destruct (admitted_check _ A) as [E1 E2].
  pose proof (admitted_range _ A) as (R1 & R2 & R3).
  apply bd_accept; auto. rewrite Ew, E1, (rg_addr _ _ _ _ W). cbn [padd].
  apply rq_copy_write; eauto using rg_block, ad_segs.
  rewrite (ad_len _ _ _ _ _ A), (rg_size _ _ _ _ W). lia.
Qed.

Lemma admitted_read rq : admitted lbs d b h rq -> rq_is_write rq = false ->
  exists h', bd_queue_rq lbs d rq h = Some ((BLK_STS_OK, [BLK_STS_OK]), h') /\
    region_wf d b bs h' /\
    gather (rq_segments rq) h' = slice (blk_rq_pos rq * lbs) (blk_rq_bytes rq) bs.
Proof.
  intros A Ew. destruct (admitted_check _ A) as [E1 E2].
  pose proof (admitted_range _ A) as (R1 & R2 & R3).
  destruct (rq_copy_read b (rq_segments rq) h bs (blk_rq_pos rq * lbs))
    as (h' & E & Hb & Hg); eauto using rg_block, ad_segs, ad_disj.
  { rewrite (ad_len _ _ _ _ _ A), (rg_size _ _ _ _ W). lia. }
  exists h'. split; [|split].
  - apply bd_accept; auto. rewrite Ew, E1, (rg_addr _ _ _ _ W). exact E.
  - destruct W. split; auto.
  - rewrite Hg, (ad_len _ _ _ _ _ A). auto.
Qed.

Lemma region_wf_write rq : admitted lbs d b h rq ->
  region_wf d b (splice (blk_rq_pos rq * lbs) (gather (rq_segments rq) h) bs)
    (hset b (splice (blk_rq_pos rq * lbs) (gather (rq_segments rq) h) bs) h).
Proof.
  intros A. pose proof (admitted_range _ A) as (R1 & R2 & R3). destruct W. split; auto.
  - apply hset_lookup.
  - rewrite zlength_splice; [auto|lia|].
    rewrite (gather_len b h) by eauto using ad_segs. rewrite (ad_len _ _ _ _ _ A). lia.
Qed.

End Driver.

(** ** Kernel resources

    What the drivers acquire besides memory, as a ledger; handing back
    something that is not held is undefined.  Kernel pointers are integers:
    [0] is [NULL] and a negative number an [ERR_PTR]. *)

Inductive kres : Type :=
| KMajor (major : Z)
| KDev
| KList
| KIb (dev : Z)
| KPd (pd : Z)
| KMr (mr : Z)
| KDma (iova len : Z)
| KUb (dev : Z)
| KToken (t : Z)
| KSeg (s : Z)
| KWq (wq : Z)
| KTagSet
| KDisk (disk : Z)
| KAdded (disk : Z).

#[export] Instance kres_eq_dec : EqDecision kres.
Proof. solve_decision. Defined.

Record kern : Type := mk_kern {
  k_heap : heap;
  k_res : list kres
}.

Definition km (A : Type) : Type := kern -> option (A * kern).

#[export] Instance km_ret : MRet km := fun A a k => Some (a, k).

#[export] Instance km_bind : MBind km := fun A B f m k =>
  match m k with
  | Some (a, k') => f a k'
  | None => None
  end.

Definition kmem {A} (m : mem A) : km A := fun k =>
  match m (k_heap k) with
  | Some (a, h') => Some (a, mk_kern h' (k_res k))
  | None => None
  end.

Definition acquire (r : kres) : km unit := fun k => Some (tt, mk_kern (k_heap k) (r :: k_res k)).

Definition release (r : kres) : km unit := fun k =>
  match remove_one r (k_res k) with
  | Some l => Some (tt, mk_kern (k_heap k) l)
  | None => None
  end.

(** Run a release unless the pointer is [NULL]. *)
Definition release_if (p : Z) (r : kres) : km unit :=
  if p =? 0 then mret tt else release r.

Definition IS_ERR (p : Z) : bool := p <? 0.

(** An allocation that fails for the size 0 and whenever [ok] is false. *)
Definition vmalloc_user (ok : bool) (len : Z) : mem ptr := calloc (ok && negb (len =? 0)) len.

(** Settings of the gendisk and of its tag set; [ds_drvdata] says whether the
    device struct was made the driver data of the disk's device. *)
Record blk_mq_tag_set : Type := mk_tag_set {
  ts_nr_hw_queues : Z;
  ts_queue_depth : Z;
  ts_cmd_size : Z
}.

Record disk_settings : Type := mk_settings {
  ds_major : Z;
  ds_first_minor : Z;
  ds_minors : Z;
  ds_logical_block_size : Z;
  ds_physical_block_size : Z;
  ds_max_hw_sectors : Z;
  ds_capacity : Z;
  ds_drvdata : bool
}.

Lemma km_bind_eq {A B} (m : km A) (f : A -> km B) (k : kern) :
  (m ≫= f) k = match m k with Some (a, k') => f a k' | None => None end.
Proof. reflexivity. Qed.

Lemma km_ret_eq {A} (a : A) (k : kern) : (mret a : km A) k = Some (a, k).
Proof. reflexivity. Qed.

Lemma acquire_eq r h l : acquire r (mk_kern h l) = Some (tt, mk_kern h (r :: l)).
Proof. reflexivity. Qed.

Lemma release_here r h l : release r (mk_kern h (r :: l)) = Some (tt, mk_kern h l).
Proof. unfold release. cbn [k_res]. rewrite remove_one_here. auto. Qed.

Lemma release_under r h l1 l2 :
  r ∉ l1 -> release r (mk_kern h (l1 ++ r :: l2)) = Some (tt, mk_kern h (l1 ++ l2)).
Proof. intros. unfold release. cbn [k_res]. rewrite remove_one_under; auto. Qed.

(** [kstep] exposes the next effect of a program on a kernel state. *)
Ltac kstep :=
  repeat (progress (rewrite ?km_bind_eq, ?km_ret_eq, ?acquire_eq, ?release_here; cbn beta iota)).

(** Freeing a block just allocated gives the old blocks back. *)
Lemma hdel_halloc d h :
  heap_fresh h -> h_blocks (hdel (h_next h) (snd (halloc d h))) = h_blocks h.
Proof.
  intros F. cbn. rewrite delete_insert_eq. apply delete_id.
  destruct (h_blocks h !! h_next h) eqn:E; auto. apply F in E. lia.
Qed.

Lemma heap_empty_fresh : heap_fresh heap_empty.
Proof. intros b bs. cbn. rewrite lookup_empty. discriminate. Defined.

(** The size of the region. *)
Definition ram_size (device_size_mb : Z) : Z := u64 (Z.shiftl device_size_mb 20).

(** The allocation of the zeroed region, as both drivers do it. *)
Lemma vmalloc_zeroed {A} ok mb h l (k : ptr -> km A) :
  (p ← kmem (vmalloc_user ok (ram_size mb)); k p) (mk_kern h l)
  = if ok && negb (ram_size mb =? 0)
    then k (Ptr (h_next h) 0) (mk_kern (snd (halloc (replicate (Z.to_nat (ram_size mb)) 0) h)) l)
    else k Null (mk_kern h l).
Proof. unfold vmalloc_user, calloc, kmem, halloc. kstep. destruct (_ && _); reflexivity. Qed.

Lemma memset_zeroed mb h l :
  let h1 := snd (halloc (replicate (Z.to_nat (ram_size mb)) 0) h) in
  kmem (memset (Ptr (h_next h) 0) 0 (ram_size mb)) (mk_kern h1 l) = Some (tt, mk_kern h1 l).
Proof.
  intros h1. pose proof (u64_bound (Z.shiftl mb 20)) as Hb. fold (ram_size mb) in Hb.
  unfold kmem. cbn [k_heap k_res]. subst h1.
  erewrite memset_ok; [|cbn; apply lookup_insert_eq|lia|int_lia|
    rewrite zlength_replicate; int_lia].
  rewrite splice_whole by (rewrite !length_replicate; auto).
  rewrite hset_id by (cbn; rewrite lookup_insert_eq; auto). reflexivity.
Qed.
