(* ===== verification/RdmaBlk.v ===== *)
(** * The RDMA block device module (kernel/rdma_blkdev.c)

    The driver's device struct, the request path, the acquisition and release
    of the RDMA objects, the gendisk, the memory region, and module load and
    unload.  The kernel services it calls are represented by the results they
    return ([rdma_env]); what they hand out is recorded in the ledger of
    [KernelBlk]. *)

From S2P Require Import Prelude.
From S2P Require Import Mem.
From S2P Require Import KernelBlk.

Record rdma_blkdev_device : Type := mk_rdev {
  rb_disk : Z;
  rb_settings : option disk_settings;
  rb_tag_set : option blk_mq_tag_set;
  rb_ramdisk_addr : ptr;
  rb_ramdisk_size : Z;
  rb_ramdisk_iova : Z;
  rb_ib_dev : Z;
  rb_pd : Z;
  rb_mr : Z;
  rb_lkey : Z;
  rb_rkey : Z
}.

(** [kzalloc]: all fields zero. *)
Definition rdev_zero : rdma_blkdev_device := mk_rdev 0 None None Null 0 0 0 0 0 0 0.

(** Results of the kernel services.  [re_ib_dev_name] is [None] for the module
    parameter [NULL], else the result of [ib_device_get_by_name];
    [re_netdev i] the result of the [i]-th call of [ib_device_get_by_netdev]. *)
Record rdma_env : Type := mk_rdma_env {
  re_major : Z;
  re_kzalloc : bool;
  re_vmalloc : bool;
  re_ib_dev_name : option Z;
  re_netdev : nat -> Z;
  re_kmalloc : bool;
  re_alloc_pd : Z;
  re_get_mr : Z;
  re_mr_lkey : Z;
  re_mr_rkey : Z;
  re_dma_map : Z;
  re_dma_error : bool;
  re_virt_to_phys : Z;
  re_alloc_tag_set : Z;
  re_alloc_disk : Z;
  re_add_disk : Z
}.

(** ** Field updates *)

Definition set_ram (p : ptr) (size : Z) (d : rdma_blkdev_device) : rdma_blkdev_device :=
  mk_rdev (rb_disk d) (rb_settings d) (rb_tag_set d) p size (rb_ramdisk_iova d) (rb_ib_dev d)
    (rb_pd d) (rb_mr d) (rb_lkey d) (rb_rkey d).

Definition set_rdma (iova ib pd mr lkey rkey : Z) (d : rdma_blkdev_device) : rdma_blkdev_device :=
  mk_rdev (rb_disk d) (rb_settings d) (rb_tag_set d) (rb_ramdisk_addr d) (rb_ramdisk_size d)
    iova ib pd mr lkey rkey.

Definition set_disk (disk : Z) (s : option disk_settings) (t : option blk_mq_tag_set)
    (d : rdma_blkdev_device) : rdma_blkdev_device :=
  mk_rdev disk s t (rb_ramdisk_addr d) (rb_ramdisk_size d) (rb_ramdisk_iova d) (rb_ib_dev d)
    (rb_pd d) (rb_mr d) (rb_lkey d) (rb_rkey d).

(** ** The request path *)

Definition rdma_blkdev_complete_request (ended : list blk_status_t) (status : blk_status_t)
    : list blk_status_t := ended ++ [status].

Definition rdma_blkdev_queue_rq (logical_block_size : Z) (dev : rdma_blkdev_device)
    (rq : request) : mem rq_result :=
  let sector := blk_rq_pos rq in
  let base_addr := padd (rb_ramdisk_addr dev) (u64 (sector * logical_block_size)) in
  if u64 (u64 (sector * logical_block_size) + blk_rq_bytes rq) >? rb_ramdisk_size dev
  then mret (BLK_STS_IOERR, rdma_blkdev_complete_request [] BLK_STS_IOERR)
  else
    _ ← rq_copy (rq_is_write rq) base_addr (rq_segments rq);
    mret (BLK_STS_OK, rdma_blkdev_complete_request [] BLK_STS_OK).

#[export] Instance rdma_blk_driver : BlkDriver rdma_blkdev_device := {
  bd_addr := rb_ramdisk_addr;
  bd_size := rb_ramdisk_size;
  bd_queue_rq := rdma_blkdev_queue_rq
}.

#[export] Instance rdma_blk_laws : BlkLaws rdma_blkdev_device.
Proof.
  split; intros lbs d rq h; cbn; unfold rdma_blkdev_queue_rq.
  - intros Hr. destruct (_ >? _) eqn:E; [reflexivity|lia].
  - intros h' Hr Hc. destruct (_ >? _) eqn:E; [lia|]. mstep. rewrite Hc. reflexivity.
Qed.

(** ** The RDMA objects *)

(** One call of [ib_device_get_by_netdev]; it takes a reference. *)
Definition get_by_netdev (env : rdma_env) (i : nat) : km Z :=
  let d := re_netdev env i in
  if d =? 0 then mret 0 else _ ← acquire (KIb d); mret d.

(** The search loop: [n] iterations left, [i] calls made so far. *)
Fixpoint netdev_loop (env : rdma_env) (n i : nat) : km Z :=
  match n with
  | O => mret 0
  | S n' =>
      d ← get_by_netdev env i;
      if negb (d =? 0) then mret d else netdev_loop env n' (S i)
  end.

(** From the label [err_put_dev] on. *)
Definition err_put_dev (ret : Z) (dev : rdma_blkdev_device) : km (Z * rdma_blkdev_device) :=
  _ ← release (KIb (rb_ib_dev dev));
  mret (ret, set_rdma (rb_ramdisk_iova dev) 0 (rb_pd dev) (rb_mr dev) (rb_lkey dev) (rb_rkey dev) dev).

Definition err_dealloc_pd (ret : Z) (dev : rdma_blkdev_device) : km (Z * rdma_blkdev_device) :=
  _ ← release (KPd (rb_pd dev));
  err_put_dev ret
    (set_rdma (rb_ramdisk_iova dev) (rb_ib_dev dev) 0 (rb_mr dev) (rb_lkey dev) (rb_rkey dev) dev).

Definition err_dereg_mr (ret : Z) (dev : rdma_blkdev_device) : km (Z * rdma_blkdev_device) :=
  _ ← release (KMr (rb_mr dev));
  err_dealloc_pd ret
    (set_rdma (rb_ramdisk_iova dev) (rb_ib_dev dev) (rb_pd dev) 0 (rb_lkey dev) (rb_rkey dev) dev).

(** The part of [rdma_blkdev_setup_rdma] after the device was found. *)
Definition setup_objects (env : rdma_env) (dev : rdma_blkdev_device)
    : km (Z * rdma_blkdev_device) :=
  let iova := rb_ramdisk_iova dev in
  let ib := rb_ib_dev dev in
  let pd := re_alloc_pd env in
  if IS_ERR pd
  then err_put_dev pd (set_rdma iova ib 0 (rb_mr dev) (rb_lkey dev) (rb_rkey dev) dev) else
  _ ← acquire (KPd pd);
  let mr := re_get_mr env in
  if IS_ERR mr
  then err_dealloc_pd mr (set_rdma iova ib pd 0 (rb_lkey dev) (rb_rkey dev) dev) else
  _ ← acquire (KMr mr);
  let dev := set_rdma (re_dma_map env) ib pd mr (re_mr_lkey env) (re_mr_rkey env) dev in
  if re_dma_error env then err_dereg_mr (- EIO) dev else
  _ ← acquire (KDma (re_dma_map env) (rb_ramdisk_size dev));
  mret (0, dev).

Definition rdma_blkdev_setup_rdma (env : rdma_env) (dev : rdma_blkdev_device)
    : km (Z * rdma_blkdev_device) :=
  let with_ib ib := set_rdma (rb_ramdisk_iova dev) ib (rb_pd dev) (rb_mr dev)
                      (rb_lkey dev) (rb_rkey dev) dev in
  match re_ib_dev_name env with
  | None =>
      c ← get_by_netdev env 0;
      let count := s32 c in
      if count <=? 0 then mret (0, set_rdma (re_virt_to_phys env) 0 0 0 0 0 dev) else
      if negb (re_kmalloc env) then mret (- ENOMEM, dev) else
      _ ← acquire KList;
      _ ← get_by_netdev env 1;
      ibdev ← netdev_loop env (Z.to_nat count) 2;
      _ ← release KList;
      if ibdev =? 0
      then mret (0, set_rdma (re_virt_to_phys env) (rb_ib_dev dev) (rb_pd dev) (rb_mr dev)
                     (rb_lkey dev) (rb_rkey dev) dev)
      else setup_objects env (with_ib ibdev)
  | Some ibdev =>
      if ibdev =? 0 then mret (- ENODEV, dev) else
      _ ← acquire (KIb ibdev);
      setup_objects env (with_ib ibdev)
  end.

Definition rdma_blkdev_cleanup_rdma (dev : rdma_blkdev_device) : km rdma_blkdev_device :=
  let unmap := negb (rb_ib_dev dev =? 0) && negb (rb_ramdisk_iova dev =? 0) in
  _ ← (if unmap then release (KDma (rb_ramdisk_iova dev) (rb_ramdisk_size dev)) else mret tt);
  _ ← release_if (rb_mr dev) (KMr (rb_mr dev));
  _ ← release_if (rb_pd dev) (KPd (rb_pd dev));
  _ ← release_if (rb_ib_dev dev) (KIb (rb_ib_dev dev));
  mret (set_rdma (if unmap then 0 else rb_ramdisk_iova dev) 0 0 0 (rb_lkey dev) (rb_rkey dev) dev).

(** ** The gendisk *)

Definition rdma_blkdev_init_tag_set (dev : rdma_blkdev_device) : rdma_blkdev_device :=
  set_disk (rb_disk dev) (rb_settings dev) (Some (mk_tag_set 1 128 0)) dev.

Definition rdma_blkdev_alloc_disk (env : rdma_env) (major logical_block_size : Z)
    (dev : rdma_blkdev_device) : km (Z * rdma_blkdev_device) :=
  let dev := rdma_blkdev_init_tag_set dev in
  let ret := re_alloc_tag_set env in
  if negb (ret =? 0) then mret (ret, dev) else
  _ ← acquire KTagSet;
  let disk := re_alloc_disk env in
  if IS_ERR disk then
    _ ← release KTagSet;
    mret (disk, set_disk disk (rb_settings dev) (rb_tag_set dev) dev)
  else
  _ ← acquire (KDisk disk);
  capacity ← kmem (udiv (rb_ramdisk_size dev) logical_block_size);
  let dev := set_disk disk (Some (mk_settings major 0 1 logical_block_size logical_block_size
                                    1024 capacity false)) (rb_tag_set dev) dev in
  let ret := re_add_disk env in
  if negb (ret =? 0) then
    _ ← release (KDisk disk);
    _ ← release KTagSet;
    mret (ret, dev)
  else
  _ ← acquire (KAdded disk);
  mret (0, dev).

Definition rdma_blkdev_free_disk (dev : rdma_blkdev_device) : km rdma_blkdev_device :=
  _ ← release_if (rb_disk dev) (KAdded (rb_disk dev));
  _ ← release_if (rb_disk dev) (KDisk (rb_disk dev));
  _ ← release KTagSet;
  mret (set_disk 0 (rb_settings dev) (rb_tag_set dev) dev).

(** ** The memory region *)

Definition rdma_blkdev_alloc_ramdisk (env : rdma_env) (device_size_mb : Z)
    (dev : rdma_blkdev_device) : km (Z * rdma_blkdev_device) :=
  let size := u64 (Z.shiftl device_size_mb 20) in
  p ← kmem (vmalloc_user (re_vmalloc env) size);
  let dev := set_ram p size dev in
  if is_null p then mret (- ENOMEM, dev) else
  _ ← kmem (memset p 0 size);
  mret (0, dev).

Definition rdma_blkdev_free_ramdisk (dev : rdma_blkdev_device) : km rdma_blkdev_device :=
  if is_null (rb_ramdisk_addr dev) then mret dev else
  _ ← kmem (free (rb_ramdisk_addr dev));
  mret (set_ram Null 0 dev).

(** ** Load and unload

    The two globals: the major number and the device. *)

Definition rdma_globals : Type := Z * option rdma_blkdev_device.

Definition rdma_blkdev_init (env : rdma_env) (device_size_mb logical_block_size : Z)
    : km (Z * rdma_globals) :=
  let major := re_major env in
  if major <? 0 then mret (major, (major, None)) else
  _ ← acquire (KMajor major);
  let err_unregister ret := (_ ← release (KMajor major); mret (ret, (major, None))) in
  if negb (re_kzalloc env) then err_unregister (- ENOMEM) else
  _ ← acquire KDev;
  let err_free_dev ret := (_ ← release KDev; err_unregister ret) in
  '(ret, dev) ← rdma_blkdev_alloc_ramdisk env device_size_mb rdev_zero;
  if negb (ret =? 0) then err_free_dev ret else
  '(_, dev) ← rdma_blkdev_setup_rdma env dev;
  '(ret, dev) ← rdma_blkdev_alloc_disk env major logical_block_size dev;
  if negb (ret =? 0) then
    dev ← rdma_blkdev_cleanup_rdma dev;
    _ ← rdma_blkdev_free_ramdisk dev;
    err_free_dev ret
  else mret (0, (major, Some dev)).

Definition rdma_blkdev_exit (g : rdma_globals) : km rdma_globals :=
  _ ← match snd g with
      | Some dev =>
          dev ← rdma_blkdev_free_disk dev;
          dev ← rdma_blkdev_cleanup_rdma dev;
          _ ← rdma_blkdev_free_ramdisk dev;
          release KDev
      | None => mret tt
      end;
  _ ← release (KMajor (fst g));
  mret (fst g, None).

(** ** Resource lemmas *)

(** Handles are not [NULL]. *)
Record rdma_env_ok (env : rdma_env) : Prop := mk_env_ok {
  eo_pd : re_alloc_pd env <> 0;
  eo_mr : re_get_mr env <> 0;
  eo_disk : re_alloc_disk env <> 0
}.

(** What a device holds of RDMA: nothing, or all four objects. *)
Definition rdma_held (dev : rdma_blkdev_device) : list kres :=
  if rb_ib_dev dev =? 0 then [] else
  [KDma (rb_ramdisk_iova dev) (rb_ramdisk_size dev); KMr (rb_mr dev); KPd (rb_pd dev);
   KIb (rb_ib_dev dev)].

Definition rdma_ok (env : rdma_env) (dev : rdma_blkdev_device) : Prop :=
  (rb_ib_dev dev = 0 /\ rb_pd dev = 0 /\ rb_mr dev = 0) \/
  (rb_ib_dev dev <> 0 /\ rb_pd dev <> 0 /\ rb_mr dev <> 0 /\ rb_ramdisk_iova dev = re_dma_map env).

(** What the cleanup does not give back: a mapping at the DMA address 0, which it
    takes for none. *)
Definition dma_left (dev : rdma_blkdev_device) : list kres :=
  if negb (rb_ib_dev dev =? 0) && (rb_ramdisk_iova dev =? 0)
  then [KDma 0 (rb_ramdisk_size dev)] else [].

(** [dev'] is [dev] up to the RDMA fields. *)
Definition same_but_rdma (dev dev' : rdma_blkdev_device) : Prop :=
  exists iova ib pd mr lkey rkey, dev' = set_rdma iova ib pd mr lkey rkey dev.

Lemma held_none (rc : Z) dev h l : rb_ib_dev dev = 0 ->
  Some ((rc, dev), mk_kern h l) = Some ((rc, dev), mk_kern h (rdma_held dev ++ l)).
Proof. intros E. unfold rdma_held. rewrite E. auto. Qed.

Lemma setup_objects_ok env dev h l :
  rdma_env_ok env -> rb_ib_dev dev <> 0 -> rb_pd dev = 0 -> rb_mr dev = 0 ->
  exists rc dev', setup_objects env dev (mk_kern h (KIb (rb_ib_dev dev) :: l))
    = Some ((rc, dev'), mk_kern h (rdma_held dev' ++ l)) /\
    rdma_ok env dev' /\ same_but_rdma dev dev'.
Proof.
  intros [Hp Hm _] Hib Hpd Hmr. unfold setup_objects, rdma_ok, same_but_rdma.
  destruct (IS_ERR (re_alloc_pd env)).
  { unfold err_put_dev. cbn [rb_ib_dev set_rdma]. kstep.
    eexists _, _. split; [apply held_none; reflexivity|]. cbn. split; [auto|eauto 10]. }
  destruct (IS_ERR (re_get_mr env)).
  { unfold err_dealloc_pd, err_put_dev. cbn [rb_ib_dev rb_pd set_rdma]. kstep.
    eexists _, _. split; [apply held_none; reflexivity|]. cbn. split; [auto|eauto 10]. }
  destruct (re_dma_error env).
  { unfold err_dereg_mr, err_dealloc_pd, err_put_dev. cbn [rb_ib_dev rb_pd rb_mr set_rdma]. kstep.
    eexists _, _. split; [apply held_none; reflexivity|]. cbn. split; [auto|eauto 10]. }
  kstep. exists 0, (set_rdma (re_dma_map env) (rb_ib_dev dev) (re_alloc_pd env) (re_get_mr env)
                 (re_mr_lkey env) (re_mr_rkey env) dev).
  split; [|split; [cbn; auto|eauto 10]].
  unfold rdma_held. cbn. destruct (Z.eqb_spec (rb_ib_dev dev) 0); [lia|reflexivity].
Qed.

(** With a named device, or with no RDMA device in the system, the set-up ends
    with all of the objects or with none, whatever call fails. *)
Definition no_netdev (env : rdma_env) : Prop :=
  re_ib_dev_name env = None -> re_netdev env 0 = 0.

Lemma setup_ok env dev h l :
  rdma_env_ok env -> no_netdev env ->
  rb_ib_dev dev = 0 -> rb_pd dev = 0 -> rb_mr dev = 0 ->
  exists rc dev', rdma_blkdev_setup_rdma env dev (mk_kern h l)
    = Some ((rc, dev'), mk_kern h (rdma_held dev' ++ l)) /\
    rdma_ok env dev' /\ same_but_rdma dev dev'.
Proof.
  intros He Hn Hib Hpd Hmr. unfold rdma_blkdev_setup_rdma.
  destruct (re_ib_dev_name env) as [ib|] eqn:En.
  - destruct (Z.eqb_spec ib 0) as [->|Hne].
    + kstep. exists (- ENODEV), dev. unfold rdma_held, rdma_ok. rewrite Hib. cbn.
      split; [auto|]. split; [auto|]. exists (rb_ramdisk_iova dev), 0, 0, 0, (rb_lkey dev), (rb_rkey dev).
      destruct dev; cbn in *; subst; auto.
    + kstep. set (dev1 := set_rdma _ ib _ _ _ _ dev).
      destruct (setup_objects_ok env dev1 h l He) as (rc & dev' & E & Hok & Hs); auto.
      exists rc, dev'. split; [exact E|]. split; [exact Hok|exact Hs].
  - unfold get_by_netdev. rewrite (Hn En). cbn. kstep.
    eexists _, _. split; [apply held_none; reflexivity|]. split; [left; auto|unfold same_but_rdma; eauto 10].
Qed.

Lemma cleanup_ok env dev h l :
  rdma_ok env dev ->
  exists dev', rdma_blkdev_cleanup_rdma dev (mk_kern h (rdma_held dev ++ l))
    = Some (dev', mk_kern h (dma_left dev ++ l)) /\ same_but_rdma dev dev'.
Proof.
  unfold rdma_ok, rdma_held, dma_left, rdma_blkdev_cleanup_rdma, release_if, same_but_rdma.
  intros [(E1 & E2 & E3)|(E1 & E2 & E3 & _)].
  - rewrite E1, E2, E3. cbn. kstep. eauto 10.
  - apply Z.eqb_neq in E1, E2, E3. rewrite E1, E2, E3.
    destruct (Z.eqb_spec (rb_ramdisk_iova dev) 0) as [E4|E4]; cbn [andb negb app]; kstep;
      [|eauto 10]. rewrite E4.
    change (KDma 0 (rb_ramdisk_size dev) :: KMr (rb_mr dev) :: ?x)
      with ([KDma 0 (rb_ramdisk_size dev)] ++ KMr (rb_mr dev) :: x).
    do 3 (rewrite release_under by (rewrite list_elem_of_singleton; discriminate); kstep; cbn [app];
      try change (KDma ?a ?b :: ?r :: ?x) with ([KDma a b] ++ r :: x)).
    eauto 10.
Qed.

Lemma dma_left_other r dev : (forall a n, r <> KDma a n) -> r ∉ dma_left dev.
Proof.
  intros Hr. unfold dma_left. destruct (_ && _); [|apply not_elem_of_nil].
  rewrite list_elem_of_singleton. apply Hr.
Qed.

(** It depends on the address that was handed out. *)
Lemma dma_left_eq env dev : rdma_ok env dev ->
  dma_left dev = if negb (rb_ib_dev dev =? 0) && (re_dma_map env =? 0)
                 then [KDma 0 (rb_ramdisk_size dev)] else [].
Proof.
  unfold dma_left. intros [(-> & _)|(_ & _ & _ & ->)]; reflexivity.
Qed.

(** Run the cleanup of the goal; what is held only depends on the RDMA fields. *)
Ltac use_cleanup Hok :=
  match goal with
  | |- context [rdma_blkdev_cleanup_rdma ?d (mk_kern ?h (?held ++ ?l))] =>
      let d1 := fresh "d1" in let E1 := fresh "E1" in let Hs1 := fresh "Hs1" in
      destruct (cleanup_ok _ d h l Hok) as (d1 & E1 & Hs1);
      change (rdma_held d) with held in E1; rewrite E1
  end.

(** Whether the gendisk comes up. *)
Definition disk_comes_up (env : rdma_env) : bool :=
  (re_alloc_tag_set env =? 0) && (0 <? re_alloc_disk env) && (re_add_disk env =? 0).

Lemma alloc_disk_ok env major lbs dev h l :
  rdma_env_ok env -> lbs <> 0 ->
  exists rc s t, rdma_blkdev_alloc_disk env major lbs dev (mk_kern h l)
    = (if disk_comes_up env
      then Some ((0, set_disk (re_alloc_disk env)
             (Some (mk_settings major 0 1 lbs lbs 1024 (rb_ramdisk_size dev / lbs) false))
             (Some (mk_tag_set 1 128 0)) dev),
           mk_kern h (KAdded (re_alloc_disk env) :: KDisk (re_alloc_disk env) :: KTagSet :: l))
      else Some ((rc, set_disk (if re_alloc_tag_set env =? 0 then re_alloc_disk env
                                else rb_disk dev) s t dev), mk_kern h l)) /\ rc <> 0.
Proof.
  intros He Hl. unfold rdma_blkdev_alloc_disk, disk_comes_up. pose proof (eo_disk _ He) as Hd.
  destruct (Z.eqb_spec (re_alloc_tag_set env) 0) as [_|Ht]; cbn [negb andb].
  2:{ eexists _, _, _. split; [reflexivity|auto]. }
  kstep. destruct (IS_ERR (re_alloc_disk env)) eqn:Ee; unfold IS_ERR in Ee.
  { destruct (0 <? _) eqn:?; [lia|]. kstep. eexists _, _, _. split; [reflexivity|lia]. }
  destruct (0 <? _) eqn:?; [|lia]. cbn [andb]. kstep. unfold kmem at 1, udiv at 1.
  destruct (Z.eqb_spec lbs 0); [lia|]. cbn [k_heap k_res]. mstep.
  destruct (Z.eqb_spec (re_add_disk env) 0); cbn [negb]; kstep.
  - eexists 1, None, None. split; [reflexivity|lia].
  - eexists _, _, _. split; [reflexivity|auto].
Qed.

Lemma free_disk_ok env s t dev h l :
  rdma_env_ok env ->
  rdma_blkdev_free_disk (set_disk (re_alloc_disk env) s t dev)
    (mk_kern h (KAdded (re_alloc_disk env) :: KDisk (re_alloc_disk env) :: KTagSet :: l))
  = Some (set_disk 0 s t dev, mk_kern h l).
Proof.
  intros He. unfold rdma_blkdev_free_disk, release_if. cbn [rb_disk set_disk].
  pose proof (eo_disk _ He) as Hd. apply Z.eqb_neq in Hd. rewrite Hd. kstep. reflexivity.
Qed.

Lemma alloc_ramdisk_ok env mb dev h l :
  rdma_blkdev_alloc_ramdisk env mb dev (mk_kern h l)
  = if re_vmalloc env && negb (ram_size mb =? 0)
    then Some ((0, set_ram (Ptr (h_next h) 0) (ram_size mb) dev),
               mk_kern (snd (halloc (replicate (Z.to_nat (ram_size mb)) 0) h)) l)
    else Some ((- ENOMEM, set_ram Null (ram_size mb) dev), mk_kern h l).
Proof.
  unfold rdma_blkdev_alloc_ramdisk. fold (ram_size mb). rewrite vmalloc_zeroed.
  destruct (_ && _); [|reflexivity]. cbn [is_null]. kstep. rewrite memset_zeroed. reflexivity.
Qed.

Lemma free_ramdisk_ok dev h l n d :
  rb_ramdisk_addr dev = Ptr n 0 -> h_blocks h !! n = Some d ->
  exists dev', rdma_blkdev_free_ramdisk dev (mk_kern h l) = Some (dev', mk_kern (hdel n h) l).
Proof.
  intros Ha Hb. unfold rdma_blkdev_free_ramdisk. rewrite Ha. cbn [is_null]. kstep.
  unfold kmem. cbn [k_heap k_res]. erewrite free_ok by eauto. eauto.
Qed.

(** ** Loading and unloading *)

(** Whether the module loads: RDMA failures do not matter. *)
Definition rdma_loads (env : rdma_env) (mb : Z) : bool :=
  (0 <=? re_major env) && re_kzalloc env && (re_vmalloc env && negb (ram_size mb =? 0)) &&
  disk_comes_up env.

(** Everything the loaded module holds, above [l]; [extra] are references the
    set-up took and will not give back. *)
Definition rdma_loaded (env : rdma_env) (dev : rdma_blkdev_device) (extra l : list kres)
    : list kres :=
  KAdded (re_alloc_disk env) :: KDisk (re_alloc_disk env) :: KTagSet ::
  rdma_held dev ++ extra ++ KDev :: KMajor (re_major env) :: l.

(** The set-up ends with all of the objects or with none, above [extra]
    references to RDMA devices. *)
Definition setup_leaves (env : rdma_env) (extra : list kres) : Prop :=
  Forall (fun r => exists d, r = KIb d) extra /\
  forall dev h l, rb_ib_dev dev = 0 -> rb_pd dev = 0 -> rb_mr dev = 0 ->
  exists rc dev', rdma_blkdev_setup_rdma env dev (mk_kern h l)
    = Some ((rc, dev'), mk_kern h (rdma_held dev' ++ extra ++ l)) /\
    rdma_ok env dev' /\ same_but_rdma dev dev'.

Section Load.
Context (env : rdma_env) (mb lbs : Z) (h : heap) (l : list kres).
Context (He : rdma_env_ok env) (Hf : heap_fresh h) (Hlbs : lbs <> 0).
Context (extra : list kres) (Hset : setup_leaves env extra).

Lemma extra_other r : (forall d, r <> KIb d) -> r ∉ extra.
Proof.
  intros Hr Hin. destruct Hset as [Hall _]. rewrite Forall_forall in Hall.
  destruct (Hall _ Hin) as [d ->]. destruct (Hr d). auto.
Qed.

Lemma left_other r dev : (forall d, r <> KIb d) -> (forall a n, r <> KDma a n) -> r ∉ dma_left dev ++ extra.
Proof.
  intros H1 H2. rewrite elem_of_app. intros [H|H]; [revert H; apply dma_left_other; auto|].
  revert H. apply extra_other; auto.
Qed.

Let size := ram_size mb.
Let zeroes := replicate (Z.to_nat size) 0.
Let h1 := snd (halloc zeroes h).

Definition with_disk : rdma_blkdev_device -> rdma_blkdev_device :=
  set_disk (re_alloc_disk env)
    (Some (mk_settings (re_major env) 0 1 lbs lbs 1024 (size / lbs) false)) (Some (mk_tag_set 1 128 0)).

(** The device after a successful load. *)
Record rdma_ready (dev : rdma_blkdev_device) : Prop := mk_rdma_ready {
  rr_region : region_wf dev (h_next h) zeroes h1;
  rr_rdma : rdma_ok env dev;
  rr_disk : exists d0, dev = with_disk d0
}.

(** The device once its memory and its RDMA objects are there. *)
Definition rdev_mem : rdma_blkdev_device := set_ram (Ptr (h_next h) 0) size rdev_zero.

Lemma ready_region d0 : same_but_rdma rdev_mem d0 ->
  forall disk s t, region_wf (set_disk disk s t d0) (h_next h) zeroes h1.
Proof.
  intros (? & ? & ? & ? & ? & ? & ->) disk s t. pose proof (u64_bound (Z.shiftl mb 20)) as Hb.
  fold (ram_size mb) in Hb. fold size in Hb. split; cbn; auto.
  - apply lookup_insert_eq.
  - unfold zeroes. rewrite zlength_replicate; int_lia.
Qed.

Lemma init_loaded : rdma_loads env mb = true ->
  exists dev, rdma_blkdev_init env mb lbs (mk_kern h l)
    = Some ((0, (re_major env, Some dev)), mk_kern h1 (rdma_loaded env dev extra l)) /\
    rdma_ready dev.
Proof.
  unfold rdma_loads. rewrite !andb_true_iff. intros [[[H1 H2] H3] H4].
  unfold rdma_blkdev_init. destruct (_ <? 0) eqn:?; [lia|]. rewrite H2. cbn [negb]. kstep.
  rewrite alloc_ramdisk_ok. rewrite (proj2 (andb_true_iff _ _) H3). cbn [negb Z.eqb]. kstep.
  fold size zeroes h1 rdev_mem.
  destruct (proj2 Hset rdev_mem h1 (KDev :: KMajor (re_major env) :: l))
    as (rc & d0 & E & Hok & Hs); auto.
  rewrite E. cbn beta iota. kstep.
  destruct (alloc_disk_ok env (re_major env) lbs d0 h1
    (rdma_held d0 ++ extra ++ KDev :: KMajor (re_major env) :: l) He Hlbs) as (rc' & s & t & E' & _).
  rewrite H4 in E'. rewrite E'. cbn beta iota.
  assert (Hz : rb_ramdisk_size d0 = size) by (destruct Hs as (? & ? & ? & ? & ? & ? & ->); auto).
  rewrite Hz. exists (with_disk d0). split; [reflexivity|]. split; [apply ready_region; auto|exact Hok|eauto].
Qed.

Lemma init_refused : rdma_loads env mb = false ->
  exists rc major k', rdma_blkdev_init env mb lbs (mk_kern h l) = Some ((rc, (major, None)), k') /\
    rc <> 0 /\ (k_res k' = l \/ exists d0, k_res k' = dma_left d0 ++ extra ++ l /\
                  rb_ramdisk_size d0 = size /\ rdma_ok env d0) /\
    h_blocks (k_heap k') = h_blocks h.
Proof.
  unfold rdma_loads, rdma_blkdev_init. intros Hl.
  destruct (Z.ltb_spec (re_major env) 0). { eexists _, _, _. split; [reflexivity|cbn; split_and!; auto; lia]. }
  assert ((0 <=? re_major env) = true) as Em by lia. rewrite Em in Hl.
  destruct (re_kzalloc env); cbn [andb negb] in *; kstep.
  2:{ eexists _, _, _. split; [reflexivity|]. auto. }
  rewrite alloc_ramdisk_ok. destruct (re_vmalloc env && _); cbn [negb andb] in *.
  2:{ change (negb (- ENOMEM =? 0)) with true. kstep. eexists _, _, _. split; [reflexivity|]. auto. }
  cbn [Z.eqb negb]. kstep.
  fold size zeroes h1 rdev_mem.
  destruct (proj2 Hset rdev_mem h1 (KDev :: KMajor (re_major env) :: l))
    as (rc & d0 & E & Hok & Hs); auto.
  rewrite E. cbn beta iota. kstep.
  destruct (alloc_disk_ok env (re_major env) lbs d0 h1
    (rdma_held d0 ++ extra ++ KDev :: KMajor (re_major env) :: l) He Hlbs) as (rc' & s & t & E' & Hrc).
  rewrite Hl in E'. rewrite E'. cbn beta iota. apply Z.eqb_neq in Hrc as Hrc'. rewrite Hrc'.
  cbn [negb]. kstep.
  use_cleanup Hok. kstep.
  edestruct free_ramdisk_ok as (d2 & E2); [| |rewrite E2].
  - destruct Hs1 as (? & ? & ? & ? & ? & ? & ->). destruct Hs as (? & ? & ? & ? & ? & ? & ->).
    reflexivity.
  - cbn. apply lookup_insert_eq.
  - kstep. rewrite app_assoc. rewrite release_under by (apply left_other; discriminate). kstep.
    rewrite release_under by (apply left_other; discriminate). kstep.
    eexists _, _, _. split; [reflexivity|]. split; [auto|]. split.
    + right. exists d0. rewrite app_assoc. split; [reflexivity|]. split; [|exact Hok].
      destruct Hs as (? & ? & ? & ? & ? & ? & ->). reflexivity.
    + cbn [k_heap]. apply hdel_halloc. auto.
Qed.

Lemma exit_loaded dev : rdma_ready dev ->
  exists k', rdma_blkdev_exit (re_major env, Some dev) (mk_kern h1 (rdma_loaded env dev extra l))
    = Some ((re_major env, None), k') /\ k_res k' = dma_left dev ++ extra ++ l /\
    h_blocks (k_heap k') = h_blocks h.
Proof.
  intros [Hr Hok (d0 & ->)]. unfold rdma_blkdev_exit, rdma_loaded. cbn [fst snd]. kstep.
  unfold with_disk at 1. rewrite free_disk_ok by auto. kstep.
  use_cleanup Hok. kstep.
  edestruct free_ramdisk_ok as (d2 & E2); [| |rewrite E2].
  - destruct Hs1 as (? & ? & ? & ? & ? & ? & ->). exact (rg_addr _ _ _ _ Hr).
  - cbn. apply lookup_insert_eq.
  - kstep. rewrite app_assoc. rewrite release_under by (apply left_other; discriminate). kstep.
    rewrite release_under by (apply left_other; discriminate). kstep.
    eexists. split; [reflexivity|]. split; [apply eq_sym, app_assoc|]. cbn [k_heap].
    apply hdel_halloc. auto.
Qed.

End Load.

Lemma setup_leaves_none env : rdma_env_ok env -> no_netdev env -> setup_leaves env [].
Proof. intros He Hn. split; [constructor|]. intros dev h l. apply setup_ok; auto. Qed.

(** References left behind when the module looks for a device by itself and
    the system has the device [d]. *)
Definition netdev_extra (env : rdma_env) (d : Z) : list kres :=
  if (0 <? s32 d) && re_kmalloc env then [KIb d; KIb d] else [KIb d].

Lemma setup_leaves_netdev env d :
  rdma_env_ok env -> re_ib_dev_name env = None -> (forall i, re_netdev env i = d) -> d <> 0 ->
  setup_leaves env (netdev_extra env d).
Proof.
  intros He En Hd Hnz. unfold netdev_extra. apply Z.eqb_neq in Hnz as Hb.
  split; [destruct (_ && _); repeat constructor; eauto|]. intros dev h l Hib Hpd Hmr.
  unfold rdma_blkdev_setup_rdma. rewrite En. unfold get_by_netdev. rewrite !Hd, Hb. kstep.
  destruct (Z.leb_spec (s32 d) 0).
  { destruct (0 <? s32 d) eqn:?; [lia|]. kstep. eexists _, _.
    split; [apply held_none; reflexivity|]. split; [left; auto|unfold same_but_rdma; eauto 10]. }
  destruct (0 <? s32 d) eqn:?; [|lia]. destruct (re_kmalloc env); cbn [negb andb]; kstep.
  2:{ exists (- ENOMEM), dev. split; [apply held_none; auto|]. split; [left; auto|].
      exists (rb_ramdisk_iova dev), 0, 0, 0, (rb_lkey dev), (rb_rkey dev).
      destruct dev; cbn in *; subst; auto. }
  destruct (Z.to_nat (s32 d)) as [|n] eqn:En'; [lia|]. cbn [netdev_loop].
  unfold get_by_netdev. rewrite Hd, Hb. kstep. rewrite Hb. cbn [negb]. kstep.
  change (KIb d :: KIb d :: KList :: KIb d :: l) with ([KIb d; KIb d] ++ KList :: KIb d :: l).
  rewrite release_under by (rewrite !elem_of_cons, elem_of_nil; intuition discriminate). kstep.
  rewrite Hb. cbn [app].
  destruct (setup_objects_ok env (set_rdma (rb_ramdisk_iova dev) d (rb_pd dev) (rb_mr dev)
    (rb_lkey dev) (rb_rkey dev) dev) h (KIb d :: KIb d :: l) He) as (rc & dev' & E & Hok & Hs); auto.
  exists rc, dev'. split; [exact E|]. split; [exact Hok|exact Hs].
Qed.

(** ** Properties *)

(** C15.  Loading and unloading the RDMA module, with a device given by name or
    with no RDMA device present, for every combination of failures and every
    block size but 0 (with which the capacity is a division by zero).  The load
    succeeds exactly when the major number, the struct, the memory and the
    gendisk are obtained: failures of the RDMA objects never make it fail and
    leave the device with all of them or none.  After a successful load the
    region is zeroed and the capacity is [size / logical_block_size].  Unloading,
    and a failed load, give back everything except in one case: a mapping at the
    DMA address 0 is kept, because the cleanup takes that address for "not
    mapped". *)
Theorem rdma_load_unload env mb lbs h l :
  rdma_env_ok env -> no_netdev env -> heap_fresh h -> lbs <> 0 ->
  if rdma_loads env mb then
    exists dev k, rdma_blkdev_init env mb lbs (mk_kern h l)
      = Some ((0, (re_major env, Some dev)), k) /\
      region_wf dev (h_next h) (replicate (Z.to_nat (ram_size mb)) 0) (k_heap k) /\
      rdma_ok env dev /\
      rb_settings dev = Some (mk_settings (re_major env) 0 1 lbs lbs 1024 (ram_size mb / lbs) false) /\
      exists k', rdma_blkdev_exit (re_major env, Some dev) k = Some ((re_major env, None), k') /\
        k_res k' = (if negb (rb_ib_dev dev =? 0) && (re_dma_map env =? 0)
                    then [KDma 0 (ram_size mb)] else []) ++ l /\
        h_blocks (k_heap k') = h_blocks h
  else
    exists rc major k, rdma_blkdev_init env mb lbs (mk_kern h l)
      = Some ((rc, (major, None)), k) /\
      rc <> 0 /\ h_blocks (k_heap k) = h_blocks h /\
      (k_res k = l \/ re_dma_map env = 0 /\ k_res k = KDma 0 (ram_size mb) :: l).
Proof.
  intros He Hn Hf Hl. pose proof (setup_leaves_none env He Hn) as Hs.
  destruct (rdma_loads env mb) eqn:E.
  - destruct (init_loaded env mb lbs h l He Hl [] Hs E) as (dev & Ei & R).
    exists dev, (mk_kern (snd (halloc (replicate (Z.to_nat (ram_size mb)) 0) h))
                   (rdma_loaded env dev [] l)).
    split; [exact Ei|]. pose proof R as [R1 R2 (d0 & R3)]. split; [exact R1|]. split; [exact R2|].
    split; [rewrite R3; reflexivity|].
    destruct (exit_loaded env mb lbs h l He Hf [] Hs dev R) as (k' & Ee & Hk & Hh).
    exists k'. split; [exact Ee|]. split; [|exact Hh]. rewrite Hk, (dma_left_eq env dev R2). cbn [app].
    replace (rb_ramdisk_size dev) with (ram_size mb); [reflexivity|].
    rewrite <- (zlength_replicate (ram_size mb) 0) by apply u64_bound. exact (rg_size _ _ _ _ R1).
  - destruct (init_refused env mb lbs h l He Hf Hl [] Hs E) as (rc & major & k & Ei & Hr & Hk & Hh).
    exists rc, major, k. split; [exact Ei|]. split; [exact Hr|]. split; [exact Hh|].
    destruct Hk as [Hk|(d0 & Hk & Hz & Hok)]; [auto|]. rewrite Hk, (dma_left_eq env d0 Hok), Hz.
    destruct (negb _); cbn [andb app]; [|auto]. destruct (Z.eqb_spec (re_dma_map env) 0); auto.
Qed.

(** Searching for a device leaks: when [ib_dev_name] is not given and the
    system has an RDMA device, the module takes up to three references to it
    and gives one back, so after loading and unloading one or two references
    are left and the RDMA device can never be removed; when the low 32 bits of
    its address are not a positive [int] the device is not even used. *)
Theorem rdma_netdev_leaks env mb lbs h l d :
  rdma_env_ok env -> heap_fresh h -> lbs <> 0 -> rdma_loads env mb = true ->
  re_ib_dev_name env = None -> (forall i, re_netdev env i = d) -> d <> 0 ->
  exists dev k k', rdma_blkdev_init env mb lbs (mk_kern h l)
      = Some ((0, (re_major env, Some dev)), k) /\
    rdma_blkdev_exit (re_major env, Some dev) k = Some ((re_major env, None), k') /\
    k_res k' = dma_left dev ++
      (if (0 <? s32 d) && re_kmalloc env then [KIb d; KIb d] else [KIb d]) ++ l.
Proof.
  intros He Hf Hl E En Hd Hnz. pose proof (setup_leaves_netdev env d He En Hd Hnz) as Hs.
  destruct (init_loaded env mb lbs h l He Hl _ Hs E) as (dev & Ei & R).
  destruct (exit_loaded env mb lbs h l He Hf _ Hs dev R) as (k' & Ee & Hk & _). eauto 10.
Qed.

(** A machine where every call succeeds; the device is found by name, and one
    where the add of the disk fails after a DMA error. *)
Definition ex_rdma_env (name : option Z) (net : Z) (dma_err : bool) (add : Z) : rdma_env :=
  mk_rdma_env 240 true true name (fun _ => net) true 11 12 77 78 4096 dma_err 8192 0 13 add.

Lemma ex_rdma_env_ok name net e add : rdma_env_ok (ex_rdma_env name net e add).
Proof. split; cbn; lia. Defined.

Lemma rdma_load_unload_witness :
  (exists dev k, rdma_blkdev_init (ex_rdma_env (Some 10) 0 false 0) 1 512 (mk_kern heap_empty [])
     = Some ((0, (240, Some dev)), k) /\ rdma_ok (ex_rdma_env (Some 10) 0 false 0) dev /\
     exists k', rdma_blkdev_exit (240, Some dev) k = Some ((240, None), k') /\ k_res k' = []) /\
  (exists rc major k, rdma_blkdev_init (ex_rdma_env (Some 10) 0 true (- EBUSY)) 1 512
       (mk_kern heap_empty []) = Some ((rc, (major, None)), k) /\ k_res k = []).
Proof.
  split.
  - destruct (rdma_load_unload (ex_rdma_env (Some 10) 0 false 0) 1 512 heap_empty []
      (ex_rdma_env_ok _ _ _ _)) as (dev & k & Ei & _ & Ho & _ & k' & Ee & Hk & _);
      [discriminate|apply heap_empty_fresh|lia|].
    exists dev, k. split; [exact Ei|]. split; [exact Ho|]. exists k'. split; [exact Ee|].
    rewrite Hk. cbn [ex_rdma_env re_dma_map]. rewrite andb_false_r. reflexivity.
  - destruct (rdma_load_unload (ex_rdma_env (Some 10) 0 true (- EBUSY)) 1 512 heap_empty []
      (ex_rdma_env_ok _ _ _ _)) as (rc & major & k & Ei & _ & _ & [Hk|[Hd _]]);
      [discriminate|apply heap_empty_fresh|lia| |discriminate Hd].
    exists rc, major, k. split; [exact Ei|exact Hk].
Defined.

Lemma rdma_netdev_leaks_witness :
  exists dev k k', rdma_blkdev_init (ex_rdma_env None 305397760 false 0) 1 512 (mk_kern heap_empty [])
      = Some ((0, (240, Some dev)), k) /\
    rdma_blkdev_exit (240, Some dev) k = Some ((240, None), k') /\
    k_res k' = dma_left dev ++ [KIb 305397760; KIb 305397760].
Proof.
  exact (rdma_netdev_leaks (ex_rdma_env None 305397760 false 0) 1 512 heap_empty [] 305397760
    (ex_rdma_env_ok _ _ _ _) heap_empty_fresh (ltac:(lia)) eq_refl eq_refl (fun i => eq_refl)
    (ltac:(lia))).
Defined.
