(* ===== verification/UrmaIo.v ===== *)
(** * The direct-I/O queue of the URMA block device (kernel-urma/urma_blkdev.c)

    Requests of an NVMe target are checked, put on a pending list, and taken
    from there by one work item that posts them to the peer's jetty.  This file
    has the structs, the operations in the pieces between which other threads
    can run, and their sequential compositions.  [None] is undefined behaviour:
    use of a freed request, or of a missing workqueue. *)

From stdpp Require Import sorting.
From S2P Require Import Prelude.
From S2P Require Import Mem.
From S2P Require Import KernelBlk.

(** ** Structs *)

Definition URMA_BLKDEV_IO_READ : Z := 1.
Definition URMA_BLKDEV_IO_WRITE : Z := 2.

Record urma_blkdev_peer : Type := mk_upeer {
  pe_eid : list Z;
  pe_jetty : Z
}.

Record urma_blkdev_io : Type := mk_uio {
  io_dir : Z;
  io_lba : Z;
  io_block_count : Z;
  io_hbm_addr : Z;
  io_hbm_token_id : Z
}.

(** A request; [ir_priv] stands for the callback and its argument. *)
Record urma_blkdev_io_req : Type := mk_ioreq {
  ir_peer : urma_blkdev_peer;
  ir_io : urma_blkdev_io;
  ir_byte_offset : Z;
  ir_local_ubva : Z;
  ir_len : Z;
  ir_wr_id : Z;
  ir_priv : Z;
  ir_ref : Z
}.

Record urma_blkdev_device : Type := mk_udev {
  ub_disk : Z;
  ub_settings : option disk_settings;
  ub_tag_set : option blk_mq_tag_set;
  ub_ramdisk_addr : ptr;
  ub_ramdisk_size : Z;
  ub_ub_dev : Z;
  ub_token_id : Z;
  ub_seg : Z;
  ub_ubva_addr : Z;
  ub_token_id_val : Z;
  ub_pending_list : list Z;
  ub_inflight_reqs : gmap Z Z;
  ub_io_wq : Z;
  ub_pending : Z;
  ub_inflight : Z;
  ub_next_wr_id : Z;
  ub_queue_depth : Z;
  ub_stopping : bool
}.

(** The device together with what lies outside the struct: the requests
    allocated, the module's reference count, the callbacks made so far
    (argument and status) and whether the work item is queued. *)
Record io_world : Type := mk_iow {
  iw_dev : urma_blkdev_device;
  iw_reqs : gmap Z urma_blkdev_io_req;
  iw_refs : Z;
  iw_log : list (Z * Z);
  iw_work : bool
}.

Definition set_queue (pl : list Z) (ir : gmap Z Z) (wq pend infl wr : Z) (stop : bool)
    (d : urma_blkdev_device) : urma_blkdev_device :=
  mk_udev (ub_disk d) (ub_settings d) (ub_tag_set d) (ub_ramdisk_addr d) (ub_ramdisk_size d)
    (ub_ub_dev d) (ub_token_id d) (ub_seg d) (ub_ubva_addr d) (ub_token_id_val d)
    pl ir wq pend infl wr (ub_queue_depth d) stop.

Definition set_pending (pl : list Z) (pend : Z) (d : urma_blkdev_device) : urma_blkdev_device :=
  set_queue pl (ub_inflight_reqs d) (ub_io_wq d) pend (ub_inflight d) (ub_next_wr_id d)
    (ub_stopping d) d.

Definition set_inflight (ir : gmap Z Z) (infl wr : Z) (d : urma_blkdev_device)
    : urma_blkdev_device :=
  set_queue (ub_pending_list d) ir (ub_io_wq d) (ub_pending d) infl wr (ub_stopping d) d.

Definition with_dev (w : io_world) (d : urma_blkdev_device) : io_world :=
  mk_iow d (iw_reqs w) (iw_refs w) (iw_log w) (iw_work w).

Definition with_work (w : io_world) (b : bool) : io_world :=
  mk_iow (iw_dev w) (iw_reqs w) (iw_refs w) (iw_log w) b.

Definition set_wr_id (id : Z) (r : urma_blkdev_io_req) : urma_blkdev_io_req :=
  mk_ioreq (ir_peer r) (ir_io r) (ir_byte_offset r) (ir_local_ubva r) (ir_len r) id (ir_priv r)
    (ir_ref r).

Definition set_ref (n : Z) (r : urma_blkdev_io_req) : urma_blkdev_io_req :=
  mk_ioreq (ir_peer r) (ir_io r) (ir_byte_offset r) (ir_local_ubva r) (ir_len r) (ir_wr_id r)
    (ir_priv r) n.

(** ** Mapping an I/O to the region *)

Definition urma_blkdev_map_io (logical_block_size : Z) (dev : option urma_blkdev_device)
    (io : option urma_blkdev_io) : mem (res (Z * Z * Z)) :=
  match dev, io with
  | Some dev, Some io =>
      if (logical_block_size =? 0) || (io_block_count io =? 0) then mret (Err (- EINVAL)) else
      q ← udiv UINT64_MAX logical_block_size;
      if io_lba io >? q then mret (Err (- EOVERFLOW)) else
      q ← udiv UINT64_MAX logical_block_size;
      if io_block_count io >? q then mret (Err (- EOVERFLOW)) else
      let offset := u64 (io_lba io * logical_block_size) in
      let bytes := u64 (io_block_count io * logical_block_size) in
      if (offset >? ub_ramdisk_size dev) || (bytes >? u64 (ub_ramdisk_size dev - offset))
      then mret (Err (- ERANGE)) else
      if bytes >? SIZE_MAX then mret (Err (- EOVERFLOW)) else
      if ub_ubva_addr dev >? u64 (UINT64_MAX - offset) then mret (Err (- EOVERFLOW)) else
      mret (Ok (offset, bytes, u64 (ub_ubva_addr dev + offset)))
  | _, _ => mret (Err (- EINVAL))
  end.

(** ** Completion and posting *)

(** The request at address [a]; [0] is [NULL]. *)
Definition urma_blkdev_req_put (w : io_world) (a : Z) : option io_world :=
  if a =? 0 then Some w else
  req ← iw_reqs w !! a;
  let n := ir_ref req - 1 in
  if n =? 0
  then Some (mk_iow (iw_dev w) (delete a (iw_reqs w)) (iw_refs w - 1) (iw_log w) (iw_work w))
  else Some (mk_iow (iw_dev w) (<[a := set_ref n req]> (iw_reqs w)) (iw_refs w) (iw_log w) (iw_work w)).

Definition urma_blkdev_done_req (w : io_world) (a status : Z) : option io_world :=
  if a =? 0 then Some w else
  req ← iw_reqs w !! a;
  urma_blkdev_req_put
    (mk_iow (iw_dev w) (iw_reqs w) (iw_refs w) (iw_log w ++ [(ir_priv req, status)]) (iw_work w)) a.

Definition urma_blkdev_post_jetty_wr (w : io_world) (a : Z) : option Z :=
  if a =? 0 then Some (- EINVAL) else
  req ← iw_reqs w !! a;
  if (ub_seg (iw_dev w) =? 0) || (pe_jetty (ir_peer req) =? 0)
  then Some (- EINVAL) else Some (- EOPNOTSUPP).

Definition urma_blkdev_pop_pending (w : io_world) : Z * io_world :=
  let d := iw_dev w in
  match ub_pending_list d with
  | [] => (0, w)
  | a :: l => (a, with_dev w (set_pending l (ub_pending d - 1) d))
  end.

(** ** The work item

    Its program points; [rc] is the result of [xa_store] at [WTrack]. *)

Inductive wphase : Type :=
| WTest
| WPop
| WTrack (a : Z)
| WInc (a : Z)
| WPost (a : Z)
| WDec (a ret : Z)
| WDone (a ret : Z)
| WEnd.

Definition work_step (rc : Z) (p : wphase) (w : io_world) : option (wphase * io_world) :=
  let d := iw_dev w in
  match p with
  | WTest =>
      if negb (ub_stopping d) && (u32 (ub_inflight d) <? ub_queue_depth d)
      then Some (WPop, w) else Some (WEnd, w)
  | WPop =>
      let '(a, w) := urma_blkdev_pop_pending w in
      if a =? 0 then Some (WEnd, w) else Some (WTrack a, w)
  | WTrack a =>
      req ← iw_reqs w !! a;
      let id := u64 (ub_next_wr_id d + 1) in
      let reqs := <[a := set_wr_id id req]> (iw_reqs w) in
      let ir := if rc =? 0 then <[id := a]> (ub_inflight_reqs d) else ub_inflight_reqs d in
      let w := mk_iow (set_inflight ir (ub_inflight d) id d) reqs (iw_refs w) (iw_log w) (iw_work w) in
      if negb (rc =? 0) then Some (WDone a rc, w) else Some (WInc a, w)
  | WInc a =>
      Some (WPost a, with_dev w (set_inflight (ub_inflight_reqs d) (ub_inflight d + 1)
                                   (ub_next_wr_id d) d))
  | WPost a =>
      ret ← urma_blkdev_post_jetty_wr w a;
      if negb (ret =? 0) then
        req ← iw_reqs w !! a;
        Some (WDec a ret, with_dev w (set_inflight (delete (ir_wr_id req) (ub_inflight_reqs d))
                                        (ub_inflight d) (ub_next_wr_id d) d))
      else Some (WTest, w)
  | WDec a ret =>
      Some (WDone a ret, with_dev w (set_inflight (ub_inflight_reqs d) (ub_inflight d - 1)
                                       (ub_next_wr_id d) d))
  | WDone a ret => w ← urma_blkdev_done_req w a ret; Some (WTest, w)
  | WEnd => Some (WEnd, w)
  end.

(** The work function without interference: [fuel] steps at most; the inner
    [None] is fuel running out.  [rcs n] is the result of the store at fuel [n]. *)
Fixpoint run_work (rcs : nat -> Z) (fuel : nat) (p : wphase) (w : io_world)
    : option (option io_world) :=
  match p, fuel with
  | WEnd, _ => Some (Some w)
  | _, O => Some None
  | _, S n => '(p, w) ← work_step (rcs n) p w; run_work rcs n p w
  end.

(** Each queued request takes seven steps, the end two. *)
Definition work_fuel (w : io_world) : nat := 7 * length (ub_pending_list (iw_dev w)) + 3.

Definition urma_blkdev_submit_workfn (rcs : nat -> Z) (w : io_world) : option (option io_world) :=
  run_work rcs (work_fuel w) WTest w.

(** ** Failing what is queued *)

(** Call every request back with [status]. *)
Fixpoint done_all (w : io_world) (l : list Z) (status : Z) : option io_world :=
  match l with
  | [] => Some w
  | a :: l' => w ← urma_blkdev_done_req w a status; done_all w l' status
  end.

Definition index_le (p q : Z * Z) : Prop := fst p <= fst q.

#[export] Instance index_le_dec p q : Decision (index_le p q).
Proof. unfold index_le. apply _. Defined.

(** The [xa_find] loop: the entries in the order of their indices. *)
Definition xa_entries (m : gmap Z Z) : list Z := snd <$> merge_sort index_le (map_to_list m).

Definition urma_blkdev_fail_queued (w : io_world) (status : Z) : option io_world :=
  let d := iw_dev w in
  let entries := xa_entries (ub_inflight_reqs d) in
  let d' := set_queue [] ∅ (ub_io_wq d) 0 (ub_inflight d - zlength entries) (ub_next_wr_id d)
              (ub_stopping d) d in
  done_all (with_dev w d') (ub_pending_list d ++ entries) status.

(** ** Submission *)

(** What the caller of [urma_blkdev_submit_nvmet_io] and the kernel provide. *)
Record submit_env : Type := mk_senv {
  se_module_get : bool;
  se_kzalloc : option Z
}.

(** Whether a device is found; the module has one.  [bdev] is [None] for
    [NULL], [Some None] without a disk, else whether [private_data] is set;
    [global] whether [urma_blkdev_dev] is. *)
Definition urma_blkdev_dev_from_bdev (bdev : option (option bool)) (global : bool) : bool :=
  match bdev with
  | Some (Some private_data) => private_data
  | _ => global
  end.

(** The checks before anything is allocated. *)
Definition submit_precheck (lbs : Z) (dev : option urma_blkdev_device)
    (peer : option urma_blkdev_peer) (io : option urma_blkdev_io) (done : bool)
    : mem (res (Z * Z * Z)) :=
  match peer, io, done with
  | Some peer, Some io, true =>
      match dev with
      | None => mret (Err (- ENODEV))
      | Some d =>
          if ub_stopping d then mret (Err (- ESHUTDOWN)) else
          if (ub_seg d =? 0) || (ub_ub_dev d =? 0) then mret (Err (- ENODEV)) else
          if ub_io_wq d =? 0 then mret (Err (- ENODEV)) else
          if pe_jetty peer =? 0 then mret (Err (- EINVAL)) else
          if negb (io_dir io =? URMA_BLKDEV_IO_READ) && negb (io_dir io =? URMA_BLKDEV_IO_WRITE)
          then mret (Err (- EINVAL)) else
          r ← urma_blkdev_map_io lbs (Some d) (Some io);
          match r with
          | Err rc => mret (Err rc)
          | Ok m => if u32 (ub_pending d + ub_inflight d) >=? ub_queue_depth d
                    then mret (Err (- EBUSY)) else mret (Ok m)
          end
      end
  | _, _, _ => mret (Err (- EINVAL))
  end.

(** The module reference and the new request. *)
Definition submit_alloc (env : submit_env) (peer : urma_blkdev_peer) (io : urma_blkdev_io)
    (m : Z * Z * Z) (priv : Z) (w : io_world) : res (Z * io_world) :=
  if negb (se_module_get env) then Err (- ENODEV) else
  match se_kzalloc env with
  | None => Err (- ENOMEM)
  | Some a =>
      let '(byte_offset, len, local_ubva) := m in
      let req := mk_ioreq peer io byte_offset local_ubva len 0 priv 1 in
      Ok (a, mk_iow (iw_dev w) (<[a := req]> (iw_reqs w)) (iw_refs w + 1) (iw_log w) (iw_work w))
  end.

(** The critical section under [pending_lock]: the code, and the new state. *)
Definition submit_enqueue (w : io_world) (a : Z) : option (Z * io_world) :=
  let d := iw_dev w in
  if ub_stopping d then w ← urma_blkdev_req_put w a; Some (- ESHUTDOWN, w) else
  if u32 (ub_pending d + ub_inflight d) >=? ub_queue_depth d
  then w ← urma_blkdev_req_put w a; Some (- EBUSY, w)
  else Some (0, with_dev w (set_pending (ub_pending_list d ++ [a]) (ub_pending d + 1) d)).

(** [queue_work]; queueing on a missing workqueue is undefined. *)
Definition submit_kick (w : io_world) : option io_world :=
  if ub_io_wq (iw_dev w) =? 0 then None else Some (with_work w true).

Definition urma_blkdev_submit_nvmet_io (env : submit_env) (lbs : Z) (bdev : option (option bool))
    (global : bool) (peer : option urma_blkdev_peer) (io : option urma_blkdev_io) (done : bool)
    (priv : Z) (w : io_world) : mem (Z * io_world) :=
  let found := urma_blkdev_dev_from_bdev bdev global in
  r ← submit_precheck lbs (if found then Some (iw_dev w) else None) peer io done;
  match r, peer, io with
  | Ok m, Some p, Some i =>
      match submit_alloc env p i m priv w with
      | Err rc => mret (rc, w)
      | Ok (a, w) =>
          '(rc, w) ← lift (submit_enqueue w a);
          if negb (rc =? 0) then mret (rc, w) else
          w ← lift (submit_kick w); mret (0, w)
      end
  | Err rc, _, _ => mret (rc, w)
  | _, _, _ => mret (- EINVAL, w)
  end.

(** ** Starting and stopping the queue *)

Definition urma_blkdev_init_io_queue (queue_depth wq : Z) (d : urma_blkdev_device)
    : Z * urma_blkdev_device :=
  let depth := if negb (queue_depth =? 0) then queue_depth else 1 in
  let d := mk_udev (ub_disk d) (ub_settings d) (ub_tag_set d) (ub_ramdisk_addr d)
    (ub_ramdisk_size d) (ub_ub_dev d) (ub_token_id d) (ub_seg d) (ub_ubva_addr d)
    (ub_token_id_val d) [] ∅ wq 0 0 0 depth false in
  if wq =? 0 then (- ENOMEM, d) else (0, d).

(** The flag is set first. *)
Definition cleanup_stop (w : io_world) : io_world :=
  let d := iw_dev w in
  with_dev w (set_queue (ub_pending_list d) (ub_inflight_reqs d) (ub_io_wq d) (ub_pending d)
                (ub_inflight d) (ub_next_wr_id d) true d).

(** [flush_workqueue]: a queued work item runs to its end. *)
Definition flush_workqueue (rcs : nat -> Z) (w : io_world) : option (option io_world) :=
  if iw_work w then urma_blkdev_submit_workfn rcs (with_work w false) else Some (Some w).

(** After the flush: fail everything; the workqueue is gone. *)
Definition cleanup_fail (w : io_world) : option io_world :=
  w ← urma_blkdev_fail_queued w (- ESHUTDOWN);
  let d := iw_dev w in
  Some (with_dev w (set_queue (ub_pending_list d) (ub_inflight_reqs d) 0 (ub_pending d)
                      (ub_inflight d) (ub_next_wr_id d) (ub_stopping d) d)).

Definition urma_blkdev_cleanup_io_queue (rcs : nat -> Z) (w : io_world) : option (option io_world) :=
  let w := cleanup_stop w in
  o ← (if ub_io_wq (iw_dev w) =? 0 then Some (Some w) else flush_workqueue rcs w);
  match o with
  | None => Some None
  | Some w => w ← cleanup_fail w; Some (Some w)
  end.

(** ** The mapping is exact *)

(** The mapping over unbounded integers. *)
Definition map_spec (lbs : Z) (d : urma_blkdev_device) (io : urma_blkdev_io) : res (Z * Z * Z) :=
  let off := io_lba io * lbs in
  let len := io_block_count io * lbs in
  if (lbs =? 0) || (io_block_count io =? 0) then Err (- EINVAL)
  else if UINT64_MAX <? off then Err (- EOVERFLOW)
  else if ub_ramdisk_size d <? off + len then Err (- ERANGE)
  else if UINT64_MAX <? ub_ubva_addr d + off then Err (- EOVERFLOW)
  else Ok (off, len, ub_ubva_addr d + off).

Definition io_typed (io : urma_blkdev_io) : Prop :=
  is_u64 (io_lba io) /\ is_u32 (io_block_count io).

Definition udev_typed (d : urma_blkdev_device) : Prop :=
  is_u64 (ub_ramdisk_size d) /\ is_u64 (ub_ubva_addr d).

Lemma map_io_eq lbs d io h :
  is_u32 lbs -> udev_typed d -> io_typed io ->
  urma_blkdev_map_io lbs (Some d) (Some io) h = Some (map_spec lbs d io, h).
Proof.
  intros Hl [Hs Hu] [Ha Hb]. unfold urma_blkdev_map_io, map_spec.
  destruct ((lbs =? 0) || _) eqn:E0; [reflexivity|].
  unfold udiv. destruct (Z.eqb_spec lbs 0); [lia|]. mstep.
  assert (Hlen : 0 <= io_block_count io * lbs <= (2 ^ 32 - 1) * (2 ^ 32 - 1)).
  { unfold is_u32 in *. split; [|apply Z.mul_le_mono_nonneg]; lia. }
  assert (Hq : (io_lba io >? UINT64_MAX / lbs) = (UINT64_MAX <? io_lba io * lbs)).
  { destruct (Z.ltb_spec UINT64_MAX (io_lba io * lbs)) as [H|H].
    - assert (UINT64_MAX / lbs < io_lba io) by (apply Z.div_lt_upper_bound; int_lia). lia.
    - assert (io_lba io <= UINT64_MAX / lbs) by (apply Z.div_le_lower_bound; int_lia). lia. }
  assert (Hq' : (io_block_count io >? UINT64_MAX / lbs) = false).
  { assert (io_block_count io <= UINT64_MAX / lbs) by (apply Z.div_le_lower_bound; int_lia).
    lia. }
  rewrite Hq. destruct (_ <? _) eqn:E1; [reflexivity|]. mstep. rewrite Hq'.
  rewrite (u64_small (io_lba io * lbs)), (u64_small (io_block_count io * lbs)) by int_lia.
  set (off := io_lba io * lbs) in *. set (len := io_block_count io * lbs) in *.
  assert (Hoff : 0 <= off) by (subst off; int_lia).
  destruct (Z.ltb_spec (ub_ramdisk_size d) (off + len)).
  { destruct (off >? _) eqn:E2; cbn [orb]; [reflexivity|].
    rewrite u64_small by int_lia. destruct (len >? _) eqn:E3; [reflexivity|lia]. }
  destruct (off >? _) eqn:E2; [lia|]. cbn [orb].
  rewrite u64_small by int_lia. destruct (len >? _) eqn:E3; [lia|].
  destruct (len >? SIZE_MAX) eqn:E4; [int_lia|].
  rewrite (u64_small (UINT64_MAX - off)) by int_lia.
  destruct (Z.ltb_spec UINT64_MAX (ub_ubva_addr d + off)).
  - destruct (_ >? UINT64_MAX - off) eqn:E5; [reflexivity|lia].
  - destruct (_ >? UINT64_MAX - off) eqn:E5; [lia|]. rewrite u64_small by int_lia. reflexivity.
Qed.

(** ** Properties *)

(** C19.  The mapping of a direct I/O equals the reference over unbounded
    integers for every logical block size, block address, block count, region
    size and base address: no product, difference or sum wraps around, no
    division by zero, and an accepted I/O lies in the region. *)
Theorem urma_map_io_exact lbs d io h :
  is_u32 lbs -> udev_typed d -> io_typed io ->
  urma_blkdev_map_io lbs (Some d) (Some io) h = Some (map_spec lbs d io, h) /\
  (forall off len ubva, map_spec lbs d io = Ok (off, len, ubva) ->
     0 <= off /\ 0 < len /\ off + len <= ub_ramdisk_size d /\ ubva <= UINT64_MAX).
Proof.
  intros Hl Hd Hi. split; [apply map_io_eq; auto|]. destruct Hi as [Ha Hb].
  intros off len ubva. unfold map_spec. repeat case_if; try discriminate. intros [= <- <- <-].
  assert (0 <= io_lba io * lbs) by (apply Z.mul_nonneg_nonneg; int_lia).
  assert (0 < io_block_count io * lbs) by (apply Z.mul_pos_pos; int_lia). lia.
Qed.

(** A device with 4096 bytes. *)
Definition ex_map_dev : urma_blkdev_device :=
  mk_udev 0 None None (Ptr 1 0) 4096 6 5 5 1048576 7 [] ∅ 9 0 0 0 2 false.

Lemma ex_map_dev_typed : udev_typed ex_map_dev.
Proof. unfold udev_typed, ex_map_dev. cbn [ub_ramdisk_size ub_ubva_addr]. int_lia. Defined.

Lemma urma_map_io_exact_witness :
  urma_blkdev_map_io 512 (Some ex_map_dev) (Some (mk_uio 1 2 6 0 0)) heap_empty
  = Some (Ok (1024, 3072, 1049600), heap_empty) /\
  urma_blkdev_map_io 512 (Some ex_map_dev) (Some (mk_uio 1 (2 ^ 63) 6 0 0)) heap_empty
  = Some (Err (- EOVERFLOW), heap_empty).
Proof.
  split.
  - rewrite (proj1 (urma_map_io_exact 512 ex_map_dev (mk_uio 1 2 6 0 0) heap_empty ltac:(int_lia)
      ex_map_dev_typed ltac:(unfold io_typed; cbn [io_lba io_block_count]; int_lia))). reflexivity.
  - rewrite (proj1 (urma_map_io_exact 512 ex_map_dev (mk_uio 1 (2 ^ 63) 6 0 0) heap_empty
      ltac:(int_lia) ex_map_dev_typed
      ltac:(unfold io_typed; cbn [io_lba io_block_count]; int_lia))). reflexivity.
Defined.
