(* ===== verification/UrmaIoSys.v ===== *)
(** * Interleavings of the URMA block device's direct-I/O queue

    Any number of submitting threads against the work item and the stop of the
    queue, as a transition system whose steps are the pieces of [UrmaIo].  The
    system remembers the callback arguments of the requests accepted so far, in
    the order in which they entered the pending list. *)

From stdpp Require Import sorting.
From S2P Require Import Prelude.
From S2P Require Import Mem.
From S2P Require Import KernelBlk.
From S2P Require Import UrmaIo.

(** Where a submitting thread is, after its first checks. *)
Inductive sphase : Type :=
| SAlloc (peer : urma_blkdev_peer) (io : urma_blkdev_io) (m : Z * Z * Z) (priv : Z)
| SEnq (a priv : Z)
| SKick.

Record iosys : Type := mk_iosys {
  is_w : io_world;
  is_wk : wphase;
  is_sub : gmap Z sphase;
  is_acc : list Z
}.

Inductive ioact : Type :=
| ISubmit (t : Z) (lbs : Z) (peer : urma_blkdev_peer) (io : urma_blkdev_io) (priv : Z)
| IAlloc (t : Z) (env : submit_env)
| IEnqueue (t : Z)
| IKick (t : Z)
| IWorkStart
| IWork (rc : Z)
| IStop
| IFail.

Inductive ioout : Type :=
| IBlocked
| IUb
| INext (s : iosys).

Definition of_opt {A} (o : option A) (k : A -> ioout) : ioout :=
  match o with None => IUb | Some a => k a end.

(** One step.  A thread that fails a check returns to its caller; an allocation
    does not return an address in use. *)
Definition io_step (c : ioact) (s : iosys) : ioout :=
  let w := is_w s in
  let sub := is_sub s in
  match c with
  | ISubmit t lbs peer io priv =>
      if bool_decide (is_Some (sub !! t)) then IBlocked else
      match submit_precheck lbs (Some (iw_dev w)) (Some peer) (Some io) true heap_empty with
      | None => IUb
      | Some (Err _, _) => INext s
      | Some (Ok m, _) =>
          INext (mk_iosys w (is_wk s) (<[t := SAlloc peer io m priv]> sub) (is_acc s))
      end
  | IAlloc t env =>
      match sub !! t with
      | Some (SAlloc peer io m priv) =>
          if match se_kzalloc env with
             | Some a => (a =? 0) || bool_decide (is_Some (iw_reqs w !! a))
             | None => false
             end then IBlocked else
          match submit_alloc env peer io m priv w with
          | Err _ => INext (mk_iosys w (is_wk s) (delete t sub) (is_acc s))
          | Ok (a, w') => INext (mk_iosys w' (is_wk s) (<[t := SEnq a priv]> sub) (is_acc s))
          end
      | _ => IBlocked
      end
  | IEnqueue t =>
      match sub !! t with
      | Some (SEnq a priv) =>
          of_opt (submit_enqueue w a) (fun '(rc, w') =>
            if negb (rc =? 0) then INext (mk_iosys w' (is_wk s) (delete t sub) (is_acc s))
            else INext (mk_iosys w' (is_wk s) (<[t := SKick]> sub) (is_acc s ++ [priv])))
      | _ => IBlocked
      end
  | IKick t =>
      match sub !! t with
      | Some SKick =>
          of_opt (submit_kick w) (fun w' =>
            INext (mk_iosys w' (is_wk s) (delete t sub) (is_acc s)))
      | _ => IBlocked
      end
  | IWorkStart =>
      match is_wk s with
      | WEnd => if iw_work w
                then INext (mk_iosys (with_work w false) WTest sub (is_acc s)) else IBlocked
      | _ => IBlocked
      end
  | IWork rc =>
      match is_wk s with
      | WEnd => IBlocked
      | p => of_opt (work_step rc p w) (fun '(p', w') => INext (mk_iosys w' p' sub (is_acc s)))
      end
  | IStop => INext (mk_iosys (cleanup_stop w) (is_wk s) sub (is_acc s))
  | IFail =>
      match is_wk s with
      | WEnd =>
          if iw_work w || negb (ub_stopping (iw_dev w)) then IBlocked else
          of_opt (cleanup_fail w) (fun w' => INext (mk_iosys w' WEnd sub (is_acc s)))
      | _ => IBlocked
      end
  end.

(** A caller keeps the module loaded while it is inside, so the workqueue is
    destroyed only when no thread submits. *)
Definition io_allowed (c : ioact) (s : iosys) : Prop :=
  match c with
  | ISubmit _ lbs _ io _ => is_u32 lbs /\ io_typed io
  | IFail => is_sub s = ∅
  | _ => True
  end.

Inductive io_reachable (s0 : iosys) : iosys -> Prop :=
| io_here : io_reachable s0 s0
| io_next c s s' :
    io_reachable s0 s -> io_allowed c s -> io_step c s = INext s' -> io_reachable s0 s'.

(** ** The invariant *)

(** The request the work item holds. *)
Definition held (p : wphase) : list Z :=
  match p with
  | WTrack a | WInc a | WPost a | WDec a _ | WDone a _ => [a]
  | _ => []
  end.

Definition has_priv (reqs : gmap Z urma_blkdev_io_req) (a v : Z) : Prop :=
  exists r, reqs !! a = Some r /\ ir_priv r = v.

(** The counter and the table of requests in flight at each point. *)
Definition inflight_ok (w : io_world) (p : wphase) : Prop :=
  let d := iw_dev w in
  match p with
  | WInc a => ub_inflight d = 0 /\ exists r, iw_reqs w !! a = Some r /\
      ub_inflight_reqs d = {[ir_wr_id r := a]}
  | WPost a => ub_inflight d = 1 /\ exists r, iw_reqs w !! a = Some r /\
      ub_inflight_reqs d = {[ir_wr_id r := a]}
  | WDec a ret => ub_inflight d = 1 /\ ub_inflight_reqs d = ∅ /\ ret <> 0
  | WDone a ret => ub_inflight d = 0 /\ ub_inflight_reqs d = ∅ /\ ret <> 0
  | _ => ub_inflight d = 0 /\ ub_inflight_reqs d = ∅
  end.

Record io_inv (base : Z) (s : iosys) : Prop := mk_io_inv {
  iv_pending : ub_pending (iw_dev (is_w s)) = zlength (ub_pending_list (iw_dev (is_w s)));
  iv_depth : 1 <= ub_queue_depth (iw_dev (is_w s)) < 2 ^ 31;
  iv_bound : zlength (ub_pending_list (iw_dev (is_w s))) <= ub_queue_depth (iw_dev (is_w s));
  iv_typed : udev_typed (iw_dev (is_w s));
  iv_nodup : NoDup (held (is_wk s) ++ ub_pending_list (iw_dev (is_w s)));
  iv_fifo : exists l, Forall2 (has_priv (iw_reqs (is_w s)))
      (held (is_wk s) ++ ub_pending_list (iw_dev (is_w s))) l /\
    is_acc s = (iw_log (is_w s)).*1 ++ l;
  iv_log : Forall (fun e => snd e <> 0) (iw_log (is_w s));
  iv_inflight : inflight_ok (is_w s) (is_wk s);
  iv_reqs : forall a r, iw_reqs (is_w s) !! a = Some r ->
    a <> 0 /\ ir_ref r = 1 /\
    ((a ∈ held (is_wk s) ++ ub_pending_list (iw_dev (is_w s))) \/
     exists t v, is_sub s !! t = Some (SEnq a v));
  iv_enq : forall t a v, is_sub s !! t = Some (SEnq a v) ->
    has_priv (iw_reqs (is_w s)) a v /\
    (a ∉ held (is_wk s) ++ ub_pending_list (iw_dev (is_w s))) /\
    forall t' v', is_sub s !! t' = Some (SEnq a v') -> t' = t;
  iv_refs : iw_refs (is_w s) = base + Z.of_nat (size (iw_reqs (is_w s)));
  iv_wq : ub_stopping (iw_dev (is_w s)) = false \/ is_sub s <> ∅ ->
    ub_io_wq (iw_dev (is_w s)) <> 0;
  iv_wake : ub_pending_list (iw_dev (is_w s)) <> [] ->
    ub_stopping (iw_dev (is_w s)) = false ->
    iw_work (is_w s) = true \/ is_wk s <> WEnd \/ exists t, is_sub s !! t = Some SKick
}.

(** What a step must do. *)
Definition io_keeps (base : Z) (c : ioact) (s : iosys) : Prop :=
  io_step c s = IBlocked \/ exists s', io_step c s = INext s' /\ io_inv base s'.

(** ** Completing requests *)

Lemma done_one w a r status :
  iw_reqs w !! a = Some r -> a <> 0 -> ir_ref r = 1 ->
  urma_blkdev_done_req w a status
  = Some (mk_iow (iw_dev w) (delete a (iw_reqs w)) (iw_refs w - 1)
            (iw_log w ++ [(ir_priv r, status)]) (iw_work w)).
Proof.
  intros Hr Hn Hc. unfold urma_blkdev_done_req, urma_blkdev_req_put.
  apply Z.eqb_neq in Hn. rewrite Hn, Hr. cbn. rewrite Hr. cbn. rewrite Hc. reflexivity.
Qed.

Lemma put_one w a r :
  iw_reqs w !! a = Some r -> a <> 0 -> ir_ref r = 1 ->
  urma_blkdev_req_put w a
  = Some (mk_iow (iw_dev w) (delete a (iw_reqs w)) (iw_refs w - 1) (iw_log w) (iw_work w)).
Proof.
  intros Hr Hn Hc. unfold urma_blkdev_req_put.
  apply Z.eqb_neq in Hn. rewrite Hn, Hr. cbn. rewrite Hc. reflexivity.
Qed.

Lemma has_priv_delete reqs a b v : a <> b -> has_priv reqs b v -> has_priv (delete a reqs) b v.
Proof. intros Hn (r & Hr & E). exists r. rewrite lookup_delete_ne; auto. Qed.

Lemma Forall2_priv_delete reqs a l vs :
  a ∉ l -> Forall2 (has_priv reqs) l vs -> Forall2 (has_priv (delete a reqs)) l vs.
Proof.
  intros Hn H. induction H as [|b v l vs Hb H IH]; constructor.
  - apply has_priv_delete; auto. intros ->. apply Hn. left.
  - apply IH. intros Hin. apply Hn. right. auto.
Qed.

Lemma size_delete (reqs : gmap Z urma_blkdev_io_req) a r :
  reqs !! a = Some r -> Z.of_nat (size (delete a reqs)) = Z.of_nat (size reqs) - 1.
Proof.
  intros Hr. pose proof (map_size_delete_Some (M := gmap Z) a reqs (mk_is_Some _ _ Hr)).
  assert (size reqs <> 0)%nat by (apply map_size_non_empty_iff; intros ->; rewrite lookup_empty in Hr; discriminate).
  lia.
Qed.

(** Calling back a list of requests frees exactly them. *)
Lemma done_all_ok status l : forall vs w,
  NoDup l -> Forall2 (has_priv (iw_reqs w)) l vs ->
  (forall a r, iw_reqs w !! a = Some r -> a <> 0 /\ ir_ref r = 1) ->
  exists reqs', done_all w l status
    = Some (mk_iow (iw_dev w) reqs' (iw_refs w - zlength l)
              (iw_log w ++ ((fun v => (v, status)) <$> vs)) (iw_work w)) /\
    (forall a, a ∈ l -> reqs' !! a = None) /\
    (forall a, a ∉ l -> reqs' !! a = iw_reqs w !! a) /\
    Z.of_nat (size reqs') = Z.of_nat (size (iw_reqs w)) - zlength l.
Proof.
  induction l as [|a l IH]; intros vs w N F R.
  { inversion F; subst. exists (iw_reqs w). change (zlength (@nil Z)) with 0.
    rewrite Z.sub_0_r. cbn [fmap list_fmap done_all]. rewrite app_nil_r.
    split_and!; auto; [destruct w; auto|intros a Ha; apply not_elem_of_nil in Ha; tauto|lia]. }
  apply NoDup_cons in N as [Na N]. inversion F as [|a' v l' vs' (r & Hr & <-) F' E1 E2]; subst.
  destruct (R a r Hr) as [Hn Hc]. cbn [done_all]. rewrite (done_one w a r) by auto. cbn.
  edestruct (IH vs' (mk_iow (iw_dev w) (delete a (iw_reqs w)) (iw_refs w - 1)
                       (iw_log w ++ [(ir_priv r, status)]) (iw_work w)))
    as (reqs' & E & Hd & Hk & Hz); cbn [iw_reqs]; auto using Forall2_priv_delete.
  { intros b rb Hb. apply lookup_delete_Some in Hb as [_ Hb]. eauto. }
  cbn [iw_reqs iw_dev iw_refs iw_log iw_work] in *.
  exists reqs'. split_and!.
  - rewrite E. f_equal. f_equal; [|rewrite <- app_assoc; auto].
    unfold zlength. cbn [length]. lia.
  - intros b Hb. apply elem_of_cons in Hb as [->|Hb]; auto.
    rewrite Hk by auto. apply lookup_delete_eq.
  - intros b Hb. apply not_elem_of_cons in Hb as [Hb1 Hb2]. rewrite Hk by auto.
    apply lookup_delete_ne. auto.
  - rewrite Hz. erewrite size_delete by eauto. unfold zlength. cbn [length]. lia.
Qed.

Lemma xa_entries_empty : xa_entries ∅ = [].
Proof. reflexivity. Qed.

(** ** Each step keeps the invariant *)

#[local] Ltac open_inv I :=
  destruct I as [Pd Dp Bd Ty Nd Ff Lg If Rq En Rf Wq Wk]; cbn [is_w is_wk is_sub is_acc] in *.

(** The submitters change without touching what waits to be queued. *)
Lemma io_inv_sub base w p sub sub' acc :
  io_inv base (mk_iosys w p sub acc) ->
  (forall t a v, sub' !! t = Some (SEnq a v) <-> sub !! t = Some (SEnq a v)) ->
  (forall t, sub !! t = Some SKick -> sub' !! t = Some SKick) ->
  (sub' <> ∅ -> ub_io_wq (iw_dev w) <> 0) ->
  io_inv base (mk_iosys w p sub' acc).
Proof.
  intros I He Hk Hw. open_inv I. split; cbn [is_w is_wk is_sub is_acc]; auto.
  - intros a r Hr. destruct (Rq a r Hr) as (? & ? & [?|(t & v & Ht)]); split_and!; auto.
    right. exists t, v. apply He; auto.
  - intros t a v Ht. apply He in Ht. destruct (En t a v Ht) as (? & ? & Hu). split_and!; auto.
    intros t' v' Ht'. apply He in Ht'. eauto.
  - intros [?|?]; auto.
  - intros Hp Hs. destruct (Wk Hp Hs) as [?|[?|(t & Ht)]]; eauto.
Qed.

Lemma precheck_total lbs d peer io h :
  is_u32 lbs -> udev_typed d -> io_typed io ->
  exists r, submit_precheck lbs (Some d) (Some peer) (Some io) true h = Some (r, h) /\
    (forall m, r = Ok m -> ub_stopping d = false /\ map_spec lbs d io = Ok m).
Proof.
  intros Hl Hd Hi. unfold submit_precheck.
  repeat (case_if; [eexists; split; [reflexivity|discriminate]|]).
  mstep. rewrite map_io_eq by auto. destruct (map_spec lbs d io) as [m|rc] eqn:Em.
  - case_if; eexists; (split; [reflexivity|]); [discriminate|]. intros m' [= <-]. auto.
  - eexists. split; [reflexivity|discriminate].
Qed.

Section Steps.
Context (base : Z) (s : iosys) (I : io_inv base s).

Lemma keeps_isubmit t lbs peer io priv :
  is_u32 lbs -> io_typed io -> io_keeps base (ISubmit t lbs peer io priv) s.
Proof.
  intros Hl Hi. unfold io_keeps. cbn [io_step]. destruct (bool_decide _) eqn:Et; [auto|].
  apply bool_decide_eq_false in Et. right.
  assert (Hnone : is_sub s !! t = None) by (destruct (is_sub s !! t) eqn:E; auto; destruct Et; eauto).
  destruct (precheck_total lbs (iw_dev (is_w s)) peer io heap_empty Hl (iv_typed _ _ I) Hi)
    as (r & E & Hr). rewrite E. destruct r as [m|rc]; [|eauto].
  destruct (Hr m eq_refl) as [Hs _]. eexists. split; [reflexivity|].
  apply (io_inv_sub base _ _ (is_sub s)); [destruct s; exact I| | |].
  - intros t' a v. destruct (decide (t' = t)) as [->|]; [rewrite lookup_insert_eq, Hnone|rewrite lookup_insert_ne by auto]; intuition discriminate.
  - intros t' Ht'. rewrite lookup_insert_ne; auto. intros ->. congruence.
  - intros _. apply (iv_wq _ _ I). auto.
Qed.

Lemma sub_nonempty (sub : gmap Z sphase) t p : sub !! t = Some p -> sub <> ∅.
Proof. intros H ->. rewrite lookup_empty in H. discriminate. Qed.

(** Removing a thread that neither waits to queue nor to kick. *)
Lemma inv_forget t p0 :
  is_sub s !! t = Some p0 -> (forall a v, p0 <> SEnq a v) -> p0 <> SKick ->
  io_inv base (mk_iosys (is_w s) (is_wk s) (delete t (is_sub s)) (is_acc s)).
Proof.
  intros Ht Hne Hnk. apply (io_inv_sub base _ _ (is_sub s)); [destruct s; exact I| | |].
  - intros t' a v. rewrite lookup_delete_Some. split; [tauto|]. intros H. split; auto.
    intros ->. rewrite Ht in H. injection H as ->. destruct (Hne a v). auto.
  - intros t' H. rewrite lookup_delete_ne; auto. intros ->. congruence.
  - intros _. apply (iv_wq _ _ I). right. eapply sub_nonempty; eauto.
Qed.

Lemma keeps_ialloc t env : io_keeps base (IAlloc t env) s.
Proof.
  unfold io_keeps. cbn [io_step]. destruct (is_sub s !! t) as [[peer io m priv| |]|] eqn:Et; auto.
  destruct (match se_kzalloc env with Some _ => _ | None => _ end) eqn:Ea; [auto|]. right.
  unfold submit_alloc. destruct (se_module_get env); cbn [negb].
  2:{ eexists. split; [reflexivity|]. eapply inv_forget; eauto; discriminate. }
  destruct (se_kzalloc env) as [a|].
  2:{ eexists. split; [reflexivity|]. eapply inv_forget; eauto; discriminate. }
  apply orb_false_iff in Ea as [Ha0 Ha]. apply bool_decide_eq_false in Ha.
  assert (Hnone : iw_reqs (is_w s) !! a = None) by (destruct (iw_reqs (is_w s) !! a) eqn:E; auto; destruct Ha; eauto).
  destruct m as [[off len] ubva]. eexists. split; [reflexivity|].
  assert (Hp : forall b v, has_priv (iw_reqs (is_w s)) b v -> b <> a) by (intros b v (r & Hr & _) ->; congruence).
  open_inv I. split; cbn [is_w is_wk is_sub is_acc iw_dev iw_reqs iw_refs iw_log iw_work]; auto.
  - destruct Ff as (l & Fl & El). exists l. split; auto.
    eapply Forall2_impl; eauto. intros b v Hb. pose proof (Hp _ _ Hb). destruct Hb as (r & Hr & E).
    exists r. rewrite lookup_insert_ne; auto.
  - unfold inflight_ok in *. cbn [iw_dev iw_reqs]. destruct (is_wk s); auto;
      destruct If as (? & r & Hr & ?); (split; auto); exists r; rewrite lookup_insert_ne by congruence; auto.
  - intros b r Hb. apply lookup_insert_Some in Hb as [[<- <-]|[Hne Hb]].
    + split_and!; auto; [lia|]. right. exists t, priv. apply lookup_insert_eq.
    + destruct (Rq b r Hb) as (? & ? & [?|(t' & v & Ht')]); split_and!; auto.
      right. exists t', v. rewrite lookup_insert_ne; auto. intros ->. congruence.
  - intros t' b v Hb. apply lookup_insert_Some in Hb as [[<- [= <- <-]]|[Hne Hb]].
    + split_and!.
      * eexists. split; [apply lookup_insert_eq|reflexivity].
      * intros Hin. destruct Ff as (l & Fl & _). apply list_elem_of_lookup in Hin as (i & Hi).
        destruct (Forall2_lookup_l _ _ _ _ _ Fl Hi) as (v & _ & Hv). eapply Hp; eauto.
      * intros t' v' Ht'. apply lookup_insert_Some in Ht' as [[<- _]|[_ Ht']]; auto.
        destruct (En _ _ _ Ht') as (Hv & _). destruct (Hp _ _ Hv). auto.
    + destruct (En _ _ _ Hb) as (Hv & ? & Hu). pose proof (Hp _ _ Hv). split_and!; auto.
      * destruct Hv as (r & Hr & E). exists r. rewrite lookup_insert_ne; auto.
      * intros t'' v' Ht''. apply lookup_insert_Some in Ht'' as [[<- [= <- <-]]|[_ ?]]; [|eauto].
        destruct (Hp _ _ Hv). auto.
  - rewrite map_size_insert_None by auto. lia.
  - intros [?|?]; [auto|]. apply Wq. right. eapply sub_nonempty; eauto.
  - intros Hpl Hs. destruct (Wk Hpl Hs) as [?|[?|(t' & Ht')]]; eauto. right. right.
    exists t'. rewrite lookup_insert_ne; auto. intros ->. congruence.
Qed.

(** A request that was not queued is freed again. *)
Lemma inv_unqueue t a priv :
  is_sub s !! t = Some (SEnq a priv) ->
  exists w', urma_blkdev_req_put (is_w s) a = Some w' /\
    io_inv base (mk_iosys w' (is_wk s) (delete t (is_sub s)) (is_acc s)).
Proof.
  intros Et. open_inv I. destruct (En _ _ _ Et) as ((r & Hr & Ev) & Hnin & Hu).
  destruct (Rq a r Hr) as (Ha & Hc & _). rewrite (put_one _ _ r) by auto.
  eexists. split; [reflexivity|].
  split; cbn [is_w is_wk is_sub is_acc iw_dev iw_reqs iw_refs iw_log iw_work]; auto.
  - destruct Ff as (l & Fl & El). eauto using Forall2_priv_delete.
  - unfold inflight_ok in *. cbn [iw_dev iw_reqs]. destruct (is_wk s) as [| |b|b|b|b ret|b ret|]; auto;
      destruct If as (? & rb & Hrb & ?); (split; auto); exists rb;
      (rewrite lookup_delete_ne; [auto|]); intros ->; apply Hnin; left.
  - intros b rb Hb. apply lookup_delete_Some in Hb as [Hne Hb].
    destruct (Rq b rb Hb) as (? & ? & [?|(t' & v & Ht')]); split_and!; auto.
    right. exists t', v. rewrite lookup_delete_ne; auto. intros <-. congruence.
  - intros t' b v Hb. apply lookup_delete_Some in Hb as [Hne Hb].
    destruct (En _ _ _ Hb) as (Hv & ? & Hu'). split_and!; auto.
    + apply has_priv_delete; auto. intros <-. apply Hne. symmetry. eauto.
    + intros t'' v' Ht''. apply lookup_delete_Some in Ht'' as [_ Ht'']. eauto.
  - erewrite size_delete by eauto. lia.
  - intros [?|?]; [auto|]. apply Wq. right. eapply sub_nonempty; eauto.
  - intros Hpl Hs. destruct (Wk Hpl Hs) as [?|[?|(t' & Ht')]]; eauto. right. right.
    exists t'. rewrite lookup_delete_ne; auto. intros <-. congruence.
Qed.

Lemma keeps_ienqueue t : io_keeps base (IEnqueue t) s.
Proof.
  unfold io_keeps. cbn [io_step]. destruct (is_sub s !! t) as [[|a priv|]|] eqn:Et; auto. right.
  destruct (inv_unqueue t a priv Et) as (w' & Ew & Iw). unfold submit_enqueue.
  destruct (ub_stopping (iw_dev (is_w s))) eqn:Est.
  { rewrite Ew. cbn. eauto. }
  destruct (_ >=? _) eqn:Ed.
  { rewrite Ew. cbn. eauto. }
  cbn [of_opt]. eexists. split; [reflexivity|]. clear w' Ew Iw.
  assert (Hin : 0 <= ub_inflight (iw_dev (is_w s)) <= 1).
  { pose proof (iv_inflight _ _ I) as If. unfold inflight_ok in If. destruct (is_wk s); lia. }
  open_inv I. destruct (En _ _ _ Et) as (Hv & Hnin & Hu).
  rewrite Pd in Ed. pose proof (zlength_nonneg (ub_pending_list (iw_dev (is_w s)))).
  rewrite u32_small in Ed by int_lia.
  assert (Hz : zlength (ub_pending_list (iw_dev (is_w s)) ++ [a])
             = zlength (ub_pending_list (iw_dev (is_w s))) + 1) by (rewrite zlength_app; reflexivity).
  split; cbn [is_w is_wk is_sub is_acc iw_dev iw_reqs iw_refs iw_log iw_work with_dev set_pending
      set_queue ub_pending ub_pending_list ub_queue_depth ub_inflight ub_stopping ub_io_wq]; auto.
  - lia.
  - lia.
  - rewrite app_assoc. apply NoDup_app. split_and!; auto; [|apply NoDup_singleton].
    intros b Hb Hb'. apply list_elem_of_singleton in Hb' as ->. auto.
  - destruct Ff as (l & Fl & El). exists (l ++ [priv]). rewrite app_assoc. split.
    + apply Forall2_app; auto.
    + rewrite El, <- app_assoc. auto.
  - intros b r Hb. destruct (Rq b r Hb) as (? & ? & [?|(t' & v & Ht')]); split_and!; auto.
    + left. rewrite app_assoc. apply elem_of_app. auto.
    + destruct (decide (t' = t)) as [->|].
      * left. rewrite Et in Ht'. injection Ht' as <- <-. rewrite app_assoc. apply elem_of_app. right. left.
      * right. exists t', v. rewrite lookup_insert_ne; auto.
  - intros t' b v Hb. apply lookup_insert_Some in Hb as [[_ ?]|[Hne Hb]]; [discriminate|].
    destruct (En _ _ _ Hb) as (? & Hn' & Hu'). split_and!; auto.
    + rewrite app_assoc, elem_of_app. intros [?|Hb']; [auto|].
      apply list_elem_of_singleton in Hb' as ->. apply Hne. eauto.
    + intros t'' v' Ht''. apply lookup_insert_Some in Ht'' as [[_ ?]|[_ Ht'']]; [discriminate|eauto].
  - intros _ _. right. right. exists t. apply lookup_insert_eq.
Qed.

Lemma keeps_ikick t : io_keeps base (IKick t) s.
Proof.
  unfold io_keeps. cbn [io_step]. destruct (is_sub s !! t) as [[|?|]|] eqn:Et; auto. right.
  unfold submit_kick. open_inv I.
  destruct (Z.eqb_spec (ub_io_wq (iw_dev (is_w s))) 0) as [Hz|Hz].
  { destruct Wq; auto. right. eapply sub_nonempty; eauto. }
  cbn [of_opt]. eexists. split; [reflexivity|].
  split; cbn [is_w is_wk is_sub is_acc iw_dev iw_reqs iw_refs iw_log iw_work with_work]; auto.
  - intros b r Hb. destruct (Rq b r Hb) as (? & ? & [?|(t' & v & Ht')]); split_and!; auto.
    right. exists t', v. rewrite lookup_delete_ne; auto. intros <-. congruence.
  - intros t' b v Hb. apply lookup_delete_Some in Hb as [Hne Hb].
    destruct (En _ _ _ Hb) as (? & ? & Hu). split_and!; auto.
    intros t'' v' Ht''. apply lookup_delete_Some in Ht'' as [_ Ht'']. eauto.
Qed.

Lemma keeps_iworkstart : io_keeps base IWorkStart s.
Proof.
  unfold io_keeps. cbn [io_step]. destruct (is_wk s) eqn:Ep; auto.
  destruct (iw_work (is_w s)) eqn:Ew; auto. right. eexists. split; [reflexivity|].
  open_inv I. rewrite Ep in *.
  split; cbn [is_w is_wk is_sub is_acc iw_dev iw_reqs iw_refs iw_log iw_work with_work held]; auto.
Qed.

Lemma keeps_istop : io_keeps base IStop s.
Proof.
  right. cbn [io_step]. eexists. split; [reflexivity|]. open_inv I.
  split; cbn [is_w is_wk is_sub is_acc iw_dev iw_reqs iw_refs iw_log iw_work with_dev cleanup_stop
      set_queue ub_pending ub_pending_list ub_queue_depth ub_stopping ub_io_wq]; auto.
  intros [?|?]; [discriminate|]. auto.
Qed.

(** Failing everything, with no thread inside. *)
Lemma cleanup_fail_eq : is_wk s = WEnd -> is_sub s = ∅ ->
  exists l, Forall2 (has_priv (iw_reqs (is_w s))) (ub_pending_list (iw_dev (is_w s))) l /\
    is_acc s = (iw_log (is_w s)).*1 ++ l /\
    cleanup_fail (is_w s) = Some (mk_iow
      (set_queue [] ∅ 0 0 0 (ub_next_wr_id (iw_dev (is_w s))) (ub_stopping (iw_dev (is_w s)))
         (iw_dev (is_w s)))
      ∅ base (iw_log (is_w s) ++ ((fun v => (v, - ESHUTDOWN)) <$> l)) (iw_work (is_w s))).
Proof.
  intros Ep Hsub. open_inv I. rewrite Ep in *. cbn [held app] in *.
  unfold cleanup_fail, urma_blkdev_fail_queued. destruct If as [If1 If2].
  rewrite If2, If1, xa_entries_empty. change (0 - zlength (@nil Z)) with 0.
  rewrite app_nil_r. destruct Ff as (l & Fl & El).
  edestruct (done_all_ok (- ESHUTDOWN) (ub_pending_list (iw_dev (is_w s))) l
    (with_dev (is_w s) (set_queue [] ∅ (ub_io_wq (iw_dev (is_w s))) 0 0
       (ub_next_wr_id (iw_dev (is_w s))) (ub_stopping (iw_dev (is_w s))) (iw_dev (is_w s)))))
    as (reqs' & E & Hd & Hk & Hz); auto.
  { intros a r Hr. cbn in Hr. destruct (Rq a r Hr) as (? & ? & _). auto. }
  rewrite E. cbn [with_dev iw_reqs iw_dev iw_refs iw_log iw_work] in *.
  exists l. split; [auto|]. split; [auto|].
  assert (reqs' = ∅) as ->.
  { apply map_empty. intros a.
    destruct (decide (a ∈ ub_pending_list (iw_dev (is_w s)))); [auto|].
    rewrite Hk by auto. destruct (iw_reqs (is_w s) !! a) as [r|] eqn:Er; auto.
    destruct (Rq a r Er) as (_ & _ & [?|(t & v & Ht)]); [tauto|].
    rewrite Hsub, lookup_empty in Ht. discriminate. }
  rewrite map_size_empty in Hz. cbn [mbind option_bind].
  replace (iw_refs (is_w s) - zlength (ub_pending_list (iw_dev (is_w s)))) with base by lia.
  reflexivity.
Qed.

Lemma keeps_ifail : is_sub s = ∅ -> io_keeps base IFail s.
Proof.
  intros Hsub. unfold io_keeps. cbn [io_step]. destruct (is_wk s) eqn:Ep; auto.
  destruct (iw_work (is_w s) || _) eqn:Ew; auto. right. apply orb_false_iff in Ew as [Ew Est].
  apply negb_false_iff in Est.
  destruct (cleanup_fail_eq Ep Hsub) as (l & Fl & Ea & ->). cbn [of_opt].
  eexists. split; [reflexivity|]. open_inv I. rewrite Ep in *. cbn [held app] in *.
  split; cbn [is_w is_wk is_sub is_acc iw_dev iw_reqs iw_refs iw_log iw_work held app
      set_queue ub_pending ub_pending_list ub_queue_depth ub_stopping ub_io_wq]; auto.
  - change (zlength (@nil Z)) with 0. lia.
  - constructor.
  - exists []. split; [constructor|]. rewrite Ea, app_nil_r, fmap_app, <- list_fmap_compose.
    f_equal. symmetry. apply list_fmap_id.
  - apply Forall_app. split; auto. apply Forall_fmap, Forall_true. cbn. unfold ESHUTDOWN. lia.
  - split; reflexivity.
  - intros a r. rewrite lookup_empty. discriminate.
  - intros t a v. rewrite Hsub, lookup_empty. discriminate.
  - rewrite map_size_empty. lia.
  - rewrite Est, Hsub. intros [?|?]; [discriminate|tauto].
Qed.

(** ** The steps of the work item *)

(** Only the in-flight fields change and the request in hand stays. *)
Lemma inv_inflight p' ir infl wr :
  let w' := with_dev (is_w s) (set_inflight ir infl wr (iw_dev (is_w s))) in
  held p' = held (is_wk s) -> p' <> WEnd -> inflight_ok w' p' ->
  io_inv base (mk_iosys w' p' (is_sub s) (is_acc s)).
Proof.
  intros w' Hh Hne Hi. open_inv I. subst w'.
  split; cbn [is_w is_wk is_sub is_acc iw_dev iw_reqs iw_refs iw_log iw_work with_dev set_inflight
      set_queue ub_pending ub_pending_list ub_queue_depth ub_stopping ub_io_wq];
    rewrite ?Hh; auto.
Qed.

Lemma keeps_wtest rc : is_wk s = WTest -> io_keeps base (IWork rc) s.
Proof.
  intros Ep. right. cbn [io_step]. rewrite Ep. cbn [work_step].
  open_inv I. rewrite Ep in *. cbn [inflight_ok held app] in *. destruct If as [If1 If2].
  rewrite If1. rewrite u32_small by int_lia.
  destruct (0 <? ub_queue_depth (iw_dev (is_w s))) eqn:Ed; [|lia].
  destruct (ub_stopping (iw_dev (is_w s))) eqn:Est; cbn [negb andb of_opt];
    (eexists; split; [reflexivity|]);
    (split; cbn [is_w is_wk is_sub is_acc held app inflight_ok]; auto).
  - rewrite Est. auto.
  - intros _ Hs. congruence.
Qed.

Lemma keeps_wpop rc : is_wk s = WPop -> io_keeps base (IWork rc) s.
Proof.
  intros Ep. right. cbn [io_step]. rewrite Ep. cbn [work_step]. unfold urma_blkdev_pop_pending.
  open_inv I. rewrite Ep in *. cbn [inflight_ok held app] in *.
  destruct (ub_pending_list (iw_dev (is_w s))) as [|a l] eqn:El.
  { cbn [Z.eqb of_opt]. eexists. split; [reflexivity|].
    split; cbn [is_w is_wk is_sub is_acc held app inflight_ok]; rewrite ?El; auto. }
  destruct Ff as (vs & Fl & Ea). inversion Fl as [|? v ? vs' Ha Fl' E1 E2]; subst.
  destruct Ha as (r & Hr & Hv). destruct (Rq a r Hr) as (Hn & Hc & _).
  apply Z.eqb_neq in Hn as Hn'. rewrite Hn'. cbn [of_opt]. eexists. split; [reflexivity|].
  unfold zlength in *. cbn [length] in *.
  split; cbn [is_w is_wk is_sub is_acc iw_dev iw_reqs iw_refs iw_log iw_work with_dev set_pending
      set_queue ub_pending ub_pending_list ub_queue_depth ub_inflight ub_inflight_reqs ub_stopping
      ub_io_wq held app inflight_ok]; auto; unfold zlength; try lia.
  exists (v :: vs'). split; auto.
Qed.

Lemma has_priv_insert (reqs : gmap Z urma_blkdev_io_req) a r r' b v :
  reqs !! a = Some r -> ir_priv r' = ir_priv r -> has_priv reqs b v ->
  has_priv (<[a := r']> reqs) b v.
Proof.
  intros Hr Hp (rb & Hb & E). destruct (decide (a = b)) as [->|].
  - exists r'. rewrite lookup_insert_eq. split; auto. congruence.
  - exists rb. rewrite lookup_insert_ne; auto.
Qed.

(** The request the work item holds. *)
Lemma held_req a : held (is_wk s) = [a] ->
  exists r, iw_reqs (is_w s) !! a = Some r /\ a <> 0 /\ ir_ref r = 1 /\
    a ∉ ub_pending_list (iw_dev (is_w s)).
Proof.
  intros Hh. open_inv I. rewrite Hh in *. destruct Ff as (vs & Fl & _). cbn [app] in *.
  inversion Fl as [|? v ? vs' (r & Hr & _) Fl' E1 E2]; subst. apply NoDup_cons in Nd as [Nd _].
  destruct (Rq a r Hr) as (? & ? & _). eauto 10.
Qed.

Lemma keeps_wtrack rc a : is_wk s = WTrack a -> io_keeps base (IWork rc) s.
Proof.
  intros Ep. right. destruct (held_req a) as (r & Hr & Hn & Hc & Hna); [rewrite Ep; auto|].
  cbn [io_step]. rewrite Ep. cbn [work_step]. rewrite Hr. cbn [mbind option_bind].
  open_inv I. rewrite Ep in *. cbn [inflight_ok held app] in *. destruct If as [If1 If2].
  set (id := u64 (ub_next_wr_id (iw_dev (is_w s)) + 1)).
  assert (Hall : forall p ir, held p = [a] -> p <> WEnd ->
    inflight_ok (mk_iow (set_inflight ir (ub_inflight (iw_dev (is_w s))) id (iw_dev (is_w s)))
      (<[a := set_wr_id id r]> (iw_reqs (is_w s))) (iw_refs (is_w s)) (iw_log (is_w s))
      (iw_work (is_w s))) p ->
    io_inv base (mk_iosys (mk_iow (set_inflight ir (ub_inflight (iw_dev (is_w s))) id
      (iw_dev (is_w s))) (<[a := set_wr_id id r]> (iw_reqs (is_w s))) (iw_refs (is_w s))
      (iw_log (is_w s)) (iw_work (is_w s))) p (is_sub s) (is_acc s))).
  { intros p ir Hp Hpe Hi.
    split; cbn [is_w is_wk is_sub is_acc iw_dev iw_reqs iw_refs iw_log iw_work set_inflight
        set_queue ub_pending ub_pending_list ub_queue_depth ub_stopping ub_io_wq];
      rewrite ?Hp; auto.
    - destruct Ff as (vs & Fl & Ea). exists vs. split; auto.
      eapply Forall2_impl; eauto. intros b v. apply (has_priv_insert _ _ r); auto.
    - intros b rb Hb. apply lookup_insert_Some in Hb as [[<- <-]|[_ Hb]]; [|eauto].
      split_and!; auto. left. left.
    - intros t b v Hb. destruct (En _ _ _ Hb) as (? & ? & ?). split_and!; auto.
      eapply has_priv_insert; eauto.
    - rewrite map_size_insert_Some; eauto. }
  destruct (Z.eqb_spec rc 0) as [->|Hrc]; cbn [negb of_opt]; eexists; (split; [reflexivity|]);
    apply Hall; auto; try discriminate; cbn [inflight_ok iw_dev iw_reqs set_inflight set_queue
      ub_inflight ub_inflight_reqs]; auto.
  split; auto. eexists. split; [apply lookup_insert_eq|]. cbn [ir_wr_id set_wr_id].
  rewrite If2. reflexivity.
Qed.

Lemma keeps_wmid rc a : is_wk s = WInc a \/ is_wk s = WPost a -> io_keeps base (IWork rc) s.
Proof.
  intros Ep. right. pose proof (iv_inflight _ _ I) as If. cbn [io_step].
  destruct Ep as [Ep|Ep]; rewrite Ep in *; cbn [work_step inflight_ok] in *.
  - destruct If as (If1 & r & Hr & Hi). cbn [of_opt]. eexists. split; [reflexivity|].
    apply inv_inflight; [rewrite Ep; reflexivity|discriminate|]. cbn. split; [lia|eauto].
  - destruct If as (If1 & r & Hr & Hi). unfold urma_blkdev_post_jetty_wr.
    destruct (held_req a) as (_ & _ & Hn & _); [rewrite Ep; auto|].
    apply Z.eqb_neq in Hn. rewrite Hn, Hr. cbn [mbind option_bind].
    assert (Hret : exists ret, ret <> 0 /\ (if (ub_seg (iw_dev (is_w s)) =? 0)
        || (pe_jetty (ir_peer r) =? 0) then Some (- EINVAL) else Some (- EOPNOTSUPP)) = Some ret)
      by (destruct (_ || _); eexists; (split; [|reflexivity]); unfold EINVAL, EOPNOTSUPP; lia).
    destruct Hret as (ret & Hret & ->). apply Z.eqb_neq in Hret as Hret'.
    cbn [mbind option_bind]. rewrite Hret'. cbn [negb mbind option_bind of_opt]. eexists. split; [reflexivity|].
    apply inv_inflight; [rewrite Ep; reflexivity|discriminate|]. cbn. split_and!; auto.
    rewrite Hi. apply delete_singleton_eq.
Qed.

Lemma keeps_wdec rc a ret : is_wk s = WDec a ret -> io_keeps base (IWork rc) s.
Proof.
  intros Ep. right. pose proof (iv_inflight _ _ I) as If. cbn [io_step].
  rewrite Ep in *. cbn [work_step inflight_ok of_opt] in *. eexists. split; [reflexivity|].
  apply inv_inflight; [rewrite Ep; reflexivity|discriminate|]. cbn. split_and!; [lia|tauto..].
Qed.

Lemma keeps_wdone rc a ret : is_wk s = WDone a ret -> io_keeps base (IWork rc) s.
Proof.
  intros Ep. right. destruct (held_req a) as (r & Hr & Hn & Hc & Hna); [rewrite Ep; auto|].
  cbn [io_step]. rewrite Ep. cbn [work_step]. rewrite (done_one _ _ r) by auto.
  cbn [mbind option_bind of_opt]. eexists. split; [reflexivity|].
  open_inv I. rewrite Ep in *. cbn [inflight_ok held app] in *. destruct If as (If1 & If2 & If3).
  split; cbn [is_w is_wk is_sub is_acc iw_dev iw_reqs iw_refs iw_log iw_work held app inflight_ok]; auto.
  - apply NoDup_cons in Nd. tauto.
  - destruct Ff as (vs & Fl & Ea). inversion Fl as [|? v ? vs' (r' & Hr' & Hv) Fl' E1 E2]; subst.
    exists vs'. split; [apply Forall2_priv_delete; auto|]. rewrite Ea, fmap_app, <- app_assoc.
    rewrite Hr in Hr'. injection Hr' as <-. reflexivity.
  - apply Forall_app. split; auto.
  - intros b rb Hb. apply lookup_delete_Some in Hb as [Hne Hb].
    destruct (Rq b rb Hb) as (? & ? & [Hin|?]); split_and!; auto.
    apply elem_of_cons in Hin as [->|?]; [tauto|auto].
  - intros t b v Hb. destruct (En _ _ _ Hb) as (? & Hnin & ?).
    apply not_elem_of_cons in Hnin as [??]. split_and!; auto. apply has_priv_delete; auto.
  - erewrite size_delete by eauto. lia.
Qed.

Lemma keeps_iwork rc : io_keeps base (IWork rc) s.
Proof.
  destruct (is_wk s) as [| |a|a|a|a ret|a ret|] eqn:Ep;
    eauto using keeps_wtest, keeps_wpop, keeps_wtrack, keeps_wmid, keeps_wdec, keeps_wdone.
  left. cbn [io_step]. rewrite Ep. auto.
Qed.

Lemma io_step_keeps c : io_allowed c s -> io_keeps base c s.
Proof.
  destruct c; cbn [io_allowed]; intros Ha; [destruct Ha; apply keeps_isubmit; auto|..];
    auto using keeps_ialloc, keeps_ienqueue, keeps_ikick, keeps_iworkstart, keeps_iwork,
      keeps_istop, keeps_ifail.
Qed.

End Steps.

Lemma io_reachable_inv base s0 s : io_inv base s0 -> io_reachable s0 s -> io_inv base s.
Proof.
  intros I0. induction 1 as [|c s s' Hr IH Ha E]; auto.
  destruct (io_step_keeps base s IH c Ha) as [E'|(s'' & E' & I')]; congruence.
Qed.

(** ** Progress of the work item *)

Definition rank (p : wphase) : nat :=
  match p with
  | WEnd => 0 | WPop => 1 | WTest => 2 | WDone _ _ => 3 | WDec _ _ => 4 | WPost _ => 5
  | WInc _ => 6 | WTrack _ => 7
  end.

Definition work_measure (p : wphase) (w : io_world) : nat :=
  7 * length (ub_pending_list (iw_dev w)) + rank p.

Lemma put_dev w a w' : urma_blkdev_req_put w a = Some w' -> iw_dev w' = iw_dev w.
Proof.
  unfold urma_blkdev_req_put. destruct (a =? 0); [congruence|].
  destruct (iw_reqs w !! a); [|discriminate]. cbn. destruct (_ =? _); intros [= <-]; auto.
Qed.

Lemma done_dev w a st w' : urma_blkdev_done_req w a st = Some w' -> iw_dev w' = iw_dev w.
Proof.
  unfold urma_blkdev_done_req. destruct (a =? 0); [congruence|].
  destruct (iw_reqs w !! a); [|discriminate]. cbn. intros H. apply put_dev in H. auto.
Qed.

(** A step makes progress, and the work item only ends when it is told to stop
    or when nothing is pending. *)
Lemma work_step_progress base rc p w sub acc p' w' :
  io_inv base (mk_iosys w p sub acc) -> p <> WEnd -> work_step rc p w = Some (p', w') ->
  (work_measure p' w' < work_measure p w)%nat /\
  ub_stopping (iw_dev w') = ub_stopping (iw_dev w) /\
  (p' = WEnd -> ub_stopping (iw_dev w) = false -> ub_pending_list (iw_dev w') = []).
Proof.
  intros I Hp E. pose proof (iv_inflight _ _ I) as If. pose proof (iv_depth _ _ I) as Dp.
  cbn [is_w is_wk] in *. unfold work_measure.
  destruct p as [| |a|a|a|a ret|a ret|]; cbn [work_step inflight_ok] in *; [..|congruence].
  - destruct If as [If _]. rewrite If, u32_small in E by int_lia.
    destruct (0 <? _) eqn:?; [|lia].
    destruct (ub_stopping (iw_dev w)) eqn:Es; cbn in E; injection E as <- <-; cbn [rank];
      split_and!; auto; try lia; discriminate.
  - unfold urma_blkdev_pop_pending in E.
    destruct (ub_pending_list (iw_dev w)) as [|a l] eqn:El.
    + cbn in E. injection E as <- <-. cbn [rank]. rewrite El. split_and!; auto.
    + destruct (a =? 0) eqn:Ea; injection E as <- <-; cbn [rank with_dev iw_dev set_pending
        set_queue ub_pending_list ub_stopping length]; split_and!; auto; try lia; try discriminate.
      exfalso. destruct (iv_fifo _ _ I) as (vs & Fl & _). cbn [is_w is_wk held app] in Fl.
      rewrite El in Fl. inversion Fl as [|? v ? vs' (r & Hr & _) Fl' E1 E2]; subst.
      destruct (iv_reqs _ _ I a r Hr) as (Hn & _). lia.
  - destruct (iw_reqs w !! a) as [r|]; [|discriminate]. cbn [mbind option_bind] in E.
    destruct (rc =? 0); cbn [negb] in E; injection E as <- <-; cbn; split_and!; auto; try lia; discriminate.
  - injection E as <- <-. cbn. split_and!; auto; try lia; discriminate.
  - unfold urma_blkdev_post_jetty_wr in E. destruct (a =? 0).
    + cbn in E. destruct (iw_reqs w !! a); [|discriminate]. cbn in E. injection E as <- <-.
      cbn. split_and!; auto; try lia; discriminate.
    + destruct (iw_reqs w !! a); [|discriminate]. cbn [mbind option_bind] in E.
      destruct (_ || _) in E; cbn in E; injection E as <- <-; cbn; split_and!; auto; try lia; discriminate.
  - injection E as <- <-. cbn. split_and!; auto; try lia; discriminate.
  - destruct (urma_blkdev_done_req w a ret) as [w1|] eqn:Ed; [|discriminate].
    cbn in E. injection E as <- <-. rewrite (done_dev _ _ _ _ Ed). cbn [rank].
    split_and!; auto; try lia. discriminate.
Qed.

Lemma io_step_work rc s : is_wk s <> WEnd ->
  io_step (IWork rc) s = of_opt (work_step rc (is_wk s) (is_w s))
    (fun '(p', w') => INext (mk_iosys w' p' (is_sub s) (is_acc s))).
Proof. intros Hp. cbn [io_step]. destruct (is_wk s); auto. contradiction. Qed.

Lemma run_work_drains base rcs n : forall p w sub acc,
  io_inv base (mk_iosys w p sub acc) -> (work_measure p w <= n)%nat ->
  (p = WEnd -> ub_stopping (iw_dev w) = false -> ub_pending_list (iw_dev w) = []) ->
  exists w', run_work rcs n p w = Some (Some w') /\ io_inv base (mk_iosys w' WEnd sub acc) /\
    (ub_stopping (iw_dev w) = false -> ub_pending_list (iw_dev w') = []).
Proof.
  induction n as [|n IH]; intros p w sub acc I Hm Hend.
  - assert (p = WEnd) as -> by (unfold work_measure in Hm; destruct p; cbn [rank] in Hm; auto; lia).
    exists w. auto.
  - destruct (decide (rank p = 0%nat)) as [Hr|Hr].
    { assert (p = WEnd) as -> by (destruct p; cbn in Hr; auto; lia). exists w. auto. }
    assert (Hp : p <> WEnd) by (intros ->; auto).
    destruct (io_step_keeps base _ I (IWork (rcs n)) Logic.I) as [E|(s' & E & I')].
    { exfalso. rewrite io_step_work in E by auto. cbn [is_wk is_w] in E.
      destruct (work_step _ _ w) as [[? ?]|]; discriminate. }
    assert (Hs : exists p' w', work_step (rcs n) p w = Some (p', w') /\ s' = mk_iosys w' p' sub acc).
    { rewrite io_step_work in E by auto. cbn [is_wk is_w is_sub is_acc] in E.
      destruct (work_step (rcs n) p w) as [[p' w']|]; [|discriminate].
      cbn in E. exists p', w'. split; auto. congruence. }
    destruct Hs as (p' & w' & Ew & ->).
    destruct (work_step_progress base _ _ _ _ _ _ _ I Hp Ew) as (Hlt & Hst & Hpe).
    destruct (IH p' w' sub acc I') as (w'' & Er & I'' & Hl); [lia|rewrite Hst; auto|].
    exists w''. split; [|rewrite Hst in Hl; auto].
    cbn [run_work]. rewrite Ew. cbn [mbind option_bind].
    destruct p; try contradiction; exact Er.
Qed.

(** ** The start *)

(** A device whose queue was just set up, with its workqueue. *)
Record io_fresh (d : urma_blkdev_device) : Prop := mk_io_fresh {
  if_depth : 1 <= ub_queue_depth d < 2 ^ 31;
  if_typed : udev_typed d;
  if_wq : ub_io_wq d <> 0;
  if_list : ub_pending_list d = [];
  if_pending : ub_pending d = 0;
  if_inflight : ub_inflight d = 0;
  if_reqs : ub_inflight_reqs d = ∅
}.

Definition io_start (d : urma_blkdev_device) (base : Z) : iosys :=
  mk_iosys (mk_iow d ∅ base [] false) WEnd ∅ [].

Lemma io_inv_init base d : io_fresh d -> io_inv base (io_start d base).
Proof.
  intros [Hd Ht Hq E1 E2 E3 E4].
  split; cbn [io_start is_w is_wk is_sub is_acc iw_dev iw_reqs iw_refs iw_log held inflight_ok];
    rewrite ?E1, ?E2; auto; cbn [app].
  - change (zlength (@nil Z)) with 0. lia.
  - constructor.
  - exists []. split; [constructor|auto].
  - intros a r. rewrite lookup_empty. discriminate.
  - intros t a v. rewrite lookup_empty. discriminate.
  - rewrite map_size_empty. lia.
Qed.

(** The queue only touches its own fields of the device, and its workqueue only
    once it is stopped. *)
Definition same_but_queue (d d' : urma_blkdev_device) : Prop :=
  exists pl ir wq pend infl wr stop, d' = set_queue pl ir wq pend infl wr stop d /\
    (stop = false -> wq = ub_io_wq d).

Lemma same_but_queue_refl d : same_but_queue d d.
Proof.
  exists (ub_pending_list d), (ub_inflight_reqs d), (ub_io_wq d), (ub_pending d), (ub_inflight d),
    (ub_next_wr_id d), (ub_stopping d). destruct d; auto.
Qed.

Lemma same_but_queue_set pl ir pend infl wr d d' :
  same_but_queue d d' ->
  same_but_queue d (set_queue pl ir (ub_io_wq d') pend infl wr (ub_stopping d') d').
Proof. intros (? & ? & ? & ? & ? & ? & ? & -> & ?). unfold same_but_queue. eauto 12. Qed.

Lemma same_but_queue_stop pl ir wq pend infl wr d d' :
  same_but_queue d d' -> same_but_queue d (set_queue pl ir wq pend infl wr true d').
Proof.
  intros (? & ? & ? & ? & ? & ? & ? & -> & ?). unfold same_but_queue.
  eexists _, _, _, _, _, _, true. split; [reflexivity|discriminate].
Qed.

Lemma done_all_dev st l : forall w w', done_all w l st = Some w' -> iw_dev w' = iw_dev w.
Proof.
  induction l as [|a l IH]; intros w w' E; cbn in E; [congruence|].
  destruct (urma_blkdev_done_req w a st) as [w1|] eqn:E1; [|discriminate]. cbn in E.
  rewrite (IH _ _ E). eapply done_dev; eauto.
Qed.

Lemma work_step_dev d rc p w p' w' :
  work_step rc p w = Some (p', w') -> same_but_queue d (iw_dev w) -> same_but_queue d (iw_dev w').
Proof.
  intros E S. destruct p as [| |a|a|a|a ret|a ret|]; cbn [work_step] in E.
  - case_if_in E; injection E as <- <-; auto.
  - unfold urma_blkdev_pop_pending in E. destruct (ub_pending_list (iw_dev w)); cbn in E;
      [injection E as <- <-; auto|]. case_if_in E; injection E as <- <-; apply same_but_queue_set; auto.
  - destruct (iw_reqs w !! a); [|discriminate]. cbn in E.
    case_if_in E; injection E as <- <-; apply same_but_queue_set; auto.
  - injection E as <- <-. apply same_but_queue_set; auto.
  - destruct (urma_blkdev_post_jetty_wr w a); [|discriminate]. cbn in E.
    case_if_in E; [|injection E as <- <-; auto].
    destruct (iw_reqs w !! a); [|discriminate]. cbn in E. injection E as <- <-.
    apply same_but_queue_set; auto.
  - injection E as <- <-. apply same_but_queue_set; auto.
  - destruct (urma_blkdev_done_req w a ret) as [w1|] eqn:E1; [|discriminate]. cbn in E.
    injection E as <- <-. rewrite (done_dev _ _ _ _ E1). auto.
  - injection E as <- <-. auto.
Qed.

Lemma io_step_dev d c s s' :
  io_step c s = INext s' -> same_but_queue d (iw_dev (is_w s)) -> same_but_queue d (iw_dev (is_w s')).
Proof.
  intros E S. destruct c; cbn [io_step] in E.
  - case_if_in E; [discriminate|]. destruct (submit_precheck _ _ _ _ _ _) as [[[m|rc] ?]|];
      [injection E as <-; auto..|discriminate].
  - destruct (is_sub s !! t) as [[| |]|]; try discriminate.
    destruct (match se_kzalloc env with Some _ => _ | None => _ end); [discriminate|].
    unfold submit_alloc in E. destruct (se_module_get env); [|injection E as <-; auto].
    destruct (se_kzalloc env); [|injection E as <-; auto].
    destruct m as [[? ?] ?]. injection E as <-; auto.
  - destruct (is_sub s !! t) as [[|a priv|]|]; try discriminate. unfold submit_enqueue in E.
    destruct (ub_stopping _).
    { destruct (urma_blkdev_req_put _ a) as [w1|] eqn:E1; [|discriminate]. cbn in E.
      injection E as <-. cbn [is_w]. rewrite (put_dev _ _ _ E1). auto. }
    destruct (_ >=? _).
    { destruct (urma_blkdev_req_put _ a) as [w1|] eqn:E1; [|discriminate]. cbn in E.
      injection E as <-. cbn [is_w]. rewrite (put_dev _ _ _ E1). auto. }
    cbn in E. injection E as <-. apply same_but_queue_set; auto.
  - destruct (is_sub s !! t) as [[| |]|]; try discriminate. unfold submit_kick in E.
    destruct (_ =? _); [discriminate|]. injection E as <-. auto.
  - destruct (is_wk s); try discriminate. destruct (iw_work _); [|discriminate].
    injection E as <-. auto.
  - destruct (decide (rank (is_wk s) = 0%nat)) as [Hr|Hr].
    { destruct (is_wk s); discriminate. }
    fold (io_step (IWork rc) s) in E. rewrite io_step_work in E by (intros E'; rewrite E' in Hr; auto).
    destruct (work_step rc (is_wk s) (is_w s)) as [[p' w']|] eqn:Ew; [|discriminate].
    cbn in E. injection E as <-. cbn [is_w]. eapply work_step_dev; eauto.
  - injection E as <-. apply same_but_queue_stop; auto.
  - destruct (is_wk s); try discriminate. destruct (iw_work _ || _) eqn:Ew; [discriminate|].
    apply orb_false_iff in Ew as [_ Est]. apply negb_false_iff in Est.
    unfold cleanup_fail, urma_blkdev_fail_queued in E.
    destruct (done_all _ _ _) as [w1|] eqn:E1; [|discriminate]. cbn in E. injection E as <-.
    cbn [is_w with_dev iw_dev]. rewrite (done_all_dev _ _ _ _ E1). cbn [with_dev iw_dev].
    cbn [ub_stopping set_queue]. rewrite Est. apply same_but_queue_stop, same_but_queue_stop. auto.
Qed.

Lemma io_reachable_dev d s0 s :
  same_but_queue d (iw_dev (is_w s0)) -> io_reachable s0 s -> same_but_queue d (iw_dev (is_w s)).
Proof. intros S. induction 1; eauto using io_step_dev. Qed.

(** ** Properties *)

(** C11.  Every interleaving of submitting threads, the work item and the stop of
    the queue is free of undefined behaviour (no freed request is used, none is
    freed twice, no work is queued on a destroyed workqueue), given that the
    queue is torn down only while no thread submits.  At every moment the
    pending counter is the length of the list and at most the queue depth, and
    the callbacks made so far, followed by the request in hand and the pending
    ones, are exactly the requests accepted, in order: each is called back at
    most once and first come first served, never with status 0.  When nothing
    is pending and no thread is inside, every accepted request has been called
    back, every request is freed and every module reference returned. *)
Theorem urma_io_interleavings base d s c :
  io_fresh d -> io_reachable (io_start d base) s -> io_allowed c s ->
  let w := is_w s in
  io_step c s <> IUb /\
  ub_pending (iw_dev w) = zlength (ub_pending_list (iw_dev w)) /\
  ub_pending (iw_dev w) <= ub_queue_depth (iw_dev w) /\
  (exists l, Forall2 (has_priv (iw_reqs w)) (held (is_wk s) ++ ub_pending_list (iw_dev w)) l /\
     is_acc s = (iw_log w).*1 ++ l) /\
  Forall (fun e => snd e <> 0) (iw_log w) /\
  (ub_pending_list (iw_dev w) = [] -> is_wk s = WEnd -> is_sub s = ∅ ->
   (iw_log w).*1 = is_acc s /\ iw_reqs w = ∅ /\ iw_refs w = base).
Proof.
  intros F Hr Ha w.
  pose proof (io_reachable_inv base _ _ (io_inv_init base d F) Hr) as I. subst w.
  pose proof (io_step_keeps base s I c Ha) as Hk. open_inv I. split_and!; auto; try lia.
  - destruct Hk as [->|(s' & -> & _)]; discriminate.
  - intros El Ep Es. rewrite El, Ep in *. cbn [held app] in *.
    destruct Ff as (l & Fl & ->). inversion Fl; subst. rewrite app_nil_r.
    assert (Hempty : iw_reqs (is_w s) = ∅).
    { apply map_empty. intros a. destruct (iw_reqs (is_w s) !! a) as [r|] eqn:Er; auto.
      destruct (Rq a r Er) as (_ & _ & [Hin|(t & v & Htv)]).
      - apply not_elem_of_nil in Hin. tauto.
      - rewrite Es, lookup_empty in Htv. discriminate. }
    rewrite Hempty, map_size_empty in Rf. split_and!; auto. lia.
Qed.

(** C12.  No request is lost: in a running queue, whenever requests are pending
    the work item is queued, running, or about to be queued by a submitting
    thread; and the work item, run from any reachable state, ends within seven
    steps per pending request plus three, whatever the results of [xa_store],
    with every pending request called back. *)
Theorem urma_io_no_lost_work base d s rcs :
  io_fresh d -> io_reachable (io_start d base) s -> ub_stopping (iw_dev (is_w s)) = false ->
  (ub_pending_list (iw_dev (is_w s)) <> [] ->
   iw_work (is_w s) = true \/ is_wk s <> WEnd \/ exists t, is_sub s !! t = Some SKick) /\
  (is_wk s = WEnd ->
   exists w' l, urma_blkdev_submit_workfn rcs (with_work (is_w s) false) = Some (Some w') /\
     ub_pending_list (iw_dev w') = [] /\ ub_pending (iw_dev w') = 0 /\
     Forall2 (has_priv (iw_reqs (is_w s))) (ub_pending_list (iw_dev (is_w s))) l /\
     (iw_log w').*1 = (iw_log (is_w s)).*1 ++ l).
Proof.
  intros F Hr Hs. pose proof (io_reachable_inv base _ _ (io_inv_init base d F) Hr) as I.
  split; [intros Hp; exact (iv_wake _ _ I Hp Hs)|]. intros Ep.
  set (s1 := mk_iosys (with_work (is_w s) false) WTest (is_sub s) (is_acc s)).
  assert (I1 : io_inv base s1).
  { open_inv I. rewrite Ep in *. subst s1.
    split; cbn [is_w is_wk is_sub is_acc iw_dev iw_reqs iw_refs iw_log iw_work with_work held]; auto. }
  destruct (run_work_drains base rcs (work_fuel (with_work (is_w s) false)) _ _ _ _ I1)
    as (w' & Er & I' & Hl); [unfold work_measure, work_fuel; cbn [rank]; lia|discriminate|].
  destruct (iv_fifo _ _ I) as (l & Fl & Ea). rewrite Ep in Fl. cbn [held app] in Fl.
  specialize (Hl Hs). exists w', l. split_and!; auto.
  - pose proof (iv_pending _ _ I') as E. cbn [is_w] in E. rewrite E, Hl. reflexivity.
  - destruct (iv_fifo _ _ I') as (l' & Fl' & Ea'). cbn [is_w is_wk is_acc held app] in *.
    rewrite Hl in Fl'. inversion Fl'; subst. rewrite app_nil_r in Ea'. congruence.
Qed.

(** ** Submission and stop without interference *)

(** The code of a submission before anything is allocated, over unbounded
    integers; [n] requests are pending or in flight. *)
Definition submit_code (lbs : Z) (d : urma_blkdev_device) (peer : urma_blkdev_peer)
    (io : urma_blkdev_io) (n : Z) : Z :=
  if ub_stopping d then - ESHUTDOWN
  else if (ub_seg d =? 0) || (ub_ub_dev d =? 0) || (ub_io_wq d =? 0) then - ENODEV
  else if pe_jetty peer =? 0 then - EINVAL
  else if negb ((io_dir io =? URMA_BLKDEV_IO_READ) || (io_dir io =? URMA_BLKDEV_IO_WRITE)) then - EINVAL
  else match map_spec lbs d io with
       | Err rc => rc
       | Ok _ => if ub_queue_depth d <=? n then - EBUSY else 0
       end.

(** How many requests the device has. *)
Definition queue_level (d : urma_blkdev_device) : Z :=
  zlength (ub_pending_list d) + ub_inflight d.

(** With the arguments as the caller passes them, any of which may be [NULL]: a
    missing peer, request or callback comes first, then a missing device. *)
Definition submit_ref (lbs : Z) (d : urma_blkdev_device) (bdev : option (option bool))
    (global : bool) (peer : option urma_blkdev_peer) (io : option urma_blkdev_io) (done : bool) : Z :=
  match peer, io with
  | Some p, Some i =>
      if negb done then - EINVAL
      else match bdev with
           | Some (Some false) => - ENODEV
           | Some (Some true) => submit_code lbs d p i (queue_level d)
           | _ => if global then submit_code lbs d p i (queue_level d) else - ENODEV
           end
  | _, _ => - EINVAL
  end.

Lemma inflight_bound base s :
  io_inv base s -> 0 <= ub_inflight (iw_dev (is_w s)) <= 1.
Proof.
  intros I. pose proof (iv_inflight _ _ I) as If. unfold inflight_ok in If. destruct (is_wk s); lia.
Qed.

(** The queue-full test is exact. *)
Lemma full_test base s :
  io_inv base s ->
  let d := iw_dev (is_w s) in
  (u32 (ub_pending d + ub_inflight d) >=? ub_queue_depth d) = (ub_queue_depth d <=? queue_level d).
Proof.
  intros I d. subst d. pose proof (inflight_bound base s I). open_inv I. unfold queue_level.
  set (d := iw_dev (is_w s)) in *. pose proof (zlength_nonneg (ub_pending_list d)).
  rewrite Pd, u32_small by int_lia. lia.
Qed.

Lemma precheck_code base s lbs peer io h :
  io_inv base s -> is_u32 lbs -> io_typed io ->
  let d := iw_dev (is_w s) in
  submit_precheck lbs (Some d) (Some peer) (Some io) true h
  = Some (match map_spec lbs d io with
          | Ok m => if submit_code lbs d peer io (queue_level d) =? 0
                    then Ok m else Err (submit_code lbs d peer io (queue_level d))
          | Err _ => Err (submit_code lbs d peer io (queue_level d))
          end, h).
Proof.
  intros I Hl Hi d. subst d. pose proof (full_test base s I) as Hc. cbn zeta in Hc. open_inv I.
  unfold submit_precheck, submit_code. set (d := iw_dev (is_w s)) in *.
  rewrite Hc. rewrite <- negb_orb.
  destruct (ub_stopping d); [destruct (map_spec lbs d io); reflexivity|].
  destruct ((ub_seg d =? 0) || _); cbn [orb]; [destruct (map_spec lbs d io); reflexivity|].
  destruct (ub_io_wq d =? 0); [destruct (map_spec lbs d io); reflexivity|].
  destruct (pe_jetty peer =? 0); [destruct (map_spec lbs d io); reflexivity|].
  destruct (negb _); [destruct (map_spec lbs d io); reflexivity|].
  mstep. rewrite map_io_eq by auto. destruct (map_spec lbs d io); [|reflexivity].
  destruct (_ <=? _); reflexivity.
Qed.

(** A submission that passes the checks. *)
Lemma submit_code_zero lbs d peer io n :
  submit_code lbs d peer io n = 0 ->
  exists m, map_spec lbs d io = Ok m /\ ub_stopping d = false /\ ub_io_wq d <> 0 /\
    (ub_queue_depth d <=? n) = false.
Proof.
  unfold submit_code, ESHUTDOWN, ENODEV, EINVAL, EBUSY. intros Hc.
  destruct (ub_stopping d); [lia|]. destruct ((_ || _) || _) eqn:Eo; [lia|].
  destruct (pe_jetty peer =? 0); [lia|]. destruct (negb _); [lia|].
  destruct (map_spec lbs d io) as [m|rc] eqn:Em.
  - destruct (_ <=? _) eqn:?; [lia|]. exists m. split_and!; auto; lia.
  - exfalso. revert Em Hc. unfold map_spec, EINVAL, EOVERFLOW, ERANGE.
    repeat case_if; intros [= <-]; lia.
Qed.

(** What the arguments must be for a submission to be accepted. *)
Lemma submit_ref_zero lbs d bdev global peer io done :
  submit_ref lbs d bdev global peer io done = 0 ->
  exists p i, peer = Some p /\ io = Some i /\ done = true /\
    urma_blkdev_dev_from_bdev bdev global = true /\ submit_code lbs d p i (queue_level d) = 0.
Proof.
  unfold submit_ref, EINVAL, ENODEV. destruct peer as [p|], io as [i|]; try discriminate.
  destruct done; [|discriminate]. cbn [negb].
  destruct bdev as [[[|]|]|], global; try discriminate; intros Hc; exists p, i; auto.
Qed.

(** The checks of a whole submission. *)
Lemma precheck_ref base s lbs bdev global peer io done h :
  io_inv base s -> is_u32 lbs -> (forall i, io = Some i -> io_typed i) ->
  let d := iw_dev (is_w s) in
  let code := submit_ref lbs d bdev global peer io done in
  exists r, submit_precheck lbs
      (if urma_blkdev_dev_from_bdev bdev global then Some d else None) peer io done h = Some (r, h) /\
    (code <> 0 -> r = Err code) /\
    (code = 0 -> exists i m, io = Some i /\ map_spec lbs d i = Ok m /\ r = Ok m).
Proof.
  intros I Hl Hi d code.
  destruct peer as [p|]; [|eexists; split; [reflexivity|split; [auto|discriminate]]].
  destruct io as [i|]; [|eexists; split; [reflexivity|split; [auto|discriminate]]].
  destruct done; [|eexists; split; [reflexivity|split; [auto|discriminate]]].
  destruct (urma_blkdev_dev_from_bdev bdev global) eqn:Ed.
  - pose proof (precheck_code base s lbs p i h I Hl (Hi i eq_refl)) as Pc. cbn zeta in Pc.
    assert (code = submit_code lbs d p i (queue_level d)) as Ec
      by (subst code; unfold submit_ref; destruct bdev as [[[|]|]|], global; try discriminate; reflexivity).
    fold d in Pc. rewrite <- Ec in Pc. eexists. split; [exact Pc|]. split.
    + intros Hc. apply Z.eqb_neq in Hc. rewrite Hc. destruct (map_spec lbs d i); reflexivity.
    + intros Hc. destruct (submit_code_zero lbs d p i (queue_level d)) as (m & Em & _); [congruence|].
      rewrite Em, Hc. eauto.
  - assert (code = - ENODEV) as ->
      by (subst code; unfold submit_ref; destruct bdev as [[[|]|]|], global; try discriminate; reflexivity).
    eexists. split; [reflexivity|]. split; [auto|discriminate].
Qed.

(** The locked section in any state of the system, for a thread that has passed
    its checks and allocated the request [a]. *)
Lemma enqueue_spec base s t a v :
  io_inv base s -> is_sub s !! t = Some (SEnq a v) ->
  let w := is_w s in
  let d := iw_dev w in
  let freed := mk_iow d (delete a (iw_reqs w)) (iw_refs w - 1) (iw_log w) (iw_work w) in
  submit_enqueue w a
  = Some (if ub_stopping d then (- ESHUTDOWN, freed)
          else if ub_queue_depth d <=? queue_level d then (- EBUSY, freed)
          else (0, with_dev w (set_pending (ub_pending_list d ++ [a]) (ub_pending d + 1) d))).
Proof.
  intros I Et w d freed. pose proof (full_test base s I) as Hc. cbn zeta in Hc. fold w in Hc.
  open_inv I. destruct (En _ _ _ Et) as ((r & Hr & _) & _). destruct (Rq a r Hr) as (Ha & Hrc & _).
  unfold submit_enqueue. fold d. fold d in Hc. rewrite Hc, (put_one w a r) by auto. fold d freed.
  destruct (ub_stopping d); [reflexivity|]. destruct (_ <=? _); reflexivity.
Qed.

(** C16.  A submission, on every branch, in every reachable state of the queue.
    The checks give the reference code for every combination of arguments,
    missing peer, request or callback and missing device included, of device
    state, direction, range and queue level; a refused submission changes
    nothing: no request, no module reference.  One that passes them, is not
    disturbed and gets a module reference and memory, is accepted: it appends one
    request with the mapped offset, length and address, holds one more module
    reference and queues the work item; without the reference or the memory it
    returns -ENODEV or -ENOMEM and changes nothing.  And whatever other threads,
    the work item and the stop have done since a submission passed its checks and
    allocated its request: under the lock it is refused with -ESHUTDOWN when the
    device stops, with -EBUSY when the queue is full, the request freed and its
    module reference given back, and appended otherwise.  The block size and the
    fields of the request have the ranges of their types. *)
Theorem urma_submit_spec base d0 s lbs bdev global peer io done priv env h :
  io_fresh d0 -> io_reachable (io_start d0 base) s ->
  is_u32 lbs -> (forall i, io = Some i -> io_typed i) ->
  let w := is_w s in
  let d := iw_dev w in
  let code := submit_ref lbs d bdev global peer io done in
  let run := urma_blkdev_submit_nvmet_io env lbs bdev global peer io done priv w h in
  (code <> 0 -> run = Some ((code, w), h)) /\
  (code = 0 -> se_module_get env = false -> run = Some ((- ENODEV, w), h)) /\
  (code = 0 -> se_module_get env = true -> se_kzalloc env = None ->
   run = Some ((- ENOMEM, w), h)) /\
  (forall a, code = 0 -> se_module_get env = true -> se_kzalloc env = Some a ->
   exists p i off len ubva, peer = Some p /\ io = Some i /\ map_spec lbs d i = Ok (off, len, ubva) /\
     run = Some ((0, mk_iow (set_pending (ub_pending_list d ++ [a]) (ub_pending d + 1) d)
       (<[a := mk_ioreq p i off ubva len 0 priv 1]> (iw_reqs w)) (iw_refs w + 1)
       (iw_log w) true), h)) /\
  (forall t a v, is_sub s !! t = Some (SEnq a v) ->
   let freed := mk_iow d (delete a (iw_reqs w)) (iw_refs w - 1) (iw_log w) (iw_work w) in
   submit_enqueue w a
   = Some (if ub_stopping d then (- ESHUTDOWN, freed)
           else if ub_queue_depth d <=? queue_level d then (- EBUSY, freed)
           else (0, with_dev w (set_pending (ub_pending_list d ++ [a]) (ub_pending d + 1) d)))).
Proof.
  intros F Hr Hl Hi w d code run.
  pose proof (io_reachable_inv base _ _ (io_inv_init base d0 F) Hr) as I.
  destruct (precheck_ref base s lbs bdev global peer io done h I Hl Hi) as (r & Pc & Hne & Hz).
  pose proof (full_test base s I) as Ft. cbn zeta in Ft.
  fold w in Pc, Hne, Hz, Ft. fold d in Pc, Hne, Hz, Ft. fold code in Hne, Hz.
  assert (Hz' : code = 0 -> exists p i m, peer = Some p /\ io = Some i /\ map_spec lbs d i = Ok m /\
    r = Ok m /\ ub_stopping d = false /\ ub_io_wq d <> 0 /\
    (u32 (ub_pending d + ub_inflight d) >=? ub_queue_depth d) = false).
  { intros Hc. destruct (submit_ref_zero _ _ _ _ _ _ _ Hc) as (p & i & -> & -> & _ & _ & H0).
    destruct (submit_code_zero _ _ _ _ _ H0) as (m & Em & Hs & Hq & Hf).
    destruct (Hz Hc) as (i' & m' & [= <-] & Em' & ->). rewrite <- Ft in Hf.
    exists p, i, m. split_and!; auto; congruence. }
  subst run. unfold urma_blkdev_submit_nvmet_io. fold d. mstep. rewrite Pc. cbn beta iota.
  split; [|split; [|split; [|split; [|intros t a v Et; apply (enqueue_spec base s t a v I Et)]]]].
  - intros Hc. rewrite (Hne Hc). reflexivity.
  - intros Hc Hm. destruct (Hz' Hc) as (p & i & m & -> & -> & _ & -> & _).
    unfold submit_alloc. rewrite Hm. reflexivity.
  - intros Hc Hm Hk. destruct (Hz' Hc) as (p & i & m & -> & -> & _ & -> & _).
    unfold submit_alloc. rewrite Hm, Hk. reflexivity.
  - intros a Hc Hm Hk.
    destruct (Hz' Hc) as (p & i & [[off len] ubva] & -> & -> & Em & -> & Hs & Hq & Hd).
    exists p, i, off, len, ubva. split_and!; auto.
    unfold submit_alloc. rewrite Hm, Hk. cbn [negb]. mstep.
    unfold submit_enqueue. cbn [iw_dev]. fold d. rewrite Hs, Hd. mstep. cbn [Z.eqb negb].
    unfold submit_kick. cbn [iw_dev with_dev set_pending set_queue ub_io_wq].
    apply Z.eqb_neq in Hq. rewrite Hq. mstep. reflexivity.
Qed.

(** Stopping a running queue with no thread inside. *)
Lemma cleanup_io_queue_full base s rcs :
  io_inv base s -> is_wk s = WEnd -> is_sub s = ∅ -> ub_stopping (iw_dev (is_w s)) = false ->
  exists l, Forall2 (has_priv (iw_reqs (is_w s))) (ub_pending_list (iw_dev (is_w s))) l /\
    urma_blkdev_cleanup_io_queue rcs (is_w s) = Some (Some (mk_iow
      (set_queue [] ∅ 0 0 0 (ub_next_wr_id (iw_dev (is_w s))) true (iw_dev (is_w s)))
      ∅ base (iw_log (is_w s) ++ ((fun v => (v, - ESHUTDOWN)) <$> l)) false)).
Proof.
  intros I Ep Es Hst.
  pose proof (iv_wq _ _ I (or_introl Hst)) as Hq.
  set (s1 := mk_iosys (with_work (cleanup_stop (is_w s)) false) WEnd ∅ (is_acc s)).
  assert (I1 : io_inv base s1).
  { destruct (keeps_istop base s I) as [E|(s' & E & I')]; [discriminate|]. injection E as <-.
    rewrite Ep, Es in I'. subst s1. open_inv I'.
    split; cbn [is_w is_wk is_sub is_acc iw_dev iw_reqs iw_refs iw_log iw_work with_work]; auto. }
  assert (Hf : urma_blkdev_cleanup_io_queue rcs (is_w s)
             = (w ← cleanup_fail (is_w s1); Some (Some w))).
  { unfold urma_blkdev_cleanup_io_queue, flush_workqueue, urma_blkdev_submit_workfn.
    apply Z.eqb_neq in Hq. cbn [cleanup_stop with_dev iw_dev set_queue ub_io_wq]. rewrite Hq.
    change (iw_work (cleanup_stop (is_w s))) with (iw_work (is_w s)).
    destruct (iw_work (is_w s)) eqn:Ew.
    - unfold work_fuel. rewrite Nat.add_comm. reflexivity.
    - cbn [mbind option_bind]. subst s1. cbn [is_w].
      assert (with_work (cleanup_stop (is_w s)) false = cleanup_stop (is_w s)) as ->; [|reflexivity].
      unfold with_work. rewrite <- Ew. reflexivity. }
  destruct (cleanup_fail_eq base s1 I1 eq_refl eq_refl) as (l & Fl & _ & E).
  exists l. split; [exact Fl|]. rewrite Hf, E. reflexivity.
Qed.

(** Stopping a running queue while no thread submits ends, calls back every
    pending request with -ESHUTDOWN in order, frees all of them, returns their
    module references and destroys the workqueue; afterwards a submission is
    refused with -ESHUTDOWN. *)
Theorem urma_cleanup_io_queue_spec base d0 s rcs lbs peer io h :
  io_fresh d0 -> io_reachable (io_start d0 base) s -> is_wk s = WEnd -> is_sub s = ∅ ->
  ub_stopping (iw_dev (is_w s)) = false ->
  exists w' l, urma_blkdev_cleanup_io_queue rcs (is_w s) = Some (Some w') /\
    Forall2 (has_priv (iw_reqs (is_w s))) (ub_pending_list (iw_dev (is_w s))) l /\
    iw_log w' = iw_log (is_w s) ++ ((fun v => (v, - ESHUTDOWN)) <$> l) /\
    iw_reqs w' = ∅ /\ iw_refs w' = base /\ ub_io_wq (iw_dev w') = 0 /\
    submit_precheck lbs (Some (iw_dev w')) (Some peer) (Some io) true h
    = Some (Err (- ESHUTDOWN), h).
Proof.
  intros F Hr Ep Es Hst. pose proof (io_reachable_inv base _ _ (io_inv_init base d0 F) Hr) as I.
  destruct (cleanup_io_queue_full base s rcs I Ep Es Hst) as (l & Fl & E).
  eexists _, l. split; [exact E|]. cbn. auto 10.
Qed.

(** ** Examples *)

(** Run a list of actions. *)
Fixpoint io_run (cs : list ioact) (s : iosys) : option iosys :=
  match cs with
  | [] => Some s
  | c :: cs' => match io_step c s with INext s' => io_run cs' s' | _ => None end
  end.

(** Actions that are allowed in every state. *)
Definition io_free (c : ioact) : Prop :=
  match c with
  | ISubmit _ lbs _ io _ => is_u32 lbs /\ io_typed io
  | IFail => False
  | _ => True
  end.

Lemma io_run_reachable s0 cs : forall s s',
  io_reachable s0 s -> Forall io_free cs -> io_run cs s = Some s' -> io_reachable s0 s'.
Proof.
  induction cs as [|c cs IH]; intros s s' Hr Hf E; cbn in E; [congruence|].
  apply Forall_cons in Hf as [Hc Hf]. destruct (io_step c s) as [| |s1] eqn:Es; try discriminate.
  apply (IH s1); auto. eapply io_next; eauto. destruct c; cbn in *; tauto.
Defined.

Definition ex_udev : urma_blkdev_device :=
  mk_udev 0 None None (Ptr 1 0) 4096 6 5 5 1048576 7 [] ∅ 9 0 0 0 2 false.

Definition ex_peer : urma_blkdev_peer := mk_upeer (replicate 16 1) 3.

Definition ex_io : urma_blkdev_io := mk_uio URMA_BLKDEV_IO_READ 2 4 8192 1.

Lemma ex_io_typed : io_typed ex_io.
Proof. unfold io_typed, ex_io. cbn [io_lba io_block_count]. int_lia. Defined.

Lemma ex_udev_fresh : io_fresh ex_udev.
Proof. split; cbn; unfold udev_typed; cbn; try lia; auto. split; int_lia. Defined.

(** One request, put on the list; a second thread allocates. *)
Definition ex_acts : list ioact :=
  [ISubmit 1 512 ex_peer ex_io 71; IAlloc 1 (mk_senv true (Some 100)); IEnqueue 1;
   ISubmit 2 512 ex_peer ex_io 72; IAlloc 2 (mk_senv true (Some 200)); IKick 1].

(** Then the second is queued too and both threads are gone. *)
Definition ex_acts2 : list ioact := ex_acts ++ [IEnqueue 2; IKick 2].

Lemma ex_acts_free : Forall io_free ex_acts2.
Proof. repeat constructor; cbn; try (split; [|split]); int_lia. Defined.

Definition ex_sys (cs : list ioact) : iosys :=
  match io_run cs (io_start ex_udev 1) with Some s => s | None => io_start ex_udev 1 end.

Lemma ex_reachable : io_reachable (io_start ex_udev 1) (ex_sys ex_acts2).
Proof.
  apply (io_run_reachable _ ex_acts2 (io_start ex_udev 1)).
  - apply io_here.
  - apply ex_acts_free.
  - vm_compute. reflexivity.
Defined.

Lemma urma_io_interleavings_witness :
  io_step (IWork 0) (ex_sys ex_acts2) <> IUb /\ is_acc (ex_sys ex_acts2) = [71; 72] /\
  ub_pending (iw_dev (is_w (ex_sys ex_acts2))) = 2.
Proof.
  destruct (urma_io_interleavings 1 ex_udev (ex_sys ex_acts2) (IWork 0) ex_udev_fresh ex_reachable
    Logic.I) as (H & _ & _).
  split; [exact H|]. split; vm_compute; reflexivity.
Defined.

Lemma urma_io_no_lost_work_witness :
  exists w' l, urma_blkdev_submit_workfn (fun _ => 0) (with_work (is_w (ex_sys ex_acts2)) false)
             = Some (Some w') /\ ub_pending_list (iw_dev w') = [] /\
    (iw_log w').*1 = (iw_log (is_w (ex_sys ex_acts2))).*1 ++ l /\ length l = 2%nat.
Proof.
  destruct (urma_io_no_lost_work 1 ex_udev (ex_sys ex_acts2) (fun _ => 0) ex_udev_fresh
    ex_reachable) as [_ H]; [vm_compute; reflexivity|].
  destruct H as (w' & l & E & Ep & _ & Fl & El); [vm_compute; reflexivity|].
  exists w', l. split; [exact E|]. split; [exact Ep|]. split; [exact El|].
  rewrite <- (Forall2_length _ _ _ Fl). vm_compute. reflexivity.
Defined.

Lemma urma_submit_spec_witness :
  fst <$> (fst <$> urma_blkdev_submit_nvmet_io (mk_senv true (Some 300)) 512 None true (Some ex_peer)
    (Some ex_io) true 73 (is_w (ex_sys ex_acts2)) heap_empty) = Some (- EBUSY) /\
  fst <$> (fst <$> urma_blkdev_submit_nvmet_io (mk_senv true (Some 300)) 512 None true (Some ex_peer)
    (Some ex_io) false 73 (is_w (io_start ex_udev 1)) heap_empty) = Some (- EINVAL) /\
  fst <$> (fst <$> urma_blkdev_submit_nvmet_io (mk_senv true (Some 300)) 512 (Some (Some true)) false
    (Some ex_peer) (Some ex_io) true 73 (is_w (io_start ex_udev 1)) heap_empty) = Some 0.
Proof.
  assert (Hi : forall i, Some ex_io = Some i -> io_typed i)
    by (intros i [= <-]; apply ex_io_typed).
  assert (Hl : is_u32 512) by int_lia.
  split_and!.
  - destruct (urma_submit_spec 1 ex_udev (ex_sys ex_acts2) 512 None true (Some ex_peer) (Some ex_io)
      true 73 (mk_senv true (Some 300)) heap_empty ex_udev_fresh ex_reachable Hl Hi) as [H _].
    rewrite H; [reflexivity|]. vm_compute. discriminate.
  - destruct (urma_submit_spec 1 ex_udev (io_start ex_udev 1) 512 None true (Some ex_peer)
      (Some ex_io) false 73 (mk_senv true (Some 300)) heap_empty ex_udev_fresh (io_here _) Hl Hi)
      as [H _].
    rewrite H; [reflexivity|]. vm_compute. discriminate.
  - destruct (urma_submit_spec 1 ex_udev (io_start ex_udev 1) 512 (Some (Some true)) false
      (Some ex_peer) (Some ex_io) true 73 (mk_senv true (Some 300)) heap_empty ex_udev_fresh
      (io_here _) Hl Hi) as (_ & _ & _ & H & _).
    destruct (H 300) as (p & i & off & len & ubva & _ & _ & _ & E); [reflexivity..|].
    rewrite E. reflexivity.
Defined.

Lemma urma_cleanup_io_queue_spec_witness :
  exists w' l, urma_blkdev_cleanup_io_queue (fun _ => 0) (is_w (ex_sys ex_acts2)) = Some (Some w') /\
    iw_log w' = (fun v => (v, - ESHUTDOWN)) <$> l /\ iw_reqs w' = ∅ /\ iw_refs w' = 1.
Proof.
  destruct (urma_cleanup_io_queue_spec 1 ex_udev (ex_sys ex_acts2) (fun _ => 0) 512 ex_peer ex_io
    heap_empty ex_udev_fresh ex_reachable)
    as (w' & l & E & _ & El & Er & Ef & _); [vm_compute; reflexivity..|].
  exists w', l. split; [exact E|]. split; [exact El|]. split; [exact Er|exact Ef].
Defined.
