(* ===== verification/UrmaBlk.v ===== *)
(** * The URMA block device module (kernel-urma/urma_blkdev.c)

    The request path, the registration of the region with the URMA device, the
    gendisk, the memory region, and module load and unload around the
    direct-I/O queue of [UrmaIo].  The kernel services it calls are represented
    by the results they return ([urma_env]). *)

From S2P Require Import Prelude.
From S2P Require Import Mem.
From S2P Require Import KernelBlk.
From S2P Require Import UrmaIo.
From S2P Require Import UrmaIoSys.

(** Results of the kernel services.  [ue_ub_dev_name] is [None] for the module
    parameter [NULL], else the result of [ubcore_get_device_by_name];
    [ue_netdevs] the result of [ubcore_get_device_by_netdev] for each network
    device in turn. *)
Record urma_env : Type := mk_urma_env {
  ue_major : Z;
  ue_kzalloc : bool;
  ue_wq : Z;
  ue_vmalloc : bool;
  ue_ub_dev_name : option Z;
  ue_netdevs : list Z;
  ue_token : Z;
  ue_token_val : Z;
  ue_seg : Z;
  ue_seg_va : Z;
  ue_virt_to_phys : Z;
  ue_alloc_tag_set : Z;
  ue_alloc_disk : Z;
  ue_add_disk : Z
}.

(** ** Field updates *)

Definition udev_zero : urma_blkdev_device :=
  mk_udev 0 None None Null 0 0 0 0 0 0 [] ∅ 0 0 0 0 0 false.

Definition uset_ram (p : ptr) (size : Z) (d : urma_blkdev_device) : urma_blkdev_device :=
  mk_udev (ub_disk d) (ub_settings d) (ub_tag_set d) p size (ub_ub_dev d) (ub_token_id d)
    (ub_seg d) (ub_ubva_addr d) (ub_token_id_val d) (ub_pending_list d) (ub_inflight_reqs d)
    (ub_io_wq d) (ub_pending d) (ub_inflight d) (ub_next_wr_id d) (ub_queue_depth d) (ub_stopping d).

Definition uset_urma (ub token seg ubva tokv : Z) (d : urma_blkdev_device) : urma_blkdev_device :=
  mk_udev (ub_disk d) (ub_settings d) (ub_tag_set d) (ub_ramdisk_addr d) (ub_ramdisk_size d)
    ub token seg ubva tokv (ub_pending_list d) (ub_inflight_reqs d) (ub_io_wq d) (ub_pending d)
    (ub_inflight d) (ub_next_wr_id d) (ub_queue_depth d) (ub_stopping d).

Definition uset_disk (disk : Z) (s : option disk_settings) (t : option blk_mq_tag_set)
    (d : urma_blkdev_device) : urma_blkdev_device :=
  mk_udev disk s t (ub_ramdisk_addr d) (ub_ramdisk_size d) (ub_ub_dev d) (ub_token_id d)
    (ub_seg d) (ub_ubva_addr d) (ub_token_id_val d) (ub_pending_list d) (ub_inflight_reqs d)
    (ub_io_wq d) (ub_pending d) (ub_inflight d) (ub_next_wr_id d) (ub_queue_depth d) (ub_stopping d).

(** ** The request path *)

Definition urma_blkdev_complete_request (ended : list blk_status_t) (status : blk_status_t)
    : list blk_status_t := ended ++ [status].

Definition urma_blkdev_queue_rq (logical_block_size : Z) (dev : urma_blkdev_device)
    (rq : request) : mem rq_result :=
  let sector := blk_rq_pos rq in
  let base_addr := padd (ub_ramdisk_addr dev) (u64 (sector * logical_block_size)) in
  if u64 (u64 (sector * logical_block_size) + blk_rq_bytes rq) >? ub_ramdisk_size dev
  then mret (BLK_STS_IOERR, urma_blkdev_complete_request [] BLK_STS_IOERR)
  else
    _ ← rq_copy (rq_is_write rq) base_addr (rq_segments rq);
    mret (BLK_STS_OK, urma_blkdev_complete_request [] BLK_STS_OK).

#[export] Instance urma_blk_driver : BlkDriver urma_blkdev_device := {
  bd_addr := ub_ramdisk_addr;
  bd_size := ub_ramdisk_size;
  bd_queue_rq := urma_blkdev_queue_rq
}.

#[export] Instance urma_blk_laws : BlkLaws urma_blkdev_device.
Proof.
  split; intros lbs d rq h; cbn; unfold urma_blkdev_queue_rq.
  - intros Hr. destruct (_ >? _) eqn:E; [reflexivity|lia].
  - intros h' Hr Hc. destruct (_ >? _) eqn:E; [lia|]. mstep. rewrite Hc. reflexivity.
Qed.

(** ** The URMA device and segment *)

(** The search over the network devices: the first that has a URMA device. *)
Fixpoint find_netdev (l : list Z) : Z :=
  match l with
  | [] => 0
  | d :: l' => if negb (d =? 0) then d else find_netdev l'
  end.

Definition urma_blkdev_find_device (env : urma_env) : km Z :=
  let d := match ue_ub_dev_name env with Some d => d | None => find_netdev (ue_netdevs env) end in
  if d =? 0 then mret 0 else _ ← acquire (KUb d); mret d.

Definition urma_blkdev_setup_urma (env : urma_env) (dev : urma_blkdev_device)
    : km (Z * urma_blkdev_device) :=
  let ub := ub_ub_dev dev in
  if ub =? 0
  then mret (0, uset_urma 0 (ub_token_id dev) (ub_seg dev) (ue_virt_to_phys env) 0 dev) else
  let token := ue_token env in
  if token =? 0
  then mret (- ENOMEM, uset_urma ub 0 (ub_seg dev) (ub_ubva_addr dev) (ub_token_id_val dev) dev) else
  _ ← acquire (KToken token);
  let seg := ue_seg env in
  if seg =? 0 then
    _ ← release (KToken token);
    mret (- EINVAL, uset_urma ub 0 0 (ub_ubva_addr dev) (ue_token_val env) dev)
  else
  _ ← acquire (KSeg seg);
  mret (0, uset_urma ub token seg (ue_seg_va env) (ue_token_val env) dev).

Definition urma_blkdev_cleanup_urma (dev : urma_blkdev_device) : km urma_blkdev_device :=
  _ ← release_if (ub_seg dev) (KSeg (ub_seg dev));
  _ ← release_if (ub_token_id dev) (KToken (ub_token_id dev));
  _ ← release_if (ub_ub_dev dev) (KUb (ub_ub_dev dev));
  mret (uset_urma 0 0 0 (ub_ubva_addr dev) (ub_token_id_val dev) dev).

(** ** The gendisk *)

Definition urma_blkdev_init_tag_set (dev : urma_blkdev_device) : urma_blkdev_device :=
  uset_disk (ub_disk dev) (ub_settings dev) (Some (mk_tag_set 1 128 0)) dev.

Definition urma_blkdev_alloc_disk (env : urma_env) (major logical_block_size : Z)
    (dev : urma_blkdev_device) : km (Z * urma_blkdev_device) :=
  let dev := urma_blkdev_init_tag_set dev in
  let ret := ue_alloc_tag_set env in
  if negb (ret =? 0) then mret (ret, dev) else
  _ ← acquire KTagSet;
  let disk := ue_alloc_disk env in
  if IS_ERR disk then
    _ ← release KTagSet;
    mret (disk, uset_disk disk (ub_settings dev) (ub_tag_set dev) dev)
  else
  _ ← acquire (KDisk disk);
  capacity ← kmem (udiv (ub_ramdisk_size dev) logical_block_size);
  let dev := uset_disk disk (Some (mk_settings major 0 1 logical_block_size logical_block_size
                                     1024 capacity true)) (ub_tag_set dev) dev in
  let ret := ue_add_disk env in
  if negb (ret =? 0) then
    _ ← release (KDisk disk);
    _ ← release KTagSet;
    mret (ret, dev)
  else
  _ ← acquire (KAdded disk);
  mret (0, dev).

Definition urma_blkdev_free_disk (dev : urma_blkdev_device) : km urma_blkdev_device :=
  _ ← release_if (ub_disk dev) (KAdded (ub_disk dev));
  _ ← release_if (ub_disk dev) (KDisk (ub_disk dev));
  _ ← release KTagSet;
  mret (uset_disk 0 (ub_settings dev) (ub_tag_set dev) dev).

(** ** The memory region *)

Definition urma_blkdev_alloc_ramdisk (env : urma_env) (device_size_mb : Z)
    (dev : urma_blkdev_device) : km (Z * urma_blkdev_device) :=
  let size := u64 (Z.shiftl device_size_mb 20) in
  p ← kmem (vmalloc_user (ue_vmalloc env) size);
  let dev := uset_ram p size dev in
  if is_null p then mret (- ENOMEM, dev) else
  _ ← kmem (memset p 0 size);
  mret (0, dev).

Definition urma_blkdev_free_ramdisk (dev : urma_blkdev_device) : km urma_blkdev_device :=
  if is_null (ub_ramdisk_addr dev) then mret dev else
  _ ← kmem (free (ub_ramdisk_addr dev));
  mret (uset_ram Null 0 dev).

(** ** Load and unload

    The module's state: the major number and, when the device exists, the
    device with its requests, reference count and callbacks. *)

Definition urma_globals : Type := Z * option io_world.

(** Stopping the queue also gives the workqueue back. *)
Definition cleanup_queue (rcs : nat -> Z) (w : io_world) : km io_world := fun k =>
  match urma_blkdev_cleanup_io_queue rcs w with
  | Some (Some w') =>
      (_ ← release_if (ub_io_wq (iw_dev w)) (KWq (ub_io_wq (iw_dev w))); mret w') k
  | _ => None
  end.

Definition urma_blkdev_init (env : urma_env) (device_size_mb logical_block_size queue_depth refs : Z)
    : km (Z * urma_globals) :=
  let major := ue_major env in
  if major <? 0 then mret (major, (major, None)) else
  _ ← acquire (KMajor major);
  let err_unregister ret := (_ ← release (KMajor major); mret (ret, (major, None))) in
  if negb (ue_kzalloc env) then err_unregister (- ENOMEM) else
  _ ← acquire KDev;
  let err_free_dev ret := (_ ← release KDev; err_unregister ret) in
  let '(ret, dev) := urma_blkdev_init_io_queue queue_depth (ue_wq env) udev_zero in
  if negb (ret =? 0) then err_free_dev ret else
  _ ← acquire (KWq (ue_wq env));
  let err_cleanup_queue ret dev :=
    (_ ← cleanup_queue (fun _ => 0) (mk_iow dev ∅ refs [] false); err_free_dev ret) in
  '(ret, dev) ← urma_blkdev_alloc_ramdisk env device_size_mb dev;
  if negb (ret =? 0) then err_cleanup_queue ret dev else
  ub ← urma_blkdev_find_device env;
  let dev := uset_urma ub (ub_token_id dev) (ub_seg dev) (ub_ubva_addr dev) (ub_token_id_val dev) dev in
  '(_, dev) ← urma_blkdev_setup_urma env dev;
  '(ret, dev) ← urma_blkdev_alloc_disk env major logical_block_size dev;
  if negb (ret =? 0) then
    dev ← urma_blkdev_cleanup_urma dev;
    dev ← urma_blkdev_free_ramdisk dev;
    err_cleanup_queue ret dev
  else mret (0, (major, Some (mk_iow dev ∅ refs [] false))).

Definition urma_blkdev_exit (rcs : nat -> Z) (g : urma_globals) : km (urma_globals * list (Z * Z)) :=
  log ← match snd g with
        | Some w =>
            w ← cleanup_queue rcs w;
            dev ← urma_blkdev_free_disk (iw_dev w);
            dev ← urma_blkdev_cleanup_urma dev;
            _ ← urma_blkdev_free_ramdisk dev;
            _ ← release KDev;
            mret (iw_log w)
        | None => mret []
        end;
  _ ← release (KMajor (fst g));
  mret ((fst g, None), log).

(** ** Resource lemmas *)

(** Handles are not [NULL], addresses have 64 bits. *)
Record urma_env_ok (env : urma_env) : Prop := mk_uenv_ok {
  ueo_disk : ue_alloc_disk env <> 0;
  ueo_va : is_u64 (ue_seg_va env);
  ueo_phys : is_u64 (ue_virt_to_phys env)
}.

Definition held_ub (ub : Z) : list kres := if ub =? 0 then [] else [KUb ub].

(** What a device holds of URMA. *)
Definition urma_held (dev : urma_blkdev_device) : list kres :=
  (if ub_seg dev =? 0 then [] else [KSeg (ub_seg dev); KToken (ub_token_id dev)]) ++
  held_ub (ub_ub_dev dev).

(** The segment and its token come together, and only with a device. *)
Definition urma_ok (dev : urma_blkdev_device) : Prop :=
  (ub_seg dev = 0 /\ ub_token_id dev = 0) \/
  (ub_seg dev <> 0 /\ ub_token_id dev <> 0 /\ ub_ub_dev dev <> 0).

Definition same_but_urma (dev dev' : urma_blkdev_device) : Prop :=
  exists ub token seg ubva tokv, dev' = uset_urma ub token seg ubva tokv dev /\
    (is_u64 (ub_ubva_addr dev) -> is_u64 ubva).

Lemma find_device_ok env h l :
  exists d, urma_blkdev_find_device env (mk_kern h l) = Some (d, mk_kern h (held_ub d ++ l)).
Proof.
  unfold urma_blkdev_find_device. set (d := match ue_ub_dev_name env with Some _ => _ | None => _ end).
  destruct (Z.eqb_spec d 0) as [->|Hn]; kstep; [exists 0; auto|]. exists d. unfold held_ub.
  apply Z.eqb_neq in Hn. rewrite Hn. reflexivity.
Qed.

Lemma setup_urma_ok env dev h l :
  urma_env_ok env -> ub_seg dev = 0 -> ub_token_id dev = 0 ->
  exists rc dev', urma_blkdev_setup_urma env dev (mk_kern h (held_ub (ub_ub_dev dev) ++ l))
    = Some ((rc, dev'), mk_kern h (urma_held dev' ++ l)) /\
    urma_ok dev' /\ same_but_urma dev dev'.
Proof.
  intros [_ Hva Hph] Hs Ht. unfold urma_blkdev_setup_urma, same_but_urma, urma_ok.
  destruct (Z.eqb_spec (ub_ub_dev dev) 0) as [Hu|Hu].
  { kstep. eexists _, (uset_urma 0 (ub_token_id dev) (ub_seg dev) (ue_virt_to_phys env) 0 dev).
    split; [|split; [cbn; auto|eauto 10]]. rewrite Hu. unfold urma_held. cbn. rewrite Hs. reflexivity. }
  apply Z.eqb_neq in Hu as Hu'. destruct (Z.eqb_spec (ue_token env) 0) as [Hk|Hk].
  { kstep. exists (- ENOMEM), (uset_urma (ub_ub_dev dev) 0 (ub_seg dev) (ub_ubva_addr dev) (ub_token_id_val dev) dev).
    split; [|split; [cbn; auto|eauto 10]]. unfold urma_held. cbn. rewrite Hs. reflexivity. }
  kstep. destruct (Z.eqb_spec (ue_seg env) 0) as [Hg|Hg].
  { kstep. exists (- EINVAL), (uset_urma (ub_ub_dev dev) 0 0 (ub_ubva_addr dev) (ue_token_val env) dev).
    split; [|split; [cbn; auto|eauto 10]]. reflexivity. }
  kstep. exists 0, (uset_urma (ub_ub_dev dev) (ue_token env) (ue_seg env) (ue_seg_va env) (ue_token_val env) dev).
  split; [|split; [cbn; auto|eauto 10]]. unfold urma_held. cbn [ub_seg uset_urma ub_token_id ub_ub_dev].
  apply Z.eqb_neq in Hg. rewrite Hg. reflexivity.
Qed.

Lemma cleanup_urma_ok dev h l :
  urma_ok dev ->
  exists dev', urma_blkdev_cleanup_urma dev (mk_kern h (urma_held dev ++ l))
    = Some (dev', mk_kern h l) /\ same_but_urma dev dev'.
Proof.
  unfold urma_ok, urma_held, held_ub, urma_blkdev_cleanup_urma, release_if, same_but_urma.
  intros [(E1 & E2)|(E1 & E2 & E3)].
  - rewrite E1, E2. cbn [Z.eqb]. kstep.
    destruct (Z.eqb_spec (ub_ub_dev dev) 0); cbn [app]; kstep; eauto 10.
  - apply Z.eqb_neq in E1, E2, E3. rewrite E1, E2, E3. cbn [app]. kstep. eauto 10.
Qed.

Definition udisk_comes_up (env : urma_env) : bool :=
  (ue_alloc_tag_set env =? 0) && (0 <? ue_alloc_disk env) && (ue_add_disk env =? 0).

Lemma ualloc_disk_ok env major lbs dev h l :
  urma_env_ok env -> lbs <> 0 ->
  exists rc s t disk, urma_blkdev_alloc_disk env major lbs dev (mk_kern h l)
    = (if udisk_comes_up env
      then Some ((0, uset_disk (ue_alloc_disk env)
             (Some (mk_settings major 0 1 lbs lbs 1024 (ub_ramdisk_size dev / lbs) true))
             (Some (mk_tag_set 1 128 0)) dev),
           mk_kern h (KAdded (ue_alloc_disk env) :: KDisk (ue_alloc_disk env) :: KTagSet :: l))
      else Some ((rc, uset_disk disk s t dev), mk_kern h l)) /\ rc <> 0.
Proof.
  intros He Hl. unfold urma_blkdev_alloc_disk, udisk_comes_up. pose proof (ueo_disk _ He) as Hd.
  destruct (Z.eqb_spec (ue_alloc_tag_set env) 0) as [_|Ht]; cbn [negb andb].
  2:{ eexists _, _, _, _. split; [reflexivity|auto]. }
  kstep. destruct (IS_ERR (ue_alloc_disk env)) eqn:Ee; unfold IS_ERR in Ee.
  { destruct (0 <? _) eqn:?; [lia|]. kstep. eexists _, _, _, _. split; [reflexivity|lia]. }
  destruct (0 <? _) eqn:?; [|lia]. cbn [andb]. kstep. unfold kmem at 1, udiv at 1.
  destruct (Z.eqb_spec lbs 0); [lia|]. cbn [k_heap k_res]. mstep.
  destruct (Z.eqb_spec (ue_add_disk env) 0); cbn [negb]; kstep.
  - exists 1, None, None, 0. split; [reflexivity|lia].
  - eexists _, _, _, _. split; [reflexivity|auto].
Qed.

Lemma ufree_disk_ok dev disk h l :
  disk <> 0 -> ub_disk dev = disk ->
  urma_blkdev_free_disk dev (mk_kern h (KAdded disk :: KDisk disk :: KTagSet :: l))
  = Some (uset_disk 0 (ub_settings dev) (ub_tag_set dev) dev, mk_kern h l).
Proof.
  intros Hd E. unfold urma_blkdev_free_disk, release_if. rewrite E.
  apply Z.eqb_neq in Hd. rewrite Hd. kstep. reflexivity.
Qed.

Lemma ualloc_ramdisk_ok env mb dev h l :
  urma_blkdev_alloc_ramdisk env mb dev (mk_kern h l)
  = if ue_vmalloc env && negb (ram_size mb =? 0)
    then Some ((0, uset_ram (Ptr (h_next h) 0) (ram_size mb) dev),
               mk_kern (snd (halloc (replicate (Z.to_nat (ram_size mb)) 0) h)) l)
    else Some ((- ENOMEM, uset_ram Null (ram_size mb) dev), mk_kern h l).
Proof.
  unfold urma_blkdev_alloc_ramdisk. fold (ram_size mb). rewrite vmalloc_zeroed.
  destruct (_ && _); [|reflexivity]. cbn [is_null]. kstep. rewrite memset_zeroed. reflexivity.
Qed.

Lemma ufree_ramdisk_ok dev h l n d :
  ub_ramdisk_addr dev = Ptr n 0 -> h_blocks h !! n = Some d ->
  urma_blkdev_free_ramdisk dev (mk_kern h l) = Some (uset_ram Null 0 dev, mk_kern (hdel n h) l).
Proof.
  intros Ha Hb. unfold urma_blkdev_free_ramdisk. rewrite Ha. cbn [is_null]. kstep.
  unfold kmem. cbn [k_heap k_res]. erewrite free_ok by eauto. reflexivity.
Qed.

Lemma cleanup_queue_ok base s rcs h l1 l :
  io_inv base s -> is_wk s = WEnd -> is_sub s = ∅ -> ub_stopping (iw_dev (is_w s)) = false ->
  KWq (ub_io_wq (iw_dev (is_w s))) ∉ l1 ->
  exists lv, Forall2 (has_priv (iw_reqs (is_w s))) (ub_pending_list (iw_dev (is_w s))) lv /\
    cleanup_queue rcs (is_w s) (mk_kern h (l1 ++ KWq (ub_io_wq (iw_dev (is_w s))) :: l))
    = Some (mk_iow (set_queue [] ∅ 0 0 0 (ub_next_wr_id (iw_dev (is_w s))) true (iw_dev (is_w s)))
              ∅ base (iw_log (is_w s) ++ ((fun v => (v, - ESHUTDOWN)) <$> lv)) false,
            mk_kern h (l1 ++ l)).
Proof.
  intros I Ep Es Hst Hn. destruct (cleanup_io_queue_full base s rcs I Ep Es Hst) as (lv & Fl & E).
  exists lv. split; [auto|]. unfold cleanup_queue, release_if. rewrite E.
  pose proof (iv_wq _ _ I (or_introl Hst)) as Hq. apply Z.eqb_neq in Hq. rewrite Hq. kstep.
  rewrite release_under by auto. reflexivity.
Qed.

(** ** Loading and unloading *)

Definition urma_loads (env : urma_env) (mb : Z) : bool :=
  (0 <=? ue_major env) && ue_kzalloc env && negb (ue_wq env =? 0) &&
  (ue_vmalloc env && negb (ram_size mb =? 0)) && udisk_comes_up env.

(** Everything the loaded module holds, above [l]. *)
Definition urma_loaded (env : urma_env) (dev : urma_blkdev_device) (l : list kres) : list kres :=
  [KAdded (ue_alloc_disk env); KDisk (ue_alloc_disk env); KTagSet] ++ urma_held dev ++
  KWq (ue_wq env) :: KDev :: KMajor (ue_major env) :: l.

Section Load.
Context (env : urma_env) (mb lbs depth refs : Z) (h : heap) (l : list kres).
Context (He : urma_env_ok env) (Hf : heap_fresh h) (Hlbs : lbs <> 0) (Hdepth : 0 <= depth < 2 ^ 31).

Let size := ram_size mb.
Let zeroes := replicate (Z.to_nat size) 0.
Let h1 := snd (halloc zeroes h).
Let depth' := if negb (depth =? 0) then depth else 1.

(** The device with its queue, before and after its memory is there. *)
Definition udev_queue : urma_blkdev_device :=
  mk_udev 0 None None Null 0 0 0 0 0 0 [] ∅ (ue_wq env) 0 0 0 depth' false.

Definition udev_mem : urma_blkdev_device := uset_ram (Ptr (h_next h) 0) size udev_queue.

Lemma size_u64 : is_u64 size.
Proof. apply u64_bound. Qed.

(** A device that differs from a fresh one in the other fields. *)
Definition from_queue (dev : urma_blkdev_device) : Prop :=
  exists disk s t p sz ub token seg ubva tokv,
    dev = uset_disk disk s t (uset_urma ub token seg ubva tokv (uset_ram p sz udev_queue)) /\
    is_u64 sz /\ is_u64 ubva.

Lemma from_queue_fresh dev : ue_wq env <> 0 -> from_queue dev -> io_fresh dev.
Proof.
  intros Hw (? & ? & ? & ? & ? & ? & ? & ? & ? & ? & -> & Hz & Hu). split; cbn; auto; [|split; auto].
  subst depth'. destruct (Z.eqb_spec depth 0); cbn [negb]; lia.
Qed.

(** The device once it is ready. *)
Record urma_ready (dev : urma_blkdev_device) : Prop := mk_urma_ready {
  ur_region : region_wf dev (h_next h) zeroes h1;
  ur_urma : urma_ok dev;
  ur_queue : io_fresh dev;
  ur_running : ub_stopping dev = false;
  ur_wq : ub_io_wq dev = ue_wq env;
  ur_disk : ub_disk dev = ue_alloc_disk env;
  ur_settings : ub_settings dev
    = Some (mk_settings (ue_major env) 0 1 lbs lbs 1024 (size / lbs) true)
}.

Lemma queue_init : ue_wq env <> 0 ->
  urma_blkdev_init_io_queue depth (ue_wq env) udev_zero = (0, udev_queue).
Proof.
  intros Hw. unfold urma_blkdev_init_io_queue. apply Z.eqb_neq in Hw. rewrite Hw. reflexivity.
Qed.

(** The error path that stops a queue nothing was submitted to. *)
Lemma cleanup_unused dev h' :
  ue_wq env <> 0 -> from_queue dev ->
  exists w', cleanup_queue (fun _ => 0) (mk_iow dev ∅ refs [] false)
    (mk_kern h' (KWq (ue_wq env) :: KDev :: KMajor (ue_major env) :: l))
  = Some (w', mk_kern h' (KDev :: KMajor (ue_major env) :: l)).
Proof.
  intros Hw Hq. pose proof (io_inv_init refs dev (from_queue_fresh dev Hw Hq)) as I.
  assert (Eq : ub_io_wq dev = ue_wq env /\ ub_stopping dev = false)
    by (destruct Hq as (? & ? & ? & ? & ? & ? & ? & ? & ? & ? & -> & _); auto).
  destruct Eq as [Eq Est].
  destruct (cleanup_queue_ok refs (io_start dev refs) (fun _ => 0) h' []
    (KDev :: KMajor (ue_major env) :: l) I) as (lv & _ & E); auto.
  { apply not_elem_of_nil. }
  cbn [io_start is_w iw_dev app] in E. rewrite Eq in E. eauto.
Qed.

(** What is held when the queue is there. *)
Let lq := KWq (ue_wq env) :: KDev :: KMajor (ue_major env) :: l.

(** From the search for a device up to the gendisk, when memory is there. *)
Lemma prepare_ok : exists ub rc d0,
  urma_blkdev_find_device env (mk_kern h1 lq) = Some (ub, mk_kern h1 (held_ub ub ++ lq)) /\
  urma_blkdev_setup_urma env (uset_urma ub 0 0 0 0 udev_mem) (mk_kern h1 (held_ub ub ++ lq))
  = Some ((rc, d0), mk_kern h1 (urma_held d0 ++ lq)) /\
  urma_ok d0 /\ exists ub' token seg ubva tokv, is_u64 ubva /\
    d0 = uset_urma ub' token seg ubva tokv udev_mem.
Proof.
  destruct (find_device_ok env h1 lq) as (ub & E).
  destruct (setup_urma_ok env (uset_urma ub 0 0 0 0 udev_mem) h1 lq He eq_refl eq_refl)
    as (rc & d0 & E' & Hok & (ub' & token & seg & ubva & tokv & -> & Hu)).
  eexists ub, rc, _. split; [exact E|]. split; [exact E'|]. split; [exact Hok|].
  exists ub', token, seg, ubva, tokv. split; [|reflexivity]. apply Hu. cbn. int_lia.
Qed.

Lemma uinit_loaded : urma_loads env mb = true ->
  exists dev, urma_blkdev_init env mb lbs depth refs (mk_kern h l)
    = Some ((0, (ue_major env, Some (mk_iow dev ∅ refs [] false))),
            mk_kern h1 (urma_loaded env dev l)) /\ urma_ready dev.
Proof.
  unfold urma_loads. rewrite !andb_true_iff, negb_true_iff.
  intros [[[[H1 H2] H3] H4] H5]. apply Z.eqb_neq in H3.
  unfold urma_blkdev_init. destruct (_ <? 0) eqn:?; [lia|]. rewrite H2. cbn [negb]. kstep.
  rewrite queue_init by auto. cbn [negb Z.eqb]. kstep.
  rewrite ualloc_ramdisk_ok. rewrite (proj2 (andb_true_iff _ _) H4). cbn [negb Z.eqb]. kstep.
  fold size zeroes h1 udev_mem. fold lq.
  destruct prepare_ok as (ub & rc & d0 & E1 & E2 & Hok & (ub' & token & seg & ubva & tokv & Hu & Ed)).
  rewrite E1. cbn beta iota. kstep. cbn [ub_token_id ub_seg ub_ubva_addr ub_token_id_val udev_mem
    uset_ram udev_queue]. fold udev_queue. fold udev_mem. rewrite E2. cbn beta iota. kstep.
  destruct (ualloc_disk_ok env (ue_major env) lbs d0 h1 (urma_held d0 ++ lq) He Hlbs)
    as (rc' & s & t & disk & E' & _). rewrite H5 in E'. rewrite E'. cbn beta iota.
  exists (uset_disk (ue_alloc_disk env)
    (Some (mk_settings (ue_major env) 0 1 lbs lbs 1024 (ub_ramdisk_size d0 / lbs) true))
    (Some (mk_tag_set 1 128 0)) d0).
  split; [reflexivity|]. pose proof size_u64 as Hz. split; subst d0; cbn; auto.
  - split; cbn; auto; [apply lookup_insert_eq|]. unfold zeroes. rewrite zlength_replicate; int_lia.
  - apply from_queue_fresh; auto. eexists _, _, _, _, _, _, _, _, _, _. split; [reflexivity|auto].
Qed.

Lemma uinit_refused : urma_loads env mb = false ->
  exists rc major k', urma_blkdev_init env mb lbs depth refs (mk_kern h l)
    = Some ((rc, (major, None)), k') /\
    rc <> 0 /\ k_res k' = l /\ h_blocks (k_heap k') = h_blocks h.
Proof.
  unfold urma_loads, urma_blkdev_init. intros Hl.
  destruct (Z.ltb_spec (ue_major env) 0).
  { eexists _, _, _. split; [reflexivity|cbn; split_and!; auto; lia]. }
  assert ((0 <=? ue_major env) = true) as Em by lia. rewrite Em in Hl.
  destruct (ue_kzalloc env); cbn [andb negb] in *; kstep.
  2:{ eexists _, _, _. split; [reflexivity|]. auto. }
  destruct (Z.eqb_spec (ue_wq env) 0) as [Hw|Hw]; cbn [negb andb] in Hl.
  { unfold urma_blkdev_init_io_queue. rewrite Hw. cbn [Z.eqb].
    change (negb (- ENOMEM =? 0)) with true. kstep. eexists _, _, _. split; [reflexivity|]. auto. }
  rewrite queue_init by auto. cbn [negb Z.eqb]. kstep.
  rewrite ualloc_ramdisk_ok. fold size. destruct (ue_vmalloc env && _); cbn [negb andb] in *.
  2:{ kstep. change (negb (- ENOMEM =? 0)) with true. kstep.
      destruct (cleanup_unused (uset_ram Null size udev_queue) h Hw) as (w' & ->).
      { exists 0, None, None, Null, size, 0, 0, 0, 0, 0. split; [reflexivity|].
        pose proof size_u64. int_lia. }
      kstep. eexists _, _, _. split; [reflexivity|]. auto. }
  cbn [Z.eqb negb]. kstep. fold zeroes h1 udev_mem. fold lq.
  destruct prepare_ok as (ub & rc & d0 & E1 & E2 & Hok & (ub' & token & seg & ubva & tokv & Hu & Ed)).
  rewrite E1. cbn beta iota. kstep. cbn [ub_token_id ub_seg ub_ubva_addr ub_token_id_val udev_mem
    uset_ram udev_queue]. fold udev_queue. fold udev_mem. rewrite E2. cbn beta iota. kstep.
  destruct (ualloc_disk_ok env (ue_major env) lbs d0 h1 (urma_held d0 ++ lq) He Hlbs)
    as (rc' & s & t & disk & E' & Hrc). rewrite Hl in E'. rewrite E'. cbn beta iota.
  apply Z.eqb_neq in Hrc as Hrc'. rewrite Hrc'. cbn [negb]. kstep.
  destruct (cleanup_urma_ok (uset_disk disk s t d0) h1 lq Hok)
    as (d1 & E3 & (ub2 & token2 & seg2 & ubva2 & tokv2 & Ed1 & Hu2)).
  change (urma_held (uset_disk disk s t d0)) with (urma_held d0) in E3. rewrite E3. kstep.
  erewrite ufree_ramdisk_ok; [|subst d1 d0; reflexivity|cbn; apply lookup_insert_eq]. kstep.
  destruct (cleanup_unused (uset_ram Null 0 d1) (hdel (h_next h) h1) Hw) as (w' & E4).
  { exists disk, s, t, Null, 0, ub2, token2, seg2, ubva2, tokv2. subst d1 d0.
    split; [reflexivity|]. split; [int_lia|]. apply Hu2. auto. }
  unfold lq. rewrite E4. kstep. eexists _, _, _. split; [reflexivity|]. split; [auto|].
  split; [reflexivity|]. cbn [k_heap]. apply hdel_halloc. auto.
Qed.

(** Unloading from any state of the queue with no thread inside. *)
Lemma uexit_loaded dev s rcs :
  urma_ready dev -> io_reachable (io_start dev refs) s -> is_wk s = WEnd -> is_sub s = ∅ ->
  ub_stopping (iw_dev (is_w s)) = false ->
  exists lv k', Forall2 (has_priv (iw_reqs (is_w s))) (ub_pending_list (iw_dev (is_w s))) lv /\
    urma_blkdev_exit rcs (ue_major env, Some (is_w s)) (mk_kern h1 (urma_loaded env dev l))
    = Some (((ue_major env, None), iw_log (is_w s) ++ ((fun v => (v, - ESHUTDOWN)) <$> lv)), k') /\
    k_res k' = l /\ h_blocks (k_heap k') = h_blocks h.
Proof.
  intros R Hr Ep Es Hst. destruct R as [Rr Ru Rq Rn Rw Rd _].
  pose proof (io_reachable_inv refs _ _ (io_inv_init refs dev Rq) Hr) as I.
  pose proof (io_reachable_dev dev (io_start dev refs) s (same_but_queue_refl dev) Hr) as
    (pl & ir & wq & pend & infl & wr & stop & Ed & Hwq).
  assert (Hq : ub_io_wq (iw_dev (is_w s)) = ue_wq env).
  { rewrite <- Rw, Ed. apply Hwq. rewrite Ed in Hst. exact Hst. }
  destruct (cleanup_queue_ok refs s rcs h1
    ([KAdded (ue_alloc_disk env); KDisk (ue_alloc_disk env); KTagSet] ++ urma_held dev)
    (KDev :: KMajor (ue_major env) :: l) I Ep Es Hst) as (lv & Fl & E).
  { unfold urma_held, held_ub. rewrite !elem_of_app, !elem_of_cons.
    repeat case_if; rewrite ?elem_of_cons, ?elem_of_nil; intuition discriminate. }
  rewrite Hq in E. unfold urma_blkdev_exit, urma_loaded. cbn [fst snd]. kstep.
  rewrite <- app_assoc in E. rewrite E. kstep. cbn [iw_dev app iw_log].
  set (dq := set_queue [] ∅ 0 0 0 _ true (iw_dev (is_w s))).
  rewrite ufree_disk_ok; [|exact (ueo_disk _ He)|subst dq; rewrite Ed; exact Rd]. kstep.
  set (dd := uset_disk 0 (ub_settings dq) (ub_tag_set dq) dq).
  assert (Hh : urma_held dd = urma_held dev /\ urma_ok dd /\ ub_ramdisk_addr dd = Ptr (h_next h) 0).
  { subst dd dq. rewrite Ed. split; [reflexivity|]. split; [exact Ru|exact (rg_addr _ _ _ _ Rr)]. }
  destruct Hh as (Hh & Hok & Ha).
  destruct (cleanup_urma_ok dd h1 (KDev :: KMajor (ue_major env) :: l) Hok)
    as (d1 & E3 & (ub2 & token2 & seg2 & ubva2 & tokv2 & Ed1 & _)).
  rewrite Hh in E3. rewrite E3. kstep.
  erewrite ufree_ramdisk_ok; [|subst d1; exact Ha|cbn; apply lookup_insert_eq]. kstep.
  eexists lv, _. split; [exact Fl|]. split; [reflexivity|]. split; [reflexivity|].
  cbn [k_heap]. apply hdel_halloc. auto.
Qed.

End Load.

(** ** Properties *)

(** C14.  Loading and unloading the URMA module balance for every combination of
    failures of the kernel services.  The load succeeds exactly when the major
    number, the struct, the workqueue, the memory and the gendisk are obtained;
    without a URMA device, token or segment the module still loads and holds
    none of the segment's objects.  A failed load gives everything back.  After
    a successful one the direct-I/O queue is fresh, and from any state of the
    queue with no thread inside unloading calls back what is pending with
    -ESHUTDOWN and gives everything back. *)
Theorem urma_load_unload env mb lbs depth refs h l :
  urma_env_ok env -> heap_fresh h -> lbs <> 0 -> 0 <= depth < 2 ^ 31 ->
  if urma_loads env mb then
    exists dev k, urma_blkdev_init env mb lbs depth refs (mk_kern h l)
      = Some ((0, (ue_major env, Some (mk_iow dev ∅ refs [] false))), k) /\
      region_wf dev (h_next h) (replicate (Z.to_nat (ram_size mb)) 0) (k_heap k) /\
      urma_ok dev /\ io_fresh dev /\ ub_stopping dev = false /\
      forall s rcs, io_reachable (io_start dev refs) s -> is_wk s = WEnd -> is_sub s = ∅ ->
        ub_stopping (iw_dev (is_w s)) = false ->
        exists lv k', Forall2 (has_priv (iw_reqs (is_w s))) (ub_pending_list (iw_dev (is_w s))) lv /\
          urma_blkdev_exit rcs (ue_major env, Some (is_w s)) k
          = Some (((ue_major env, None),
                   iw_log (is_w s) ++ ((fun v => (v, - ESHUTDOWN)) <$> lv)), k') /\
          k_res k' = l /\ h_blocks (k_heap k') = h_blocks h
  else
    exists rc major k, urma_blkdev_init env mb lbs depth refs (mk_kern h l)
      = Some ((rc, (major, None)), k) /\
      rc <> 0 /\ k_res k = l /\ h_blocks (k_heap k) = h_blocks h.
Proof.
  intros He Hf Hl Hd. destruct (urma_loads env mb) eqn:E.
  - destruct (uinit_loaded env mb lbs depth refs h l He Hl Hd E) as (dev & Ei & R).
    eexists dev, _. split; [exact Ei|]. pose proof R as [R1 R2 R3 R4 _ _ _].
    split; [exact R1|]. split; [exact R2|]. split; [exact R3|]. split; [exact R4|]. intros s rcs Hr Ep Es Hst.
    exact (uexit_loaded env mb lbs depth refs h l He Hf Hd dev s rcs R Hr Ep Es Hst).
  - exact (uinit_refused env mb lbs depth refs h l He Hf Hl Hd E).
Qed.

Definition ex_urma_env (seg add : Z) : urma_env :=
  mk_urma_env 241 true 9 true None [0; 6; 8] 5 55 seg 1048576 8192 0 13 add.

Lemma ex_urma_env_ok seg add : urma_env_ok (ex_urma_env seg add).
Proof. split; cbn [ex_urma_env ue_alloc_disk ue_seg_va ue_virt_to_phys]; int_lia. Defined.

Lemma urma_load_unload_witness :
  (exists dev k k', urma_blkdev_init (ex_urma_env 7 0) 1 512 16 1 (mk_kern heap_empty [])
     = Some ((0, (241, Some (mk_iow dev ∅ 1 [] false))), k) /\
     urma_blkdev_exit (fun _ => 0) (241, Some (mk_iow dev ∅ 1 [] false)) k
     = Some (((241, None), []), k') /\ k_res k' = []) /\
  (exists rc major k, urma_blkdev_init (ex_urma_env 0 (- EBUSY)) 1 512 16 1 (mk_kern heap_empty [])
     = Some ((rc, (major, None)), k) /\ k_res k = []).
Proof.
  split.
  - pose proof (urma_load_unload (ex_urma_env 7 0) 1 512 16 1 heap_empty []
      (ex_urma_env_ok _ _) heap_empty_fresh ltac:(lia) ltac:(lia)) as H.
    destruct H as (dev & k & Ei & _ & _ & F & Hst & Hx).
    destruct (Hx (io_start dev 1) (fun _ => 0)) as (lv & k' & Fl & Ee & Hk & _).
    + apply io_here.
    + reflexivity.
    + reflexivity.
    + exact Hst.
    + exists dev, k, k'. split; [exact Ei|]. split; [|exact Hk].
      cbn [io_start is_w iw_dev iw_log app] in *. rewrite (if_list _ F) in Fl.
      apply Forall2_nil_inv_l in Fl. rewrite Fl in Ee. exact Ee.
  - pose proof (urma_load_unload (ex_urma_env 0 (- EBUSY)) 1 512 16 1 heap_empty []
      (ex_urma_env_ok _ _) heap_empty_fresh ltac:(lia) ltac:(lia)) as H.
    destruct H as (rc & major & k & Ei & _ & Hk & _). exists rc, major, k.
    split; [exact Ei|exact Hk].
Defined.
