(* ===== verification/KernelRq.v ===== *)
(** * The request path of the kernel drivers

    What [rdma_blkdev_queue_rq] and [urma_blkdev_queue_rq] do for the requests
    the block layer hands over, for both drivers at once. *)

From S2P Require Import Prelude.
From S2P Require Import Mem.
From S2P Require Import KernelBlk.
From S2P Require Import RdmaBlk.
From S2P Require Import UrmaIo.
From S2P Require Import UrmaBlk.

(** A device of either driver. *)
Definition kernel_dev : Type := rdma_blkdev_device + urma_blkdev_device.

Definition kernel_queue_rq (lbs : Z) (d : kernel_dev) (rq : request) : mem rq_result :=
  match d with
  | inl r => rdma_blkdev_queue_rq lbs r rq
  | inr u => urma_blkdev_queue_rq lbs u rq
  end.

#[export] Instance kernel_blk_driver : BlkDriver kernel_dev := {
  bd_addr := fun d => match d with inl r => rb_ramdisk_addr r | inr u => ub_ramdisk_addr u end;
  bd_size := fun d => match d with inl r => rb_ramdisk_size r | inr u => ub_ramdisk_size u end;
  bd_queue_rq := kernel_queue_rq
}.

#[export] Instance kernel_blk_laws : BlkLaws kernel_dev.
Proof.
  split; intros lbs [r|u].
  - exact (bd_reject (D := rdma_blkdev_device) lbs r).
  - exact (bd_reject (D := urma_blkdev_device) lbs u).
  - exact (bd_accept (D := rdma_blkdev_device) lbs r).
  - exact (bd_accept (D := urma_blkdev_device) lbs u).
Qed.

(** ** Properties *)

(** C10.  Every request the block layer can form for the announced capacity is
    served, whatever the logical block size (at least a sector): no access
    outside the region or the segments, no wrap-around in the range check,
    exactly one ending with BLK_STS_OK.  A write puts the concatenation of its
    segments at byte [sector * logical_block_size] and changes nothing else; a
    read fills its segments, in order, with the bytes from there and leaves the
    region alone. *)
Theorem kernel_queue_rq_serves lbs (d : kernel_dev) b bs h rq :
  SECTOR_SIZE <= lbs -> region_wf d b bs h -> admitted lbs d b h rq ->
  exists h', kernel_queue_rq lbs d rq h = Some ((BLK_STS_OK, [BLK_STS_OK]), h') /\
    if rq_is_write rq
    then h' = hset b (splice (blk_rq_pos rq * lbs) (gather (rq_segments rq) h) bs) h /\
         region_wf d b (splice (blk_rq_pos rq * lbs) (gather (rq_segments rq) h) bs) h'
    else region_wf d b bs h' /\
         gather (rq_segments rq) h' = slice (blk_rq_pos rq * lbs) (blk_rq_bytes rq) bs.
Proof.
  intros Hl W A. destruct (rq_is_write rq) eqn:Ew.
  - eexists. split; [exact (admitted_write lbs d b bs h Hl W rq A Ew)|].
    split; [reflexivity|]. exact (region_wf_write lbs d b bs h Hl W rq A).
  - destruct (admitted_read lbs d b bs h Hl W rq A Ew) as (h' & E & W' & G). eauto.
Qed.

(** C13.  With the default logical block size of 512 bytes the device behaves as
    an array of sectors: after a write of any sectors, a read of any part of
    them, however both are cut into requests and segments, returns the bytes
    written. *)
Theorem kernel_sector_roundtrip (d : kernel_dev) b bs h wr h' rd :
  region_wf d b bs h -> admitted SECTOR_SIZE d b h wr -> rq_is_write wr = true ->
  kernel_queue_rq SECTOR_SIZE d wr h = Some ((BLK_STS_OK, [BLK_STS_OK]), h') ->
  admitted SECTOR_SIZE d b h' rd -> rq_is_write rd = false ->
  blk_rq_pos wr <= blk_rq_pos rd ->
  blk_rq_pos rd * SECTOR_SIZE + blk_rq_bytes rd <= blk_rq_pos wr * SECTOR_SIZE + blk_rq_bytes wr ->
  exists h'', kernel_queue_rq SECTOR_SIZE d rd h' = Some ((BLK_STS_OK, [BLK_STS_OK]), h'') /\
    gather (rq_segments rd) h''
    = slice ((blk_rq_pos rd - blk_rq_pos wr) * SECTOR_SIZE) (blk_rq_bytes rd)
        (gather (rq_segments wr) h).
Proof.
  intros W A Ew Hw A' Er Hp Hlen.
  pose proof (admitted_write SECTOR_SIZE d b bs h ltac:(reflexivity) W wr A Ew) as Ew'.
  cbn [bd_queue_rq kernel_blk_driver] in Ew'. rewrite Hw in Ew'. injection Ew' as Eh.
  pose proof (region_wf_write SECTOR_SIZE d b bs h ltac:(reflexivity) W wr A) as W'.
  rewrite <- Eh in W'.
  destruct (admitted_read SECTOR_SIZE d b _ h' ltac:(reflexivity) W' rd A' Er) as (h'' & E & _ & G).
  exists h''. split; [exact E|]. rewrite G.
  pose proof (admitted_range SECTOR_SIZE d b h ltac:(reflexivity) wr A) as (R1 & R2 & R3).
  pose proof (admitted_range SECTOR_SIZE d b h' ltac:(reflexivity) rd A') as (Q1 & Q2 & Q3).
  pose proof (rg_size _ _ _ _ W) as Hz.
  assert (Hg : zlength (gather (rq_segments wr) h) = blk_rq_bytes wr).
  { rewrite (gather_len b h) by eauto using ad_segs. apply (ad_len _ _ _ _ _ A). }
  unfold SECTOR_SIZE in *.
  rewrite <- (slice_splice_same (blk_rq_pos wr * 512) (gather (rq_segments wr) h) bs) at 2 by lia.
  rewrite slice_slice by lia. f_equal. lia.
Qed.

(** C37.  With a larger logical block size the same does not hold.  The drivers
    multiply the sector number, which counts 512 bytes, by the logical block
    size: after two blocks were written with one request at sector 0, reading
    the second block by itself (sector [lbs / 512]) returns whatever was at
    byte [lbs / 512 * lbs] before, not what was written. *)
Theorem kernel_large_block_lost k (d : kernel_dev) b bs h wr h' rd :
  let lbs := k * SECTOR_SIZE in
  2 <= k -> region_wf d b bs h ->
  admitted lbs d b h wr -> rq_is_write wr = true -> blk_rq_pos wr = 0 -> blk_rq_bytes wr = 2 * lbs ->
  kernel_queue_rq lbs d wr h = Some ((BLK_STS_OK, [BLK_STS_OK]), h') ->
  admitted lbs d b h' rd -> rq_is_write rd = false ->
  blk_rq_pos rd = lbs / SECTOR_SIZE -> blk_rq_bytes rd = lbs ->
  exists h'', kernel_queue_rq lbs d rd h' = Some ((BLK_STS_OK, [BLK_STS_OK]), h'') /\
    gather (rq_segments rd) h'' = slice (k * lbs) lbs bs.
Proof.
  intros lbs Hk W A Ew Ep Eb Hw A' Er Ep' Eb'.
  assert (Hl : SECTOR_SIZE <= lbs) by (subst lbs; unfold SECTOR_SIZE; lia).
  pose proof (admitted_write lbs d b bs h Hl W wr A Ew) as Ew'.
  cbn [bd_queue_rq kernel_blk_driver] in Ew'. rewrite Hw in Ew'. injection Ew' as Eh.
  pose proof (region_wf_write lbs d b bs h Hl W wr A) as W'. rewrite <- Eh in W'.
  destruct (admitted_read lbs d b _ h' Hl W' rd A' Er) as (h'' & E & _ & G).
  exists h''. split; [exact E|]. rewrite G, Ep', Eb', Ep.
  pose proof (admitted_range lbs d b h Hl wr A) as (R1 & R2 & R3).
  pose proof (admitted_range lbs d b h' Hl rd A') as (Q1 & Q2 & Q3).
  pose proof (rg_size _ _ _ _ W) as Hz.
  assert (Hg : zlength (gather (rq_segments wr) h) = 2 * lbs).
  { rewrite (gather_len b h) by eauto using ad_segs. rewrite (ad_len _ _ _ _ _ A). auto. }
  assert (Hq : lbs / SECTOR_SIZE = k) by (subst lbs; apply Z.div_mul; unfold SECTOR_SIZE; lia).
  rewrite Hq. rewrite Ep, Eb in R3. unfold SECTOR_SIZE in *.
  apply slice_splice_disjoint; try lia. right. rewrite Hg. subst lbs. nia.
Qed.

(** A request beyond the region is refused without touching memory, but it
    is ended twice: the driver ends it with BLK_STS_IOERR and then also returns
    BLK_STS_IOERR, on which the block layer ends it again.  The check is exact
    as long as the products stay below 2^64. *)
Theorem kernel_queue_rq_rejects lbs (d : kernel_dev) rq h :
  0 <= blk_rq_pos rq * lbs -> 0 <= blk_rq_bytes rq -> 0 <= bd_size d ->
  blk_rq_pos rq * lbs + blk_rq_bytes rq < 2 ^ 64 ->
  bd_size d < blk_rq_pos rq * lbs + blk_rq_bytes rq ->
  kernel_queue_rq lbs d rq h = Some ((BLK_STS_IOERR, [BLK_STS_IOERR]), h).
Proof.
  intros H1 H2 H3 H4 H5. change kernel_queue_rq with (bd_queue_rq (D := kernel_dev)).
  apply bd_reject.
  rewrite (u64_small (blk_rq_pos rq * lbs)) by int_lia. rewrite u64_small by int_lia. lia.
Qed.

(** ** Examples: a region of 4096 bytes in block 1, two pages. *)

Definition ex_rdev : rdma_blkdev_device := set_ram (Ptr 1 0) 4096 rdev_zero.

Definition ex_udev2 : urma_blkdev_device := uset_ram (Ptr 1 0) 4096 udev_zero.

Definition ex_blk_heap : heap :=
  {| h_next := 4;
     h_blocks := <[1 := replicate 4096 0]>
       (<[2 := replicate 2048 7]> (<[3 := replicate 1024 9]> ∅)) |}.

Lemma ex_rdev_wf : region_wf (inl ex_rdev : kernel_dev) 1 (replicate 4096 0) ex_blk_heap.
Proof. split; try reflexivity. cbn. int_lia. Defined.

Lemma ex_udev_wf : region_wf (inr ex_udev2 : kernel_dev) 1 (replicate 4096 0) ex_blk_heap.
Proof. split; try reflexivity. cbn. int_lia. Defined.

(** Two segments of 512 bytes of block 2, and one of block 3. *)
Definition ex_wr : request := mk_rq 2 true [mk_bvec (Ptr 2 512) 512; mk_bvec (Ptr 2 0) 512] 1024.

Definition ex_rd : request := mk_rq 3 false [mk_bvec (Ptr 3 0) 512] 512.

Lemma ex_seg_ok h vb o n bs b :
  vb <> b -> h_blocks h !! vb = Some bs -> 0 <= o -> 0 <= n -> o + n <= zlength bs ->
  seg_ok b h (mk_bvec (Ptr vb o) n).
Proof. intros. exists vb, o, bs. cbn. auto 10. Defined.

Lemma ex_seg2 o n : 0 <= o -> 0 <= n -> o + n <= 2048 ->
  seg_ok 1 ex_blk_heap (mk_bvec (Ptr 2 o) n).
Proof.
  intros. apply (ex_seg_ok ex_blk_heap 2 o n (replicate 2048 7) 1);
    [lia|vm_compute; reflexivity|auto|auto|].
  unfold zlength. rewrite length_replicate. lia.
Defined.

Lemma ex_wr_admitted d : bd_size d = 4096 -> admitted 512 (d : kernel_dev) 1 ex_blk_heap ex_wr.
Proof.
  intros Hs. split; try (cbn; int_lia); try reflexivity.
  - rewrite Hs. vm_compute. discriminate.
  - apply Forall_cons. split; [|apply Forall_cons; split; [|apply Forall_nil; exact I]].
    + apply (ex_seg2 512 512); lia.
    + apply (ex_seg2 0 512); lia.
  - cbn. split_and!; auto. apply Forall_cons. split; [|apply Forall_nil; exact I].
    unfold seg_disj. cbn. lia.
Defined.

(** The heap after a request, when it was served. *)
Definition heap_after (r : option (rq_result * heap)) : heap :=
  match r with Some (_, h) => h | None => heap_empty end.

(** A read of [n] bytes into block 3, after a request that left it alone. *)
Lemma ex_rd_admitted lbs (d : kernel_dev) h pos n :
  bd_size d = 4096 -> h_blocks h !! 3 = Some (replicate 1024 9) -> 0 <= pos -> 0 <= n <= 1024 ->
  n mod 512 = 0 -> pos + n / 512 <= 4096 / lbs ->
  admitted lbs d 1 h (mk_rq pos false [mk_bvec (Ptr 3 0) n] n).
Proof.
  intros Hs Hb Hp Hn Hm Hc. split; cbn [blk_rq_pos blk_rq_bytes rq_segments]; auto; try int_lia.
  - rewrite Hs. exact Hc.
  - cbn. lia.
  - apply Forall_cons. split; [|apply Forall_nil; exact I].
    eapply ex_seg_ok; eauto; try lia. unfold zlength. rewrite length_replicate. lia.
  - cbn. split; auto.
Defined.

Lemma kernel_queue_rq_serves_witness :
  exists h', kernel_queue_rq 512 (inr ex_udev2) ex_wr ex_blk_heap
    = Some ((BLK_STS_OK, [BLK_STS_OK]), h') /\
    region_wf (inr ex_udev2 : kernel_dev) 1 (splice 1024 (gather (rq_segments ex_wr) ex_blk_heap)
                                   (replicate 4096 0)) h'.
Proof.
  destruct (kernel_queue_rq_serves 512 (inr ex_udev2) 1 (replicate 4096 0) ex_blk_heap ex_wr
    ltac:(reflexivity) ex_udev_wf (ex_wr_admitted (inr ex_udev2) eq_refl)) as (h' & E & _ & W).
  exists h'. split; [exact E|exact W].
Defined.

Lemma kernel_sector_roundtrip_witness :
  exists h h'', kernel_queue_rq 512 (inl ex_rdev) ex_rd h = Some ((BLK_STS_OK, [BLK_STS_OK]), h'') /\
    gather (rq_segments ex_rd) h'' = replicate 512 7.
Proof.
  destruct (kernel_sector_roundtrip (inl ex_rdev) 1 (replicate 4096 0) ex_blk_heap ex_wr
    (heap_after (kernel_queue_rq 512 (inl ex_rdev) ex_wr ex_blk_heap)) ex_rd
    ex_rdev_wf (ex_wr_admitted (inl ex_rdev) eq_refl) eq_refl) as (h'' & E & G).
  - vm_compute. reflexivity.
  - apply (ex_rd_admitted 512 (inl ex_rdev) _ 3 512); try lia; vm_compute; reflexivity || discriminate.
  - reflexivity.
  - cbn. lia.
  - vm_compute. discriminate.
  - exists (heap_after (kernel_queue_rq 512 (inl ex_rdev) ex_wr ex_blk_heap)), h''.
    split; [exact E|]. rewrite G. vm_compute. reflexivity.
Defined.

(** With blocks of 1024 bytes: two blocks of sevens are written at sector 0. *)
Definition ex_wr_1k : request := mk_rq 0 true [mk_bvec (Ptr 2 0) 2048] 2048.

Lemma ex_wr_1k_admitted : admitted 1024 (inl ex_rdev : kernel_dev) 1 ex_blk_heap ex_wr_1k.
Proof.
  split; try (cbn; int_lia); try reflexivity.
  - apply Forall_cons. split; [|apply Forall_nil; exact I].
    apply (ex_seg2 0 2048); lia.
  - cbn. split; auto.
Defined.

Lemma kernel_large_block_lost_witness :
  exists h h'', kernel_queue_rq 1024 (inl ex_rdev) (mk_rq 2 false [mk_bvec (Ptr 3 0) 1024] 1024) h
      = Some ((BLK_STS_OK, [BLK_STS_OK]), h'') /\
    gather [mk_bvec (Ptr 3 0) 1024] h'' = replicate 1024 0.
Proof.
  destruct (kernel_large_block_lost 2 (inl ex_rdev) 1 (replicate 4096 0) ex_blk_heap ex_wr_1k
    (heap_after (kernel_queue_rq 1024 (inl ex_rdev) ex_wr_1k ex_blk_heap))
    (mk_rq 2 false [mk_bvec (Ptr 3 0) 1024] 1024)
    ltac:(lia) ex_rdev_wf ex_wr_1k_admitted eq_refl eq_refl eq_refl) as (h'' & E & G).
  - vm_compute. reflexivity.
  - apply (ex_rd_admitted 1024 (inl ex_rdev) _ 2 1024); try lia; vm_compute; reflexivity || discriminate.
  - reflexivity.
  - reflexivity.
  - reflexivity.
  - exists (heap_after (kernel_queue_rq 1024 (inl ex_rdev) ex_wr_1k ex_blk_heap)), h''.
    split; [exact E|]. cbn [rq_segments] in G. rewrite G. vm_compute. reflexivity.
Defined.

Lemma kernel_queue_rq_rejects_witness :
  kernel_queue_rq 512 (inl ex_rdev) (mk_rq 7 true [] 1024) ex_blk_heap
  = Some ((BLK_STS_IOERR, [BLK_STS_IOERR]), ex_blk_heap).
Proof.
  exact (kernel_queue_rq_rejects 512 (inl ex_rdev) (mk_rq 7 true [] 1024) ex_blk_heap
    ltac:(cbn; lia) ltac:(cbn; lia) ltac:(cbn; lia) ltac:(cbn; lia) ltac:(cbn; lia)).
Defined.
