(* ===== verification/Sysfs.v ===== *)
(** * Attributes and geometry of the block devices

    The [*_show] functions that print a device's keys and addresses for the
    remote side, and [getgeo], of kernel/rdma_blkdev.c and
    kernel-urma/urma_blkdev.c.  [pf] is what the kernel prints for a pointer; a
    function returns [None] when it dereferences [NULL]. *)

From S2P Require Import Prelude.
From S2P Require Import Mem.
From S2P Require Import KernelBlk.
From S2P Require Import RdmaBlk.
From S2P Require Import UrmaIo.
From S2P Require Import UrmaIoSys.
From S2P Require Import UrmaBlk.
From S2P Require Import Eid.
From S2P Require Import Numbers.

Definition nl : list Z := [10].

(** %x with a prefix, and %u. *)
Definition hex_line (name : string) (v : Z) : list Z := text_of name ++ hex_text v ++ nl.

Definition dec_line (name : string) (v : Z) : list Z := text_of name ++ dec_text v ++ nl.

(** ** The RDMA driver *)

(** What [dev_get_drvdata] returns for the disk's device. *)
Definition rdma_drvdata (dev : rdma_blkdev_device) : option rdma_blkdev_device :=
  match rb_settings dev with
  | Some s => if ds_drvdata s then Some dev else None
  | None => None
  end.

Section Rdma.
Context (pf : ptr -> list Z).

Definition mr_info_show (bdev : option rdma_blkdev_device) : option (list Z) :=
  d ← bdev;
  Some (hex_line "lkey=" (rb_lkey d) ++ hex_line "rkey=" (rb_rkey d)
        ++ hex_line "iova=" (rb_ramdisk_iova d) ++ dec_line "size=" (rb_ramdisk_size d)
        ++ text_of "addr=" ++ pf (rb_ramdisk_addr d) ++ nl).

Definition lkey_show (bdev : option rdma_blkdev_device) : option (list Z) :=
  d ← bdev; Some (hex_line "" (rb_lkey d)).

Definition rkey_show (bdev : option rdma_blkdev_device) : option (list Z) :=
  d ← bdev; Some (hex_line "" (rb_rkey d)).

Definition iova_show (bdev : option rdma_blkdev_device) : option (list Z) :=
  d ← bdev; Some (hex_line "" (rb_ramdisk_iova d)).

Definition rdma_ramdisk_addr_show (bdev : option rdma_blkdev_device) : option (list Z) :=
  d ← bdev; Some (pf (rb_ramdisk_addr d) ++ nl).

Definition rdma_ramdisk_size_show (bdev : option rdma_blkdev_device) : option (list Z) :=
  d ← bdev; Some (dec_line "" (rb_ramdisk_size d)).

(** The attributes of the group, in its order. *)
Definition rdma_blkdev_attrs : list (option rdma_blkdev_device -> option (list Z)) :=
  [mr_info_show; lkey_show; rkey_show; iova_show; rdma_ramdisk_addr_show; rdma_ramdisk_size_show].

End Rdma.

(** ** The URMA driver *)

Definition urma_drvdata (dev : urma_blkdev_device) : option urma_blkdev_device :=
  match ub_settings dev with
  | Some s => if ds_drvdata s then Some dev else None
  | None => None
  end.

(** The part of [struct ubcore_target_seg] that is printed. *)
Record target_seg : Type := mk_tseg {
  tg_eid : list Z;
  tg_va : Z;
  tg_len : Z;
  tg_token_id : Z
}.

(** Two bytes, a colon, two bytes, ... *)
Fixpoint eid_groups (eid : list Z) : list Z :=
  match eid with
  | a :: b :: rest =>
      match rest with
      | [] => format_eid [a; b]
      | _ => format_eid [a; b] ++ [ch_colon] ++ eid_groups rest
      end
  | _ => format_eid eid
  end.

Definition s64 (v : Z) : Z := let r := wrap 64 v in if r <? 2 ^ 63 then r else r - 2 ^ 64.

(** %d and %lld. *)
Definition int_text (v : Z) : list Z := if v <? 0 then 45 :: dec_text (- v) else dec_text v.

Section Urma.
Context (pf : ptr -> list Z) (seg_of : Z -> target_seg) (dev_name : Z -> list Z).

(** The segment, when there are a device and a segment. *)
Definition seg_at (bdev : option urma_blkdev_device) : option (urma_blkdev_device * target_seg) :=
  d ← bdev; if ub_seg d =? 0 then None else Some (d, seg_of (ub_seg d)).

Definition seg_info_show (bdev : option urma_blkdev_device) : list Z :=
  match seg_at bdev with
  | None => text_of "segment not registered" ++ nl
  | Some (d, s) =>
      text_of "ubva_eid=" ++ eid_groups (tg_eid s) ++ nl
      ++ hex_line "ubva_va=" (tg_va s) ++ dec_line "len=" (tg_len s)
      ++ hex_line "token_id=" (tg_token_id s) ++ text_of "addr=" ++ pf (ub_ramdisk_addr d) ++ nl
  end.

Definition ubva_show (bdev : option urma_blkdev_device) : list Z :=
  match seg_at bdev with
  | None => text_of "0x0" ++ nl
  | Some (_, s) => hex_line "" (tg_va s)
  end.

Definition token_id_show (bdev : option urma_blkdev_device) : list Z :=
  match seg_at bdev with
  | None => text_of "0x0" ++ nl
  | Some (_, s) => hex_line "" (tg_token_id s)
  end.

Definition seg_len_show (bdev : option urma_blkdev_device) : list Z :=
  match seg_at bdev with
  | None => text_of "0" ++ nl
  | Some (_, s) => dec_line "" (tg_len s)
  end.

Definition urma_ramdisk_addr_show (bdev : option urma_blkdev_device) : list Z :=
  pf (match bdev with Some d => ub_ramdisk_addr d | None => Null end) ++ nl.

Definition urma_ramdisk_size_show (bdev : option urma_blkdev_device) : list Z :=
  dec_line "" (match bdev with Some d => ub_ramdisk_size d | None => 0 end).

Definition ub_dev_name_show (bdev : option urma_blkdev_device) : list Z :=
  match bdev with
  | Some d => if ub_ub_dev d =? 0 then text_of "none" ++ nl else dev_name (ub_ub_dev d) ++ nl
  | None => text_of "none" ++ nl
  end.

Definition direct_io_queue_show (bdev : option urma_blkdev_device) : list Z :=
  match bdev with
  | None => text_of "device not ready" ++ nl
  | Some d =>
      dec_line "queue_depth=" (ub_queue_depth d)
      ++ text_of "pending=" ++ int_text (s32 (ub_pending d)) ++ nl
      ++ text_of "inflight=" ++ int_text (s32 (ub_inflight d)) ++ nl
      ++ dec_line "stopping=" (if ub_stopping d then 1 else 0)
      ++ text_of "next_wr_id=" ++ int_text (s64 (ub_next_wr_id d)) ++ nl
  end.

(** The attributes of the group, in its order. *)
Definition urma_blkdev_attrs : list (option urma_blkdev_device -> list Z) :=
  [seg_info_show; ubva_show; token_id_show; seg_len_show; urma_ramdisk_addr_show;
   urma_ramdisk_size_show; ub_dev_name_show; direct_io_queue_show].

End Urma.

(** ** Geometry *)

Record hd_geometry : Type := mk_geo {
  geo_heads : Z;
  geo_sectors : Z;
  geo_cylinders : Z
}.

(** The same function in both drivers, of the disk's capacity. *)
Definition rdma_blkdev_getgeo (capacity : Z) : Z * hd_geometry :=
  (0, mk_geo 4 16 (u16 (Z.shiftr (Z.shiftr capacity 4) 4))).

Definition urma_blkdev_getgeo (capacity : Z) : Z * hd_geometry :=
  (0, mk_geo 4 16 (u16 (Z.shiftr (Z.shiftr capacity 4) 4))).

(** ** Reading the attributes *)

(** What follows [key] in the first line that begins with it. *)
Fixpoint value_of (start : bool) (key text : list Z) : option (list Z) :=
  match text with
  | [] => None
  | c :: text' =>
      if start && bool_decide (key `prefix_of` text) then Some (drop (length key) text)
      else value_of (c =? 10) key text'
  end.

Definition number_at (key : string) (text : list Z) : option Z :=
  v ← value_of true (text_of key) text; Some (parse_u64 v).

(** The text up to the end of the line. *)
Fixpoint line_of (text : list Z) : list Z :=
  match text with
  | [] => []
  | c :: text' => if c =? 10 then [] else c :: line_of text'
  end.

Definition eid_at (key : string) (text : list Z) : option (Z * option (list Z)) :=
  v ← value_of true (text_of key) text;
  Some (ramdisk_ctrl_parse_eid (Some (line_of v)) (Some [])).

(** ** Lemmas *)

Lemma s32_nonneg v : 0 <= v < 2 ^ 31 -> s32 v = v.
Proof.
  intros Hv. unfold s32, wrap. rewrite Z.mod_small by lia. cbv zeta.
  destruct (Z.ltb_spec v (2 ^ 31)); lia.
Qed.

Lemma int_text_nonneg v : 0 <= v -> int_text v = dec_text v.
Proof. intros Hv. unfold int_text. destruct (Z.ltb_spec v 0); [lia|reflexivity]. Qed.

(** The value of the line at the front, and skipping a line of another key. *)
Lemma value_here key r : key <> [] -> value_of true key (key ++ r) = Some r.
Proof.
  intros Hk. assert (Hp : key `prefix_of` key ++ r) by (eexists; reflexivity).
  destruct (key ++ r) as [|c t] eqn:E; [destruct key; [congruence|discriminate]|].
  cbn [value_of andb]. rewrite bool_decide_true by exact Hp. rewrite <- E. f_equal. apply drop_app_length.
Qed.

Lemma value_skip key l r : forall b,
  Forall (fun c => c <> 10) l -> (b = true -> ~ key `prefix_of` l ++ 10 :: r) ->
  value_of b key (l ++ 10 :: r) = value_of true key r.
Proof.
  induction l as [|c l IH]; intros b Hl Hb; cbn [app value_of].
  - destruct b; cbn [andb]; [|reflexivity]. rewrite bool_decide_false by auto. reflexivity.
  - apply Forall_cons in Hl as [Hc Hl]. apply Z.eqb_neq in Hc. rewrite Hc.
    replace (b && _) with false; [apply IH; [auto|discriminate]|].
    destruct b; [|reflexivity]. cbn [andb]. rewrite bool_decide_false by (apply Hb; reflexivity). reflexivity.
Qed.

Lemma line_here l r : Forall (fun c => c <> 10) l -> line_of (l ++ 10 :: r) = l.
Proof.
  induction 1 as [|c l Hc _ IH]; [reflexivity|]. apply Z.eqb_neq in Hc. cbn. rewrite Hc, IH. reflexivity.
Qed.

Lemma hex_digit_line v : 0 <= v < 16 -> hex_digit v <> 10.
Proof. intros Hv E. destruct (hex_digit_value v Hv) as [H _]. rewrite E in H. cbn in H. lia. Qed.

Lemma digits_line base fuel v : 2 <= base <= 16 -> 0 <= v -> Forall (fun c => c <> 10) (digits base fuel v).
Proof.
  intros Hb Hv. eapply Forall_impl; [apply digits_ok; eauto|]. intros c [x Hx] ->.
  unfold digit_of in Hx. cbn in Hx. discriminate.
Qed.

Lemma text_line (s : string) : forallb (fun c => negb (c =? 10)) (text_of s) = true ->
  Forall (fun c => c <> 10) (text_of s).
Proof.
  induction (text_of s) as [|c l IH]; cbn [forallb]; intros H; constructor;
    apply andb_true_iff in H as [H1 H2]; auto. apply negb_true_iff, Z.eqb_neq in H1. auto.
Qed.

Lemma format_line eid : Forall is_u8 eid -> Forall (fun c => c <> 10) (format_eid eid).
Proof.
  intros He. unfold format_eid. induction He as [|b eid Hb _ IH]; [constructor|].
  cbn [map concat app]. unfold is_u8 in Hb.
  assert (H2 : Z.land b 0x0f = b mod 16) by (apply (Z.land_ones b 4); lia).
  repeat constructor; [apply hex_digit_line..|exact IH].
  - rewrite Z.shiftr_div_pow2 by lia. split; [apply Z.div_pos; lia|apply Z.div_lt_upper_bound; lia].
  - rewrite H2. apply Z.mod_pos_bound. lia.
Qed.

Lemma format_cons a b r : format_eid (a :: b :: r) = format_eid [a; b] ++ format_eid r.
Proof. reflexivity. Qed.

(** Induction over pairs. *)
Lemma pairs_ind (P : list Z -> Prop) :
  P [] -> (forall a, P [a]) -> (forall a b r, P r -> P (a :: b :: r)) -> forall l, P l.
Proof.
  intros H0 H1 H2 l. enough (P l /\ forall a, P (a :: l)) by tauto.
  induction l as [|x l [IH1 IH2]]; auto.
Qed.

Lemma groups_line eid : Forall is_u8 eid -> Forall (fun c => c <> 10) (eid_groups eid).
Proof.
  induction eid as [|a|a b r IH] using pairs_ind; intros He; [constructor|apply format_line; auto|].
  apply Forall_cons in He as [Ha He]. apply Forall_cons in He as [Hb He].
  cbn [eid_groups]. destruct r as [|c r]; [apply format_line; auto|].
  apply Forall_app. split; [apply format_line; auto|]. apply Forall_app.
  split; [|apply IH; auto]. repeat constructor. discriminate.
Qed.

(** The separators are dropped by the reader. *)
Lemma nibbles_app sep l : forall r r',
  nibbles_of sep r = nibbles_of sep r' -> nibbles_of sep (l ++ r) = nibbles_of sep (l ++ r').
Proof.
  induction l as [|c l IH]; intros r r' E; [exact E|]. cbn. rewrite (IH _ _ E). reflexivity.
Qed.

Lemma groups_nibbles sep eid : sep ch_colon = true ->
  nibbles_of sep (eid_groups eid) = nibbles_of sep (format_eid eid).
Proof.
  intros Hs. induction eid as [|a|a b r IH] using pairs_ind; [reflexivity..|].
  cbn [eid_groups]. destruct r as [|c r]; [reflexivity|]. rewrite (format_cons a b (c :: r)).
  apply nibbles_app. cbn [app nibbles_of]. rewrite Hs. exact IH.
Qed.

Lemma groups_read eid e0 : length eid = 16%nat -> Forall is_u8 eid ->
  ramdisk_ctrl_parse_eid (Some (eid_groups eid)) (Some e0) = (0, Some eid).
Proof.
  intros Hl Hb. destruct (parsers_spec (eid_groups eid) e0) as [_ E].
  destruct (format_nibbles client_sep eid) as (dc & Ec & Lc & Pc); auto;
    [intros; apply hex_digit_value; auto|].
  unfold eid_spec in E. rewrite groups_nibbles, Ec in E by reflexivity. cbn [mbind option_bind] in E.
  rewrite Lc, Hl in E. cbn in E. rewrite Pc in E. exact E.
Qed.

(** Two texts that differ at a common position. *)
Fixpoint differs (l l' : list Z) : bool :=
  match l, l' with
  | a :: t, b :: t' => negb (a =? b) || differs t t'
  | _, _ => false
  end.

Lemma differs_prefix l : forall l' r, differs l l' = true -> ~ l `prefix_of` l' ++ r.
Proof.
  induction l as [|a l IH]; intros [|b l'] r H [k E]; try discriminate.
  cbn in H, E. injection E as Eb E. apply orb_true_iff in H as [H|H].
  - apply negb_true_iff, Z.eqb_neq in H. congruence.
  - apply (IH l' r H). exists k. auto.
Qed.

(** A line of another name is skipped. *)
Lemma skip_line key name body r :
  forallb (fun c => negb (c =? 10)) (text_of name) = true -> Forall (fun c => c <> 10) body ->
  differs key (text_of name) = true ->
  value_of true key (text_of name ++ body ++ nl ++ r) = value_of true key r.
Proof.
  intros Hn Hb Hd. unfold nl. cbn [app]. rewrite app_assoc. apply value_skip.
  - apply Forall_app. split; [apply text_line|]; auto.
  - intros _. rewrite <- app_assoc. apply differs_prefix, Hd.
Qed.

Lemma dec_line_chars v : 0 <= v -> Forall (fun c => c <> 10) (dec_text v).
Proof. intros Hv. apply digits_line; lia. Qed.

Lemma hex_line_chars v : 0 <= v -> Forall (fun c => c <> 10) (hex_text v).
Proof.
  intros Hv. unfold hex_text. apply Forall_app. split; [repeat constructor; discriminate|].
  apply digits_line; lia.
Qed.

(** The number behind its name. *)
Lemma hex_here name v r : text_of name <> [] -> is_u64 v ->
  number_at name (text_of name ++ hex_text v ++ nl ++ r) = Some v.
Proof.
  intros Hn Hv. unfold number_at. rewrite value_here by auto. cbn [mbind option_bind].
  f_equal. apply parse_hex_stop; auto.
Qed.

Lemma dec_here name v r : text_of name <> [] -> is_u64 v ->
  number_at name (text_of name ++ dec_text v ++ nl ++ r) = Some v.
Proof.
  intros Hn Hv. unfold number_at. rewrite value_here by auto. cbn [mbind option_bind].
  f_equal. apply parse_dec_stop; auto; discriminate.
Qed.

Lemma hex_alone v : is_u64 v -> parse_u64 (hex_line "" v) = v.
Proof. intros Hv. apply (parse_hex_stop v 10 []); auto. Qed.

Lemma dec_alone v : is_u64 v -> parse_u64 (dec_line "" v) = v.
Proof. intros Hv. apply (parse_dec_stop v 10 []); auto; discriminate. Qed.

(** A signed 64-bit value is read back as its unsigned representative. *)
Lemma s64_here name v r : text_of name <> [] ->
  number_at name (text_of name ++ int_text (s64 v) ++ nl ++ r) = Some (u64 v).
Proof.
  intros Hn. unfold number_at. rewrite value_here by auto. cbn [mbind option_bind]. f_equal.
  unfold s64, int_text. change (wrap 64 v) with (u64 v). pose proof (u64_bound v) as Hb.
  destruct (Z.ltb_spec (u64 v) (2 ^ 63)).
  - destruct (Z.ltb_spec (u64 v) 0); [int_lia|]. apply (parse_dec_stop _ 10 r); auto; discriminate.
  - destruct (Z.ltb_spec (u64 v - 2 ^ 64) 0); [|int_lia].
    assert (Hr : 0 < - (u64 v - 2 ^ 64) < UINT64_MAX) by (unfold UINT64_MAX; int_lia).
    pose proof (parse_neg_stop (- (u64 v - 2 ^ 64)) 10 r Hr eq_refl eq_refl ltac:(lia) ltac:(lia)) as E.
    unfold nl. cbn [app]. rewrite E. rewrite Z.opp_involutive.
    unfold u64 at 1, wrap. rewrite <- (Z.mod_unique _ (2 ^ 64) (- 1) (u64 v)); [reflexivity| |lia].
    left. int_lia.
Qed.

Lemma number_skip key name body r :
  forallb (fun c => negb (c =? 10)) (text_of name) = true -> Forall (fun c => c <> 10) body ->
  differs (text_of key) (text_of name) = true ->
  number_at key (text_of name ++ body ++ nl ++ r) = number_at key r.
Proof. intros. unfold number_at. rewrite skip_line by auto. reflexivity. Qed.

Create HintDb sysfs.
#[export] Hint Resolve dec_line_chars hex_line_chars groups_line : sysfs.

Ltac sysfs_skip :=
  rewrite number_skip; [|reflexivity|eauto with sysfs lia|reflexivity].

(** What the segment attribute says. *)
Record tseg_ok (g : target_seg) : Prop := mk_tseg_ok {
  tg_eid_len : length (tg_eid g) = 16%nat;
  tg_eid_bytes : Forall is_u8 (tg_eid g);
  tg_va_range : is_u64 (tg_va g);
  tg_len_range : is_u64 (tg_len g);
  tg_token_range : is_u32 (tg_token_id g)
}.

Section Show.
Context (pf : ptr -> list Z) (seg_of : Z -> target_seg) (dev_name : Z -> list Z).
Context (d : urma_blkdev_device).

Lemma seg_info_read : ub_seg d <> 0 -> tseg_ok (seg_of (ub_seg d)) ->
  let g := seg_of (ub_seg d) in let t := seg_info_show pf seg_of (Some d) in
  eid_at "ubva_eid=" t = Some (0, Some (tg_eid g)) /\
  number_at "ubva_va=" t = Some (tg_va g) /\
  number_at "len=" t = Some (tg_len g) /\
  number_at "token_id=" t = Some (tg_token_id g) /\
  value_of true (text_of "addr=") t = Some (pf (ub_ramdisk_addr d) ++ nl).
Proof.
  intros Hs [H1 H2 H3 H4 H5]. apply Z.eqb_neq in Hs. cbv zeta.
  unfold seg_info_show, seg_at. cbn [mbind option_bind]. rewrite Hs.
  unfold hex_line, dec_line. rewrite <- !app_assoc. apply u32_u64 in H5.
  pose proof H3 as [? _]. pose proof H4 as [? _]. pose proof H5 as [? _]. split_and!.
  - unfold eid_at. rewrite value_here by discriminate. cbn [mbind option_bind]. f_equal.
    unfold nl. cbn [app]. rewrite line_here by (apply groups_line; auto). apply groups_read; auto.
  - sysfs_skip. apply hex_here; [discriminate|auto].
  - do 2 sysfs_skip. apply dec_here; [discriminate|auto].
  - do 3 sysfs_skip. apply hex_here; [discriminate|auto].
  - do 4 (rewrite skip_line; [|reflexivity|eauto with sysfs lia|reflexivity]).
    apply value_here. discriminate.
Qed.

Lemma seg_alone : ub_seg d <> 0 -> tseg_ok (seg_of (ub_seg d)) ->
  let g := seg_of (ub_seg d) in
  parse_u64 (ubva_show seg_of (Some d)) = tg_va g /\
  parse_u64 (token_id_show seg_of (Some d)) = tg_token_id g /\
  parse_u64 (seg_len_show seg_of (Some d)) = tg_len g.
Proof.
  intros Hs [_ _ H3 H4 H5]. apply Z.eqb_neq in Hs. cbv zeta.
  unfold ubva_show, token_id_show, seg_len_show, seg_at. cbn [mbind option_bind]. rewrite Hs.
  split_and!; [apply hex_alone; auto|apply hex_alone, u32_u64; auto|apply dec_alone; auto].
Qed.

Lemma seg_absent : ub_seg d = 0 ->
  seg_info_show pf seg_of (Some d) = text_of "segment not registered" ++ nl /\
  parse_u64 (ubva_show seg_of (Some d)) = 0 /\ parse_u64 (token_id_show seg_of (Some d)) = 0 /\
  parse_u64 (seg_len_show seg_of (Some d)) = 0.
Proof.
  intros Hs. unfold seg_info_show, ubva_show, token_id_show, seg_len_show, seg_at.
  cbn [mbind option_bind]. rewrite Hs. split_and!; reflexivity.
Qed.

Lemma queue_read :
  is_u32 (ub_queue_depth d) -> 0 <= ub_pending d < 2 ^ 31 -> 0 <= ub_inflight d < 2 ^ 31 ->
  let t := direct_io_queue_show (Some d) in
  number_at "queue_depth=" t = Some (ub_queue_depth d) /\
  number_at "pending=" t = Some (ub_pending d) /\
  number_at "inflight=" t = Some (ub_inflight d) /\
  number_at "stopping=" t = Some (if ub_stopping d then 1 else 0) /\
  number_at "next_wr_id=" t = Some (u64 (ub_next_wr_id d)).
Proof.
  intros H1 H2 H3 t. subst t. unfold direct_io_queue_show, dec_line.
  rewrite !s32_nonneg, (int_text_nonneg (ub_pending d)), (int_text_nonneg (ub_inflight d)) by lia.
  rewrite <- !app_assoc. apply u32_u64 in H1. pose proof H1 as [? _].
  assert (Hp : is_u64 (ub_pending d)) by int_lia. assert (Hi : is_u64 (ub_inflight d)) by int_lia.
  pose proof Hp as [? _]. pose proof Hi as [? _]. split_and!.
  - apply dec_here; [discriminate|auto].
  - sysfs_skip. apply dec_here; [discriminate|auto].
  - do 2 sysfs_skip. apply dec_here; [discriminate|auto].
  - do 3 sysfs_skip. apply dec_here; [discriminate|]. destruct (ub_stopping d); int_lia.
  - assert (Hst : 0 <= (if ub_stopping d then 1 else 0)) by (destruct (ub_stopping d); lia).
    do 4 sysfs_skip. rewrite <- (app_nil_r nl) at 1. apply s64_here. discriminate.
Qed.

End Show.

(** Lengths, against the page that sysfs provides. *)
Definition PAGE_SIZE : Z := 4096.

Lemma length_format eid : length (format_eid eid) = (2 * length eid)%nat.
Proof. unfold format_eid. induction eid as [|b eid IH]; [reflexivity|]. cbn in *. lia. Qed.

Lemma length_groups eid : (length (eid_groups eid) <= 3 * length eid)%nat.
Proof.
  induction eid as [|a|a b r IH] using pairs_ind; [cbn; lia..|].
  cbn [eid_groups]. destruct r as [|c r]; [cbn; lia|].
  rewrite !length_app, length_format. cbn [length] in *. lia.
Qed.

Lemma length_dec v : (length (dec_text v) <= 64)%nat.
Proof. apply length_digits. Qed.

Lemma length_hex v : (length (hex_text v) <= 66)%nat.
Proof. unfold hex_text. rewrite length_app. pose proof (length_digits 16 64 v). cbn [length]. lia. Qed.

Lemma length_int v : (length (int_text v) <= 65)%nat.
Proof.
  unfold int_text. destruct (v <? 0); [cbn [length]; pose proof (length_dec (- v))|pose proof (length_dec v)]; lia.
Qed.

Lemma length_dec_line s v : (length (dec_line s v) <= length (text_of s) + 65)%nat.
Proof. unfold dec_line. rewrite !length_app. pose proof (length_dec v). cbn [nl length]. lia. Qed.

Lemma length_hex_line s v : (length (hex_line s v) <= length (text_of s) + 67)%nat.
Proof. unfold hex_line. rewrite !length_app. pose proof (length_hex v). cbn [nl length]. lia. Qed.

Section Page.
Context (pf : ptr -> list Z) (seg_of : Z -> target_seg) (dev_name : Z -> list Z).
Context (Hpf : forall p, (length (pf p) <= 18)%nat) (Hname : forall i, (length (dev_name i) <= 64)%nat).

Lemma attrs_fit d :
  (ub_seg d <> 0 -> length (tg_eid (seg_of (ub_seg d))) = 16%nat) ->
  Forall (fun show => zlength (show (Some d)) <= PAGE_SIZE) (urma_blkdev_attrs pf seg_of dev_name).
Proof.
  intros Hs. unfold urma_blkdev_attrs, PAGE_SIZE, zlength.
  pose proof (Hpf (ub_ramdisk_addr d)). pose proof (Hname (ub_ub_dev d)).
  pose proof (length_groups (tg_eid (seg_of (ub_seg d)))).
  repeat match goal with
  | |- Forall _ (_ :: _) => apply Forall_cons; split
  | |- Forall _ [] => apply Forall_nil; exact I
  end;
    unfold seg_info_show, ubva_show, token_id_show, seg_len_show, seg_at, urma_ramdisk_addr_show,
      urma_ramdisk_size_show, ub_dev_name_show, direct_io_queue_show; cbn [mbind option_bind];
    destruct (Z.eqb_spec (ub_seg d) 0) as [_|Hn]; try specialize (Hs Hn);
    destruct (ub_ub_dev d =? 0); rewrite ?length_app;
    repeat match goal with
    | |- context [length (dec_line ?s ?v)] =>
        pose proof (length_dec_line s v); generalize dependent (length (dec_line s v)); intros
    | |- context [length (hex_line ?s ?v)] =>
        pose proof (length_hex_line s v); generalize dependent (length (hex_line s v)); intros
    | |- context [length (int_text ?v)] =>
        pose proof (length_int v); generalize dependent (length (int_text v)); intros
    end; cbn in *; lia.
Qed.

End Page.

(** The device of a loaded module in any state of its queue. *)
Lemma loaded_state env mb lbs refs h dev s :
  urma_ready env mb lbs h dev -> io_reachable (io_start dev refs) s ->
  let d := iw_dev (is_w s) in
  urma_drvdata d = Some d /\ ub_ramdisk_size d = ram_size mb /\ ub_seg d = ub_seg dev /\
  ub_queue_depth d = ub_queue_depth dev /\ ub_pending d = zlength (ub_pending_list d) /\
  is_u64 (ub_ramdisk_size d) /\ is_u32 (ub_queue_depth d) /\
  ub_ramdisk_addr d = ub_ramdisk_addr dev /\ ub_ub_dev d = ub_ub_dev dev /\
  0 <= ub_pending d < 2 ^ 31 /\ 0 <= ub_inflight d < 2 ^ 31.
Proof.
  intros R Hr d. pose proof (io_inv_init refs dev (ur_queue _ _ _ _ _ R)) as I0.
  pose proof (io_reachable_inv refs _ _ I0 Hr) as I. fold d in I.
  pose proof (io_reachable_dev dev (io_start dev refs) s (same_but_queue_refl dev) Hr) as Hsame. fold d in Hsame.
  pose proof (iv_pending _ _ I) as Ep. pose proof (iv_bound _ _ I) as Hb.
  pose proof (iv_depth _ _ I) as Hdp.
  pose proof (iv_typed _ _ I) as [Hz _]. pose proof (iv_inflight _ _ I) as Hi.
  fold d in Ep, Hb, Hdp, Hz, Hi.
  assert (Hinf : ub_inflight d = 0 \/ ub_inflight d = 1).
  { unfold inflight_ok in Hi. fold d in Hi. destruct (is_wk s); destruct Hi; auto. }
  destruct Hsame as (? & ? & ? & ? & ? & ? & ? & Ed & _).
  assert (Es : ub_settings d = ub_settings dev /\ ub_ramdisk_size d = ub_ramdisk_size dev /\
    ub_seg d = ub_seg dev /\ ub_queue_depth d = ub_queue_depth dev /\
    ub_ramdisk_addr d = ub_ramdisk_addr dev /\ ub_ub_dev d = ub_ub_dev dev) by (rewrite Ed; auto 6).
  destruct Es as (Es & Ez & Eg & Eq & Ea & Eu). pose proof (ur_settings _ _ _ _ _ R) as Est.
  split_and!; auto; try int_lia.
  - unfold urma_drvdata. rewrite Es, Est. reflexivity.
  - rewrite Ez. pose proof (rg_size _ _ _ _ (ur_region _ _ _ _ _ R)) as Hrg. cbn in Hrg. rewrite <- Hrg.
    apply zlength_replicate. pose proof (u64_bound (Z.shiftl mb 20)) as Hu. unfold ram_size. int_lia.
  - rewrite Ep. apply zlength_nonneg.
Qed.

(** ** Properties *)

(** The geometry covers at most a quarter of the capacity: 16 sectors times 4
    heads are divided out as 16 times 16. *)
Theorem getgeo_quarter capacity :
  0 <= capacity ->
  let g := snd (rdma_blkdev_getgeo capacity) in
  g = snd (urma_blkdev_getgeo capacity) /\
  4 * (geo_heads g * geo_sectors g * geo_cylinders g) <= capacity.
Proof.
  intros Hc g. subst g. split; [reflexivity|].
  cbn [rdma_blkdev_getgeo snd geo_heads geo_sectors geo_cylinders].
  rewrite Z.shiftr_shiftr, Z.shiftr_div_pow2 by lia. change (2 ^ (4 + 4)) with 256.
  unfold u16, wrap. pose proof (Z.mod_le (capacity / 256) (2 ^ 16)).
  pose proof (Z.div_pos capacity 256). pose proof (Z.mul_div_le capacity 256). lia.
Qed.

(** The attributes of the RDMA device cannot be read: the module never makes
    its struct the driver data of the disk's device, so after every successful
    load each attribute function takes [NULL] for the device and dereferences
    it, whatever RDMA objects were obtained. *)
Theorem rdma_sysfs_oops env mb lbs h l pf :
  rdma_env_ok env -> no_netdev env -> lbs <> 0 -> rdma_loads env mb = true ->
  exists dev k, rdma_blkdev_init env mb lbs (mk_kern h l)
      = Some ((0, (re_major env, Some dev)), k) /\
    Forall (fun show => show (rdma_drvdata dev) = None /\ show (Some dev) <> None)
      (rdma_blkdev_attrs pf).
Proof.
  intros He Hn Hl E.
  destruct (init_loaded env mb lbs h l He Hl [] (setup_leaves_none env He Hn) E) as (dev & Ei & R).
  eexists dev, _. split; [exact Ei|]. destruct (rr_disk _ _ _ _ _ R) as (d0 & ->).
  repeat constructor; discriminate.
Qed.

(** C34.  The attributes of the URMA device are readable in every state of a
    loaded module and say what the remote side needs: each fits the page; the
    printed size, segment address, length, token and EID parse back to the values of
    the registered segment, without a segment they say so or read as 0; the address
    of the memory is printed, in its own attribute and with the segment, as %p
    prints the device's pointer, and the name is that of the device; the queue's
    counters are those of its list at that moment and the next work-request number,
    printed as signed, reads back as the 64-bit value.  The assumptions: the load
    succeeds, with a non-zero block size and a queue depth below 2^31; a printed
    pointer has at most 18 characters and a device name at most 64; the fields of a
    segment have the ranges of their types. *)
Theorem urma_sysfs_readback env mb lbs depth refs h l pf seg_of dev_name :
  urma_env_ok env -> lbs <> 0 -> 0 <= depth < 2 ^ 31 -> urma_loads env mb = true ->
  (forall s, s <> 0 -> tseg_ok (seg_of s)) ->
  (forall p, (length (pf p) <= 18)%nat) -> (forall i, (length (dev_name i) <= 64)%nat) ->
  exists dev k, urma_blkdev_init env mb lbs depth refs (mk_kern h l)
      = Some ((0, (ue_major env, Some (mk_iow dev ∅ refs [] false))), k) /\
    forall s, io_reachable (io_start dev refs) s ->
    let d := iw_dev (is_w s) in let bdev := urma_drvdata d in
    Forall (fun show => zlength (show bdev) <= PAGE_SIZE) (urma_blkdev_attrs pf seg_of dev_name) /\
    parse_u64 (urma_ramdisk_size_show bdev) = ram_size mb /\
    (let q := direct_io_queue_show bdev in
     number_at "queue_depth=" q = Some (ub_queue_depth dev) /\
     number_at "pending=" q = Some (zlength (ub_pending_list d)) /\
     number_at "inflight=" q = Some (ub_inflight d) /\
     number_at "stopping=" q = Some (if ub_stopping d then 1 else 0) /\
     number_at "next_wr_id=" q = Some (u64 (ub_next_wr_id d))) /\
    urma_ramdisk_addr_show pf bdev = pf (ub_ramdisk_addr dev) ++ nl /\
    ub_dev_name_show dev_name bdev
    = (if ub_ub_dev dev =? 0 then text_of "none" else dev_name (ub_ub_dev dev)) ++ nl /\
    if ub_seg dev =? 0 then
      seg_info_show pf seg_of bdev = text_of "segment not registered" ++ nl /\
      parse_u64 (ubva_show seg_of bdev) = 0 /\ parse_u64 (token_id_show seg_of bdev) = 0 /\
      parse_u64 (seg_len_show seg_of bdev) = 0
    else
      let g := seg_of (ub_seg dev) in let t := seg_info_show pf seg_of bdev in
      eid_at "ubva_eid=" t = Some (0, Some (tg_eid g)) /\
      number_at "ubva_va=" t = Some (tg_va g) /\ number_at "len=" t = Some (tg_len g) /\
      number_at "token_id=" t = Some (tg_token_id g) /\
      value_of true (text_of "addr=") t = Some (pf (ub_ramdisk_addr dev) ++ nl) /\
      parse_u64 (ubva_show seg_of bdev) = tg_va g /\
      parse_u64 (token_id_show seg_of bdev) = tg_token_id g /\
      parse_u64 (seg_len_show seg_of bdev) = tg_len g.
Proof.
  intros He Hl Hd E Hseg Hpf Hname.
  destruct (uinit_loaded env mb lbs depth refs h l He Hl Hd E) as (dev & Ei & R).
  eexists dev, _. split; [exact Ei|]. intros s Hr.
  destruct (loaded_state env mb lbs refs h dev s R Hr)
    as (Ed & Es & Eg & Eq & Ep & Hz & Hq & Ea & Eu & Hp & Hi).
  cbv zeta. rewrite Ed. split; [apply attrs_fit; auto; intros Hn; apply Hseg; auto|].
  split; [unfold urma_ramdisk_size_show; rewrite Es; apply dec_alone; rewrite <- Es; auto|].
  destruct (queue_read (iw_dev (is_w s)) Hq Hp Hi) as (Q1 & Q2 & Q3 & Q4 & Q5).
  rewrite Eq in Q1. rewrite Ep in Q2. split; [auto|]. rewrite <- Eg, <- Ea, <- Eu.
  split; [reflexivity|]. split; [unfold ub_dev_name_show; destruct (_ =? 0); reflexivity|].
  destruct (Z.eqb_spec (ub_seg (iw_dev (is_w s))) 0) as [E0|Hn].
  - exact (seg_absent pf seg_of _ E0).
  - pose proof (Hseg _ Hn) as Hg. pose proof (seg_info_read pf seg_of _ Hn Hg) as (? & ? & ? & ? & ?).
    pose proof (seg_alone seg_of _ Hn Hg) as (? & ? & ?). auto 10.
Qed.

(** A printed pointer, a segment of 1 MiB and a name. *)
Definition ex_pf (p : ptr) : list Z := text_of "00000000deadbeef".

Definition ex_tseg (s : Z) : target_seg :=
  mk_tseg [254; 128; 0; 0; 0; 0; 0; 0; 0; 0; 0; 0; 0; 0; 0; 17] 1048576 1048576 55.

Definition ex_name (i : Z) : list Z := text_of "udma2".

Example seg_info_text :
  seg_info_show ex_pf ex_tseg (Some (uset_urma 6 5 7 1048576 55 udev_zero))
  = text_of "ubva_eid=fe80:0000:0000:0000:0000:0000:0000:0011" ++ nl ++
    text_of "ubva_va=0x100000" ++ nl ++ text_of "len=1048576" ++ nl ++
    text_of "token_id=0x37" ++ nl ++ text_of "addr=00000000deadbeef" ++ nl.
Proof. vm_compute. reflexivity. Qed.

Lemma rdma_sysfs_oops_witness :
  exists dev k, rdma_blkdev_init (ex_rdma_env (Some 10) 0 false 0) 1 512 (mk_kern heap_empty [])
      = Some ((0, (240, Some dev)), k) /\ mr_info_show ex_pf (rdma_drvdata dev) = None.
Proof.
  destruct (rdma_sysfs_oops (ex_rdma_env (Some 10) 0 false 0) 1 512 heap_empty [] ex_pf
    (ex_rdma_env_ok _ _ _ _)) as (dev & k & Ei & F); [discriminate|lia|reflexivity|].
  exists dev, k. split; [exact Ei|]. inversion F as [|x r [Hx _] Fr]. exact Hx.
Defined.

Lemma urma_sysfs_readback_witness :
  exists dev k, urma_blkdev_init (ex_urma_env 7 0) 1 512 16 1 (mk_kern heap_empty [])
      = Some ((0, (241, Some (mk_iow dev ∅ 1 [] false))), k) /\
    parse_u64 (urma_ramdisk_size_show (urma_drvdata dev)) = 1048576 /\
    number_at "pending=" (direct_io_queue_show (urma_drvdata dev))
    = Some (zlength (ub_pending_list dev)).
Proof.
  destruct (urma_sysfs_readback (ex_urma_env 7 0) 1 512 16 1 heap_empty [] ex_pf ex_tseg ex_name
    (ex_urma_env_ok _ _)) as (dev & k & Ei & H).
  - lia.
  - lia.
  - reflexivity.
  - intros s _. split; [reflexivity|repeat constructor; cbn; lia|cbn; int_lia|cbn; int_lia|].
    cbn. unfold is_u32. lia.
  - intros p. cbn. lia.
  - intros i. cbn. lia.
  - exists dev, k. split; [exact Ei|]. destruct (H (io_start dev 1) (io_here _)) as (_ & Hz & (_ & Hp & _) & _).
    split; [exact Hz|exact Hp].
Defined.
