(* ===== verification/BusinessClient.v ===== *)
(** * The example business client (userspace-nbd/examples/business_client_example.c)

    A process that creates its own endpoint and memory with the vendor's
    library, registers itself with the daemon as a peer and asks for one
    transfer in each direction; compiled with HAVE_URMA.  The library is the
    parameter [biz_lib], with [0] for [NULL]; what it hands out is kept in a
    ledger.  The [k]-th call to the daemon goes over the connection [links k]. *)

From S2P Require Import Prelude.
From S2P Require Import Ledger.
From S2P Require Import SockIO.
From S2P Require Import CtrlProto.
From S2P Require Import CtrlServer.
From S2P Require Import CtrlClient.
From S2P Require Import Eid.
From S2P Require Import Numbers.
From S2P Require Import UrmaProvider.
From S2P Require Import RamdiskCtl.

Definition DEFAULT_CONTROL_SOCK : list Z := text_of "/tmp/nbd-ramdisk-control.sock".
Definition DEFAULT_URMA_DEV : list Z := text_of "udma2".
Definition BUSINESS_MEM_SIZE : Z := 1024 * 1024.
Definition DEFAULT_TRANSFER_LEN : Z := 4096.
Definition DEFAULT_QUEUE_DEPTH : Z := 64.
Definition BUSINESS_TOKEN_VALUE : Z := 0xB15C.

(** Objects of the library, and memory. *)
Inductive bres : Type :=
| BLib (r : ures)
| BBuf (p : Z).

#[export] Instance bres_eq_dec : EqDecision bres.
Proof. solve_decision. Defined.

(** What the library answers.  [bl_query] is the largest depth of a completion
    queue, [bl_eid_list] the list's address and the indices of its entries,
    [bl_memalign] the address of the memory or an errno; then the fields of its
    objects that the program reads. *)
Record biz_lib : Type := mk_blib {
  bl_init_ok : bool;
  bl_device : list Z -> Z;
  bl_query : Z -> option Z;
  bl_eid_list : Z -> Z * list Z;
  bl_create_context : Z -> Z -> Z;
  bl_create_jfce : Z -> Z;
  bl_create_jfc : Z -> Z -> Z -> Z;
  bl_create_jfr : Z -> Z -> Z -> Z -> Z;
  bl_create_jetty : Z -> Z -> Z -> Z -> Z;
  bl_memalign : Z -> Z + Z;
  bl_register_seg : Z -> Z -> Z -> Z -> Z;
  bl_jetty_id : Z -> Z;
  bl_uasid : Z -> Z;
  bl_seg : Z -> urma_seg
}.

Record business_urma_ctx : Type := mk_biz {
  bz_buf : Z;
  bz_ctx : Z;
  bz_jfce : Z;
  bz_jfc : Z;
  bz_jfr : Z;
  bz_jetty : Z;
  bz_local_tseg : Z;
  bz_token : Z;
  bz_eid_index : Z
}.

Definition biz_zero : business_urma_ctx := mk_biz 0 0 0 0 0 0 0 0 0.

(** ** Creating the endpoint *)

Definition select_business_eid_index (lib : biz_lib) (dev : Z) : led bres (Z * Z) :=
  let '(p, entries) := bl_eid_list lib dev in
  _ ← (if p =? 0 then mret tt else gain (BLib (UEids p)));
  match p =? 0, entries with
  | true, _ | _, [] => mret (- ENODEV, 0)
  | false, idx :: _ => _ ← lose (BLib (UEids p)); mret (0, idx)
  end.

(** The labels of the error path, from the last to the first. *)
Definition biz_fail_uninit (rc : Z) (c : business_urma_ctx) : led bres (Z * business_urma_ctx) :=
  _ ← lose (BLib UInit); mret (rc, c).

Definition biz_fail_ctx (rc : Z) (c : business_urma_ctx) : led bres (Z * business_urma_ctx) :=
  _ ← lose (BLib (UCtx (bz_ctx c)));
  biz_fail_uninit rc (mk_biz (bz_buf c) 0 (bz_jfce c) (bz_jfc c) (bz_jfr c) (bz_jetty c)
                        (bz_local_tseg c) (bz_token c) (bz_eid_index c)).

Definition biz_fail_jfce (rc : Z) (c : business_urma_ctx) : led bres (Z * business_urma_ctx) :=
  _ ← lose (BLib (UJfce (bz_jfce c)));
  biz_fail_ctx rc (mk_biz (bz_buf c) (bz_ctx c) 0 (bz_jfc c) (bz_jfr c) (bz_jetty c)
                     (bz_local_tseg c) (bz_token c) (bz_eid_index c)).

Definition biz_fail_jfc (rc : Z) (c : business_urma_ctx) : led bres (Z * business_urma_ctx) :=
  _ ← lose (BLib (UJfc (bz_jfc c)));
  biz_fail_jfce rc (mk_biz (bz_buf c) (bz_ctx c) (bz_jfce c) 0 (bz_jfr c) (bz_jetty c)
                      (bz_local_tseg c) (bz_token c) (bz_eid_index c)).

Definition biz_fail_jfr (rc : Z) (c : business_urma_ctx) : led bres (Z * business_urma_ctx) :=
  _ ← lose (BLib (UJfr (bz_jfr c)));
  biz_fail_jfc rc (mk_biz (bz_buf c) (bz_ctx c) (bz_jfce c) (bz_jfc c) 0 (bz_jetty c)
                     (bz_local_tseg c) (bz_token c) (bz_eid_index c)).

Definition biz_fail_jetty (rc : Z) (c : business_urma_ctx) : led bres (Z * business_urma_ctx) :=
  _ ← lose (BLib (UJetty (bz_jetty c)));
  biz_fail_jfr rc (mk_biz (bz_buf c) (bz_ctx c) (bz_jfce c) (bz_jfc c) (bz_jfr c) 0
                     (bz_local_tseg c) (bz_token c) (bz_eid_index c)).

Definition biz_fail_buf (rc : Z) (c : business_urma_ctx) : led bres (Z * business_urma_ctx) :=
  _ ← lose (BBuf (bz_buf c));
  biz_fail_jetty rc (mk_biz 0 (bz_ctx c) (bz_jfce c) (bz_jfc c) (bz_jfr c) (bz_jetty c)
                       (bz_local_tseg c) (bz_token c) (bz_eid_index c)).

Definition biz_depth (max_jfc_depth : Z) : Z :=
  if negb (max_jfc_depth =? 0) && (DEFAULT_QUEUE_DEPTH >? max_jfc_depth)
  then max_jfc_depth else DEFAULT_QUEUE_DEPTH.

(** From the context on: the objects, the memory and its registration. *)
Definition biz_objects (lib : biz_lib) (dev depth idx : Z) : led bres (Z * business_urma_ctx) :=
  let ctx := bl_create_context lib dev idx in
  if ctx =? 0 then biz_fail_uninit (- EIO) (mk_biz 0 0 0 0 0 0 0 0 idx) else
  _ ← gain (BLib (UCtx ctx));
  let token := BUSINESS_TOKEN_VALUE in
  let jfce := bl_create_jfce lib ctx in
  if jfce =? 0 then biz_fail_ctx (- EIO) (mk_biz 0 ctx 0 0 0 0 0 token idx) else
  _ ← gain (BLib (UJfce jfce));
  let jfc := bl_create_jfc lib ctx depth jfce in
  if jfc =? 0 then biz_fail_jfce (- EIO) (mk_biz 0 ctx jfce 0 0 0 0 token idx) else
  _ ← gain (BLib (UJfc jfc));
  let jfr := bl_create_jfr lib ctx depth jfc token in
  if jfr =? 0 then biz_fail_jfc (- EIO) (mk_biz 0 ctx jfce jfc 0 0 0 token idx) else
  _ ← gain (BLib (UJfr jfr));
  let jetty := bl_create_jetty lib ctx depth jfc jfr in
  if jetty =? 0 then biz_fail_jfr (- EIO) (mk_biz 0 ctx jfce jfc jfr 0 0 token idx) else
  _ ← gain (BLib (UJetty jetty));
  match bl_memalign lib BUSINESS_MEM_SIZE with
  | inr e => biz_fail_jetty (- e) (mk_biz 0 ctx jfce jfc jfr jetty 0 token idx)
  | inl buf =>
      _ ← gain (BBuf buf);
      let seg := bl_register_seg lib ctx buf BUSINESS_MEM_SIZE token in
      if seg =? 0 then biz_fail_buf (- EIO) (mk_biz buf ctx jfce jfc jfr jetty 0 token idx) else
      _ ← gain (BLib (USeg seg));
      mret (0, mk_biz buf ctx jfce jfc jfr jetty seg token idx)
  end.

Definition create_business_urma (lib : biz_lib) (dev_name : list Z)
    : led bres (Z * business_urma_ctx) :=
  if negb (bl_init_ok lib) then mret (- EIO, biz_zero) else
  _ ← gain (BLib UInit);
  let dev := bl_device lib dev_name in
  if dev =? 0 then biz_fail_uninit (- ENODEV) biz_zero else
  match bl_query lib dev with
  | None => biz_fail_uninit (- EIO) biz_zero
  | Some max =>
      '(rc, idx) ← select_business_eid_index lib dev;
      if negb (rc =? 0) then biz_fail_uninit rc biz_zero else
      biz_objects lib dev (biz_depth max) idx
  end.

Definition drop_if (p : Z) (r : bres) : led bres unit := if p =? 0 then mret tt else lose r.

Definition destroy_business_urma (c : business_urma_ctx) : led bres unit :=
  _ ← drop_if (bz_local_tseg c) (BLib (USeg (bz_local_tseg c)));
  _ ← drop_if (bz_jetty c) (BLib (UJetty (bz_jetty c)));
  _ ← drop_if (bz_jfr c) (BLib (UJfr (bz_jfr c)));
  _ ← drop_if (bz_jfc c) (BLib (UJfc (bz_jfc c)));
  _ ← drop_if (bz_jfce c) (BLib (UJfce (bz_jfce c)));
  _ ← drop_if (bz_buf c) (BBuf (bz_buf c));
  _ ← drop_if (bz_ctx c) (BLib (UCtx (bz_ctx c)));
  lose (BLib UInit).

(** ** The session with the daemon *)

Definition fill_peer_from_urma (lib : biz_lib) (c : business_urma_ctx)
    : ramdisk_ctrl_peer_connect_info :=
  let jetty_id := bl_jetty_id lib (bz_jetty c) in
  let s := bl_seg lib (bz_local_tseg c) in
  let peer_id := Z.lor (u64 (Z.shiftl (bz_eid_index c) 32)) jetty_id in
  mk_peer_info (if peer_id =? 0 then 1 else peer_id) (us_eid s) (bl_uasid lib (bz_ctx c)) 0
    (us_va s) (us_len s) (us_token_id s) jetty_id.

Definition request_id (pid seq : Z) : Z := Z.lor (u64 (Z.shiftl (u32 pid) 32)) seq.

Section Session.
Context (links : nat -> conn_env * sock) (sock_path : list Z).

(** The result, what was sent on the connection, and the open descriptors. *)
Definition after (r : option transact_ret) : option (Z * list Z * gset Z) :=
  r ← r; Some (tr_rc r, sk_out (tr_sock r), tr_fds r).

Definition print_status (k : nat) (fds : gset Z) : option (Z * list Z * gset Z) :=
  '(rc, _, r) ← ramdisk_ctrl_query_status (fst (links k)) (Some sock_path) true (snd (links k)) fds;
  Some (rc, sk_out (tr_sock r), tr_fds r).

(** Between [create_business_urma] and [out_destroy]: the result, what was sent
    on each connection in order, and the open descriptors. *)
Definition biz_session (peer : ramdisk_ctrl_peer_connect_info) (pid : Z) (fds : gset Z)
    : option (Z * list (list Z) * gset Z) :=
  '(rc, o0, fds) ← print_status 0 fds;
  if negb (rc =? 0) then Some (rc, [o0], fds) else
  '(rc, o1, fds) ← after (ramdisk_ctrl_enable_urma (fst (links 1)) (Some sock_path) (snd (links 1)) fds);
  if negb (rc =? 0) then Some (rc, [o0; o1], fds) else
  '(rc, o2, fds) ← after (ramdisk_ctrl_peer_connect (fst (links 2)) (Some sock_path) (Some peer)
                            (snd (links 2)) fds);
  if negb (rc =? 0) && negb (rc =? - EEXIST) then Some (rc, [o0; o1; o2], fds) else
  let xfer seq dir := mk_transfer (ci_peer_id peer) (request_id pid seq) 0 (ci_seg_va peer)
                        DEFAULT_TRANSFER_LEN dir in
  '(rc, o3, fds) ← after (ramdisk_ctrl_urma_transfer (fst (links 3)) (Some sock_path)
                            (Some (xfer 1001 RAMDISK_TO_HBM)) (snd (links 3)) fds);
  if negb (rc =? 0) then Some (rc, [o0; o1; o2; o3], fds) else
  '(rc, o4, fds) ← after (ramdisk_ctrl_urma_transfer (fst (links 4)) (Some sock_path)
                            (Some (xfer 1002 HBM_TO_RAMDISK)) (snd (links 4)) fds);
  if negb (rc =? 0) then Some (rc, [o0; o1; o2; o3; o4], fds) else
  '(rc, o5, fds) ← print_status 5 fds;
  Some (rc, [o0; o1; o2; o3; o4; o5], fds).

(** [main]: the exit status, what was sent, and the open descriptors. *)
Definition business_main (lib : biz_lib) (argc : Z) (urma_dev : option (list Z)) (pid : Z)
    (fds : gset Z) : led bres (Z * list (list Z) * gset Z) := fun l =>
  if negb (argc =? 1) then Some ((2, [], fds), l) else
  let dev_name := match urma_dev with
                  | Some (c :: n) => c :: n
                  | _ => DEFAULT_URMA_DEV
                  end in
  match create_business_urma lib dev_name l with
  | None => None
  | Some ((rc, c), l) =>
      if negb (rc =? 0) then Some ((1, [], fds), l) else
      '(rc, sent, fds) ← biz_session (fill_peer_from_urma lib c) pid fds;
      match destroy_business_urma c l with
      | None => None
      | Some (_, l) => Some ((if rc =? 0 then 0 else 1, sent, fds), l)
      end
  end.

End Session.

(** ** Lemmas: the ledger *)

(** What is known of posix_memalign: errors are positive, memory is not at 0. *)
Definition blib_ok (lib : biz_lib) : Prop :=
  match bl_memalign lib BUSINESS_MEM_SIZE with inl p => p <> 0 | inr e => 0 < e end.

(** What a failed creation leaves: a list of endpoints that is not [NULL] and has
    no entry, when the creation gets as far as asking for it. *)
Definition biz_left (lib : biz_lib) (dev_name : list Z) : list bres :=
  let dev := bl_device lib dev_name in
  if negb (bl_init_ok lib) || (dev =? 0) then [] else
  match bl_query lib dev, bl_eid_list lib dev with
  | Some _, (p, []) => if p =? 0 then [] else [BLib (UEids p)]
  | _, _ => []
  end.

(** What a created endpoint holds. *)
Definition biz_held (c : business_urma_ctx) : list bres :=
  [BLib (USeg (bz_local_tseg c)); BBuf (bz_buf c); BLib (UJetty (bz_jetty c)); BLib (UJfr (bz_jfr c));
   BLib (UJfc (bz_jfc c)); BLib (UJfce (bz_jfce c)); BLib (UCtx (bz_ctx c)); BLib UInit].

Definition biz_complete (c : business_urma_ctx) : Prop :=
  bz_buf c <> 0 /\ bz_ctx c <> 0 /\ bz_jfce c <> 0 /\ bz_jfc c <> 0 /\ bz_jfr c <> 0 /\
  bz_jetty c <> 0 /\ bz_local_tseg c <> 0.

(** Either everything is there, or an error and nothing. *)
Definition created (l : list bres) (o : option ((Z * business_urma_ctx) * list bres)) : Prop :=
  exists rc c l', o = Some ((rc, c), l') /\
    ((rc = 0 /\ biz_complete c /\ l' = biz_held c ++ l) \/ (rc <> 0 /\ l' = l)).

Lemma created_none l rc c : rc <> 0 -> created l (Some ((rc, c), l)).
Proof. intros H. exists rc, c, l. auto. Qed.

Lemma EIO_neg : - EIO <> 0.
Proof. discriminate. Qed.

(** One object more. *)
Ltac lgain := rewrite led_bind_eq, gain_eq; cbn beta iota.

(** Each label gives back what the ones below it do, and its own object. *)
Section Labels.
Context (rc : Z) (Hrc : rc <> 0) (l : list bres).

Lemma biz_fail_uninit_ok c : created l (biz_fail_uninit rc c (BLib UInit :: l)).
Proof. unfold biz_fail_uninit. lstep. apply created_none, Hrc. Qed.

Lemma biz_fail_ctx_ok c : created l (biz_fail_ctx rc c (BLib (UCtx (bz_ctx c)) :: BLib UInit :: l)).
Proof.
  unfold biz_fail_ctx. rewrite led_bind_eq, lose_here. cbn beta iota.
  match goal with |- created _ (_ _ ?d _) => apply (biz_fail_uninit_ok d) end.
Qed.

Lemma biz_fail_jfce_ok c : created l (biz_fail_jfce rc c (BLib (UJfce (bz_jfce c)) :: BLib (UCtx (bz_ctx c)) :: BLib UInit :: l)).
Proof.
  unfold biz_fail_jfce. rewrite led_bind_eq, lose_here. cbn beta iota.
  match goal with |- created _ (_ _ ?d _) => apply (biz_fail_ctx_ok d) end.
Qed.

Lemma biz_fail_jfc_ok c : created l (biz_fail_jfc rc c (BLib (UJfc (bz_jfc c)) :: BLib (UJfce (bz_jfce c)) :: BLib (UCtx (bz_ctx c)) :: BLib UInit :: l)).
Proof.
  unfold biz_fail_jfc. rewrite led_bind_eq, lose_here. cbn beta iota.
  match goal with |- created _ (_ _ ?d _) => apply (biz_fail_jfce_ok d) end.
Qed.

Lemma biz_fail_jfr_ok c : created l (biz_fail_jfr rc c (BLib (UJfr (bz_jfr c)) :: BLib (UJfc (bz_jfc c)) :: BLib (UJfce (bz_jfce c)) :: BLib (UCtx (bz_ctx c)) :: BLib UInit :: l)).
Proof.
  unfold biz_fail_jfr. rewrite led_bind_eq, lose_here. cbn beta iota.
  match goal with |- created _ (_ _ ?d _) => apply (biz_fail_jfc_ok d) end.
Qed.

Lemma biz_fail_jetty_ok c : created l (biz_fail_jetty rc c (BLib (UJetty (bz_jetty c)) :: BLib (UJfr (bz_jfr c)) :: BLib (UJfc (bz_jfc c)) :: BLib (UJfce (bz_jfce c)) :: BLib (UCtx (bz_ctx c)) :: BLib UInit :: l)).
Proof.
  unfold biz_fail_jetty. rewrite led_bind_eq, lose_here. cbn beta iota.
  match goal with |- created _ (_ _ ?d _) => apply (biz_fail_jfr_ok d) end.
Qed.

Lemma biz_fail_buf_ok c : created l (biz_fail_buf rc c (BBuf (bz_buf c) :: BLib (UJetty (bz_jetty c)) :: BLib (UJfr (bz_jfr c)) :: BLib (UJfc (bz_jfc c)) :: BLib (UJfce (bz_jfce c)) :: BLib (UCtx (bz_ctx c)) :: BLib UInit :: l)).
Proof.
  unfold biz_fail_buf. rewrite led_bind_eq, lose_here. cbn beta iota.
  match goal with |- created _ (_ _ ?d _) => apply (biz_fail_jetty_ok d) end.
Qed.

End Labels.

Lemma biz_objects_ok lib dev depth idx l :
  blib_ok lib -> created l (biz_objects lib dev depth idx (BLib UInit :: l)).
Proof.
  intros Hm. unfold blib_ok in Hm. unfold biz_objects. cbv zeta.
  generalize (bl_create_context lib dev idx). intros ctx.
  destruct (Z.eqb_spec ctx 0) as [_|E1]; [apply biz_fail_uninit_ok, EIO_neg|]. lgain.
  generalize (bl_create_jfce lib ctx). intros jfce.
  destruct (Z.eqb_spec jfce 0) as [_|E2]; [apply (biz_fail_ctx_ok _ EIO_neg l)|]. lgain.
  generalize (bl_create_jfc lib ctx depth jfce). intros jfc.
  destruct (Z.eqb_spec jfc 0) as [_|E3]; [apply (biz_fail_jfce_ok _ EIO_neg l)|]. lgain.
  generalize (bl_create_jfr lib ctx depth jfc BUSINESS_TOKEN_VALUE). intros jfr.
  destruct (Z.eqb_spec jfr 0) as [_|E4]; [apply (biz_fail_jfc_ok _ EIO_neg l)|]. lgain.
  generalize (bl_create_jetty lib ctx depth jfc jfr). intros jetty.
  destruct (Z.eqb_spec jetty 0) as [_|E5]; [apply (biz_fail_jfr_ok _ EIO_neg l)|]. lgain.
  destruct (bl_memalign lib BUSINESS_MEM_SIZE) as [buf|e];
    [|apply (biz_fail_jetty_ok (- e) ltac:(lia) l)]. lgain.
  generalize (bl_register_seg lib ctx buf BUSINESS_MEM_SIZE BUSINESS_TOKEN_VALUE). intros seg.
  destruct (Z.eqb_spec seg 0) as [_|E6]; [apply (biz_fail_buf_ok _ EIO_neg l)|]. lgain.
  eexists 0, _, _. split; [reflexivity|]. left. repeat split; auto.
Qed.

(** The whole creation: everything, or an error and what [biz_left] names. *)
Lemma create_business_ok lib dev_name l :
  blib_ok lib ->
  exists rc c l', create_business_urma lib dev_name l = Some ((rc, c), l') /\
    ((rc = 0 /\ biz_complete c /\ l' = biz_held c ++ l /\ biz_left lib dev_name = []) \/
     (rc <> 0 /\ l' = biz_left lib dev_name ++ l)).
Proof.
  intros Hl. unfold create_business_urma, select_business_eid_index, biz_left.
  destruct (bl_init_ok lib); cbn [negb orb]; lstep; [|eexists _, _, _; split; [reflexivity|auto using EIO_neg]].
  generalize (bl_device lib dev_name). intros dev.
  destruct (dev =? 0); unfold biz_fail_uninit; lstep;
    [eexists _, _, _; split; [reflexivity|]; right; split; [discriminate|reflexivity]|].
  destruct (bl_query lib dev) as [max|]; lstep;
    [|eexists _, _, _; split; [reflexivity|]; right; split; [discriminate|reflexivity]].
  destruct (bl_eid_list lib dev) as [p entries].
  destruct (Z.eqb_spec p 0) as [_|Hp]; lstep.
  { cbn [Z.eqb negb]. lstep. eexists _, _, _. split; [reflexivity|]. right.
    split; [discriminate|destruct entries; reflexivity]. }
  destruct entries as [|idx entries]; lstep; cbn [Z.eqb negb].
  - change (negb (- ENODEV =? 0)) with true. cbv iota. lstep.
    change (BLib (UEids p) :: BLib UInit :: l) with ([BLib (UEids p)] ++ BLib UInit :: l).
    rewrite lose_under by set_solver. eexists _, _, _. split; [reflexivity|]. right.
    split; [discriminate|reflexivity].
  - destruct (biz_objects_ok lib dev (biz_depth max) idx l Hl)
      as (rc & c & l' & E & [(-> & Hc & ->)|[Hrc ->]]); rewrite E; eexists _, _, _;
      (split; [reflexivity|]); auto.
Qed.

Lemma drop_here p r l : p <> 0 -> drop_if p r (r :: l) = Some (tt, l).
Proof. intros Hp. unfold drop_if. apply Z.eqb_neq in Hp. rewrite Hp. apply lose_here. Qed.

(** Something else, the memory, lies on top. *)
Lemma drop_below p x r l : p <> 0 -> x <> r -> drop_if p r (x :: r :: l) = Some (tt, x :: l).
Proof.
  intros Hp Hx. unfold drop_if, lose. apply Z.eqb_neq in Hp. rewrite Hp.
  rewrite (remove_one_under r [x] l); [reflexivity|]. rewrite list_elem_of_singleton. congruence.
Qed.

Lemma destroy_business_ok c l :
  biz_complete c -> destroy_business_urma c (biz_held c ++ l) = Some (tt, l).
Proof.
  intros (H1 & H2 & H3 & H4 & H5 & H6 & H7). unfold destroy_business_urma, biz_held. cbn [app].
  rewrite led_bind_eq, drop_here by auto.
  do 4 (cbn beta iota; rewrite led_bind_eq, drop_below by (auto; discriminate)).
  do 2 (cbn beta iota; rewrite led_bind_eq, drop_here by auto).
  cbn beta iota. apply lose_here.
Qed.

(** ** Lemmas: the session *)

Section AnyDaemon.
Context (links : nat -> conn_env * sock) (path : list Z) (fds : gset Z).
Context (Hlinks : forall k, conn_env_ok (fst (links k)) fds /\ sched_ok (sk_rd (snd (links k))) /\
  errnos_ok (sk_wr (snd (links k)))).

(** Any call ends with its descriptor closed. *)
Lemma after_any k op payload len id :
  exists rc o, after (ramdisk_ctrl_transact (fst (links k)) (Some path) op payload len None id
                        (snd (links k)) fds) = Some (rc, o, fds).
Proof.
  destruct (Hlinks k) as (He & Hr & Hw).
  destruct (client_transact_any (fst (links k)) (Some path) op payload len None id (snd (links k)) fds
    He Hr Hw ltac:(cbn; lia)) as (r & t & -> & Hf & _).
  cbn. rewrite Hf. eauto.
Qed.

Lemma status_any k : exists rc o, print_status links path k fds = Some (rc, o, fds).
Proof.
  destruct (Hlinks k) as (He & Hr & Hw). unfold print_status, ramdisk_ctrl_query_status. cbn [negb].
  destruct (client_transact_any (fst (links k)) (Some path) RAMDISK_CTRL_QUERY_STATUS None 0
    (Some status_size) 1 (snd (links k)) fds He Hr Hw ltac:(vm_compute; congruence))
    as (r & t & -> & Hf & _).
  cbn [mbind option_bind]. rewrite Hf. eauto.
Qed.

Lemma session_any peer pid :
  exists rc sent, biz_session links path peer pid fds = Some (rc, sent, fds) /\ (length sent <= 6)%nat.
Proof.
  unfold biz_session. destruct (status_any 0) as (r0 & o0 & ->). cbn [mbind option_bind].
  case_if; [eexists _, _; split; [reflexivity|cbn; lia]|].
  unfold ramdisk_ctrl_enable_urma. destruct (after_any 1 RAMDISK_CTRL_URMA_ENABLE None 0 1)
    as (r1 & o1 & ->). cbn [mbind option_bind].
  case_if; [eexists _, _; split; [reflexivity|cbn; lia]|].
  unfold ramdisk_ctrl_peer_connect.
  match goal with |- context [after (ramdisk_ctrl_transact _ _ ?op ?p ?n _ ?id _ _)] =>
    destruct (after_any 2 op p n id) as (r2 & o2 & ->) end. cbn [mbind option_bind].
  case_if; [eexists _, _; split; [reflexivity|cbn; lia]|]. unfold ramdisk_ctrl_urma_transfer.
  match goal with |- context [after (ramdisk_ctrl_transact (fst (links 3)) _ ?op ?p ?n _ ?id _ _)] =>
    destruct (after_any 3 op p n id) as (r3 & o3 & ->) end. cbn [mbind option_bind].
  case_if; [eexists _, _; split; [reflexivity|cbn; lia]|].
  match goal with |- context [after (ramdisk_ctrl_transact _ _ ?op ?p ?n _ ?id _ _)] =>
    destruct (after_any 4 op p n id) as (r4 & o4 & ->) end. cbn [mbind option_bind].
  case_if; [eexists _, _; split; [reflexivity|cbn; lia]|].
  destruct (status_any 5) as (r5 & o5 & ->). cbn [mbind option_bind].
  eexists _, _. split; [reflexivity|cbn; lia].
Qed.

End AnyDaemon.

(** ** Reference: the script of requests *)

(** A request: opcode, payload, identifier, whether its answer carries data, and
    the codes with which the program goes on. *)
Record step : Type := mk_step {
  st_op : Z;
  st_payload : list Z;
  st_id : Z;
  st_accepts : list Z
}.

Definition step_bytes (x : step) : list Z := request_bytes (st_op x) (st_payload x) (st_id x).

Definition script (peer : ramdisk_ctrl_peer_connect_info) (pid : Z) : list step :=
  let xfer seq dir := mk_transfer (ci_peer_id peer) (pid * 2 ^ 32 + seq) 0 (ci_seg_va peer) 4096 dir in
  let transfer seq dir := mk_step RAMDISK_CTRL_URMA_TRANSFER (transfer_to_bytes (xfer seq dir))
                            (pid * 2 ^ 32 + seq) [0] in
  [mk_step RAMDISK_CTRL_QUERY_STATUS [] 1 [0];
   mk_step RAMDISK_CTRL_URMA_ENABLE [] 1 [0];
   mk_step RAMDISK_CTRL_PEER_CONNECT (peer_info_to_bytes peer) 1 [0; - EEXIST];
   transfer 1001 RAMDISK_TO_HBM;
   transfer 1002 HBM_TO_RAMDISK;
   mk_step RAMDISK_CTRL_QUERY_STATUS [] 1 [0]].

(** The requests up to the first code that is not accepted, and that code. *)
Fixpoint run_script (answers : list Z) (steps : list step) : Z * list (list Z) :=
  match steps, answers with
  | x :: steps', rc :: answers' =>
      if bool_decide (rc ∈ st_accepts x)
      then let '(r, sent) := run_script answers' steps' in (r, step_bytes x :: sent)
      else (rc, [step_bytes x])
  | _, _ => (0, [])
  end.

(** A daemon that answers a request with [rc] and [data]. *)
Definition answers_with (link : conn_env * sock) (fds : gset Z) (x : step) (rc : Z) (data : list Z)
    : Prop :=
  (exists fd, conn_ok (fst link) fd fds) /\ sock_quiet (snd link) /\ sk_out (snd link) = [] /\
  sk_in (snd link)
  = resp_to_bytes (resp_for (request_hdr (st_op x) (zlength (st_payload x)) (st_id x)) rc data) ++ data /\
  - 2 ^ 31 <= rc < 2 ^ 31.

(** Requests as the client library can send them. *)
Definition step_ok (x : step) : Prop :=
  is_u16 (st_op x) /\ is_u64 (st_id x) /\ zlength (st_payload x) <= RAMDISK_CTRL_MAX_PAYLOAD.

Section Script.
Context (links : nat -> conn_env * sock) (path : list Z) (fds : gset Z).

Lemma call_ok k x rc :
  step_ok x -> answers_with (links k) fds x rc [] ->
  after (ramdisk_ctrl_transact (fst (links k)) (Some path) (st_op x) (Some (st_payload x))
           (zlength (st_payload x)) None (st_id x) (snd (links k)) fds)
  = Some (rc, step_bytes x, fds).
Proof.
  intros (H1 & H2 & H3) ((fd & Hc) & Hq & Ho & Hi & Hr).
  destruct (transact_op (fst (links k)) path (st_op x) (st_payload x) (st_id x) None (snd (links k)) fds
    fd rc [] [] Hc Hq H1 H2 H3 Hr ltac:(vm_compute; reflexivity) (or_introl eq_refl))
    as (c' & -> & Ho'); [rewrite app_nil_r; exact Hi|].
  cbn. rewrite Ho', Ho. reflexivity.
Qed.

Lemma status_ok k rc data :
  let x := mk_step RAMDISK_CTRL_QUERY_STATUS [] 1 [0] in
  answers_with (links k) fds x rc data -> zlength data <= status_size ->
  print_status links path k fds = Some (rc, step_bytes x, fds).
Proof.
  intros x ((fd & Hc) & Hq & Ho & Hi & Hr) Hd. unfold print_status, ramdisk_ctrl_query_status.
  cbn [negb]. unfold status_size in Hd.
  destruct (transact_op (fst (links k)) path RAMDISK_CTRL_QUERY_STATUS [] 1 (Some status_size)
    (snd (links k)) fds fd rc data [] Hc Hq ltac:(vm_compute; split; congruence)
    ltac:(vm_compute; split; congruence) ltac:(vm_compute; congruence) Hr ltac:(lia))
    as (c' & E & Ho').
  - right. exists status_size. split; [reflexivity|unfold status_size; lia].
  - rewrite app_nil_r. exact Hi.
  - change (ramdisk_ctrl_transact (fst (links k)) (Some path) RAMDISK_CTRL_QUERY_STATUS None 0
      (Some status_size) 1 (snd (links k)) fds) with (ramdisk_ctrl_transact (fst (links k)) (Some path)
      RAMDISK_CTRL_QUERY_STATUS (Some []) (zlength (@nil Z)) (Some status_size) 1 (snd (links k)) fds).
    rewrite E. cbn [mbind option_bind tr_rc tr_sock tr_fds]. rewrite Ho', Ho. reflexivity.
Qed.

End Script.

(** Two halves of a 64-bit number. *)
Lemma halves a b : 0 <= a < 2 ^ 32 -> 0 <= b < 2 ^ 32 ->
  Z.lor (u64 (Z.shiftl a 32)) b = a * 2 ^ 32 + b.
Proof.
  intros Ha Hb. rewrite Z.shiftl_mul_pow2 by lia.
  unfold u64, wrap. rewrite Z.mod_small by lia.
  assert (Hl : Z.land (a * 2 ^ 32) b = 0).
  { replace b with (Z.land (Z.ones 32) b).
    - rewrite Z.land_assoc, Z.land_ones, Z.mod_mul by lia. apply Z.land_0_l.
    - rewrite Z.land_comm, Z.land_ones by lia. apply Z.mod_small; lia. }
  pose proof (Z.add_lor_land (a * 2 ^ 32) b). lia.
Qed.

Lemma request_id_eq pid seq : is_u32 pid -> is_u32 seq -> request_id pid seq = pid * 2 ^ 32 + seq.
Proof.
  intros Hp Hs. unfold request_id, u32, wrap. rewrite (Z.mod_small pid) by exact Hp.
  apply halves; auto.
Qed.

(** The fields of the library's objects have their C types. *)
Record blib_typed (lib : biz_lib) : Prop := mk_blib_typed {
  bt_jetty : forall j, is_u32 (bl_jetty_id lib j);
  bt_uasid : forall c, is_u32 (bl_uasid lib c);
  bt_eid : forall s, length (us_eid (bl_seg lib s)) = 16%nat;
  bt_bytes : forall s, Forall is_u8 (us_eid (bl_seg lib s));
  bt_va : forall s, is_u64 (us_va (bl_seg lib s));
  bt_len : forall s, is_u64 (us_len (bl_seg lib s));
  bt_token : forall s, is_u32 (us_token_id (bl_seg lib s))
}.

Lemma peer_filled lib c :
  blib_typed lib -> is_u32 (bz_eid_index c) ->
  peer_info_typed (fill_peer_from_urma lib c) /\ ci_peer_id (fill_peer_from_urma lib c) <> 0.
Proof.
  intros [T1 T2 T3 T4 T5 T6 T7] Hi. unfold fill_peer_from_urma. cbv zeta.
  rewrite (halves (bz_eid_index c) (bl_jetty_id lib (bz_jetty c))) by (auto; apply T1).
  pose proof (T1 (bz_jetty c)) as Hj. unfold is_u32 in Hi, Hj.
  set (id := bz_eid_index c * 2 ^ 32 + bl_jetty_id lib (bz_jetty c)).
  assert (Hid : 0 <= id < 2 ^ 64) by lia.
  unfold peer_info_typed. cbn [ci_peer_id ci_eid ci_uasid ci_reserved0 ci_seg_va ci_seg_len
    ci_seg_token_id ci_jetty_id].
  destruct (Z.eqb_spec id 0); (split; [split_and!; auto; unfold is_u64, is_u32; lia|lia]).
Qed.

Lemma step_ok_small op payload id ok :
  0 <= op < 16 -> is_u64 id -> zlength payload <= 56 -> step_ok (mk_step op payload id ok).
Proof.
  intros Ho Hi Hp. split_and!; cbn; [unfold is_u16; lia|auto|unfold RAMDISK_CTRL_MAX_PAYLOAD; lia].
Qed.

Lemma script_typed peer pid x :
  is_u32 pid -> length (ci_eid peer) = 16%nat -> x ∈ script peer pid -> step_ok x.
Proof.
  intros Hp He Hx. revert x Hx. apply Forall_forall. unfold is_u32 in Hp.
  assert (H1 : zlength (peer_info_to_bytes peer) <= 56)
    by (unfold zlength; rewrite length_peer_info by auto; lia).
  assert (H2 : forall t, zlength (transfer_to_bytes t) <= 56)
    by (intros t; unfold zlength; rewrite length_transfer; lia).
  assert (H3 : zlength (@nil Z) <= 56) by (vm_compute; congruence).
  assert (H4 : is_u64 1) by int_lia.
  unfold script. repeat (apply Forall_cons; split); try (apply Forall_nil; exact I);
    (apply step_ok_small;
      [unfold RAMDISK_CTRL_QUERY_STATUS, RAMDISK_CTRL_URMA_ENABLE, RAMDISK_CTRL_PEER_CONNECT,
         RAMDISK_CTRL_URMA_TRANSFER; lia|unfold is_u64; lia|first [exact H3|exact H1|apply H2]]).
Qed.

Lemma run_cons rc answers x steps :
  run_script (rc :: answers) (x :: steps)
  = if bool_decide (rc ∈ st_accepts x)
    then (fst (run_script answers steps), step_bytes x :: snd (run_script answers steps))
    else (rc, [step_bytes x]).
Proof. cbn [run_script]. destruct (run_script answers steps). reflexivity. Qed.

Lemma accept_zero rc : bool_decide (rc ∈ [0]) = (rc =? 0).
Proof.
  destruct (Z.eqb_spec rc 0) as [->|Hn]; [apply bool_decide_true; left|].
  apply bool_decide_false. rewrite list_elem_of_singleton. auto.
Qed.

Lemma accept_exists rc : bool_decide (rc ∈ [0; - EEXIST]) = (rc =? 0) || (rc =? - EEXIST).
Proof.
  destruct (Z.eqb_spec rc 0) as [->|Hn]; [apply bool_decide_true; left|].
  destruct (Z.eqb_spec rc (- EEXIST)) as [->|Hn2]; [apply bool_decide_true; right; left|].
  apply bool_decide_false. rewrite elem_of_cons, list_elem_of_singleton. tauto.
Qed.

Section Follows.
Context (links : nat -> conn_env * sock) (path : list Z) (fds : gset Z).
Context (peer : ramdisk_ctrl_peer_connect_info) (pid : Z) (answers : list Z) (data : nat -> list Z).
Context (Hpid : is_u32 pid) (Heid : length (ci_eid peer) = 16%nat) (Hlen : length answers = 6%nat).
Context (Hans : forall k x rc, script peer pid !! k = Some x -> answers !! k = Some rc ->
  answers_with (links k) fds x rc (data k)).
Context (Hdata : forall k, zlength (data k) <= (if (k =? 0)%nat || (k =? 5)%nat then status_size else 0)).

Lemma call_at k x rc :
  script peer pid !! k = Some x -> answers !! k = Some rc -> k <> 0%nat -> k <> 5%nat ->
  after (ramdisk_ctrl_transact (fst (links k)) (Some path) (st_op x) (Some (st_payload x))
           (zlength (st_payload x)) None (st_id x) (snd (links k)) fds)
  = Some (rc, step_bytes x, fds).
Proof.
  intros Hx Hr H0 H5. apply call_ok.
  - apply (script_typed peer pid); auto. eapply list_elem_of_lookup_2; eauto.
  - pose proof (Hans k x rc Hx Hr) as Ha. pose proof (Hdata k) as Hd.
    apply Nat.eqb_neq in H0, H5. rewrite H0, H5 in Hd. cbn [orb] in Hd.
    destruct (data k); [exact Ha|unfold zlength in Hd; cbn in Hd; lia].
Qed.

(** The wrappers at their places in the script. *)
Lemma enable_at rc : answers !! 1%nat = Some rc ->
  after (ramdisk_ctrl_enable_urma (fst (links 1)) (Some path) (snd (links 1)) fds)
  = Some (rc, step_bytes (mk_step RAMDISK_CTRL_URMA_ENABLE [] 1 [0]), fds).
Proof. intros Hr. exact (call_at 1 _ rc eq_refl Hr ltac:(lia) ltac:(lia)). Qed.

Lemma connect_at rc : answers !! 2%nat = Some rc ->
  after (ramdisk_ctrl_peer_connect (fst (links 2)) (Some path) (Some peer) (snd (links 2)) fds)
  = Some (rc, step_bytes (mk_step RAMDISK_CTRL_PEER_CONNECT (peer_info_to_bytes peer) 1 [0; - EEXIST]), fds).
Proof.
  intros Hr. pose proof (call_at 2 _ rc eq_refl Hr ltac:(lia) ltac:(lia)) as E.
  cbn [st_op st_payload st_id] in E. unfold zlength in E. rewrite length_peer_info in E by auto. exact E.
Qed.

Lemma transfer_at k rc t id :
  script peer pid !! k = Some (mk_step RAMDISK_CTRL_URMA_TRANSFER (transfer_to_bytes t) id [0]) ->
  answers !! k = Some rc -> ct_request_id t = id -> k <> 0%nat -> k <> 5%nat ->
  after (ramdisk_ctrl_urma_transfer (fst (links k)) (Some path) (Some t) (snd (links k)) fds)
  = Some (rc, step_bytes (mk_step RAMDISK_CTRL_URMA_TRANSFER (transfer_to_bytes t) id [0]), fds).
Proof.
  intros Hx Hr <- H0 H5. pose proof (call_at k _ rc Hx Hr H0 H5) as E.
  cbn [st_op st_payload st_id] in E. unfold zlength in E. rewrite length_transfer in E. exact E.
Qed.

Lemma session_script :
  biz_session links path peer pid fds
  = Some (fst (run_script answers (script peer pid)), snd (run_script answers (script peer pid)), fds).
Proof.
  assert (Ha : exists a0 a1 a2 a3 a4 a5, answers = [a0; a1; a2; a3; a4; a5]).
  { clear Hans. destruct answers as [|a0 [|a1 [|a2 [|a3 [|a4 [|a5 [|]]]]]]]; try discriminate Hlen.
    eauto 8. }
  destruct Ha as (a0 & a1 & a2 & a3 & a4 & a5 & Ea).
  assert (Hk : forall k, answers !! k = [a0; a1; a2; a3; a4; a5] !! k) by (intros; rewrite Ea; auto).
  pose proof (status_ok links path fds 0 a0 (data 0%nat) (Hans 0%nat _ _ eq_refl (Hk 0%nat)) (Hdata 0%nat)) as E0.
  pose proof (enable_at a1 (Hk 1%nat)) as E1. pose proof (connect_at a2 (Hk 2%nat)) as E2.
  pose proof (transfer_at 3 a3 _ _ eq_refl (Hk 3%nat) eq_refl ltac:(lia) ltac:(lia)) as E3.
  pose proof (transfer_at 4 a4 _ _ eq_refl (Hk 4%nat) eq_refl ltac:(lia) ltac:(lia)) as E4.
  pose proof (status_ok links path fds 5 a5 (data 5%nat) (Hans 5%nat _ _ eq_refl (Hk 5%nat)) (Hdata 5%nat)) as E5.
  rewrite Ea. unfold biz_session, script, DEFAULT_TRANSFER_LEN. cbv zeta.
  rewrite !request_id_eq by (auto; unfold is_u32; lia).
  rewrite E0. cbn [mbind option_bind]. rewrite (run_cons a0). cbn [st_accepts]. rewrite accept_zero.
  destruct (a0 =? 0); cbn [negb fst snd]; [|reflexivity].
  rewrite E1. cbn [mbind option_bind]. rewrite (run_cons a1). cbn [st_accepts]. rewrite accept_zero.
  destruct (a1 =? 0); cbn [negb fst snd]; [|reflexivity].
  rewrite E2. cbn [mbind option_bind]. rewrite (run_cons a2). cbn [st_accepts]. rewrite accept_exists.
  destruct (a2 =? 0), (a2 =? - EEXIST); cbn [negb andb orb fst snd]; try reflexivity;
    (rewrite E3; cbn [mbind option_bind]; rewrite (run_cons a3); cbn [st_accepts]; rewrite accept_zero;
     destruct (a3 =? 0); cbn [negb fst snd]; [|reflexivity];
     rewrite E4; cbn [mbind option_bind]; rewrite (run_cons a4); cbn [st_accepts]; rewrite accept_zero;
     destruct (a4 =? 0); cbn [negb fst snd]; [|reflexivity];
     rewrite E5; cbn [mbind option_bind]; rewrite (run_cons a5); cbn [st_accepts]; rewrite accept_zero;
     destruct (Z.eqb_spec a5 0) as [->|]; reflexivity).
Qed.

End Follows.

(** ** Properties *)

(** What a run leaves of the library's objects. *)
Definition biz_lost (lib : biz_lib) (argc : Z) (urma_dev : option (list Z)) : list bres :=
  if argc =? 1
  then biz_left lib (match urma_dev with Some (c :: n) => c :: n | _ => DEFAULT_URMA_DEV end)
  else [].

(** C33.  The client gives everything back but, in one case, a list of endpoints.
    Whatever calls of the library and of the allocator fail, and whatever the
    daemon answers and the sockets do, the program ends with status 0, 1 or 2, has
    closed every descriptor, deleted and freed exactly what it had created except
    for [biz_lost], and used at most six connections; with an argument it does
    nothing at all.  [biz_lost] is nothing, unless the library returns, for the
    device in use, a list of endpoints that is not [NULL] and has no entry: that
    list is never freed and the status is 1.  posix_memalign returns memory that is
    not at 0 or a positive error, and connections use new descriptors. *)
Theorem business_client_balanced links path lib argc urma_dev pid fds l :
  blib_ok lib ->
  (forall k, conn_env_ok (fst (links k)) fds /\ sched_ok (sk_rd (snd (links k))) /\
             errnos_ok (sk_wr (snd (links k)))) ->
  exists status sent,
    business_main links path lib argc urma_dev pid fds l
    = Some ((status, sent, fds), biz_lost lib argc urma_dev ++ l) /\
    (status = 0 \/ status = 1 \/ status = 2) /\ (length sent <= 6)%nat /\
    (argc <> 1 -> status = 2 /\ sent = []) /\
    (biz_lost lib argc urma_dev = [] \/
     status = 1 /\ exists dev p, p <> 0 /\ bl_eid_list lib dev = (p, []) /\
       biz_lost lib argc urma_dev = [BLib (UEids p)]).
Proof.
  intros Hl Hlinks. unfold business_main, biz_lost.
  destruct (Z.eqb_spec argc 1) as [Ha|Ha]; cbn [negb].
  2: { exists 2, []. split; [reflexivity|]. cbn [length]. split_and!; auto; lia. }
  set (dev := match urma_dev with Some (c :: n) => c :: n | _ => DEFAULT_URMA_DEV end).
  destruct (create_business_ok lib dev l Hl) as (rc & c & l' & E & [(-> & Hc & -> & Hlost)|[Hrc ->]]).
  - rewrite E, Hlost. cbn [Z.eqb negb app].
    destruct (session_any links path fds Hlinks (fill_peer_from_urma lib c) pid) as (r & sent & Es & Hn).
    rewrite Es. cbn [mbind option_bind]. rewrite destroy_business_ok by auto.
    exists (if r =? 0 then 0 else 1), sent. split; [reflexivity|].
    split; [destruct (r =? 0); auto|]. split; [auto|]. split; [intros; contradiction|auto].
  - rewrite E. apply Z.eqb_neq in Hrc. rewrite Hrc. cbn [negb].
    exists 1, []. split; [reflexivity|]. cbn [length]. split_and!; auto; [lia|intros; contradiction|].
    unfold biz_left. destruct (negb _ || _); [auto|]. destruct (bl_query _ _); [|auto].
    destruct (bl_eid_list lib (bl_device lib dev)) as [p [|]] eqn:El; [|auto].
    destruct (Z.eqb_spec p 0); [auto|]. right. split; [auto|]. eauto.
Qed.

(** C32.  What the client asks of the daemon.  With its endpoint created, the
    program sends exactly the requests of the script (status, enable, connect,
    transfer to the peer, transfer from it, status) up to the first answer that
    is an error, going on when the peer exists already, and its exit status is 0
    exactly when the script ends without one.  The peer it registers has a
    non-zero identifier and the fields of its own segment and jetty, and the
    daemon decodes it as it was sent. *)
Theorem business_client_script links path lib urma_dev pid fds l c l' answers data :
  let dev := match urma_dev with Some (x :: n) => x :: n | _ => DEFAULT_URMA_DEV end in
  let peer := fill_peer_from_urma lib c in
  blib_ok lib -> blib_typed lib -> is_u32 pid ->
  create_business_urma lib dev l = Some ((0, c), l') -> is_u32 (bz_eid_index c) ->
  length answers = 6%nat ->
  (forall k x rc, script peer pid !! k = Some x -> answers !! k = Some rc ->
     answers_with (links k) fds x rc (data k)) ->
  (forall k, zlength (data k) <= (if (k =? 0)%nat || (k =? 5)%nat then status_size else 0)) ->
  let '(rc, sent) := run_script answers (script peer pid) in
  business_main links path lib 1 urma_dev pid fds l = Some ((if rc =? 0 then 0 else 1, sent, fds), l) /\
  ci_peer_id peer <> 0 /\ peer_info_of_bytes (peer_info_to_bytes peer) = peer.
Proof.
  intros dev peer Hl Ht Hp E Hi Hn Hans Hd.
  destruct (peer_filled lib c Ht Hi) as [Hty Hnz]. fold peer in Hty, Hnz.
  pose proof Hty as (_ & He & _).
  pose proof (session_script links path fds peer pid answers data Hp He Hn Hans Hd) as Es.
  destruct (run_script answers (script peer pid)) as [rc sent]. cbn [fst snd] in Es.
  split; [|split; [auto|]].
  - unfold business_main. cbn [Z.eqb negb Pos.eqb]. fold dev. rewrite E. cbn [Z.eqb negb].
    fold peer. rewrite Es. cbn [mbind option_bind].
    destruct (create_business_ok lib dev l Hl) as (rc' & c' & l2 & E' & Hc').
    rewrite E in E'. injection E' as <- <- <-. destruct Hc' as [(_ & Hc & -> & _)|[Hc _]]; [|congruence].
    rewrite destroy_business_ok by auto. reflexivity.
  - pose proof (peer_info_roundtrip peer [] Hty) as Hr. rewrite app_nil_r in Hr. exact Hr.
Qed.

(** A library where everything works, one whose registration fails, and a daemon
    that knows the peer already. *)
Definition ex_blib (seg : Z) : biz_lib :=
  mk_blib true (fun _ => 21) (fun _ => Some 32) (fun _ => (22, [3; 4])) (fun _ _ => 23) (fun _ => 24)
    (fun _ _ _ => 25) (fun _ _ _ _ => 26) (fun _ _ _ _ => 27) (fun _ => inl 4096) (fun _ _ _ _ => seg)
    (fun _ => 9) (fun _ => 1) (fun _ => mk_useg (replicate 16 17) 1 1048576 1048576 11).

Lemma ex_blib_ok seg : blib_ok (ex_blib seg).
Proof. cbn. lia. Qed.

Lemma ex_blib_typed seg : blib_typed (ex_blib seg).
Proof.
  split; intros; cbn; try reflexivity; try (unfold is_u32; lia); try (unfold is_u64; lia).
  repeat constructor; lia.
Qed.

Definition ex_biz : business_urma_ctx := mk_biz 4096 23 24 25 26 27 28 BUSINESS_TOKEN_VALUE 3.

Definition ex_answers : list Z := [0; 0; - EEXIST; 0; - EINVAL; 0].

Definition ex_links (k : nat) : conn_env * sock :=
  match script (fill_peer_from_urma (ex_blib 28) ex_biz) 77 !! k, ex_answers !! k with
  | Some x, Some rc =>
      (ex_conn, mk_sock (resp_to_bytes (resp_for (request_hdr (st_op x) (zlength (st_payload x))
                                          (st_id x)) rc []) ++ []) [] [] [])
  | _, _ => (ex_conn, mk_sock [] [] [] [])
  end.

Lemma ex_conn_env_ok : conn_env_ok ex_conn {[3]}.
Proof. split_and!; cbn; [|discriminate|intros; lia]. intros fd [= <-]. split; [set_solver|lia]. Qed.

Lemma business_client_balanced_witness :
  exists status sent, business_main (fun _ => (ex_conn, mk_sock [] [] [] [])) DEFAULT_CONTROL_SOCK
    (ex_blib 0) 1 None 77 {[3]} [] = Some ((status, sent, {[3]}), []).
Proof.
  destruct (business_client_balanced (fun _ => (ex_conn, mk_sock [] [] [] [])) DEFAULT_CONTROL_SOCK
    (ex_blib 0) 1 None 77 {[3]} [] (ex_blib_ok 0)) as (status & sent & E & _).
  - intros k. split; [exact ex_conn_env_ok|]. split; constructor.
  - exists status, sent. exact E.
Defined.

Lemma ex_links_answer k x rc :
  script (fill_peer_from_urma (ex_blib 28) ex_biz) 77 !! k = Some x -> ex_answers !! k = Some rc ->
  answers_with (ex_links k) {[3]} x rc [].
Proof.
  intros Hx Hr. unfold ex_links. rewrite Hx, Hr. split; [exists 5; exact ex_conn_ok|].
  split; [split; constructor|]. split; [reflexivity|]. split; [reflexivity|].
  apply list_elem_of_lookup_2 in Hr. revert rc Hr. apply Forall_forall.
  repeat constructor; vm_compute; congruence.
Qed.

Lemma business_client_script_witness :
  exists sent, business_main ex_links DEFAULT_CONTROL_SOCK (ex_blib 28) 1 None 77 {[3]} []
    = Some ((1, sent, {[3]}), []) /\ length sent = 5%nat.
Proof.
  pose proof (business_client_script ex_links DEFAULT_CONTROL_SOCK (ex_blib 28) None 77 {[3]} [] ex_biz
    (biz_held ex_biz) ex_answers (fun _ => []) (ex_blib_ok 28) (ex_blib_typed 28)) as H.
  assert (Hp : is_u32 77) by (unfold is_u32; lia).
  assert (Hi : is_u32 (bz_eid_index ex_biz)) by (cbn; unfold is_u32; lia).
  specialize (H Hp eq_refl Hi eq_refl ex_links_answer).
  assert (Hd : forall k : nat, zlength (@nil Z) <= (if (k =? 0)%nat || (k =? 5)%nat then status_size else 0))
    by (intros k; destruct (_ || _); vm_compute; congruence).
  specialize (H Hd).
  destruct (run_script ex_answers (script (fill_peer_from_urma (ex_blib 28) ex_biz) 77)) as [rc sent] eqn:E.
  assert (Hrc : rc = - EINVAL /\ length sent = 5%nat) by (vm_compute in E; injection E as <- <-; auto).
  destruct Hrc as [-> Hl]. exists sent. split; [exact (proj1 H)|exact Hl].
Defined.
